(* ===== verification/_CoqProject ===== *)
-Q . S2P
Prelude.v
BitVector.v
Allocation.v
BlockIo.v
Format.v
Metadata.v
MapBlocks.v
SuperBlock.v
Creation.v
Galois.v
GfShare.v
CauchyGf.v
CauchyMem.v
CauchyMatrix.v
CauchyRs.v
CauchyLdu.v
CauchyElim.v
CauchyDecode.v
CauchyUninit.v
ReedSolomon.v
ReedDecoder.v
ReedErasures.v
Speck.v
Sha3.v
Aont.v
City.v
EngineQueue.v
Engine.v
EngineMap.v
EngineData.v
Target.v
EngineRun.v
Volume.v
VolumeRequests.v
Requests.v
Interference.v
Crypto.v
Entropy.v
Fat32.v
Ntfs.v
NtfsDetect.v
Ext4.v
Args.v
Ctr.v
Lifecycle.v
