(* ===== verification/Prelude.v ===== *)
(** * A verification development for Artifice (dm_afs)

    Artifice is a Linux device-mapper target that hides a block device in the
    free space of another file system. A virtual block of 4096 bytes is encoded
    into several carrier blocks (erasure coding or an all-or-nothing transform
    over it), the carriers are scattered over free blocks of the passive
    volume, and a map that is found again from a passphrase says where they
    are. File names below are relative to src/ of the repository.

    ** Parts of the program and the files that model them

    - _Memory and devices_. Prelude: machine integers ([wrap], [in_range]),
      the result type [res] ([Ok], [Fault] for undefined behaviour such as an
      access out of bounds, a null dereference, a division by zero;
      [OutOfFuel] for a loop that has not ended), loops, buffers,
      little-endian numbers. BitVector: src/lib/bit_vector.c, whose operations
      access the array by 8-byte words of the pages [vmalloc] maps. BlockIo:
      src/dm_afs_io.c over a device of sectors whose transfers can fail; a
      buffer has a place ([buffer_place]) that says whether its page is found
      with [used_vmalloc] set or not.
      Allocation: src/dm_afs_allocation.c over the interface [BitVectorOps].
    - _Detection of the passive file system_ (src/modules/). Fat32:
      dm_afs_fat32.c. Ntfs: dm_afs_ntfs.c, with its theorems in NtfsDetect.
      Ext4: dm_afs_ext4.c. Each fills the [afs_passive_fs] that the allocator
      and the metadata read.
    - _Metadata_ (src/dm_afs_metadata.c, include/dm_afs_format.h). Format: the
      packed structures and their bytes. Metadata: every operation on the super
      block, the pointer blocks and the map. MapBlocks, SuperBlock, Creation:
      theorems.
    - _Codes and ciphers_ (src/lib/). Galois: the field GF(2^8) and
      interpolation, with no code of its own. GfShare: libgfshare.c. CauchyGf,
      CauchyMem, CauchyRs: cauchy_rs.c; CauchyMatrix, CauchyLdu, CauchyElim,
      CauchyDecode prove its decoder; CauchyUninit is the code with the tables
      as the module leaves them. ReedSolomon, ReedDecoder: encoder and decoder of
      rs.c, the code it replaced; ReedErasures: what that code can restore. Speck: speck.c. Sha3: sha3.c. Aont: aont.c.
      City: city.c. Crypto: src/dm_afs_crypto.c.
    - _Entropy files_. Entropy: src/dm_afs_entropy.c, the pool of files whose
      blocks may be coded along with the data.
    - _The engine_ (src/dm_afs_engine.c). EngineQueue: the queue of requests.
      Engine: the handlers of read, write and rebuild requests and of the
      completion of their carrier bios. EngineMap, EngineData, EngineRun:
      lemmas about them.
    - _The target_ (src/dm_afs.c). Target: [afs_map], [afs_rebuild] and the
      work queues as a step relation whose steps are started work items and
      completed bios; a handler that faults or runs out of fuel is a step to
      a state in which the system has stopped. Args: the parsing of the target's arguments. Ctr: the
      choice of the file system, the constructor and the destructor. Volume,
      VolumeRequests, Requests, Lifecycle: the contract of the whole;
      Interference: a request among others that do not change the instance.

    [Ctr.afs_ctr] parses the arguments, looks for a file system, makes the
    allocation vector and then writes a new super block and map, or finds the
    old ones. A bio enters through [Target.afs_map], which cuts it at the block boundary
    and queues a request; [Target.afs_flightq] hands it to
    [Engine.afs_write_request] or [Engine.afs_read_request], which use the map
    (Metadata), the coders (Aont, CauchyRs), the allocator and the device;
    completions run [Engine.afs_write_endio] and [Engine.afs_read_endio], the
    latter queueing [Target.afs_cryptoq] for the decoding. A state of an
    instance is [Metadata.afs_private] with its device; a state of the target
    is a list of tasks over one instance. [Ctr.afs_dtr] writes the map back.

    ** What the theorems show

    - Contract of a volume: [represents] (Volume) relates an instance to a
      finite map from block numbers to blocks; a write updates it, a read
      returns what it holds, for every order of completions, and a fresh map
      represents the empty volume (VolumeRequests). Requests made from any bio
      meet the preconditions (Requests).
    - Life of an instance: [live] (Lifecycle) says that an instance
      represents a volume and can be mounted again from its device. The
      constructor makes a live instance, requests keep it live, and the
      destructor followed by a mount gives an instance with the same map and
      data, so what was written is read back after a remount, also among the
      rebuild requests that the mount queues, as long as none of them has
      stopped the system (each that reaches its decoding does). These theorems are for
      instances of at most 975 * 63 blocks (240 MB), which need no pointer
      blocks: with pointer blocks the code does not read back the map.
    - Concurrency: over all interleavings a request ends its bio exactly once,
      after its last carrier bio, and every execution ends, with every request
      cleaned or at rest unless a handler has stopped the system (Target).
    - Metadata: what was created is found and mounted from the passphrase; the
      creation succeeds when the hashes and draws lead to free blocks
      (Creation); the map read back is the map written; the layouts are exact.
    - Coding: sharing, erasure code and transform have their round trips, with
      initialised tables and at least two parity blocks; the bulk operations,
      SPECK128/256 in counter mode, SHA3-256 and CRC-32 equal reference
      definitions; hashes stay in bounds. The older code makes
      codewords from which as many lost blocks as there are carriers are
      determined, but can leave the end of a block out, and its decoder never
      returns, because it counts unsigned indices down past 0.
    - Entropy: the files of a directory are listed, and an allocated block is
      read again by its name.
    - Allocation and detection: blocks handed out are distinct and free; the
      free lists are exactly the free clusters of the tables on volumes that
      the code reads right: FAT with reserved sectors of whole pages, NTFS but for
      the slack after the last cluster, which is listed where it is clear, EXT4
      with blocks of 4096 bytes and the number of groups the code computes.
    - Errors: theorems named after a defect state what the code does where
      this is not what it means to do (a lost write error, blocks 4 GiB apart
      that alias, a queue that hangs, a list shifted by two clusters, bitmaps
      that count as empty when they cannot be read, a mount that lets the
      allocator hand out the map's own blocks, and others); the manifest's findings list them.

    ** Bounds and fuel

    A loop of the source that counts is [for_] or [forM] with its number of
    turns. Other loops take fuel: [binary_search] 32 (the interval halves),
    [gen_crc32] the length, the search for the super block and [acquire_block]
    the list of random draws or hashes they consume, attribute and run lists
    of NTFS the number of bytes they lie in, the unsigned loops of the older decoder
    1024 turns (its arrays have at most 256 elements), the powers of EXT4 groups 64
    divisions (a 32-bit number has fewer factors); theorems show that this much
    is enough, or assume that a draw succeeds where only chance ends the loop.

    ** Parameters

    Functions of the kernel are parameters or arguments: the hash digests, the
    random numbers, the outcomes of bios and allocations, [kstrtou8],
    [is_power_of_2], [hweight8], the devices that [dm_get_device] finds, the rebalancing of red-black trees (a
    class with laws), the file system from which entropy is read.
    Contents of memory that is allocated and not initialised is an arbitrary
    function of its size.

    ** Not modelled

    - The copies of src/lib/rs.c under experimentation/, and its [hexDump], which
      prints. The file is not among the objects of the Makefile.
    - The AVX2 and ARM paths of cauchy_rs.c and the SSE4.2 path of city.c,
      which the build does not compile.
    - Registration of the module, the work queues' creation, release of
      memory; nested instances, which the constructor does not make yet.
    - [chain_hash_superblock], which nothing calls and whose loop has no body, and
      the body of [__clone_bio] after the return that [override] forces.
    - src/dm_afs_repair.c is empty.
    - The scripts and benchmarks, which drive the libraries from user space. *)
From stdpp Require Import base tactics option list numbers gmap.
From Stdlib Require Import ZArith Lia.

Local Open Scope Z_scope.

(** ** Machine integers

    A [w]-bit unsigned integer is a [Z] in [[0, 2^w)]; an operation of the C
    code is the operation on [Z] followed by [wrap]. *)
Definition wrap (w z : Z) : Z := z `mod` 2 ^ w.

Abbreviation u8 := (wrap 8).
Abbreviation u16 := (wrap 16).
Abbreviation u32 := (wrap 32).
Abbreviation u64 := (wrap 64).

(** [in_range w z]: [z] is a value of an unsigned [w]-bit type. *)
Definition in_range (w z : Z) : Prop := 0 <= z < 2 ^ w.

Declare Scope afs_scope.
Delimit Scope afs_scope with afs.
Notation "a +32 b" := (wrap 32 (a + b)) (at level 50, left associativity) : afs_scope.
Notation "a -32 b" := (wrap 32 (a - b)) (at level 50, left associativity) : afs_scope.
Notation "a *32 b" := (wrap 32 (a * b)) (at level 40, left associativity) : afs_scope.
Notation "a +64 b" := (wrap 64 (a + b)) (at level 50, left associativity) : afs_scope.
Notation "a -64 b" := (wrap 64 (a - b)) (at level 50, left associativity) : afs_scope.
Notation "a *64 b" := (wrap 64 (a * b)) (at level 40, left associativity) : afs_scope.
Notation "a 'xor' b" := (Z.lxor a b) (at level 45, left associativity) : afs_scope.

#[global] Instance in_range_dec w z : Decision (in_range w z).
Proof. unfold in_range. apply _. Defined.

(** ** Hint databases and tactics *)
Create HintDb afs discriminated.
Create Rewrite HintDb afs.

(** Linear arithmetic with division and modulo by constants. *)
Ltac zlia := unfold wrap, in_range in *; Z.div_mod_to_equations; lia.

(** Case analysis on the first boolean comparison of the goal. *)
Ltac zcase :=
  match goal with
  | |- context [Z.eqb ?a ?b] => destruct (Z.eqb_spec a b)
  | |- context [Z.ltb ?a ?b] => destruct (Z.ltb_spec a b)
  | |- context [Z.leb ?a ?b] => destruct (Z.leb_spec a b)
  | |- context [Z.gtb ?a ?b] => rewrite (Z.gtb_ltb a b); destruct (Z.ltb_spec b a)
  | |- context [Z.geb ?a ?b] => rewrite (Z.geb_leb a b); destruct (Z.leb_spec b a)
  end.

Lemma wrap_range w z : 0 <= w -> in_range w (wrap w z).
Proof. intros. apply Z.mod_pos_bound. apply Z.pow_pos_nonneg; lia. Qed.

Lemma wrap_id w z : in_range w z -> wrap w z = z.
Proof. intros. by apply Z.mod_small. Qed.

Lemma wrap_wrap w z : wrap w (wrap w z) = wrap w z.
Proof.
  unfold wrap. destruct (decide (2 ^ w = 0)) as [E|E].
  - rewrite E, !Z.mod_0_r. done.
  - by rewrite Z.mod_mod.
Qed.

Lemma wrap_add_l w a b : wrap w (wrap w a + b) = wrap w (a + b).
Proof. unfold wrap. by rewrite Zplus_mod_idemp_l. Qed.

Lemma wrap_add_r w a b : wrap w (a + wrap w b) = wrap w (a + b).
Proof. unfold wrap. by rewrite Zplus_mod_idemp_r. Qed.

Lemma wrap_sub_l w a b : wrap w (wrap w a - b) = wrap w (a - b).
Proof. unfold wrap. by rewrite Zminus_mod_idemp_l. Qed.

Lemma wrap_sub_r w a b : wrap w (a - wrap w b) = wrap w (a - b).
Proof. unfold wrap. by rewrite Zminus_mod_idemp_r. Qed.

(** ** Bits of machine integers *)
Lemma in_range_bits w z :
  0 <= w -> in_range w z <-> forall i, w <= i -> Z.testbit z i = false.
Proof.
  intros Hw. split.
  - intros H i Hi. rewrite <- (wrap_id w z H). unfold wrap.
    apply Z.mod_pow2_bits_high. lia.
  - intros H. assert (z = wrap w z) as ->; [|by apply wrap_range].
    apply Z.bits_inj'. intros i Hi. unfold wrap.
    destruct (Z.ltb_spec i w).
    + by rewrite Z.mod_pow2_bits_low by lia.
    + rewrite Z.mod_pow2_bits_high by lia. apply H. lia.
Qed.

Lemma wrap_testbit w z i :
  0 <= w -> 0 <= i -> Z.testbit (wrap w z) i = (i <? w) && Z.testbit z i.
Proof.
  intros. unfold wrap. destruct (Z.ltb_spec i w); cbn.
  - by rewrite Z.mod_pow2_bits_low by lia.
  - by rewrite Z.mod_pow2_bits_high by lia.
Qed.

Lemma lor_range w a b : 0 <= w -> in_range w a -> in_range w b -> in_range w (Z.lor a b).
Proof.
  intros Hw Ha Hb. apply in_range_bits; [done|]. intros i Hi.
  by rewrite Z.lor_spec, (proj1 (in_range_bits w a Hw) Ha), (proj1 (in_range_bits w b Hw) Hb).
Qed.

Lemma lxor_range w a b : 0 <= w -> in_range w a -> in_range w b -> in_range w (Z.lxor a b).
Proof.
  intros Hw Ha Hb. apply in_range_bits; [done|]. intros i Hi.
  by rewrite Z.lxor_spec, (proj1 (in_range_bits w a Hw) Ha), (proj1 (in_range_bits w b Hw) Hb).
Qed.

Lemma land_range w a b : 0 <= w -> in_range w a -> in_range w (Z.land a b).
Proof.
  intros Hw Ha. apply in_range_bits; [done|]. intros i Hi.
  by rewrite Z.land_spec, (proj1 (in_range_bits w a Hw) Ha).
Qed.

Lemma ldiff_range w a b : 0 <= w -> in_range w a -> in_range w (Z.ldiff a b).
Proof.
  intros Hw Ha. apply in_range_bits; [done|]. intros i Hi.
  by rewrite Z.ldiff_spec, (proj1 (in_range_bits w a Hw) Ha).
Qed.

Lemma shiftr_range w a n : 0 <= w -> 0 <= n -> in_range w a -> in_range w (Z.shiftr a n).
Proof.
  intros Hw Hn Ha. apply in_range_bits; [done|]. intros i Hi.
  rewrite Z.shiftr_spec by lia. apply (proj1 (in_range_bits w a Hw) Ha). lia.
Qed.

#[export] Hint Resolve lor_range lxor_range land_range ldiff_range shiftr_range : afs.
#[export] Hint Extern 1 (0 <= _)%Z => lia : afs.

#[export] Hint Rewrite wrap_wrap wrap_add_l wrap_add_r wrap_sub_l wrap_sub_r : afs.
#[export] Hint Resolve wrap_range : afs.

(** ** Execution results

    [Ok a]: the C code returns normally. [Fault]: it performs an access
    outside an object, dereferences [NULL] or divides by zero. [OutOfFuel]: the
    bound given to a loop of the model was exhausted before the loop left. *)
Inductive res (A : Type) : Type :=
| Ok (a : A)
| Fault
| OutOfFuel.
Arguments Ok {A} _.
Arguments Fault {A}.
Arguments OutOfFuel {A}.

#[global] Instance res_ret : MRet res := fun A a => Ok a.
#[global] Instance res_bind : MBind res := fun A B k m =>
  match m with Ok a => k a | Fault => Fault | OutOfFuel => OutOfFuel end.

#[global] Instance res_eq_dec {A} `{EqDecision A} : EqDecision (res A).
Proof. solve_decision. Defined.

Definition of_option {A} (o : option A) : res A :=
  match o with Some a => Ok a | None => Fault end.

Lemma res_bind_Ok {A B} (m : res A) (k : A -> res B) b :
  (m ≫= k) = Ok b <-> exists a, m = Ok a /\ k a = Ok b.
Proof. destruct m; cbn; naive_solver. Qed.

Lemma bind_Ok {A B} (a : A) (k : A -> res B) : (Ok a ≫= k) = k a.
Proof. done. Qed.

Lemma of_option_Ok {A} (o : option A) a : of_option o = Ok a <-> o = Some a.
Proof. destruct o; naive_solver. Qed.

(** ** Bounded loops

    [for_ n i body s] runs [body i], [body (i+1)], ... for [n] iterations. *)
Fixpoint for_ {S} (n : nat) (i : Z) (body : Z -> S -> S) (s : S) : S :=
  match n with
  | O => s
  | Datatypes.S n' => for_ n' (i + 1) body (body i s)
  end.

Fixpoint forM {S} (n : nat) (i : Z) (body : Z -> S -> res S) (s : S) : res S :=
  match n with
  | O => Ok s
  | Datatypes.S n' => body i s ≫= forM n' (i + 1) body
  end.

Lemma for_invariant {S} (P : Z -> S -> Prop) n i body s :
  P i s ->
  (forall k s', i <= k < i + Z.of_nat n -> P k s' -> P (k + 1) (body k s')) ->
  P (i + Z.of_nat n) (for_ n i body s).
Proof.
  revert i s. induction n as [|n IH]; intros i s H0 Hs; cbn [for_].
  - by rewrite Z.add_0_r.
  - replace (i + Z.of_nat (Datatypes.S n)) with ((i + 1) + Z.of_nat n) by lia.
    apply IH; [apply Hs; [lia|done]|]. intros. apply Hs; [lia|done].
Qed.

Lemma forM_invariant {S} (P : Z -> S -> Prop) n i body s :
  P i s ->
  (forall k s', i <= k < i + Z.of_nat n -> P k s' ->
     exists s'', body k s' = Ok s'' /\ P (k + 1) s'') ->
  exists s', forM n i body s = Ok s' /\ P (i + Z.of_nat n) s'.
Proof.
  revert i s. induction n as [|n IH]; intros i s H0 Hs; cbn [forM].
  - exists s. by rewrite Z.add_0_r.
  - destruct (Hs i s ltac:(lia) H0) as (s1 & -> & H1). cbn.
    replace (i + Z.of_nat (Datatypes.S n)) with ((i + 1) + Z.of_nat n) by lia.
    apply IH; [done|]. intros. apply Hs; [lia|done].
Qed.

(** The same for a loop over natural numbers, and the tactic that applies it to
    the first such loop of the goal: it leaves the invariant at the start, its
    preservation, and the goal with the loop's result. *)
Lemma forM_nat {S} (P : nat -> S -> Prop) n i body s :
  P i s ->
  (forall k s', (i <= k < i + n)%nat -> P k s' ->
     exists s'', body (Z.of_nat k) s' = Ok s'' /\ P (Datatypes.S k) s'') ->
  exists s', forM n (Z.of_nat i) body s = Ok s' /\ P (i + n)%nat s'.
Proof.
  revert i s. induction n as [|n IH]; intros i s H0 Hs; cbn [forM].
  - exists s. by rewrite Nat.add_0_r.
  - destruct (Hs i s ltac:(lia) H0) as (s1 & -> & H1). cbn [mbind res_bind].
    replace (Z.of_nat i + 1) with (Z.of_nat (Datatypes.S i)) by lia.
    replace (i + Datatypes.S n)%nat with (Datatypes.S i + n)%nat by lia.
    apply IH; [done|]. intros. apply Hs; [lia|done].
Qed.

Lemma forM_ext {S} n i (body body' : Z -> S -> res S) s :
  (forall k s, i <= k < i + Z.of_nat n -> body k s = body' k s) -> forM n i body s = forM n i body' s.
Proof.
  revert i s. induction n as [|n IH]; intros i s H; cbn [forM]; [done|]. rewrite H by lia.
  destruct (body' i s); cbn; try done. apply IH. intros. apply H. lia.
Qed.

Ltac forM_induction P :=
  try match goal with
  | |- context [forM ?n 0 ?body ?s] => change (forM n 0 body s) with (forM n (Z.of_nat 0) body s)
  end;
  match goal with
  | |- context [forM ?n (Z.of_nat ?i) ?body ?s] =>
      let H := fresh "Hloop" in
      assert (H : exists s', forM n (Z.of_nat i) body s = Ok s' /\ P (i + n)%nat s');
      [apply (forM_nat P)|]
  end.

(** ** Array accesses

    [a[i]] and [a[i] = v]; an index outside the array is a [Fault]. *)
Definition get {A} (l : list A) (i : Z) : res A :=
  if i <? 0 then Fault else of_option (l !! Z.to_nat i).
Definition put {A} (l : list A) (i : Z) (v : A) : res (list A) :=
  if (0 <=? i) && (i <? Z.of_nat (length l)) then Ok (<[Z.to_nat i := v]> l) else Fault.

(** [a[i]] of a table whose size covers every index the code can form. *)
Definition tab (l : list Z) (i : Z) : Z := default 0 (l !! Z.to_nat i).

Lemma get_nat {A} (l : list A) (i : nat) v : l !! i = Some v -> get l (Z.of_nat i) = Ok v.
Proof. intros H. unfold get. rewrite Nat2Z.id, H. by destruct (Z.ltb_spec (Z.of_nat i) 0); [lia|]. Qed.

Lemma put_nat {A} (l : list A) (i : nat) v : (i < length l)%nat -> put l (Z.of_nat i) v = Ok (<[i := v]> l).
Proof.
  intros H. unfold put. rewrite Nat2Z.id.
  destruct (Z.leb_spec 0 (Z.of_nat i)), (Z.ltb_spec (Z.of_nat i) (Z.of_nat (length l))); cbn [andb]; done || lia.
Qed.

Lemma put_length {A} (l l' : list A) i v : put l i v = Ok l' -> length l' = length l.
Proof. unfold put. destruct (_ && _); intros [= <-]. apply length_insert. Qed.

(** ** Bytes and buffers *)
Definition is_byte (b : Z) : Prop := in_range 8 b.
Definition bytes (l : list Z) : Prop := Forall is_byte l.

#[global] Instance is_byte_dec b : Decision (is_byte b).
Proof. unfold is_byte. apply _. Defined.
#[global] Instance bytes_dec l : Decision (bytes l).
Proof. unfold bytes. apply _. Defined.

(** [l [off .. off+n)], when inside [l]. *)
Definition slice {A} (off n : nat) (l : list A) : option (list A) :=
  if decide (off + n <= length l)%nat then Some (take n (drop off l)) else None.

(** [memcpy] of [src] to [dst + off], when inside [dst]. *)
Definition splice {A} (off : nat) (src dst : list A) : option (list A) :=
  if decide (off + length src <= length dst)%nat
  then Some (take off dst ++ src ++ drop (off + length src) dst) else None.

Lemma slice_length {A} off n (l s : list A) : slice off n l = Some s -> length s = n.
Proof. unfold slice. case_decide; intros; simplify_eq. rewrite length_take, length_drop. lia. Qed.

Lemma slice_Some {A} off n (l : list A) :
  (off + n <= length l)%nat -> slice off n l = Some (take n (drop off l)).
Proof. intros. unfold slice. by case_decide. Qed.

Lemma splice_length {A} off (src dst d : list A) :
  splice off src dst = Some d -> length d = length dst.
Proof.
  unfold splice. case_decide; intros; simplify_eq.
  rewrite !length_app, length_take, length_drop. lia.
Qed.

Lemma splice_Some {A} off (src dst : list A) :
  (off + length src <= length dst)%nat ->
  splice off src dst = Some (take off dst ++ src ++ drop (off + length src) dst).
Proof. intros. unfold splice. by case_decide. Qed.

Lemma slice_splice {A} off (src dst d : list A) :
  splice off src dst = Some d -> slice off (length src) d = Some src.
Proof.
  intros H. pose proof (splice_length _ _ _ _ H) as Hl.
  unfold splice in H. case_decide; simplify_eq.
  rewrite slice_Some by (rewrite Hl; lia). f_equal.
  rewrite drop_app_length' by (rewrite length_take; lia).
  by rewrite take_app_length.
Qed.

Lemma splice_lookup {A} off (src dst d : list A) k :
  splice off src dst = Some d ->
  d !! k = if decide (off <= k < off + length src)%nat then src !! (k - off)%nat else dst !! k.
Proof.
  unfold splice. case_decide as Hl; [|done]. intros [= <-]. case_decide as Hk.
  - rewrite lookup_app_r by (rewrite length_take; lia). rewrite lookup_app_l by (rewrite length_take; lia).
    f_equal. rewrite length_take. lia.
  - destruct (decide (k < off)%nat).
    + rewrite lookup_app_l by (rewrite length_take; lia). by rewrite lookup_take_lt.
    + rewrite !lookup_app_r by (rewrite ?length_take; lia). rewrite lookup_drop, length_take. f_equal. lia.
Qed.

(** A range disjoint from the written one is unchanged. *)
Lemma slice_splice_ne {A} off (src dst d : list A) o n :
  splice off src dst = Some d -> (o + n <= off \/ off + length src <= o)%nat -> slice o n d = slice o n dst.
Proof.
  intros H Hd. unfold slice. rewrite (splice_length _ _ _ _ H). case_decide; [|done]. f_equal.
  apply list_eq. intros k. destruct (decide (k < n)%nat).
  - rewrite !lookup_take_lt, !lookup_drop, (splice_lookup _ _ _ _ _ H) by done.
    by rewrite decide_False by lia.
  - by rewrite !lookup_take_ge by lia.
Qed.

Lemma splice_bytes off (src dst d : list Z) :
  splice off src dst = Some d -> bytes src -> bytes dst -> bytes d.
Proof.
  unfold splice. case_decide; [|done]. intros [= <-] Hs Hd.
  apply Forall_app_2; [by apply Forall_take|]. apply Forall_app_2; [done|by apply Forall_drop].
Qed.

Lemma splice_app_r {A} (a : list A) off src b :
  splice (length a + off) src (a ++ b) = (fun x => a ++ x) <$> splice off src b.
Proof.
  unfold splice. rewrite length_app. case_decide; case_decide; try lia; [|done].
  cbn. f_equal. rewrite take_app_ge, drop_app_ge by lia.
  replace (length a + off - length a)%nat with off by lia.
  replace (length a + off + length src - length a)%nat with (off + length src)%nat by lia.
  by rewrite <- app_assoc.
Qed.

Lemma splice_app_l {A} off (src p r : list A) :
  (off + length src <= length p)%nat ->
  splice off src (p ++ r) = (fun x => x ++ r) <$> splice off src p.
Proof.
  intros H. rewrite !splice_Some by (rewrite ?length_app; lia). cbn. f_equal.
  rewrite take_app_le, drop_app_le by lia. by rewrite <- !app_assoc.
Qed.

Lemma slice_app_r {A} (a : list A) off n b : slice (length a + off) n (a ++ b) = slice off n b.
Proof.
  unfold slice. rewrite length_app. case_decide; case_decide; try lia; [|done].
  rewrite drop_app_ge by lia. by replace (length a + off - length a)%nat with off by lia.
Qed.

Lemma slice_app_l {A} off n (p r : list A) :
  (off + n <= length p)%nat -> slice off n (p ++ r) = slice off n p.
Proof.
  intros H. rewrite !slice_Some by (rewrite ?length_app; lia).
  rewrite drop_app_le, take_app_le by (rewrite ?length_drop; lia). done.
Qed.

(** ** Little-endian integers *)
Fixpoint le_load (bs : list Z) : Z :=
  match bs with [] => 0 | b :: t => b + 256 * le_load t end.

Fixpoint le_store (n : nat) (w : Z) : list Z :=
  match n with O => [] | S n' => w `mod` 256 :: le_store n' (w / 256) end.

Lemma le_store_length n w : length (le_store n w) = n.
Proof. revert w; induction n; intros; cbn; auto. Qed.

Lemma le_store_bytes n w : bytes (le_store n w).
Proof.
  revert w; induction n; intros; constructor; [|by apply IHn].
  apply Z.mod_pos_bound. lia.
Qed.

Lemma le_load_store n w : le_load (le_store n w) = w `mod` 256 ^ Z.of_nat n.
Proof.
  revert w; induction n as [|n IH]; intros w; cbn [le_load le_store].
  - by rewrite Z.mod_1_r.
  - rewrite IH, Nat2Z.inj_succ, Z.pow_succ_r by lia.
    rewrite Z.rem_mul_r by lia. done.
Qed.

Lemma le_store_load bs : bytes bs -> le_store (length bs) (le_load bs) = bs.
Proof.
  induction 1 as [|b t Hb Ht IH]; cbn [length le_load le_store]; [done|].
  unfold is_byte, in_range in Hb. f_equal.
  - rewrite Z.mul_comm, Z.mod_add by lia. apply Z.mod_small. lia.
  - rewrite Z.mul_comm, Z.div_add by lia. rewrite Z.div_small by lia. done.
Qed.

Lemma le_load_range bs : bytes bs -> 0 <= le_load bs < 256 ^ Z.of_nat (length bs).
Proof.
  induction 1 as [|b t Hb Ht IH]; cbn [length le_load]; [lia|].
  rewrite Nat2Z.inj_succ, Z.pow_succ_r by lia. unfold is_byte, in_range in Hb. lia.
Qed.

(** A buffer of [8 n] bytes as 64-bit words, and back. *)
Fixpoint words (n : nat) (bs : list Z) : list Z :=
  match n with O => [] | S n' => le_load (take 8 bs) :: words n' (drop 8 bs) end.
Definition unwords (ws : list Z) : list Z := concat (map (le_store 8) ws).

Lemma words_length n bs : length (words n bs) = n.
Proof. revert bs; induction n; intros; cbn; auto. Qed.

Lemma unwords_length ws : length (unwords ws) = (8 * length ws)%nat.
Proof.
  induction ws as [|w ws IH]; [done|]. change (unwords (w :: ws)) with (le_store 8 w ++ unwords ws).
  rewrite length_app, IH, le_store_length. cbn [length]. lia.
Qed.

Lemma words_range n bs : bytes bs -> Forall (in_range 64) (words n bs).
Proof.
  revert bs; induction n as [|n IH]; intros bs Hb; constructor; [|by apply IH, Forall_drop].
  assert (Ht : bytes (take 8 bs)) by by apply Forall_take. pose proof (le_load_range _ Ht) as H.
  assert (256 ^ Z.of_nat (length (take 8 bs)) <= 256 ^ 8) by (apply Z.pow_le_mono_r; [lia|rewrite length_take; lia]).
  unfold in_range. change (256 ^ 8) with (2 ^ 64) in *. lia.
Qed.

Lemma unwords_words n bs : bytes bs -> length bs = (8 * n)%nat -> unwords (words n bs) = bs.
Proof.
  revert bs; induction n as [|n IH]; intros bs Hb Hl; [by destruct bs|]. cbn [words]. unfold unwords in *. cbn [map concat].
  rewrite IH by (rewrite ?length_drop; (lia || by apply Forall_drop)).
  rewrite <- (take_drop 8 bs) at 3. f_equal.
  assert (Ht : bytes (take 8 bs)) by by apply Forall_take.
  rewrite <- (le_store_load _ Ht) at 2. f_equal. rewrite length_take. lia.
Qed.

Lemma words_unwords ws : Forall (in_range 64) ws -> words (length ws) (unwords ws) = ws.
Proof.
  induction 1 as [|w ws Hw _ IH]; [done|]. cbn [length words]. change (unwords (w :: ws)) with (le_store 8 w ++ unwords ws).
  rewrite take_app_length', drop_app_length' by (by rewrite le_store_length). rewrite IH. f_equal.
  rewrite le_load_store. by apply Z.mod_small.
Qed.

Lemma unwords_bytes ws : bytes (unwords ws).
Proof. induction ws; [constructor|]. apply Forall_app. split; [apply le_store_bytes|done]. Qed.

(** Words are combined byte by byte. *)
Lemma byte_add_lxor x u : is_byte x -> x + 256 * u = Z.lxor x (Z.shiftl u 8).
Proof.
  intros Hx. rewrite Z.shiftl_mul_pow2 by lia. replace (u * 2 ^ 8) with (256 * u) by lia.
  apply Z.add_nocarry_lxor. apply Z.bits_inj'. intros i Hi. rewrite Z.land_spec, Z.bits_0.
  destruct (Z.ltb_spec i 8).
  - replace (256 * u) with (Z.shiftl u 8) by (rewrite Z.shiftl_mul_pow2 by lia; lia).
    rewrite (Z.shiftl_spec_low u 8 i) by lia. apply andb_false_r.
  - by rewrite (proj1 (in_range_bits 8 x ltac:(lia)) Hx i) by lia.
Qed.

Lemma add256_testbit x u i :
  is_byte x -> 0 <= i -> Z.testbit (x + 256 * u) i = if i <? 8 then Z.testbit x i else Z.testbit u (i - 8).
Proof.
  intros Hx Hi. rewrite byte_add_lxor, Z.lxor_spec by done. destruct (Z.ltb_spec i 8).
  - rewrite (Z.shiftl_spec_low u 8 i) by lia. apply xorb_false_r.
  - rewrite Z.shiftl_spec by lia. by rewrite (proj1 (in_range_bits 8 x ltac:(lia)) Hx i) by lia.
Qed.

Lemma le_load_lxor a b :
  bytes a -> bytes b -> length a = length b ->
  le_load (zip_with Z.lxor a b) = Z.lxor (le_load a) (le_load b).
Proof.
  intros Ha. revert b; induction Ha as [|x a Hx _ IH]; intros b Hb Hl; destruct b as [|y b]; try done.
  apply Forall_cons in Hb as [Hy Hb]. cbn [zip_with le_load]. injection Hl as Hl. rewrite IH by done.
  rewrite !byte_add_lxor by (done || by apply lxor_range). rewrite Z.shiftl_lxor.
  rewrite !Z.lxor_assoc. f_equal. rewrite <- !Z.lxor_assoc. f_equal. apply Z.lxor_comm.
Qed.

Lemma zip_lxor_bytes a b : bytes a -> bytes b -> bytes (zip_with Z.lxor a b).
Proof.
  intros Ha. revert b; induction Ha as [|x a Hx _ IH]; intros b Hb; destruct b as [|y b]; try constructor.
  - apply Forall_cons in Hb as [Hy _]. by apply lxor_range.
  - apply Forall_cons in Hb as [_ Hb]. by apply IH.
Qed.

Lemma word_lxor a b :
  bytes a -> bytes b -> length a = length b ->
  le_store (length a) (Z.lxor (le_load a) (le_load b)) = zip_with Z.lxor a b.
Proof.
  intros Ha Hb Hl. rewrite <- le_load_lxor by done.
  assert (E : length a = length (zip_with Z.lxor a b)) by (rewrite length_zip_with; lia).
  rewrite E. apply le_store_load. by apply zip_lxor_bytes.
Qed.

Lemma le_load_app a b : bytes a -> le_load (a ++ b) = Z.lxor (le_load a) (Z.shiftl (le_load b) (8 * Z.of_nat (length a))).
Proof.
  induction 1 as [|x a Hx _ IH]; [cbn [app le_load length]; by rewrite Z.shiftl_0_r, Z.lxor_0_l|].
  cbn [app le_load length]. rewrite IH, !byte_add_lxor, Z.shiftl_lxor, Z.lxor_assoc, Z.shiftl_shiftl by (done || lia).
  do 3 f_equal. lia.
Qed.

Lemma bit_of b k : 0 <= k -> Z.land (Z.shiftr b k) 1 = if Z.testbit b k then 1 else 0.
Proof.
  intros Hk. change 1 with (Z.ones 1) at 1. rewrite Z.land_ones by lia. change (2 ^ 1) with 2.
  rewrite <- Z.bit0_mod, Z.shiftr_spec, Z.add_0_l by lia. by destruct (Z.testbit b k).
Qed.

Lemma bit_land a n : 0 <= n -> (Z.land (Z.shiftl 1 n) a =? 0) = negb (Z.testbit a n).
Proof.
  intros Hn. rewrite Z.shiftl_1_l. destruct (Z.eqb_spec (Z.land (2 ^ n) a) 0) as [E|E].
  - apply (f_equal (fun z => Z.testbit z n)) in E. rewrite Z.land_spec, Z.pow2_bits_true, Z.bits_0 in E by done.
    by cbn [andb] in E; rewrite E.
  - destruct (Z.testbit a n) eqn:Ht; [done|]. destruct E. apply Z.bits_inj'. intros i Hi. rewrite Z.land_spec, Z.bits_0.
    destruct (decide (n = i)) as [<-|]; [by rewrite Ht, andb_false_r|]. by rewrite Z.pow2_bits_false by lia.
Qed.

#[export] Hint Resolve le_store_bytes : afs.
#[export] Hint Rewrite le_store_length : afs.

(** ** Ascending lists *)
Definition ascending (l : list Z) : Prop :=
  forall i j x y, (i < j)%nat -> l !! i = Some x -> l !! j = Some y -> x < y.

Lemma ascending_NoDup l : ascending l -> NoDup l.
Proof.
  intros Ha. apply NoDup_alt. intros i j x Hi Hj. destruct (Nat.lt_trichotomy i j) as [H|[H|H]]; [|done|].
  - pose proof (Ha i j x x H Hi Hj). lia.
  - pose proof (Ha j i x x H Hj Hi). lia.
Qed.

Lemma filter_seqZ_S (P : Z -> Prop) `{forall x, Decision (P x)} a n : 0 <= n ->
  filter P (seqZ a (n + 1)) = filter P (seqZ a n) ++ (if decide (P (a + n)) then [a + n] else []).
Proof. intros Hn. rewrite seqZ_app, filter_app by lia. f_equal. Qed.

Lemma ascending_filter_seqZ (P : Z -> Prop) `{forall x, Decision (P x)} a (n : nat) : ascending (filter P (seqZ a (Z.of_nat n))).
Proof.
  induction n as [|n IH]; [intros i j x y _ Hi; done|]. replace (Z.of_nat (S n)) with (Z.of_nat n + 1) by lia.
  rewrite filter_seqZ_S by lia. case_decide; [|by rewrite app_nil_r]. intros i j x y Hij Hi Hj.
  apply lookup_app_Some in Hi as [Hi|[Li Hi]], Hj as [Hj|[Lj Hj]].
  - by eapply IH.
  - apply list_lookup_singleton_Some in Hj as [_ <-]. apply list_elem_of_lookup_2, list_elem_of_filter in Hi as [_ Hi%elem_of_seqZ]. lia.
  - apply lookup_lt_Some in Hj. lia.
  - apply lookup_lt_Some in Hi, Hj. cbn in *. lia.
Qed.

(** An array that is filled from its start. *)
Lemma put_filling (init pre : list Z) x : (length pre < length init)%nat ->
  put (pre ++ drop (length pre) init) (Z.of_nat (length pre)) x = Ok ((pre ++ [x]) ++ drop (length (pre ++ [x])) init).
Proof.
  intros H. rewrite put_nat by (rewrite length_app, length_drop; lia). f_equal.
  destruct (drop (length pre) init) as [|y l] eqn:E; [apply (f_equal length) in E; rewrite length_drop in E; cbn in E; lia|].
  rewrite insert_app_r_alt, Nat.sub_diag by lia. cbn. rewrite <- app_assoc. f_equal. cbn. f_equal.
  rewrite length_app. cbn. rewrite <- (drop_drop init 1 (length pre)), E. done.
Qed.

(** Bit [c] of a bitmap in bytes is clear. *)
Definition bit_clear (bitmap : list Z) (c : Z) : Prop :=
  Z.testbit (default 0 (bitmap !! Z.to_nat (c / 8))) (c mod 8) = false.

#[global] Instance bit_clear_dec bitmap c : Decision (bit_clear bitmap c).
Proof. unfold bit_clear. apply _. Defined.

(** ** Packed structures *)

(** Fields at byte offsets of the packed structures. *)
Definition field (off n : nat) (bs : list Z) : list Z := take n (drop off bs).
Definition le_field (off n : nat) (bs : list Z) : Z := le_load (field off n bs).

(** A load of [n] bytes through a pointer to offset [off] of a buffer. *)
Definition load (bs : list Z) (off : Z) (n : nat) : res Z :=
  if off <? 0 then Fault else w ← of_option (slice (Z.to_nat off) n bs); Ok (le_load w).

Lemma load_field bs off n : (off + n <= length bs)%nat -> load bs (Z.of_nat off) n = Ok (le_field off n bs).
Proof.
  intros H. unfold load. destruct (Z.ltb_spec (Z.of_nat off) 0); [lia|].
  by rewrite Nat2Z.id, slice_Some by done.
Qed.

Lemma field_bytes off n bs : bytes bs -> bytes (field off n bs).
Proof. intros. by apply Forall_take, Forall_drop. Qed.

Lemma le_field_range off n bs : bytes bs -> in_range (8 * Z.of_nat n) (le_field off n bs).
Proof.
  intros Hb. unfold le_field. pose proof (le_load_range _ (field_bytes off n bs Hb)) as [H0 H1]. split; [done|].
  eapply Z.lt_le_trans; [exact H1|]. rewrite Z.pow_mul_r by lia. apply Z.pow_le_mono_r; [lia|].
  unfold field. rewrite length_take. lia.
Qed.

Lemma in_range_weaken w w' x : 0 <= w <= w' -> in_range w x -> in_range w' x.
Proof. intros Hw [H0 H1]. split; [done|]. eapply Z.lt_le_trans; [exact H1|]. apply Z.pow_le_mono_r; lia. Qed.
