(* ===== verification/BitVector.v ===== *)
(** * BitVector: the bit vector library (src/lib/bit_vector.c)

    [bit_vector_t] is the structure of include/lib/bit_vector.h. The library
    allocates an array of bytes and hands it to the kernel's [set_bit],
    [clear_bit] and [test_bit] as an array of [unsigned long]: bit [nr] is bit
    [nr mod 64] of the 64-bit word [nr / 64], and each of them loads, and the
    first two store, the whole word. The last word can reach up to seven bytes
    past the size asked of [vmalloc]. So the array is a sparse map of words (a
    word that was never written is the zero that [memset] stored) with the
    number of its bytes. An access is a [Fault] unless its word overlaps the
    array and lies in the pages that [vmalloc] maps, which are whole pages; the
    bytes past the array hold what they held before.

    [BitVectorOps] is what the library promises to its clients; the
    allocation vector is verified against it. *)
From stdpp Require Import base tactics option list numbers gmap.
From Stdlib Require Import ZArith Lia.
From S2P Require Import Prelude.

Local Open Scope Z_scope.

Definition EINVAL : Z := 22.

(** ** The structure and its operations *)
Record bit_vector_t := mk_bit_vector {
  array : gmap Z Z;
  array_size : Z;
  length : Z;
}.

(** [PAGE_ALIGN]: [vmalloc] maps whole pages. *)
Definition PAGE_ALIGN (n : Z) : Z := (n + 4095) / 4096 * 4096.

(** Word [w] of the array can be accessed: it has a byte of the array, and its
    last byte is mapped. *)
Definition word_mapped (v : bit_vector_t) (w : Z) : bool :=
  (0 <=? w) && (8 * w <? array_size v) && (8 * w + 8 <=? PAGE_ALIGN (array_size v)).

(** Memory effects of the kernel's bit operations. *)
Definition load_word (v : bit_vector_t) (w : Z) : res Z :=
  if word_mapped v w then Ok (default 0 (array v !! w)) else Fault.

Definition store_word (v : bit_vector_t) (w x : Z) : res bit_vector_t :=
  if word_mapped v w
  then Ok {| array := <[w := x]> (array v); array_size := array_size v; length := length v |}
  else Fault.

Definition set_bit (nr : Z) (v : bit_vector_t) : res bit_vector_t :=
  x ← load_word v (nr / 64); store_word v (nr / 64) (Z.lor x (2 ^ (nr mod 64))).

Definition clear_bit (nr : Z) (v : bit_vector_t) : res bit_vector_t :=
  x ← load_word v (nr / 64); store_word v (nr / 64) (Z.ldiff x (2 ^ (nr mod 64))).

Definition test_bit (nr : Z) (v : bit_vector_t) : res bool :=
  x ← load_word v (nr / 64); mret (Z.testbit x (nr mod 64)).

(** [BIT_VECTOR_BITS_TO_BYTES]. *)
Definition BIT_VECTOR_BITS_TO_BYTES (b : Z) : Z := (wrap 64 (b / 8 + 1)).

(** What [memset] leaves of [slack], the word that the memory holds at the end
    of an array of [size] bytes: the array's bytes are cleared. *)
Definition memset_tail (size slack : Z) : gmap Z Z :=
  if size mod 8 =? 0 then ∅
  else {[ size / 8 := Z.shiftl (Z.shiftr slack (8 * (size mod 8))) (8 * (size mod 8)) ]}.

(** The two booleans say whether [kmalloc] and [vmalloc] succeed. *)
Definition bit_vector_create (kmalloc_ok vmalloc_ok : bool) (slack len : Z) : option bit_vector_t :=
  if negb kmalloc_ok then None
  else if negb vmalloc_ok then None
  else let size := BIT_VECTOR_BITS_TO_BYTES len in
    Some {| array := memset_tail size slack; array_size := size; length := len |}.

Definition bit_vector_set (vector : option bit_vector_t) (index : Z)
  : res (Z * option bit_vector_t) :=
  match vector with
  | None => Ok (- EINVAL, vector)
  | Some v =>
      if index >? length v then Ok (- EINVAL, vector)
      else v' ← set_bit index v; mret (0, Some v')
  end.

Definition bit_vector_clear (vector : option bit_vector_t) (index : Z)
  : res (Z * option bit_vector_t) :=
  match vector with
  | None => Ok (- EINVAL, vector)
  | Some v =>
      if index >? length v then Ok (- EINVAL, vector)
      else v' ← clear_bit index v; mret (0, Some v')
  end.

Definition bit_vector_get (vector : option bit_vector_t) (index : Z) : res Z :=
  match vector with
  | None => Ok (- EINVAL)
  | Some v =>
      if index >? length v then Ok (- EINVAL)
      else b ← test_bit index v; mret (if (b : bool) then 1 else 0)
  end.

(** ** Well-formedness and the bits *)
Definition bv_wf (v : bit_vector_t) : Prop :=
  0 <= length v /\ array_size v = length v / 8 + 1.

(** Bit [i] of the memory at the array, also past its end. *)
Definition bv_mem (v : bit_vector_t) (i : Z) : bool :=
  Z.testbit (default 0 (array v !! (i / 64))) (i mod 64).

Lemma pow2_testbit k i : 0 <= k -> 0 <= i -> Z.testbit (2 ^ k) i = bool_decide (k = i).
Proof.
  intros. rewrite Z.pow2_bits_eqb by done. case_bool_decide; by destruct (Z.eqb_spec k i).
Qed.

Lemma index_split i j : i <> j -> i / 64 <> j / 64 \/ i mod 64 <> j mod 64.
Proof. intros. destruct (decide (i / 64 = j / 64)); [right|by left]. zlia. Qed.

(** The word of a bit that the guards let through can be accessed. *)
Lemma index_mapped v i : bv_wf v -> 0 <= i <= length v -> word_mapped v (i / 64) = true.
Proof.
  intros (Hl & Hs) Hi. unfold word_mapped, PAGE_ALIGN. rewrite Hs, !andb_true_iff, !Z.leb_le, Z.ltb_lt.
  split_and!; zlia.
Qed.

(** The effect of an update of the word of bit [i] on every bit. *)
Lemma store_bit_spec v i x (f : bool) :
  bv_wf v -> 0 <= i <= length v ->
  (forall k, 0 <= k < 64 -> Z.testbit x k =
     if decide (k = i mod 64) then f else Z.testbit (default 0 (array v !! (i / 64))) k) ->
  exists v', store_word v (i / 64) x = Ok v' /\ bv_wf v' /\ length v' = length v /\
    forall j, bv_mem v' j = if decide (j = i) then f else bv_mem v j.
Proof.
  intros Hwf Hi Hbits. unfold store_word. rewrite index_mapped by done.
  eexists; split; [done|]. split; [done|]. split; [done|].
  intros j. unfold bv_mem at 1. cbn [array]. destruct (decide (j / 64 = i / 64)) as [E|E].
  - rewrite E, lookup_insert_eq. cbn [default]. rewrite Hbits by (apply Z.mod_pos_bound; lia).
    unfold bv_mem. rewrite E. destruct (decide (j = i)) as [->|Hne]; [by rewrite decide_True|].
    rewrite decide_False; [done|]. destruct (index_split j i Hne); congruence.
  - rewrite lookup_insert_ne, decide_False by congruence. done.
Qed.

Lemma set_bit_spec v i :
  bv_wf v -> 0 <= i <= length v ->
  exists v', set_bit i v = Ok v' /\ bv_wf v' /\ length v' = length v /\
    forall j, bv_mem v' j = if decide (j = i) then true else bv_mem v j.
Proof.
  intros Hwf Hi. unfold set_bit, load_word. rewrite index_mapped by done. cbn [mbind res_bind].
  pose proof (Z.mod_pos_bound i 64 ltac:(lia)). apply store_bit_spec; auto.
  intros k Hk. rewrite Z.lor_spec, pow2_testbit by lia.
  case_decide; case_bool_decide; try congruence; by rewrite ?orb_true_r, ?orb_false_r.
Qed.

Lemma clear_bit_spec v i :
  bv_wf v -> 0 <= i <= length v ->
  exists v', clear_bit i v = Ok v' /\ bv_wf v' /\ length v' = length v /\
    forall j, bv_mem v' j = if decide (j = i) then false else bv_mem v j.
Proof.
  intros Hwf Hi. unfold clear_bit, load_word. rewrite index_mapped by done. cbn [mbind res_bind].
  pose proof (Z.mod_pos_bound i 64 ltac:(lia)). apply store_bit_spec; auto.
  intros k Hk. rewrite Z.ldiff_spec, pow2_testbit by lia.
  case_decide; case_bool_decide; try congruence; cbn; by rewrite ?andb_false_r, ?andb_true_r.
Qed.

Lemma test_bit_spec v i :
  bv_wf v -> 0 <= i <= length v -> test_bit i v = Ok (bv_mem v i).
Proof. intros. unfold test_bit, load_word. by rewrite index_mapped. Qed.

(** [memset] clears the bits of the array's bytes. *)
Lemma memset_tail_clear size slack i : 0 <= i < 8 * size ->
  Z.testbit (default 0 (memset_tail size slack !! (i / 64))) (i mod 64) = false.
Proof.
  intros Hi. unfold memset_tail. destruct (Z.eqb_spec (size mod 8) 0); [by rewrite lookup_empty, Z.bits_0|].
  destruct (decide (size / 8 = i / 64)) as [E|E].
  - rewrite E, lookup_singleton_eq. cbn [default]. apply Z.shiftl_spec_low. zlia.
  - by rewrite lookup_singleton_ne, Z.bits_0.
Qed.

Lemma bit_vector_create_wf slack len v :
  0 <= len < 2 ^ 64 -> bit_vector_create true true slack len = Some v ->
  bv_wf v /\ length v = len /\ forall i, 0 <= i <= len -> bv_mem v i = false.
Proof.
  intros Hlen [= <-]. unfold bv_wf, bv_mem; cbn [length array array_size].
  assert (E : BIT_VECTOR_BITS_TO_BYTES len = len / 8 + 1) by (unfold BIT_VECTOR_BITS_TO_BYTES; apply wrap_id; unfold in_range; zlia).
  rewrite E. split_and!; [lia|done..|]. intros i Hi. apply memset_tail_clear. zlia.
Qed.

(** ** What the library promises to the allocation code *)
Class BitVectorOps (V : Type) := {
  bvget : V -> Z -> res Z;
  bvset : V -> Z -> res (Z * V);
  bvclear : V -> Z -> res (Z * V);
  bvlen : V -> Z;
  bvmem : V -> Z -> bool;
  bvok : V -> Prop;
  bvget_in v i : bvok v -> 0 <= i <= bvlen v ->
    bvget v i = Ok (if bvmem v i then 1 else 0);
  bvget_out v i : bvok v -> bvlen v < i -> bvget v i = Ok (- EINVAL);
  bvset_in v i : bvok v -> 0 <= i <= bvlen v ->
    exists v', bvset v i = Ok (0, v') /\ bvok v' /\ bvlen v' = bvlen v /\
      forall j, bvmem v' j = if decide (j = i) then true else bvmem v j;
  bvset_out v i : bvok v -> bvlen v < i -> bvset v i = Ok (- EINVAL, v);
  bvclear_in v i : bvok v -> 0 <= i <= bvlen v ->
    exists v', bvclear v i = Ok (0, v') /\ bvok v' /\ bvlen v' = bvlen v /\
      forall j, bvmem v' j = if decide (j = i) then false else bvmem v j;
  bvclear_out v i : bvok v -> bvlen v < i -> bvclear v i = Ok (- EINVAL, v);
}.

#[export] Program Instance bit_vector_ops : BitVectorOps (option bit_vector_t) := {
  bvget := bit_vector_get;
  bvset := bit_vector_set;
  bvclear := bit_vector_clear;
  bvlen v := from_option length 0 v;
  bvmem v i := from_option (fun w => bv_mem w i) false v;
  bvok v := exists w, v = Some w /\ bv_wf w;
}.
Next Obligation.
  intros v i (w & -> & Hw) Hi. cbn in *. rewrite Z.gtb_ltb.
  destruct (Z.ltb_spec (length w) i); [lia|]. by rewrite test_bit_spec.
Qed.
Next Obligation.
  intros v i (w & -> & Hw) Hi. cbn in *. rewrite Z.gtb_ltb.
  by destruct (Z.ltb_spec (length w) i); [|lia].
Qed.
Next Obligation.
  intros v i (w & -> & Hw) Hi. cbn in *. rewrite Z.gtb_ltb.
  destruct (Z.ltb_spec (length w) i); [lia|].
  destruct (set_bit_spec w i Hw Hi) as (w' & -> & ? & ? & ?). cbn. eauto 10.
Qed.
Next Obligation.
  intros v i (w & -> & Hw) Hi. cbn in *. rewrite Z.gtb_ltb.
  by destruct (Z.ltb_spec (length w) i); [|lia].
Qed.
Next Obligation.
  intros v i (w & -> & Hw) Hi. cbn in *. rewrite Z.gtb_ltb.
  destruct (Z.ltb_spec (length w) i); [lia|].
  destruct (clear_bit_spec w i Hw Hi) as (w' & -> & ? & ? & ?). cbn. eauto 10.
Qed.
Next Obligation.
  intros v i (w & -> & Hw) Hi. cbn in *. rewrite Z.gtb_ltb.
  by destruct (Z.ltb_spec (length w) i); [|lia].
Qed.

(** ** Refinement of a set of bit numbers

    A client sees a sequence of calls and their return codes. *)
Inductive bvop := OpSet (i : Z) | OpClear (i : Z) | OpGet (i : Z).

Definition op_index (o : bvop) : Z :=
  match o with OpSet i | OpClear i | OpGet i => i end.

Definition run_op (v : option bit_vector_t) (o : bvop) : res (Z * option bit_vector_t) :=
  match o with
  | OpSet i => bit_vector_set v i
  | OpClear i => bit_vector_clear v i
  | OpGet i => r ← bit_vector_get v i; mret (r, v)
  end.

Fixpoint run_ops (v : option bit_vector_t) (os : list bvop) : res (list Z * option bit_vector_t) :=
  match os with
  | [] => Ok ([], v)
  | o :: os' => '(r, v') ← run_op v o; '(rs, v'') ← run_ops v' os'; mret (r :: rs, v'')
  end.

(** The specification: a finite set of bit numbers at most [len]. *)
Definition spec_op (len : Z) (s : gset Z) (o : bvop) : Z * gset Z :=
  if bool_decide (op_index o <= len) then
    match o with
    | OpSet i => (0, {[i]} ∪ s)
    | OpClear i => (0, s ∖ {[i]})
    | OpGet i => ((if bool_decide (i ∈ s) then 1 else 0), s)
    end
  else (- EINVAL, s).

Fixpoint spec_ops (len : Z) (s : gset Z) (os : list bvop) : list Z :=
  match os with
  | [] => []
  | o :: os' => let '(r, s') := spec_op len s o in r :: spec_ops len s' os'
  end.

(** The simulation relation: the bits up to the length are the set, the
    others are those of the vector [v0]. *)
Definition bv_rel (v0 v : bit_vector_t) (s : gset Z) : Prop :=
  bv_wf v /\ length v = length v0 /\ (forall i, 0 <= i <= length v -> bv_mem v i = bool_decide (i ∈ s)) /\
  forall i, length v < i -> bv_mem v i = bv_mem v0 i.

Lemma bv_rel_update v0 v v' s s' i (f : bool) : bv_rel v0 v s -> 0 <= i <= length v ->
  bv_wf v' -> length v' = length v -> (forall j, bv_mem v' j = if decide (j = i) then f else bv_mem v j) ->
  (i ∈ s' <-> f = true) -> (forall j, j <> i -> j ∈ s' <-> j ∈ s) -> bv_rel v0 v' s'.
Proof.
  intros (_ & Hl & Hm & Ho) Hi Hwf Hl' Hm' Hf Hs. unfold bv_rel. rewrite Hl'. split_and!; [done..| |].
  - intros j Hj. rewrite Hm'. case_decide as E; [subst; symmetry; destruct f; [by apply bool_decide_eq_true_2, Hf|]|].
    + apply bool_decide_eq_false_2. intros H. by apply Hf in H.
    + rewrite Hm by done. apply bool_decide_ext. by rewrite Hs.
  - intros j Hj. rewrite Hm', decide_False by lia. by apply Ho.
Qed.

Lemma run_op_simulates v0 v s o :
  bv_rel v0 v s -> 0 <= op_index o ->
  exists r v' s', run_op (Some v) o = Ok (r, Some v') /\ spec_op (length v) s o = (r, s') /\
    bv_rel v0 v' s' /\ length v' = length v.
Proof.
  intros Hrel Hi. pose proof Hrel as (Hwf & _ & Hm & _). unfold spec_op.
  destruct o as [i|i|i]; cbn in *; rewrite Z.gtb_ltb;
    destruct (Z.ltb_spec (length v) i);
    rewrite ?(bool_decide_eq_false_2 (i <= length v)), ?(bool_decide_eq_true_2 (i <= length v))
      by lia; try (eexists _, v, s; split_and!; try done; fail).
  - destruct (set_bit_spec v i Hwf ltac:(lia)) as (v' & -> & ? & ? & Hm').
    eexists _, v', _. split; [done|]. split; [done|]. split; [|done].
    eapply (bv_rel_update v0 v v' s _ i); try done; set_solver.
  - destruct (clear_bit_spec v i Hwf ltac:(lia)) as (v' & -> & ? & ? & Hm').
    eexists _, v', _. split; [done|]. split; [done|]. split; [|done].
    eapply (bv_rel_update v0 v v' s _ i); try done; set_solver.
  - rewrite test_bit_spec by (done || lia). cbn. rewrite Hm by lia. by eexists _, v, s.
Qed.

(** C22: on any sequence of calls with non-negative bit numbers, a vector made
    by [bit_vector_create] returns exactly the codes of a finite set of bit
    numbers: [bit_vector_get] after [bit_vector_set] sees the bit, and an index
    above the length gives [-EINVAL] and changes nothing. No call faults, also
    not at [index = length], which the guards let through: each accesses a word
    that has a byte of the array and lies in the pages [vmalloc] maps for it.
    That word can reach past the array; the bits there, whatever they were,
    are left as they were. *)
Theorem bit_vector_refines_set slack len v os :
  0 <= len < 2 ^ 64 ->
  bit_vector_create true true slack len = Some v ->
  Forall (fun o => 0 <= op_index o) os ->
  exists v', run_ops (Some v) os = Ok (spec_ops len ∅ os, Some v') /\
    forall i, len < i -> bv_mem v' i = bv_mem v i.
Proof.
  intros Hlen Hc Hos. destruct (bit_vector_create_wf slack len v Hlen Hc) as (Hwf & <- & Hm).
  assert (Hrel : bv_rel v v ∅).
  { by split_and!. }
  enough (H : forall w s, bv_rel v w s -> exists v', run_ops (Some w) os = Ok (spec_ops (length v) s os, Some v') /\
    forall i, length v < i -> bv_mem v' i = bv_mem v i) by by apply H.
  clear Hc Hlen Hm Hwf Hrel. induction Hos as [|o os Ho _ IH]; intros w s Hrel; pose proof Hrel as (_ & Hl & _ & Hout); cbn.
  { exists w. split; [done|]. intros i Hi. apply Hout. lia. }
  destruct (run_op_simulates v w s o Hrel Ho) as (r & w' & s' & -> & Es & Hrel' & _). rewrite Hl in Es. rewrite Es. cbn.
  destruct (IH w' s' Hrel') as (v' & -> & Hv'). cbn. by exists v'.
Qed.

Lemma bit_vector_refines_set_witness :
  exists v', run_ops (bit_vector_create true true (2 ^ 64 - 1) 11) [OpSet 11; OpGet 11; OpGet 3; OpSet 12; OpClear 11; OpGet 11]
  = Ok ([0; 1; 0; -22; 0; 0], Some v') /\ forall i, 11 < i -> bv_mem v' i = bv_mem (mk_bit_vector {[ 0 := 2 ^ 64 - 2 ^ 16 ]} 2 11) i.
Proof.
  exact (bit_vector_refines_set (2 ^ 64 - 1) 11 _ [OpSet 11; OpGet 11; OpGet 3; OpSet 12; OpClear 11; OpGet 11]
    ltac:(lia) eq_refl ltac:(repeat constructor; cbn; lia)).
Defined.
