(* ===== verification/Allocation.v ===== *)
(** * Allocation: the free-block allocator (src/dm_afs_allocation.c)

    The operations are written against [BitVectorOps], the interface of the
    bit vector library. [get_random_bytes] is the list of 32-bit values it
    will deliver; a loop that consumes them all is [OutOfFuel]. The spin lock
    makes each [acquire_block] one atomic step, so the operations are plain
    state transformers. *)
From stdpp Require Import base tactics option list numbers gmap.
From Stdlib Require Import ZArith Lia.
From S2P Require Import Prelude BitVector.

Local Open Scope Z_scope.

Definition AFS_INVALID_BLOCK : Z := 2 ^ 32 - 1.

(** [struct afs_passive_fs]. *)
Record afs_passive_fs := mk_passive_fs {
  block_list : list Z;
  list_len : Z;
  sectors_per_block : Z;
  total_blocks : Z;
  data_start_off : Z;
  blocks_in_tuple : Z;
}.

Section Allocation.
Context {V : Type} `{BitVectorOps V}.
Implicit Types (v : V) (fs : afs_passive_fs) (rnd : list Z).

Definition random_block_index fs rnd : res (Z * list Z) :=
  match rnd with
  | [] => OutOfFuel
  | r :: rnd' => if list_len fs =? 0 then Fault else Ok (u32 r mod list_len fs, rnd')
  end.

Definition allocation_get v index : res Z :=
  ret ← bvget v index;
  let ret := if ret <? 0 then 0 else ret in
  mret (if ret =? 0 then 0 else 1).

Definition allocation_set v index : res (bool * V) :=
  g ← allocation_get v index;
  if negb (g =? 0) then mret (false, v)
  else '(ret, v') ← bvset v index;
       mret (if ret =? 0 then (true, v') else (false, v')).

Definition allocation_free v index : res V :=
  '(_, v') ← bvclear v index; mret v'.

(** The [do ... while] loop of [acquire_block], entered with the candidate
    [block_num]; every further iteration consumes a random value. *)
Fixpoint acquire_loop fs v (current_num block_num : Z) rnd : res (Z * V * list Z) :=
  '(ok, v') ← allocation_set v block_num;
  if (ok : bool) then
    ret ← of_option (block_list fs !! Z.to_nat block_num); mret (ret, v', rnd)
  else
    match rnd with
    | [] => OutOfFuel
    | r :: rnd' =>
        '(next, _) ← random_block_index fs [r];
        if negb (next =? current_num) then acquire_loop fs v' current_num next rnd'
        else mret (AFS_INVALID_BLOCK, v', rnd')
    end.

Definition acquire_block fs v rnd : res (Z * V * list Z) :=
  '(block_num, rnd') ← random_block_index fs rnd;
  acquire_loop fs v block_num block_num rnd'.

(** ** Well-formed free lists

    The array may be longer than the list it holds. *)
Definition free_list fs : list Z := take (Z.to_nat (list_len fs)) (block_list fs).

Lemma free_list_lookup fs i b :
  0 <= i < list_len fs -> block_list fs !! Z.to_nat i = Some b -> free_list fs !! Z.to_nat i = Some b.
Proof. intros Hi Hb. unfold free_list. by rewrite lookup_take_lt by lia. Qed.

Lemma free_list_inj fs i j b :
  NoDup (free_list fs) -> 0 <= i < list_len fs -> 0 <= j < list_len fs ->
  block_list fs !! Z.to_nat i = Some b -> block_list fs !! Z.to_nat j = Some b -> i = j.
Proof.
  intros Hnd Hi Hj Hib Hjb. apply free_list_lookup in Hib, Hjb; [|done..].
  pose proof (NoDup_lookup _ _ _ _ Hnd Hib Hjb). lia.
Qed.

Lemma free_list_Forall (P : Z -> Prop) fs i b :
  Forall P (free_list fs) -> 0 <= i < list_len fs -> block_list fs !! Z.to_nat i = Some b -> P b.
Proof. intros HP Hi Hb. exact (Forall_lookup_1 _ _ _ _ HP (free_list_lookup _ _ _ Hi Hb)). Qed.

Definition fs_wf fs v : Prop :=
  list_len fs <= Z.of_nat (List.length (block_list fs)) /\
  0 < list_len fs <= bvlen v /\ bvok v /\
  Forall (fun b => 0 <= b < AFS_INVALID_BLOCK) (free_list fs).

(** [v'] is [v] with bit [i] set. *)
Definition marks v v' i : Prop :=
  bvmem v i = false /\ bvok v' /\ bvlen v' = bvlen v /\
  forall j, bvmem v' j = if decide (j = i) then true else bvmem v j.

Lemma allocation_get_in v i :
  bvok v -> 0 <= i <= bvlen v -> allocation_get v i = Ok (if bvmem v i then 1 else 0).
Proof. intros. unfold allocation_get. rewrite bvget_in by done. by destruct (bvmem v i). Qed.

Lemma allocation_get_out v i :
  bvok v -> bvlen v < i -> allocation_get v i = Ok 0.
Proof. intros. unfold allocation_get. by rewrite bvget_out. Qed.

Lemma allocation_set_taken v i :
  bvok v -> 0 <= i <= bvlen v -> bvmem v i = true -> allocation_set v i = Ok (false, v).
Proof.
  intros Hok Hi Hm. unfold allocation_set. rewrite allocation_get_in by done. by rewrite Hm.
Qed.

Lemma allocation_set_fresh v i :
  bvok v -> 0 <= i <= bvlen v -> bvmem v i = false ->
  exists v', allocation_set v i = Ok (true, v') /\ marks v v' i.
Proof.
  intros Hok Hi Hm. unfold allocation_set. rewrite allocation_get_in by done. rewrite Hm. cbn.
  destruct (bvset_in v i Hok Hi) as (v' & -> & ? & ? & ?). cbn. by exists v'.
Qed.

Lemma allocation_set_out v i :
  bvok v -> bvlen v < i -> allocation_set v i = Ok (false, v).
Proof.
  intros. unfold allocation_set. rewrite allocation_get_out by done. cbn. by rewrite bvset_out.
Qed.

(** [allocation_set] at any index returns and only ever adds that bit. *)
Lemma allocation_set_total v i :
  bvok v -> 0 <= i ->
  exists r v', allocation_set v i = Ok (r, v') /\ bvok v' /\ bvlen v' = bvlen v /\
    forall j, bvmem v' j = true <-> bvmem v j = true \/ (j = i /\ i <= bvlen v).
Proof.
  intros Hok Hi. destruct (decide (i <= bvlen v)) as [Hle|Hgt].
  - destruct (bvmem v i) eqn:Em.
    + exists false, v. rewrite allocation_set_taken by done. split_and!; [done..|].
      intros j. split; [tauto|]. intros [?|[-> _]]; done.
    + destruct (allocation_set_fresh v i Hok ltac:(lia) Em) as (v' & -> & _ & ? & ? & Hm).
      exists true, v'. split_and!; [done..|]. intros j. rewrite Hm.
      destruct (decide (j = i)); naive_solver.
  - exists false, v. rewrite allocation_set_out by (done || lia). split_and!; [done..|].
    intros j. split; [tauto|]. intros [?|[_ ?]]; [done|lia].
Qed.

Lemma allocation_free_in v i :
  bvok v -> 0 <= i <= bvlen v ->
  exists v', allocation_free v i = Ok v' /\ bvok v' /\ bvlen v' = bvlen v /\
    forall j, bvmem v' j = if decide (j = i) then false else bvmem v j.
Proof.
  intros Hok Hi. unfold allocation_free.
  destruct (bvclear_in v i Hok Hi) as (v' & -> & ? & ? & ?). by exists v'.
Qed.

Lemma random_index_range fs v r :
  fs_wf fs v -> 0 <= u32 r mod list_len fs < list_len fs.
Proof. intros (_ & ? & _). apply Z.mod_pos_bound. lia. Qed.

Lemma lookup_block fs v i :
  fs_wf fs v -> 0 <= i < list_len fs ->
  exists b, block_list fs !! Z.to_nat i = Some b /\ 0 <= b < AFS_INVALID_BLOCK.
Proof.
  intros (Hl & _ & _ & HF) Hi.
  destruct (lookup_lt_is_Some_2 (block_list fs) (Z.to_nat i)) as [b Hb]; [lia|].
  exists b. split; [done|]. by apply (free_list_Forall _ _ _ _ HF Hi Hb).
Qed.

(** The outcome of one call: either a block of the list whose index was
    free and is now taken, or [AFS_INVALID_BLOCK] and an unchanged vector. *)
Definition acquired fs v v' b : Prop :=
  (exists i, 0 <= i < list_len fs /\ block_list fs !! Z.to_nat i = Some b /\ marks v v' i) \/
  (b = AFS_INVALID_BLOCK /\ v' = v).

Lemma acquire_loop_step fs v c i rnd :
  fs_wf fs v -> 0 <= i < list_len fs ->
  (bvmem v i = true /\ acquire_loop fs v c i rnd =
     match rnd with
     | [] => OutOfFuel
     | r :: rnd' =>
         let next := u32 r mod list_len fs in
         if negb (next =? c) then acquire_loop fs v c next rnd'
         else Ok (AFS_INVALID_BLOCK, v, rnd')
     end) \/
  (exists b v', block_list fs !! Z.to_nat i = Some b /\ marks v v' i /\
     acquire_loop fs v c i rnd = Ok (b, v', rnd)).
Proof.
  intros Hwf Hi. pose proof Hwf as (? & ? & Hok & _).
  destruct (bvmem v i) eqn:Em; [left; split; [done|]|right].
  - destruct rnd as [|r rnd']; cbn; rewrite allocation_set_taken by (done || lia); [done|]. cbn.
    destruct (Z.eqb_spec (list_len fs) 0); [lia|done].
  - destruct (lookup_block fs v i Hwf Hi) as (b & Hb & _).
    destruct (allocation_set_fresh v i Hok ltac:(lia) Em) as (v' & Hs & Hm).
    exists b, v'. split_and!; [done..|]. destruct rnd; cbn; rewrite Hs; cbn; by rewrite Hb.
Qed.

Lemma acquire_loop_sound fs v c i rnd b v' rnd' :
  fs_wf fs v -> 0 <= i < list_len fs ->
  acquire_loop fs v c i rnd = Ok (b, v', rnd') -> acquired fs v v' b.
Proof.
  revert i. induction rnd as [|r rnd IH]; intros i Hwf Hi.
  - destruct (acquire_loop_step fs v c i [] Hwf Hi) as [[_ ->]|(b0 & v0 & ? & ? & ->)];
      intros [=]; subst. left. eauto.
  - destruct (acquire_loop_step fs v c i (r :: rnd) Hwf Hi) as [[_ ->]|(b0 & v0 & ? & ? & ->)].
    + cbn. destruct (_ =? c) eqn:E; cbn.
      * intros [= <- <- <-]. by right.
      * apply IH; [done|]. by eapply random_index_range.
    + intros [=]; subst. left. eauto.
Qed.

Lemma acquire_block_sound fs v rnd b v' rnd' :
  fs_wf fs v -> acquire_block fs v rnd = Ok (b, v', rnd') -> acquired fs v v' b.
Proof.
  intros Hwf. unfold acquire_block, random_block_index.
  destruct rnd as [|r rnd]; [done|].
  destruct (Z.eqb_spec (list_len fs) 0) as [E|E]; [done|]. cbn.
  apply acquire_loop_sound; [done|]. by eapply random_index_range.
Qed.

Lemma acquired_wf fs v v' b : fs_wf fs v -> acquired fs v v' b -> fs_wf fs v'.
Proof.
  intros (? & ? & ? & ?) [(i & ? & ? & (_ & ? & ? & _))|[_ ->]]; [|done].
  unfold fs_wf. split_and!; lia || done.
Qed.

(** The loop leaves as soon as a draw hits a free index or repeats the
    first draw. *)
Definition loop_exit fs v (c r : Z) : Prop :=
  let i := u32 r mod list_len fs in bvmem v i = false \/ i = c.

Lemma acquire_loop_terminates fs v c i rnd :
  fs_wf fs v -> 0 <= i < list_len fs -> Exists (loop_exit fs v c) rnd ->
  exists b v' rnd', acquire_loop fs v c i rnd = Ok (b, v', rnd').
Proof.
  intros Hwf Hi HE. revert i Hi. induction rnd as [|r rnd IH]; [inversion HE|]; intros i Hi.
  destruct (acquire_loop_step fs v c i (r :: rnd) Hwf Hi) as [[_ ->]|(b0 & v0 & ? & ? & ->)];
    [|by eauto].
  cbn. destruct (Z.eqb_spec (u32 r mod list_len fs) c) as [E|E]; cbn; [by eauto|].
  pose proof (random_index_range fs v r Hwf) as Hr.
  inversion HE as [? ? Hx|? ? Hx]; subst; [|by apply IH].
  destruct Hx as [Hx|Hx]; [|done].
  destruct (acquire_loop_step fs v c _ rnd Hwf Hr) as [[Hb _]|(b0 & v0 & ? & ? & ->)];
    [congruence|by eauto].
Qed.

(** Successive calls. *)
Fixpoint acquire_many fs v rnd (n : nat) : res (list Z * V * list Z) :=
  match n with
  | O => Ok ([], v, rnd)
  | S n' =>
      '(b, v', rnd') ← acquire_block fs v rnd;
      '(bs, v'', rnd'') ← acquire_many fs v' rnd' n';
      mret (b :: bs, v'', rnd'')
  end.

(** Blocks handed out are blocks of indices that were free. *)
Lemma acquire_many_fresh fs n : forall v rnd bs v' rnd',
  fs_wf fs v -> NoDup (free_list fs) ->
  acquire_many fs v rnd n = Ok (bs, v', rnd') -> AFS_INVALID_BLOCK ∉ bs ->
  NoDup bs /\ fs_wf fs v' /\
  (forall i b, 0 <= i < list_len fs -> block_list fs !! Z.to_nat i = Some b ->
     (bvmem v' i = true <-> bvmem v i = true \/ b ∈ bs)) /\
  (forall b, b ∈ bs -> exists i, 0 <= i < list_len fs /\
     block_list fs !! Z.to_nat i = Some b /\ bvmem v i = false).
Proof.
  induction n as [|n IH]; cbn; intros v rnd bs v' rnd' Hwf Hnd Hrun Hni.
  { simplify_eq. split_and!; [constructor|done|set_solver|set_solver]. }
  apply res_bind_Ok in Hrun as ([[b v1] rnd1] & H1 & Hrun).
  apply res_bind_Ok in Hrun as ([[bs2 v2] rnd2] & H2 & [= <- <- <-]).
  apply not_elem_of_cons in Hni as [Hb Hni].
  apply acquire_block_sound in H1 as Hacq; [|done].
  pose proof (acquired_wf _ _ _ _ Hwf Hacq) as Hwf1.
  destruct Hacq as [(i & Hi & Hib & (Hfree & _ & _ & Hm))|[-> _]]; [|done].
  destruct (IH v1 rnd1 bs2 v2 rnd2 Hwf1 Hnd H2 Hni) as (Hnd2 & Hwf2 & Hset & Hfr).
  assert (Hinj : forall j, 0 <= j < list_len fs ->
            block_list fs !! Z.to_nat j = Some b -> j = i).
  { intros j Hj Hjb. symmetry. by eapply free_list_inj. }
  split_and!; [|done|..].
  - constructor; [|done]. intros Hin. destruct (Hfr b Hin) as (j & Hj & Hjb & Hjf).
    rewrite Hm, (Hinj j Hj Hjb), decide_True in Hjf by done. done.
  - intros j c Hj Hjc. rewrite (Hset j c Hj Hjc), Hm, elem_of_cons.
    destruct (decide (j = i)) as [->|Hne].
    + assert (c = b) by congruence. tauto.
    + assert (c <> b) by (intros ->; auto). tauto.
  - intros c [->|Hc]%elem_of_cons; [by eauto|].
    destruct (Hfr c Hc) as (j & Hj & Hjc & Hjf). exists j. split_and!; [lia..|done|].
    rewrite Hm in Hjf. by destruct (decide (j = i)).
Qed.
End Allocation.

(** ** The allocator over the bit vector library *)
Definition small_fs : afs_passive_fs :=
  {| block_list := [10; 20; 30]; list_len := 3; sectors_per_block := 8;
     total_blocks := 100; data_start_off := 0; blocks_in_tuple := 0 |}.

Definition small_vector : option bit_vector_t := bit_vector_create true true 0 100.

Lemma small_fs_wf : fs_wf small_fs small_vector.
Proof.
  split_and!.
  - done.
  - done.
  - by vm_compute.
  - eexists; split; [done|].
    by apply (bit_vector_create_wf 0 100 _ ltac:(lia) eq_refl).
  - repeat constructor; cbn; done.
Qed.

(** C23: blocks handed out by successive calls of [acquire_block] are pairwise
    distinct blocks of the free list whose bits were clear, and afterwards
    exactly the bits of those blocks and the bits already set are set. *)
Theorem acquire_block_distinct fs v rnd n bs v' rnd' :
  fs_wf fs v -> NoDup (free_list fs) ->
  acquire_many fs (v : option bit_vector_t) rnd n = Ok (bs, v', rnd') ->
  AFS_INVALID_BLOCK ∉ bs ->
  NoDup bs /\
  (forall b, b ∈ bs -> exists i, 0 <= i < list_len fs /\
     block_list fs !! Z.to_nat i = Some b /\ bvmem v i = false) /\
  (forall i b, 0 <= i < list_len fs -> block_list fs !! Z.to_nat i = Some b ->
     (bvmem v' i = true <-> bvmem v i = true \/ b ∈ bs)).
Proof.
  intros Hwf Hnd Hrun Hni.
  destruct (acquire_many_fresh fs n v rnd bs v' rnd' Hwf Hnd Hrun Hni) as (? & _ & ? & ?). done.
Qed.

Lemma acquire_block_distinct_witness :
  exists v', acquire_many small_fs small_vector [4; 4; 5; 4; 3; 9] 3 = Ok ([20; 30; 10], v', [9])
    /\ NoDup [20; 30; 10].
Proof.
  eexists. split; [vm_compute; reflexivity|].
  refine (proj1 (acquire_block_distinct small_fs small_vector [4; 4; 5; 4; 3; 9] 3
           [20; 30; 10] _ [9] small_fs_wf _ _ _)).
  - by apply (bool_decide_unpack _).
  - vm_compute. reflexivity.
  - by apply (bool_decide_unpack _).
Defined.

(** C35: [acquire_block] returns: the first draw picks an index, and if a later
    draw picks a free index or repeats the first index, the call ends with a
    value, which is a free block now marked or [AFS_INVALID_BLOCK] with the
    vector unchanged. *)
Theorem acquire_block_returns fs v r rnd :
  fs_wf fs v ->
  Exists (loop_exit fs v (u32 r mod list_len fs)) rnd ->
  exists b v' rnd', acquire_block fs (v : option bit_vector_t) (r :: rnd) = Ok (b, v', rnd') /\
    acquired fs v v' b.
Proof.
  intros Hwf HE. pose proof (random_index_range fs v r Hwf) as Hr.
  destruct (acquire_loop_terminates fs v _ _ rnd Hwf Hr HE) as (b & v' & rnd' & Hl).
  assert (Ha : acquire_block fs v (r :: rnd) = Ok (b, v', rnd')).
  { unfold acquire_block, random_block_index.
    destruct (Z.eqb_spec (list_len fs) 0); [lia|]. exact Hl. }
  exists b, v', rnd'. split; [done|]. by eapply acquire_block_sound.
Qed.

Lemma acquire_block_returns_witness :
  exists b v' rnd', acquire_block small_fs small_vector [4; 4] = Ok (b, v', rnd') /\
    acquired small_fs small_vector v' b.
Proof.
  exact (acquire_block_returns small_fs small_vector 4 [4] small_fs_wf
           (Exists_cons_hd _ _ _ (or_intror eq_refl))).
Defined.

(** [acquire_block] can report that no block is left although blocks are
    free: a draw that repeats the first draw ends the search, so with two of
    three blocks free it returns [AFS_INVALID_BLOCK]. *)
Theorem acquire_block_gives_up_early :
  exists v, fs_wf small_fs v /\ bvmem v 0 = false /\ bvmem v 2 = false /\
    acquire_block small_fs (v : option bit_vector_t) [1; 1] = Ok (AFS_INVALID_BLOCK, v, []).
Proof.
  destruct (allocation_set_fresh small_vector 1) as (v' & Hs & (_ & Hok & Hl & Hm)).
  { apply small_fs_wf. } { vm_compute. split; discriminate. } { done. }
  exists v'. split_and!.
  - pose proof small_fs_wf as (? & ? & ? & ?). split_and!; try done; rewrite ?Hl; lia.
  - by rewrite Hm.
  - by rewrite Hm.
  - vm_compute in Hs. injection Hs as <-. vm_compute. reflexivity.
Qed.
