(* ===== verification/BlockIo.v ===== *)
(** * BlockIo: page transfers on a block device (src/dm_afs_io.c)

    A block device is its number of 512-byte sectors, their contents and the
    outcomes of the bios that will be submitted to it. [submit_bio_wait] is a
    function of the kernel: it transfers [io_size] bytes between the page and
    consecutive sectors, or fails and transfers nothing when the bio runs past
    the end of the device or the transfer errs. The code ignores its result. *)
From stdpp Require Import base tactics option list numbers gmap.
From Stdlib Require Import ZArith Lia.
From S2P Require Import Prelude BitVector.

Local Open Scope Z_scope.
Local Open Scope afs_scope.

Definition AFS_BLOCK_SIZE : Z := 4096.
Definition AFS_SECTOR_SIZE : Z := 512.
Definition AFS_SECTORS_PER_BLOCK : Z := 8.

(** ** The device *)
Inductive bio_outcome :=
| BioGood                     (* allocated and transferred *)
| BioAllocFails (err : Z)     (* [bio_alloc] gives an error pointer *)
| BioIoFails.                 (* [submit_bio_wait] returns an error *)

Record block_device := mk_bdev {
  nr_sects : Z;
  sectors : gmap Z (list Z);
  outcomes : list bio_outcome;
}.

Definition sector_at (m : gmap Z (list Z)) (s : Z) : list Z := default (replicate 512 0) (m !! s).

(** [n] consecutive sectors from [s]. *)
Fixpoint get_sectors (m : gmap Z (list Z)) (s : Z) (n : nat) : list Z :=
  match n with
  | O => []
  | S n' => sector_at m s ++ get_sectors m (s + 1) n'
  end.

Fixpoint put_sectors (m : gmap Z (list Z)) (s : Z) (n : nat) (data : list Z) : gmap Z (list Z) :=
  match n with
  | O => m
  | S n' => put_sectors (<[s := take 512 data]> m) (s + 1) n' (drop 512 data)
  end.

(** ** The request *)
Inductive afs_io_type := IO_READ | IO_WRITE | IO_OTHER (n : Z).

Record afs_io := mk_io {
  io_page : list Z;
  io_sector : Z;
  io_size : Z;
  io_type : afs_io_type;
}.

(** [submit_bio_wait]: the device and the page after the transfer. *)
Definition submit_bio_wait (good : bool) (rq : afs_io) (d : block_device) : list Z * block_device :=
  let n := Z.to_nat (io_size rq / AFS_SECTOR_SIZE) in
  if good && (io_sector rq + io_size rq / AFS_SECTOR_SIZE <=? nr_sects d) then
    match io_type rq with
    | IO_WRITE =>
        (io_page rq,
         {| nr_sects := nr_sects d;
            sectors := put_sectors (sectors d) (io_sector rq) n (io_page rq);
            outcomes := outcomes d |})
    | _ => (get_sectors (sectors d) (io_sector rq) n ++ drop (Z.to_nat (io_size rq)) (io_page rq), d)
    end
  else (io_page rq, d).

(** The return code, the page and the device. *)
Definition afs_blkdev_io (rq : afs_io) (d : block_device) : Z * list Z * block_device :=
  let d' := {| nr_sects := nr_sects d; sectors := sectors d; outcomes := tail (outcomes d) |} in
  match head (outcomes d) with
  | Some (BioAllocFails err) => (err, io_page rq, d')
  | o =>
      match io_type rq with
      | IO_OTHER _ => (- EINVAL, io_page rq, d')
      | _ =>
          let good := match o with Some BioIoFails => false | _ => true end in
          let '(page, d'') := submit_bio_wait good rq d' in
          (0, page, d'')
      end
  end.

(** Where the caller's buffer lies: on a page of its own of the linear mapping
    ([kmalloc]; [walkable] says that the page tables have an entry for it where
    [vmalloc_to_page] looks, which depends on how the kernel maps it), on a page
    of its own of [vmalloc], or not on a page, in which case the transfer goes
    through a page of [__get_free_page] whose contents are not initialised
    ([None]: no page is left, and [virt_to_page] is applied to a null
    pointer). *)
Inductive buffer_place :=
| Linear (walkable : bool)
| Vmalloced
| Bounced (free_page : option (list Z)).

(** The function that [used_vmalloc] selects finds the page of the buffer:
    [virt_to_page] computes it for the linear mapping only. *)
Definition page_found (used_vmalloc : bool) (place : buffer_place) : bool :=
  match place with
  | Linear walkable => if used_vmalloc then walkable else true
  | Vmalloced => used_vmalloc
  | Bounced o => match o with Some _ => true | None => false end
  end.

Definition sector_num (block_num sector_offset : Z) : Z :=
  ((block_num *32 AFS_BLOCK_SIZE) / AFS_SECTOR_SIZE) +32 sector_offset.

Definition read_page (place : buffer_place) (page : list Z) (d : block_device)
    (block_num sector_offset : Z) (used_vmalloc : bool) : res (Z * list Z * block_device) :=
  let request p := {| io_page := p; io_sector := sector_num block_num sector_offset;
                      io_size := AFS_BLOCK_SIZE; io_type := IO_READ |} in
  if negb (page_found used_vmalloc place) then Fault else
  match place with
  | Bounced (Some free_page) =>
      let '(ret, bounce, d') := afs_blkdev_io (request free_page) d in
      Ok (ret, take 4096 bounce ++ drop 4096 page, d')
  | _ => Ok (afs_blkdev_io (request page) d)
  end.

Definition write_page (place : buffer_place) (page : list Z) (d : block_device)
    (block_num sector_offset : Z) (used_vmalloc : bool) : res (Z * block_device) :=
  let request p := {| io_page := p; io_sector := sector_num block_num sector_offset;
                      io_size := AFS_BLOCK_SIZE; io_type := IO_WRITE |} in
  if negb (page_found used_vmalloc place) then Fault else
  match place with
  | Bounced (Some free_page) =>
      let '(ret, _, d') := afs_blkdev_io (request (take 4096 page ++ drop 4096 free_page)) d in
      Ok (ret, d')
  | _ => let '(ret, _, d') := afs_blkdev_io (request page) d in Ok (ret, d')
  end.

(** ** Sector lemmas *)
Definition sectors_ok (m : gmap Z (list Z)) : Prop :=
  map_Forall (fun _ l => List.length l = 512%nat) m.

Lemma sector_at_length m s : sectors_ok m -> List.length (sector_at m s) = 512%nat.
Proof.
  intros H. unfold sector_at. destruct (m !! s) as [l|] eqn:E; cbn [default].
  - exact (H s l E).
  - apply length_replicate.
Qed.

Lemma get_sectors_length m s n : sectors_ok m -> List.length (get_sectors m s n) = (512 * n)%nat.
Proof.
  intros H. revert s; induction n as [|n IH]; intros s; cbn [get_sectors]; [done|].
  rewrite length_app, sector_at_length, IH by done. lia.
Qed.

Lemma put_sectors_ok m s n data :
  sectors_ok m -> (512 * n <= List.length data)%nat -> sectors_ok (put_sectors m s n data).
Proof.
  revert m s data; induction n as [|n IH]; intros m s data Hm Hl; cbn [put_sectors]; [done|].
  apply IH; [|rewrite length_drop; lia].
  apply map_Forall_insert_2; [rewrite length_take; lia|done].
Qed.

Lemma put_sectors_other m s n data k :
  (k < s \/ s + Z.of_nat n <= k) -> put_sectors m s n data !! k = m !! k.
Proof.
  revert m s data; induction n as [|n IH]; intros m s data Hk; cbn [put_sectors]; [done|].
  rewrite IH by lia. apply lookup_insert_ne. lia.
Qed.

Lemma get_sectors_ext m m' s n :
  (forall k, s <= k < s + Z.of_nat n -> m !! k = m' !! k) -> get_sectors m s n = get_sectors m' s n.
Proof.
  revert s; induction n as [|n IH]; intros s H; cbn [get_sectors]; [done|].
  unfold sector_at. rewrite (H s) by lia. f_equal. apply IH. intros. apply H. lia.
Qed.

Lemma get_put_sectors m s n data :
  (512 * n <= List.length data)%nat ->
  get_sectors (put_sectors m s n data) s n = take (512 * n) data.
Proof.
  revert m s data; induction n as [|n IH]; intros m s data Hl; cbn [get_sectors put_sectors].
  { done. }
  rewrite IH by (rewrite length_drop; lia).
  unfold sector_at. rewrite put_sectors_other by lia. rewrite lookup_insert_eq. cbn [default].
  replace (512 * S n)%nat with (512 + 512 * n)%nat by lia.
  by rewrite <- take_take_drop.
Qed.

Lemma get_put_sectors_disjoint m s n data s' n' :
  (s' + Z.of_nat n' <= s \/ s + Z.of_nat n <= s') ->
  get_sectors (put_sectors m s n data) s' n' = get_sectors m s' n'.
Proof. intros H. apply get_sectors_ext. intros k Hk. apply put_sectors_other. lia. Qed.

(** ** Blocks

    [block_at d off b]: the 4096 bytes of block [b], for a data area that
    starts at sector [off]. *)
Definition block_at (d : block_device) (off b : Z) : list Z :=
  get_sectors (sectors d) (sector_num b off) 8.

(** A block number whose sectors are computed without wrapping and lie on
    the device. *)
Definition on_device (d : block_device) (off b : Z) : Prop :=
  0 <= b < 2 ^ 20 /\ 0 <= off < 2 ^ 31 /\ 8 * b + off + 8 <= nr_sects d.

(** A device on which every transfer succeeds. *)
Definition dev_ok (d : block_device) : Prop := outcomes d = [] /\ sectors_ok (sectors d).

Lemma sector_num_small b off :
  0 <= b < 2 ^ 20 -> 0 <= off < 2 ^ 31 -> sector_num b off = 8 * b + off.
Proof. intros. unfold sector_num, AFS_BLOCK_SIZE, AFS_SECTOR_SIZE. zlia. Qed.

Definition set_block (d : block_device) (off b : Z) (page : list Z) : block_device :=
  {| nr_sects := nr_sects d;
     sectors := put_sectors (sectors d) (sector_num b off) 8 page;
     outcomes := outcomes d |}.

Lemma block_at_length d off b : dev_ok d -> List.length (block_at d off b) = 4096%nat.
Proof. intros [_ H]. unfold block_at. by rewrite get_sectors_length. Qed.

Lemma set_block_ok d off b page :
  dev_ok d -> List.length page = 4096%nat -> dev_ok (set_block d off b page).
Proof. intros [? ?] Hl. split; [done|]. apply put_sectors_ok; [done|lia]. Qed.

Lemma set_block_on_device d off b page off' b' :
  on_device (set_block d off b page) off' b' <-> on_device d off' b'.
Proof. done. Qed.

Lemma block_at_set d off b page :
  List.length page = 4096%nat -> block_at (set_block d off b page) off b = page.
Proof.
  intros Hl. unfold block_at, set_block. cbn [sectors].
  rewrite get_put_sectors by lia. apply take_ge. lia.
Qed.

Lemma block_at_set_ne d off b b' page :
  on_device d off b -> on_device d off b' -> b <> b' ->
  block_at (set_block d off b page) off b' = block_at d off b'.
Proof.
  intros (? & ? & ?) (? & ? & ?) Hne. unfold block_at, set_block. cbn [sectors].
  apply get_put_sectors_disjoint. rewrite !sector_num_small by done. lia.
Qed.

Lemma submit_in_range d rq :
  io_sector rq + io_size rq / AFS_SECTOR_SIZE <= nr_sects d ->
  (io_sector rq + io_size rq / AFS_SECTOR_SIZE <=? nr_sects d) = true.
Proof. apply Z.leb_le. Qed.

(** On a good device the four combinations of direction and buffer place are
    [block_at] and [set_block]. *)
Definition place_ok (used_vmalloc : bool) (p : buffer_place) : Prop :=
  page_found used_vmalloc p = true /\ match p with Bounced (Some f) => List.length f = 4096%nat | _ => True end.

Lemma read_page_good p page d b off u :
  dev_ok d -> on_device d off b -> place_ok u p -> List.length page = 4096%nat ->
  read_page p page d b off u = Ok (0, block_at d off b, d).
Proof.
  intros [Ho Hs] (Hb & Hoff & Hn) [Hf Hp] Hpage. destruct d as [ns m os].
  cbn [outcomes sectors nr_sects] in Ho, Hs, Hn. subst os.
  assert (Hle : (sector_num b off + 8 <=? ns) = true).
  { apply Z.leb_le. rewrite sector_num_small by done. lia. }
  assert (Hlen : List.length (get_sectors m (sector_num b off) 8) = 4096%nat)
    by by rewrite get_sectors_length.
  unfold read_page, block_at. rewrite Hf. cbn [sectors negb].
  destruct p as [w| |[f|]]; [| | |discriminate Hf];
    unfold afs_blkdev_io, submit_bio_wait; cbn [head outcomes io_type tail nr_sects io_sector io_size sectors io_page];
    change (AFS_BLOCK_SIZE / AFS_SECTOR_SIZE) with 8; rewrite Hle; cbn [andb];
    change (Z.to_nat 8) with 8%nat; change (Z.to_nat AFS_BLOCK_SIZE) with 4096%nat.
  - by rewrite (drop_ge page), app_nil_r by lia.
  - by rewrite (drop_ge page), app_nil_r by lia.
  - rewrite (drop_ge f), (drop_ge page), !app_nil_r by lia.
    by rewrite take_ge by (rewrite Hlen; lia).
Qed.

Lemma write_page_good p page d b off u :
  dev_ok d -> on_device d off b -> place_ok u p -> List.length page = 4096%nat ->
  write_page p page d b off u = Ok (0, set_block d off b page).
Proof.
  intros [Ho Hs] (Hb & Hoff & Hn) [Hf Hp] Hpage. destruct d as [ns m os].
  cbn [outcomes sectors nr_sects] in Ho, Hs, Hn. subst os.
  assert (Hle : (sector_num b off + 8 <=? ns) = true).
  { apply Z.leb_le. rewrite sector_num_small by done. lia. }
  unfold write_page, set_block. rewrite Hf. cbn [sectors nr_sects outcomes negb].
  destruct p as [w| |[f|]]; [| | |discriminate Hf];
    unfold afs_blkdev_io, submit_bio_wait; cbn [head outcomes io_type tail nr_sects io_sector io_size sectors io_page];
    change (AFS_BLOCK_SIZE / AFS_SECTOR_SIZE) with 8; rewrite Hle; cbn [andb];
    change (Z.to_nat 8) with 8%nat.
  - done.
  - done.
  - by rewrite (drop_ge f), app_nil_r, take_ge by lia.
Qed.

(** The devices agree on the sectors below [s]. *)
Definition same_below (s : Z) (d d' : block_device) : Prop := forall k, k < s -> sectors d' !! k = sectors d !! k.

#[global] Instance same_below_preorder s : PreOrder (same_below s).
Proof. split; [done|]. intros d1 d2 d3 H1 H2 k Hk. by rewrite H2, H1. Qed.

Lemma set_block_below d off b page : on_device d off b -> same_below off d (set_block d off b page).
Proof.
  intros (Hb & Hoff & _) k Hk. unfold set_block. cbn [sectors]. apply put_sectors_other. left. rewrite sector_num_small by done. lia.
Qed.

(** ** Consecutive pages from the start of the device *)
Lemma get_sectors_app m s n k : get_sectors m s (n + k) = get_sectors m s n ++ get_sectors m (s + Z.of_nat n) k.
Proof.
  revert s; induction n as [|n IH]; intros s; cbn [Nat.add get_sectors app]; [by rewrite Z.add_0_r|].
  rewrite IH, <- app_assoc. do 2 f_equal. f_equal. lia.
Qed.

Definition pages_at (d : block_device) (a : Z) (n : nat) : list Z := get_sectors (sectors d) (8 * a) (8 * n).

Lemma pages_at_length d a n : dev_ok d -> List.length (pages_at d a n) = (4096 * n)%nat.
Proof. intros [_ H]. unfold pages_at. rewrite get_sectors_length by done. lia. Qed.

Lemma pages_at_S d a n : 0 <= a -> a + Z.of_nat n < 2 ^ 20 ->
  pages_at d a (S n) = pages_at d a n ++ block_at d 0 (a + Z.of_nat n).
Proof.
  intros Ha Hn. unfold pages_at, block_at. rewrite sector_num_small by lia. replace (8 * S n)%nat with (8 * n + 8)%nat by lia.
  rewrite get_sectors_app. do 2 f_equal. lia.
Qed.

(** A buffer whose first [n] pages have been read from the device. *)
Definition reading (d : block_device) (a : Z) (n : nat) (init : list Z) : list Z := pages_at d a n ++ drop (4096 * n) init.

Lemma reading_length d a n init : dev_ok d -> (4096 * n <= List.length init)%nat -> List.length (reading d a n init) = List.length init.
Proof. intros Hd Hl. unfold reading. rewrite length_app, pages_at_length, length_drop by done. lia. Qed.

Lemma reading_all d a n init : List.length init = (4096 * n)%nat -> reading d a n init = pages_at d a n.
Proof. intros Hl. unfold reading. by rewrite drop_ge, app_nil_r by lia. Qed.

Lemma reading_S d a n init : dev_ok d -> 0 <= a -> a + Z.of_nat n < 2 ^ 20 -> (4096 * S n <= List.length init)%nat ->
  splice (4096 * n) (block_at d 0 (a + Z.of_nat n)) (reading d a n init) = Some (reading d a (S n) init).
Proof.
  intros Hd Ha Hn Hl. pose proof (block_at_length d 0 (a + Z.of_nat n) Hd) as Hb.
  rewrite splice_Some by (rewrite reading_length, Hb by (done || lia); lia). f_equal. unfold reading.
  rewrite pages_at_S, <- app_assoc by done. rewrite take_app_length' by by rewrite pages_at_length.
  do 2 f_equal. rewrite drop_app_ge by (rewrite pages_at_length; (done || lia)). rewrite pages_at_length, drop_drop, Hb by done. f_equal. lia.
Qed.

(** ** Properties of page transfers *)

(** On a device whose transfers succeed, [write_page] followed by
    [read_page] of the same block gives the page back, every other block is
    untouched, and both calls return 0; for page-aligned and for bounced
    buffers whose page is found alike, for block numbers below 2^20. *)
Theorem page_io_roundtrip p q page buf d b off u w :
  dev_ok d -> on_device d off b -> place_ok u p -> place_ok w q ->
  List.length page = 4096%nat -> List.length buf = 4096%nat ->
  exists d', write_page p page d b off u = Ok (0, d') /\
    read_page q buf d' b off w = Ok (0, page, d') /\
    forall b', on_device d off b' -> b' <> b ->
      read_page q buf d' b' off w = Ok (0, block_at d off b', d').
Proof.
  intros Hd Hb Hp Hq Hpage Hbuf. pose proof (set_block_ok d off b page Hd Hpage) as Hd'.
  exists (set_block d off b page). split; [by apply write_page_good|]. split.
  - rewrite read_page_good by done. by rewrite block_at_set.
  - intros b' Hb' Hne. rewrite read_page_good by done. by rewrite block_at_set_ne.
Qed.

Definition empty_device (n : Z) : block_device :=
  {| nr_sects := n; sectors := ∅; outcomes := [] |}.

Lemma empty_device_ok n : dev_ok (empty_device n).
Proof. split; [done|]. apply map_Forall_empty. Qed.

Lemma page_io_roundtrip_witness :
  exists d', write_page (Linear false) (replicate 4096 7) (empty_device 800) 3 16 false = Ok (0, d') /\
    read_page (Bounced (Some (replicate 4096 0))) (replicate 4096 1) d' 3 16 true
    = Ok (0, replicate 4096 7, d').
Proof.
  destruct (page_io_roundtrip (Linear false) (Bounced (Some (replicate 4096 0))) (replicate 4096 7)
    (replicate 4096 1) (empty_device 800) 3 16 false true (empty_device_ok 800)
    ltac:(unfold on_device, empty_device; cbn; lia) (conj eq_refl I)
    (conj eq_refl (length_replicate _ _))
    ltac:(apply length_replicate) ltac:(apply length_replicate)) as (d' & Hw & Hr & _).
  exists d'. split; assumption.
Defined.

(** The sector number is computed in 32 bits before it is widened, so
    blocks [b] and [b + 2^20] (4 GiB apart) are the same sectors: writing one
    overwrites the other. *)
Theorem page_io_aliases p q page buf d b off u w :
  dev_ok d -> on_device d off b -> place_ok u p -> place_ok w q ->
  List.length page = 4096%nat -> List.length buf = 4096%nat ->
  exists d', write_page p page d (b + 2 ^ 20) off u = Ok (0, d') /\
    read_page q buf d' b off w = Ok (0, page, d').
Proof.
  intros Hd Hb Hp Hq Hpage Hbuf. exists (set_block d off b page).
  assert (E : sector_num (b + 2 ^ 20) off = sector_num b off).
  { unfold sector_num, AFS_BLOCK_SIZE. do 3 f_equal. zlia. }
  split.
  - rewrite <- (write_page_good p page d b off u) by done. unfold write_page. by rewrite E.
  - rewrite read_page_good by (done || by apply set_block_ok). by rewrite block_at_set.
Qed.

Lemma page_io_aliases_witness :
  exists d', write_page (Linear false) (replicate 4096 7) (empty_device 800) (3 + 2 ^ 20) 16 false = Ok (0, d') /\
    read_page Vmalloced (replicate 4096 1) d' 3 16 true = Ok (0, replicate 4096 7, d').
Proof.
  exact (page_io_aliases (Linear false) Vmalloced (replicate 4096 7) (replicate 4096 1)
    (empty_device 800) 3 16 false true (empty_device_ok 800)
    ltac:(unfold on_device, empty_device; cbn; lia) (conj eq_refl I) (conj eq_refl I)
    ltac:(apply length_replicate) ltac:(apply length_replicate)).
Defined.

(** C37: a transfer that the device fails, or that runs past its end, is
    reported as a success: [write_page] returns 0 and no sector changes,
    wherever the buffer lies. *)
Theorem write_error_is_lost p page d b off u : page_found u p = true ->
  (exists os, outcomes d = BioIoFails :: os) \/
  (outcomes d = [] /\ nr_sects d < sector_num b off + 8) ->
  exists d', write_page p page d b off u = Ok (0, d') /\ sectors d' = sectors d.
Proof.
  intros Hf H. unfold write_page. rewrite Hf. cbn [negb].
  assert (E : forall pg, exists d', afs_blkdev_io (mk_io pg (sector_num b off) AFS_BLOCK_SIZE IO_WRITE) d = (0, pg, d') /\ sectors d' = sectors d).
  { intros pg. unfold afs_blkdev_io, submit_bio_wait. destruct H as [[os Ho]|[Ho Hn]]; rewrite Ho; cbn [head io_type io_sector io_size nr_sects].
    - cbn [andb]. by eexists.
    - change (AFS_BLOCK_SIZE / AFS_SECTOR_SIZE) with 8. rewrite (proj2 (Z.leb_gt _ _) Hn). cbn [andb]. by eexists. }
  destruct p as [w| |[f|]]; [| | |discriminate Hf];
    match goal with |- context [afs_blkdev_io (mk_io ?pg _ _ _) d] => destruct (E pg) as (d' & -> & Hs) end; by eexists.
Qed.

Lemma write_error_is_lost_witness :
  exists d', write_page Vmalloced (replicate 4096 7) (empty_device 8) 3 0 true = Ok (0, d') /\ sectors d' = ∅.
Proof.
  exact (write_error_is_lost Vmalloced (replicate 4096 7) (empty_device 8) 3 0 true eq_refl
    (or_intror (conj eq_refl eq_refl))).
Defined.
