(* ===== verification/Format.v ===== *)
(** * Format: on-disk structures (include/dm_afs_format.h, include/dm_afs_config.h)

    The packed structures as records with their byte layout. A pointer cast
    between a structure and the page that holds it is [*_bytes] in one
    direction and [*_of_bytes] in the other. *)
From stdpp Require Import base tactics option list numbers gmap.
From Stdlib Require Import ZArith Lia.
From S2P Require Import Prelude.

Local Open Scope Z_scope.

Definition NUM_MAP_BLKS_IN_SB : Z := 975.
Definition NUM_MAP_BLKS_IN_PB : Z := 1019.
Definition NUM_SUPERBLOCK_REPLICAS : Z := 8.
Definition PASSPHRASE_SZ : Z := 64.
Definition ENTROPY_DIR_SZ : Z := 64.
Definition ENTROPY_HASH_SZ : Z := 8.
Definition CARRIER_HASH_SZ : Z := 32.
Definition SHA1_SZ : Z := 20.
Definition SHA128_SZ : Z := 16.
Definition SHA256_SZ : Z := 32.
Definition SHA512_SZ : Z := 64.

(** [strncpy]: up to the terminating zero, padded with zeros. *)
Fixpoint strncpy (n : nat) (src : list Z) : list Z :=
  match n, src with
  | O, _ => []
  | S n', x :: t => if x =? 0 then replicate n 0 else x :: strncpy n' t
  | S _, [] => replicate n 0
  end.

Lemma strncpy_length n src : List.length (strncpy n src) = n.
Proof.
  revert src; induction n as [|n IH]; intros [|x t]; cbn [strncpy]; try done.
  - apply length_replicate.
  - destruct (x =? 0); [apply length_replicate|]. cbn. by rewrite IH.
Qed.

(** ** Splitting a buffer into consecutive fields *)
Lemma take_app_field {A} (l k : list A) n : List.length l = n -> take n (l ++ k) = l.
Proof. intros <-. apply take_app_length. Qed.

Lemma drop_app_field {A} (l k : list A) n : List.length l = n -> drop n (l ++ k) = k.
Proof. intros <-. apply drop_app_length. Qed.

Lemma le_store_load_take n (l : list Z) :
  bytes l -> (n <= List.length l)%nat -> le_store n (le_load (take n l)) = take n l.
Proof.
  intros Hb Hl. assert (Ht : List.length (take n l) = n) by (rewrite length_take; lia).
  rewrite <- Ht at 1. apply le_store_load. by apply Forall_take.
Qed.

(** ** Arrays of little-endian 32-bit words *)
Definition u32s_bytes (l : list Z) : list Z := concat (map (le_store 4) l).

Fixpoint u32s_of_bytes (n : nat) (bs : list Z) : list Z :=
  match n with
  | O => []
  | S n' => le_load (take 4 bs) :: u32s_of_bytes n' (drop 4 bs)
  end.

Lemma u32s_bytes_length l : List.length (u32s_bytes l) = (4 * List.length l)%nat.
Proof.
  unfold u32s_bytes. induction l as [|x l IH]; cbn [concat map]; [done|].
  rewrite length_app, le_store_length, IH. cbn [List.length]. lia.
Qed.

Lemma u32s_bytes_bytes l : bytes (u32s_bytes l).
Proof.
  unfold u32s_bytes. induction l; cbn [concat map]; [constructor|].
  apply Forall_app_2; [apply le_store_bytes|done].
Qed.

Lemma u32s_of_bytes_length n bs : List.length (u32s_of_bytes n bs) = n.
Proof. revert bs; induction n; intros; cbn; auto. Qed.

Lemma u32s_of_u32s_bytes l rest :
  Forall (in_range 32) l -> u32s_of_bytes (List.length l) (u32s_bytes l ++ rest) = l.
Proof.
  induction 1 as [|x l Hx Hl IH]; cbn [List.length u32s_of_bytes]; [done|].
  unfold u32s_bytes. cbn [concat map]. rewrite <- app_assoc.
  rewrite take_app_field by apply le_store_length.
  rewrite drop_app_field by apply le_store_length.
  fold (u32s_bytes l). rewrite IH, le_load_store. f_equal. by apply Z.mod_small.
Qed.

Lemma u32s_bytes_of_bytes n bs :
  bytes bs -> List.length bs = (4 * n)%nat -> u32s_bytes (u32s_of_bytes n bs) = bs.
Proof.
  revert bs; induction n as [|n IH]; intros bs Hb Hl; cbn [u32s_of_bytes].
  { by destruct bs. }
  unfold u32s_bytes. cbn [concat map]. fold (u32s_bytes (u32s_of_bytes n (drop 4 bs))).
  rewrite IH; [|by apply Forall_drop|rewrite length_drop; lia].
  rewrite le_store_load_take by (done || lia). apply take_drop.
Qed.

Lemma u32s_of_bytes_take n l : u32s_of_bytes n (take (4 * n) l) = u32s_of_bytes n l.
Proof.
  revert l; induction n as [|n IH]; intros l; cbn [u32s_of_bytes]; [done|]. f_equal.
  - by rewrite take_take, Nat.min_l by lia.
  - rewrite <- (IH (drop 4 l)). f_equal. rewrite skipn_firstn_comm. f_equal. lia.
Qed.

(** An array field followed by one more word. *)
Lemma u32s_word_bytes n b :
  bytes b -> List.length b = (4 * n + 4)%nat ->
  u32s_bytes (u32s_of_bytes n b) ++ le_store 4 (le_load (take 4 (drop (4 * n) b))) = b.
Proof.
  intros Hb Hl. rewrite le_store_load_take; [|by apply Forall_drop|rewrite length_drop; lia].
  rewrite (take_ge (drop _ b)) by (rewrite length_drop; lia).
  rewrite <- u32s_of_bytes_take, u32s_bytes_of_bytes, take_drop; [done|by apply Forall_take|].
  rewrite length_take; lia.
Qed.

Lemma u32s_of_bytes_range n bs :
  bytes bs -> List.length bs = (4 * n)%nat -> Forall (in_range 32) (u32s_of_bytes n bs).
Proof.
  revert bs; induction n as [|n IH]; intros bs Hb Hl; cbn [u32s_of_bytes]; constructor.
  - assert (Ht : List.length (take 4 bs) = 4%nat) by (rewrite length_take; lia).
    pose proof (le_load_range (take 4 bs) (Forall_take _ _ _ Hb)) as H. rewrite Ht in H. exact H.
  - apply IH; [by apply Forall_drop|rewrite length_drop; lia].
Qed.

(** ** [struct afs_super_block] *)
Record afs_super_block := mk_sb {
  sb_hash : list Z;
  sb_pass_hash : list Z;          (* [hash] *)
  sb_instance_size : Z;
  sb_reserved : list Z;
  sb_entropy_dir : list Z;
  sb_shadow_passphrase : list Z;
  sb_map_block_ptrs : list Z;
  sb_first_ptr_block : Z;
}.

(** Everything after [sb_hash]: what the hash covers. *)
Definition sb_body (sb : afs_super_block) : list Z :=
  sb_pass_hash sb ++ le_store 8 (sb_instance_size sb) ++ sb_reserved sb ++ sb_entropy_dir sb ++
  sb_shadow_passphrase sb ++ u32s_bytes (sb_map_block_ptrs sb) ++ le_store 4 (sb_first_ptr_block sb).

Definition sb_bytes (sb : afs_super_block) : list Z := sb_hash sb ++ sb_body sb.

Definition sb_of_bytes (bs : list Z) : afs_super_block :=
  let b1 := drop 32 bs in let b2 := drop 20 b1 in let b3 := drop 8 b2 in
  let b4 := drop 4 b3 in let b5 := drop 64 b4 in let b6 := drop 64 b5 in
  {| sb_hash := take 32 bs;
     sb_pass_hash := take 20 b1;
     sb_instance_size := le_load (take 8 b2);
     sb_reserved := take 4 b3;
     sb_entropy_dir := take 64 b4;
     sb_shadow_passphrase := take 64 b5;
     sb_map_block_ptrs := u32s_of_bytes 975 b6;
     sb_first_ptr_block := le_load (take 4 (drop 3900 b6)) |}.

Definition sb_wf (sb : afs_super_block) : Prop :=
  List.length (sb_hash sb) = 32%nat /\ List.length (sb_pass_hash sb) = 20%nat /\
  List.length (sb_reserved sb) = 4%nat /\ List.length (sb_entropy_dir sb) = 64%nat /\
  List.length (sb_shadow_passphrase sb) = 64%nat /\
  List.length (sb_map_block_ptrs sb) = 975%nat /\
  in_range 64 (sb_instance_size sb) /\ in_range 32 (sb_first_ptr_block sb) /\
  Forall (in_range 32) (sb_map_block_ptrs sb).

Lemma sb_body_length sb : sb_wf sb -> List.length (sb_body sb) = 4064%nat.
Proof.
  intros (? & ? & ? & ? & ? & Hp & _). unfold sb_body.
  rewrite !length_app, !le_store_length, u32s_bytes_length, Hp. lia.
Qed.

Lemma sb_bytes_length sb : sb_wf sb -> List.length (sb_bytes sb) = 4096%nat.
Proof.
  intros H. unfold sb_bytes. rewrite length_app, sb_body_length by done.
  destruct H as (-> & _). done.
Qed.

Lemma sb_of_sb_bytes sb : sb_wf sb -> sb_of_bytes (sb_bytes sb) = sb.
Proof.
  intros (H1 & H2 & H3 & H4 & H5 & H6 & H7 & H8 & H9). unfold sb_of_bytes, sb_bytes, sb_body.
  repeat first [ rewrite (drop_app_field (sb_hash sb)) by done
               | rewrite (drop_app_field (sb_pass_hash sb)) by done
               | rewrite (drop_app_field (le_store 8 _)) by apply le_store_length
               | rewrite (drop_app_field (sb_reserved sb)) by done
               | rewrite (drop_app_field (sb_entropy_dir sb)) by done
               | rewrite (drop_app_field (sb_shadow_passphrase sb)) by done ].
  rewrite (drop_app_field (u32s_bytes _)) by (rewrite u32s_bytes_length, H6; done).
  rewrite !take_app_field by (done || apply le_store_length).
  rewrite (take_ge (le_store 4 _)) by (rewrite le_store_length; done).
  rewrite <- H6, u32s_of_u32s_bytes by done. rewrite !le_load_store.
  change (256 ^ Z.of_nat 8) with (2 ^ 64). change (256 ^ Z.of_nat 4) with (2 ^ 32).
  rewrite !Z.mod_small by done. by destruct sb.
Qed.

Lemma sb_bytes_of_bytes bs :
  bytes bs -> List.length bs = 4096%nat -> sb_bytes (sb_of_bytes bs) = bs.
Proof.
  intros Hb Hl. unfold sb_bytes, sb_body, sb_of_bytes. cbn [sb_hash sb_pass_hash sb_instance_size
    sb_reserved sb_entropy_dir sb_shadow_passphrase sb_map_block_ptrs sb_first_ptr_block].
  rewrite (le_store_load_take 8) by (repeat apply Forall_drop; done || rewrite !length_drop, Hl; lia).
  change 3900%nat with (4 * 975)%nat. rewrite u32s_word_bytes.
  - by rewrite !take_drop.
  - by repeat apply Forall_drop.
  - rewrite !length_drop, Hl. done.
Qed.

Lemma sb_of_bytes_wf bs :
  bytes bs -> List.length bs = 4096%nat -> sb_wf (sb_of_bytes bs).
Proof.
  intros Hb Hl. unfold sb_wf, sb_of_bytes. cbn [sb_hash sb_pass_hash sb_instance_size
    sb_reserved sb_entropy_dir sb_shadow_passphrase sb_map_block_ptrs sb_first_ptr_block].
  rewrite !length_take, !length_drop, Hl, u32s_of_bytes_length.
  repeat match goal with |- _ /\ _ => split end; try done.
  - pose proof (le_load_range (take 8 (drop 20 (drop 32 bs)))) as H.
    rewrite length_take, !length_drop, Hl in H. apply H. apply Forall_take. by repeat apply Forall_drop.
  - match goal with |- in_range 32 (le_load ?l) => pose proof (le_load_range l) as H end.
    rewrite length_take, !length_drop, Hl in H. apply H. apply Forall_take. by repeat apply Forall_drop.
  - rewrite <- u32s_of_bytes_take. apply u32s_of_bytes_range.
    + apply Forall_take. by repeat apply Forall_drop.
    + by rewrite length_take, !length_drop, Hl.
Qed.

(** The super block occupies exactly one 4096-byte block; reading the
    bytes written for a super block gives it back, and every 4096-byte block
    is the image of the super block read from it. *)
Theorem super_block_roundtrip :
  (forall sb, sb_wf sb -> List.length (sb_bytes sb) = 4096%nat /\ sb_of_bytes (sb_bytes sb) = sb) /\
  (forall bs, bytes bs -> List.length bs = 4096%nat ->
     sb_wf (sb_of_bytes bs) /\ sb_bytes (sb_of_bytes bs) = bs).
Proof.
  split; intros; split; auto using sb_bytes_length, sb_of_sb_bytes, sb_of_bytes_wf, sb_bytes_of_bytes.
Qed.

Lemma super_block_roundtrip_witness :
  sb_bytes (sb_of_bytes (replicate 4096 3)) = replicate 4096 3.
Proof.
  refine (proj2 (proj2 super_block_roundtrip (replicate 4096 3) _ _)).
  - apply Forall_replicate. done.
  - apply length_replicate.
Defined.

(** ** [struct afs_ptr_block] *)
Record afs_ptr_block := mk_pb {
  pb_hash : list Z;
  pb_map_block_ptrs : list Z;
  pb_next_ptr_block : Z;
}.

(** Everything after [hash]. *)
Definition pb_body (pb : afs_ptr_block) : list Z :=
  u32s_bytes (pb_map_block_ptrs pb) ++ le_store 4 (pb_next_ptr_block pb).

Definition pb_bytes (pb : afs_ptr_block) : list Z := pb_hash pb ++ pb_body pb.

Definition pb_of_bytes (bs : list Z) : afs_ptr_block :=
  {| pb_hash := take 16 bs;
     pb_map_block_ptrs := u32s_of_bytes 1019 (drop 16 bs);
     pb_next_ptr_block := le_load (take 4 (drop 4076 (drop 16 bs))) |}.

Definition pb_wf (pb : afs_ptr_block) : Prop :=
  List.length (pb_hash pb) = 16%nat /\ List.length (pb_map_block_ptrs pb) = 1019%nat /\
  in_range 32 (pb_next_ptr_block pb) /\ Forall (in_range 32) (pb_map_block_ptrs pb).

Lemma pb_bytes_length pb : pb_wf pb -> List.length (pb_bytes pb) = 4096%nat.
Proof.
  intros (H1 & H2 & _). unfold pb_bytes, pb_body.
  rewrite !length_app, le_store_length, u32s_bytes_length, H1, H2. done.
Qed.

Lemma pb_of_pb_bytes pb : pb_wf pb -> pb_of_bytes (pb_bytes pb) = pb.
Proof.
  intros (H1 & H2 & H3 & H4). unfold pb_of_bytes, pb_bytes, pb_body.
  rewrite (drop_app_field (pb_hash pb)) by done.
  rewrite (drop_app_field (u32s_bytes _)) by (rewrite u32s_bytes_length, H2; done).
  rewrite (take_app_field (pb_hash pb)) by done.
  rewrite (take_ge (le_store 4 _)) by (rewrite le_store_length; done).
  rewrite <- H2, u32s_of_u32s_bytes, le_load_store by done.
  change (256 ^ Z.of_nat 4) with (2 ^ 32). rewrite Z.mod_small by done. by destruct pb.
Qed.

Lemma pb_bytes_of_bytes bs :
  bytes bs -> List.length bs = 4096%nat -> pb_bytes (pb_of_bytes bs) = bs.
Proof.
  intros Hb Hl. unfold pb_bytes, pb_body, pb_of_bytes. cbn [pb_hash pb_map_block_ptrs pb_next_ptr_block].
  change 4076%nat with (4 * 1019)%nat. rewrite u32s_word_bytes; [by rewrite take_drop| |].
  - by apply Forall_drop.
  - rewrite !length_drop, Hl. done.
Qed.

(** A pointer block occupies exactly one block and is read back as it was
    written, in both directions. *)
Theorem ptr_block_roundtrip :
  (forall pb, pb_wf pb -> List.length (pb_bytes pb) = 4096%nat /\ pb_of_bytes (pb_bytes pb) = pb) /\
  (forall bs, bytes bs -> List.length bs = 4096%nat -> pb_bytes (pb_of_bytes bs) = bs).
Proof.
  split; intros; try split; auto using pb_bytes_length, pb_of_pb_bytes, pb_bytes_of_bytes.
Qed.

Lemma ptr_block_roundtrip_witness :
  pb_bytes (pb_of_bytes (replicate 4096 3)) = replicate 4096 3.
Proof.
  refine (proj2 ptr_block_roundtrip (replicate 4096 3) _ _).
  - apply Forall_replicate. done.
  - apply length_replicate.
Defined.

(** ** [struct afs_map_tuple], 6 bytes inside the Artifice map *)
Record afs_map_tuple := mk_tuple { carrier_block_ptr : Z; checksum : Z }.

Definition map_tuple_sz : Z := 6.

Definition tuple_bytes (t : afs_map_tuple) : list Z :=
  le_store 4 (carrier_block_ptr t) ++ le_store 2 (checksum t).

Definition tuple_of_bytes (bs : list Z) : afs_map_tuple :=
  {| carrier_block_ptr := le_load (take 4 bs); checksum := le_load (take 2 (drop 4 bs)) |}.

Lemma tuple_bytes_length t : List.length (tuple_bytes t) = 6%nat.
Proof. unfold tuple_bytes. by rewrite length_app, !le_store_length. Qed.

Lemma tuple_of_tuple_bytes t rest :
  in_range 32 (carrier_block_ptr t) -> in_range 16 (checksum t) ->
  tuple_of_bytes (tuple_bytes t ++ rest) = t.
Proof.
  intros H1 H2. unfold tuple_of_bytes, tuple_bytes. rewrite <- app_assoc.
  rewrite drop_app_field by apply le_store_length.
  rewrite !take_app_field by apply le_store_length. rewrite !le_load_store.
  change (256 ^ Z.of_nat 2) with (2 ^ 16). change (256 ^ Z.of_nat 4) with (2 ^ 32).
  rewrite !Z.mod_small by done. by destruct t.
Qed.

(** ** [struct afs_config] *)
Record afs_config := mk_config {
  num_carrier_blocks : Z;
  threshold : Z;
  num_entropy_blocks : Z;
  map_entry_sz : Z;
  unused_space_per_block : Z;
  num_map_entries_per_block : Z;
  num_blocks : Z;
  num_map_blocks : Z;
  num_ptr_blocks : Z;
  instance_size : Z;
  bdev_size : Z;
}.
