(* ===== verification/Metadata.v ===== *)
(** * Metadata: super block, pointer blocks and the Artifice map (src/dm_afs_metadata.c)

    The context is the part of [struct afs_private] that the metadata code
    reads and writes, together with the state of what it calls: the device,
    the random values to come and the outcomes of memory allocations. A
    function of the source that returns a status returns it with the new
    context. The kernel's hash functions are parameters. *)
From stdpp Require Import base tactics option list numbers gmap.
From Stdlib Require Import ZArith Lia.
From S2P Require Import Prelude BitVector Allocation BlockIo Format.

Local Open Scope Z_scope.
Local Open Scope afs_scope.

Definition ENOENT : Z := 2.
Definition EIO : Z := 5.
Definition ENOMEM : Z := 12.
Definition ENOSPC : Z := 28.

(** ** The context *)
Record afs_private := mk_private {
  config : afs_config;
  super_block : afs_super_block;
  passive_fs : afs_passive_fs;
  vector : option bit_vector_t;
  afs_map : list Z;
  afs_map_blocks : list Z;
  afs_ptr_blocks : list afs_ptr_block;
  passphrase : list Z;
  args_entropy_dir : list Z;
  bdev : block_device;
  rng : list Z;
  allocs : list bool;
}.

Definition set_config x c := mk_private x (super_block c) (passive_fs c) (vector c) (afs_map c)
  (afs_map_blocks c) (afs_ptr_blocks c) (passphrase c) (args_entropy_dir c) (bdev c) (rng c) (allocs c).
Definition set_super_block x c := mk_private (config c) x (passive_fs c) (vector c) (afs_map c)
  (afs_map_blocks c) (afs_ptr_blocks c) (passphrase c) (args_entropy_dir c) (bdev c) (rng c) (allocs c).
Definition set_vector x c := mk_private (config c) (super_block c) (passive_fs c) x (afs_map c)
  (afs_map_blocks c) (afs_ptr_blocks c) (passphrase c) (args_entropy_dir c) (bdev c) (rng c) (allocs c).
Definition set_map x c := mk_private (config c) (super_block c) (passive_fs c) (vector c) x
  (afs_map_blocks c) (afs_ptr_blocks c) (passphrase c) (args_entropy_dir c) (bdev c) (rng c) (allocs c).
Definition set_map_blocks x c := mk_private (config c) (super_block c) (passive_fs c) (vector c) (afs_map c)
  x (afs_ptr_blocks c) (passphrase c) (args_entropy_dir c) (bdev c) (rng c) (allocs c).
Definition set_ptr_blocks x c := mk_private (config c) (super_block c) (passive_fs c) (vector c) (afs_map c)
  (afs_map_blocks c) x (passphrase c) (args_entropy_dir c) (bdev c) (rng c) (allocs c).
Definition set_bdev x c := mk_private (config c) (super_block c) (passive_fs c) (vector c) (afs_map c)
  (afs_map_blocks c) (afs_ptr_blocks c) (passphrase c) (args_entropy_dir c) x (rng c) (allocs c).
Definition set_rng x c := mk_private (config c) (super_block c) (passive_fs c) (vector c) (afs_map c)
  (afs_map_blocks c) (afs_ptr_blocks c) (passphrase c) (args_entropy_dir c) (bdev c) x (allocs c).
Definition set_allocs x c := mk_private (config c) (super_block c) (passive_fs c) (vector c) (afs_map c)
  (afs_map_blocks c) (afs_ptr_blocks c) (passphrase c) (args_entropy_dir c) (bdev c) (rng c) x.

(** ** What the functions call *)

(** [kmalloc]/[vmalloc]: does the next allocation succeed? *)
Definition alloc (c : afs_private) : bool * afs_private :=
  (default true (head (allocs c)), set_allocs (tail (allocs c)) c).

Definition ctx_allocation_set (i : Z) (c : afs_private) : res afs_private :=
  '(_, v) ← allocation_set (vector c) i; mret (set_vector v c).

Definition ctx_acquire_block (c : afs_private) : res (Z * afs_private) :=
  '(b, v, r) ← acquire_block (passive_fs c) (vector c) (rng c);
  mret (b, set_rng r (set_vector v c)).

Definition ctx_read_page (place : buffer_place) (page : list Z) (block : Z) (used_vmalloc : bool) (c : afs_private)
  : res (Z * list Z * afs_private) :=
  '(ret, page', d) ← read_page place page (bdev c) block (data_start_off (passive_fs c)) used_vmalloc;
  mret (ret, page', set_bdev d c).

Definition ctx_write_page (place : buffer_place) (page : list Z) (block : Z) (used_vmalloc : bool) (c : afs_private)
  : res (Z * afs_private) :=
  '(ret, d) ← write_page place page (bdev c) block (data_start_off (passive_fs c)) used_vmalloc;
  mret (ret, set_bdev d c).

(** ** [binary_search]

    [first], [last] and [middle] are [int]s; the loop at most halves the
    interval, so 32 iterations bound it ([binary_search_fuel]). *)
Fixpoint binary_search_loop (fuel : nat) (array : list Z) (value first last : Z) : res Z :=
  if first <=? last then
    match fuel with
    | O => OutOfFuel
    | S f =>
        let middle := Z.quot (first + last) 2 in
        if 2 ^ 31 <=? first + last then Fault else  (* signed overflow *)
        a ← of_option (if middle <? 0 then None else array !! Z.to_nat middle);
        if a <? value then binary_search_loop f array value (middle + 1) last
        else if a =? value then Ok middle
        else binary_search_loop f array value first (middle - 1)
    end
  else Ok (-1).

Definition binary_search (array : list Z) (value len : Z) : res Z :=
  let last := if u32 (len - 1) <? 2 ^ 31 then u32 (len - 1) else u32 (len - 1) - 2 ^ 32 in
  binary_search_loop 32 array value 0 last.

(** ** [build_configuration] *)
Definition build_configuration (cfg : afs_config) (carriers entropy : Z) : res afs_config :=
  let entry_sz := u8 (CARRIER_HASH_SZ + ENTROPY_HASH_SZ + map_tuple_sz * carriers) in
  if entry_sz =? 0 then Fault else
  let unused := u8 ((AFS_BLOCK_SIZE - SHA512_SZ) mod entry_sz) in
  let per_block := u8 ((AFS_BLOCK_SIZE - SHA512_SZ) / entry_sz) in
  let blocks := u32 (instance_size cfg / AFS_BLOCK_SIZE) in
  if per_block =? 0 then Fault else
  let map_blocks := (blocks / per_block) +32 (if blocks mod per_block =? 0 then 0 else 1) in
  let ptr_blocks :=
    if map_blocks <? (map_blocks -32 NUM_MAP_BLKS_IN_SB) then 0
    else ((map_blocks -32 NUM_MAP_BLKS_IN_SB) / NUM_MAP_BLKS_IN_PB)
         +32 (if (map_blocks -32 NUM_MAP_BLKS_IN_SB) mod NUM_MAP_BLKS_IN_PB =? 0 then 0 else 1) in
  Ok {| num_carrier_blocks := carriers; threshold := threshold cfg; num_entropy_blocks := entropy;
        map_entry_sz := entry_sz; unused_space_per_block := unused;
        num_map_entries_per_block := per_block; num_blocks := blocks;
        num_map_blocks := map_blocks; num_ptr_blocks := ptr_blocks;
        instance_size := instance_size cfg; bdev_size := bdev_size cfg |}.

Section Metadata.
(** Kernel services: SHA-1, SHA-256, SHA-512, and the contents of memory that
    was allocated but not written. *)
Context (sha1 sha256 sha512 : list Z -> list Z) (uninit : nat -> list Z).

(** ** The map in memory *)

(** One entry: [num_carrier_blocks] invalid tuples, then hash and entropy
    hash set to zero. *)
Definition fresh_tuple : afs_map_tuple := {| carrier_block_ptr := AFS_INVALID_BLOCK; checksum := 0 |}.

Definition fresh_entry (carriers : Z) : list Z :=
  concat (replicate (Z.to_nat carriers) (tuple_bytes fresh_tuple)) ++
  replicate (Z.to_nat (CARRIER_HASH_SZ + ENTROPY_HASH_SZ)) 0.

Definition afs_create_map (c : afs_private) : res (Z * afs_private) :=
  let cfg := config c in
  let '(ok, c) := alloc c in
  if negb ok then Ok (- ENOMEM, c) else
  m ← forM (Z.to_nat (num_blocks cfg)) 0
        (fun i m => of_option (splice (Z.to_nat (i *32 map_entry_sz cfg))
                                 (fresh_entry (num_carrier_blocks cfg)) m))
        (uninit (Z.to_nat (num_blocks cfg *32 map_entry_sz cfg)));
  Ok (0, set_map m c).

(** ** Reading the map *)

(** The body shared by the two loops of [afs_fill_map]: read one map block
    and copy its entries. The boolean says that the loop is left. *)
Definition fill_one (ptr entries_read : Z) (map_block : list Z) (c : afs_private)
  : res (Z * bool * Z * list Z * afs_private) :=
  let cfg := config c in
  '(ret, map_block, c) ← ctx_read_page (Linear false) map_block ptr false c;
  if negb (ret =? 0) then
    (* the alert prints [entries_read % num_map_blocks] *)
    if num_map_blocks cfg =? 0 then Fault else Ok (ret, true, entries_read, map_block, c)
  else
  c ← ctx_allocation_set ptr c;
  let start := Z.to_nat (SHA512_SZ + unused_space_per_block cfg) in
  let left := num_blocks cfg -32 entries_read in
  let last := left <=? num_map_entries_per_block cfg in
  let count := if last then left else num_map_entries_per_block cfg in
  src ← of_option (slice start (Z.to_nat (count *32 map_entry_sz cfg)) map_block);
  m ← of_option (splice (Z.to_nat (entries_read *32 map_entry_sz cfg)) src (afs_map c));
  Ok (0, last, entries_read +32 count, map_block, set_map m c).

(** [for (i = 0; i < NUM_MAP_BLKS_IN_SB; i++)]. *)
Fixpoint fill_from_sb (n : nat) (i : Z) (ptrs : list Z) (entries_read : Z) (map_block : list Z)
    (c : afs_private) : res (Z * Z * list Z * afs_private) :=
  match n with
  | O => Ok (0, entries_read, map_block, c)
  | S n' =>
      ptr ← of_option (ptrs !! Z.to_nat i);
      '(ret, stop, er, mb, c) ← fill_one ptr entries_read map_block c;
      if (stop : bool) then Ok (ret, er, mb, c)
      else fill_from_sb n' (i + 1) ptrs er mb c
  end.

(** [for (j = 0; j < NUM_MAP_BLKS_IN_PB; i++)]: the loop advances [i], not
    [j]; it ends only by [break] or an error. *)
Fixpoint fill_from_pb_inner (fuel : nat) (i j : Z) (pb : afs_ptr_block) (entries_read : Z)
    (map_block : list Z) (c : afs_private) : res (Z * Z * Z * list Z * afs_private) :=
  if j <? NUM_MAP_BLKS_IN_PB then
    match fuel with
    | O => OutOfFuel
    | S f =>
        ptr ← of_option (pb_map_block_ptrs pb !! Z.to_nat j);
        '(ret, stop, er, mb, c) ← fill_one ptr entries_read map_block c;
        if (stop : bool) then Ok (ret, i, er, mb, c)
        else fill_from_pb_inner f (i +32 1) j pb er mb c
    end
  else Ok (0, i, entries_read, map_block, c).

Fixpoint fill_from_ptr_blocks (fuel : nat) (i : Z) (first : Z) (pb : list Z) (entries_read : Z)
    (map_block : list Z) (c : afs_private) : res (Z * Z * afs_private) :=
  if i <? num_ptr_blocks (config c) then
    match fuel with
    | O => OutOfFuel
    | S f =>
        let next_block := if i =? 0 then first else pb_next_ptr_block (pb_of_bytes pb) in
        '(ret, pb, c) ← ctx_read_page (Linear false) pb next_block false c;
        if negb (ret =? 0) then Ok (ret, entries_read, c) else
        c ← ctx_allocation_set next_block c;
        '(ret, i, er, mb, c) ← fill_from_pb_inner (S (Z.to_nat (num_blocks (config c)))) i 0
                                  (pb_of_bytes pb) entries_read map_block c;
        if negb (ret =? 0) then Ok (ret, er, c)
        else fill_from_ptr_blocks f (i +32 1) first pb er mb c
    end
  else Ok (0, entries_read, c).

Definition afs_fill_map (sb : afs_super_block) (c : afs_private) : res (Z * afs_private) :=
  let '(ok1, c) := alloc c in
  let '(ok2, c) := alloc c in
  if negb (ok1 && ok2) then Ok (- ENOMEM, c) else
  '(ret, er, mb, c) ← fill_from_sb (Z.to_nat NUM_MAP_BLKS_IN_SB) 0 (sb_map_block_ptrs sb) 0 (uninit 4096) c;
  if negb (ret =? 0) then Ok (ret, c) else
  '(ret, er, c) ← fill_from_ptr_blocks (S (Z.to_nat (num_ptr_blocks (config c)))) 0
                    (sb_first_ptr_block sb) (uninit 4096) er mb c;
  if negb (ret =? 0) then Ok (ret, c) else
  if negb (er =? num_blocks (config c)) then Ok (- EIO, c) else Ok (0, c).

(** ** Writing the map *)
Definition map_block_step (cfg : afs_config) (amap : list Z) (i : Z) (st : Z * list Z)
  : res (Z * list Z) :=
  let '(entries_written, buf) := st in
  let ptr := Z.to_nat (i * AFS_BLOCK_SIZE) in
  let entries_start := (ptr + Z.to_nat SHA512_SZ + Z.to_nat (unused_space_per_block cfg))%nat in
  let left := num_blocks cfg -32 entries_written in
  let count := if left <=? num_map_entries_per_block cfg then left
               else num_map_entries_per_block cfg in
  src ← of_option (slice (Z.to_nat (entries_written *32 map_entry_sz cfg))
                         (Z.to_nat (count *32 map_entry_sz cfg)) amap);
  buf ← of_option (splice entries_start src buf);
  body ← of_option (slice entries_start
            (Z.to_nat (AFS_BLOCK_SIZE - SHA512_SZ - unused_space_per_block cfg)) buf);
  buf ← of_option (splice ptr (sha512 body) buf);
  Ok (entries_written +32 count, buf).

Definition afs_create_map_blocks (c : afs_private) : res (Z * afs_private) :=
  let cfg := config c in
  let '(ok, c) := alloc c in
  if negb ok then Ok (- ENOMEM, c) else
  let map_blocks := replicate (Z.to_nat (AFS_BLOCK_SIZE *32 num_map_blocks cfg)) 0 in
  '(entries_written, map_blocks) ←
     forM (Z.to_nat (num_map_blocks cfg)) 0 (map_block_step cfg (afs_map c)) (0, map_blocks);
  if negb (entries_written =? num_blocks cfg) then Ok (- EIO, c)
  else Ok (0, set_map_blocks map_blocks c).

(** Writes map block number [blocks_written] to [block_num]. *)
Definition write_map_block (blocks_written block_num : Z) (c : afs_private) : res (Z * afs_private) :=
  page ← of_option (slice (Z.to_nat (blocks_written *32 AFS_BLOCK_SIZE)) 4096 (afs_map_blocks c));
  ctx_write_page Vmalloced page block_num true c.

(** The block for the next map block: acquired and stored by [store], or, on
    an update, the one [load] finds. [None]: no more free blocks. *)
Definition map_block_target (update : bool) (load : afs_private -> res Z)
    (store : Z -> afs_private -> res afs_private) (c : afs_private) : res (option Z * afs_private) :=
  if update then b ← load c; mret (Some b, c)
  else
    '(b, c) ← ctx_acquire_block c;
    if b =? AFS_INVALID_BLOCK then mret (None, c) else c ← store b c; mret (Some b, c).

Definition sb_set_ptr (i b : Z) (c : afs_private) : afs_private :=
  let sb := super_block c in
  set_super_block {| sb_hash := sb_hash sb; sb_pass_hash := sb_pass_hash sb;
    sb_instance_size := sb_instance_size sb; sb_reserved := sb_reserved sb;
    sb_entropy_dir := sb_entropy_dir sb; sb_shadow_passphrase := sb_shadow_passphrase sb;
    sb_map_block_ptrs := <[Z.to_nat i := b]> (sb_map_block_ptrs sb);
    sb_first_ptr_block := sb_first_ptr_block sb |} c.

(** The loop over the super block's pointers: the status, whether the
    function returns, and the number of blocks written. *)
Fixpoint write_sb_map_blocks (n : nat) (i : Z) (update : bool) (blocks_written : Z) (c : afs_private)
  : res (Z * bool * Z * afs_private) :=
  match n with
  | O => Ok (0, false, blocks_written, c)
  | S n' =>
      if (num_map_blocks (config c) -32 blocks_written) =? 0 then Ok (0, true, blocks_written, c) else
      '(target, c) ← map_block_target update
         (fun c => of_option (sb_map_block_ptrs (super_block c) !! Z.to_nat i))
         (fun b c => Ok (sb_set_ptr i b c)) c;
      match target with
      | None => Ok (- ENOSPC, true, blocks_written, c)
      | Some block_num =>
          '(ret, c) ← write_map_block blocks_written block_num c;
          if negb (ret =? 0) then Ok (ret, true, blocks_written, c)
          else write_sb_map_blocks n' (i + 1) update (blocks_written +32 1) c
      end
  end.

Definition pb_set_ptr (i j b : Z) (c : afs_private) : res afs_private :=
  pb ← of_option (afs_ptr_blocks c !! Z.to_nat i);
  mret (set_ptr_blocks (<[Z.to_nat i := {| pb_hash := pb_hash pb;
     pb_map_block_ptrs := <[Z.to_nat j := b]> (pb_map_block_ptrs pb);
     pb_next_ptr_block := pb_next_ptr_block pb |}]> (afs_ptr_blocks c)) c).

Fixpoint write_pb_map_blocks (n : nat) (i j : Z) (update : bool) (blocks_written : Z) (c : afs_private)
  : res (Z * Z * afs_private) :=
  match n with
  | O => Ok (0, blocks_written, c)
  | S n' =>
      if (num_map_blocks (config c) -32 blocks_written) =? 0 then Ok (0, blocks_written, c) else
      '(target, c) ← map_block_target update
         (fun c => pb ← of_option (afs_ptr_blocks c !! Z.to_nat i);
                   of_option (pb_map_block_ptrs pb !! Z.to_nat j))
         (pb_set_ptr i j) c;
      match target with
      | None => Ok (- ENOSPC, blocks_written, c)
      | Some block_num =>
          '(ret, c) ← write_map_block blocks_written block_num c;
          if negb (ret =? 0) then Ok (ret, blocks_written, c)
          else write_pb_map_blocks n' i (j + 1) update (blocks_written +32 1) c
      end
  end.

Fixpoint write_all_pb_map_blocks (n : nat) (i : Z) (update : bool) (blocks_written : Z) (c : afs_private)
  : res (Z * afs_private) :=
  match n with
  | O => Ok (0, c)
  | S n' =>
      '(ret, bw, c) ← write_pb_map_blocks (Z.to_nat NUM_MAP_BLKS_IN_PB) i 0 update blocks_written c;
      if negb (ret =? 0) then Ok (ret, c) else write_all_pb_map_blocks n' (i + 1) update bw c
  end.

Definition write_map_blocks (c : afs_private) (update : bool) : res (Z * afs_private) :=
  '(ret, stop, bw, c) ← write_sb_map_blocks (Z.to_nat NUM_MAP_BLKS_IN_SB) 0 update 0 c;
  if (stop : bool) then Ok (ret, c)
  else write_all_pb_map_blocks (Z.to_nat (num_ptr_blocks (config c))) 0 update bw c.

(** ** Pointer blocks *)
Definition sb_set_first (b : Z) (c : afs_private) : afs_private :=
  let sb := super_block c in
  set_super_block {| sb_hash := sb_hash sb; sb_pass_hash := sb_pass_hash sb;
    sb_instance_size := sb_instance_size sb; sb_reserved := sb_reserved sb;
    sb_entropy_dir := sb_entropy_dir sb; sb_shadow_passphrase := sb_shadow_passphrase sb;
    sb_map_block_ptrs := sb_map_block_ptrs sb; sb_first_ptr_block := b |} c.

Definition update_pb (i : Z) (f : afs_ptr_block -> afs_ptr_block) (c : afs_private) : res afs_private :=
  pb ← of_option (afs_ptr_blocks c !! Z.to_nat i);
  mret (set_ptr_blocks (<[Z.to_nat i := f pb]> (afs_ptr_blocks c)) c).

Definition pb_set_next (b : Z) (pb : afs_ptr_block) : afs_ptr_block :=
  {| pb_hash := pb_hash pb; pb_map_block_ptrs := pb_map_block_ptrs pb; pb_next_ptr_block := b |}.

Definition pb_rehash (pb : afs_ptr_block) : afs_ptr_block :=
  {| pb_hash := take 16 (sha1 (pb_body pb)); pb_map_block_ptrs := pb_map_block_ptrs pb;
     pb_next_ptr_block := pb_next_ptr_block pb |}.

(** [for (i = num_ptr_blocks - 1; i >= 0; i--)], with [n = i + 1]. *)
Fixpoint write_ptr_block_loop (n : nat) (c : afs_private) : res (Z * afs_private) :=
  match n with
  | O => Ok (0, c)
  | S n' =>
      let i := Z.of_nat n' in
      c ← (if i =? num_ptr_blocks (config c) - 1
           then update_pb i (pb_set_next AFS_INVALID_BLOCK) c else Ok c);
      c ← update_pb i pb_rehash c;
      '(block_num, c) ← ctx_acquire_block c;
      if block_num =? AFS_INVALID_BLOCK then Ok (- ENOSPC, c) else
      pb ← of_option (afs_ptr_blocks c !! Z.to_nat i);
      '(ret, c) ← ctx_write_page (Linear false) (pb_bytes pb) block_num false c;
      if negb (ret =? 0) then Ok (ret, c) else
      c ← (if i =? 0 then Ok (sb_set_first block_num c)
           else update_pb (i - 1) (pb_set_next block_num) c);
      write_ptr_block_loop n' c
  end.

Definition write_ptr_blocks (c : afs_private) : res (Z * afs_private) :=
  '(ret, c) ← write_map_blocks c false;
  if negb (ret =? 0) then Ok (ret, c) else
  if num_ptr_blocks (config c) =? 0 then Ok (0, c)
  else write_ptr_block_loop (Z.to_nat (num_ptr_blocks (config c))) c.

(** ** The super block's location

    [locate fuel fs n h]: from the hash [h], hash again until the block number
    it selects (modulo the [n] blocks of the device) is in the free list. The
    source's loop has no bound; [fuel] bounds it here. Gives the block number,
    the final hash and the number of extra hashes. *)
Definition hash_block (n : Z) (h : list Z) : res Z :=
  if n =? 0 then Fault else Ok (le_load (take 4 h) mod n).

Fixpoint locate (fuel : nat) (fs : afs_passive_fs) (n : Z) (h : list Z) (tries : Z)
  : res (Z * list Z * Z) :=
  b ← hash_block n h;
  found ← binary_search (block_list fs) b (list_len fs);
  if negb (found =? -1) then Ok (b, h, tries)
  else match fuel with
       | O => OutOfFuel
       | S f => locate f fs n (sha1 h) (tries +32 1)
       end.

Definition block_device_size (c : afs_private) : Z := u32 (bdev_size (config c) / AFS_SECTORS_PER_BLOCK).

(** The replicas after the first. *)
Fixpoint locate_replicas (n : nat) (fuel : nat) (h : list Z) (c : afs_private)
  : res (list Z * afs_private) :=
  match n with
  | O => Ok ([], c)
  | S n' =>
      '(b, h, _) ← locate fuel (passive_fs c) (block_device_size c) (sha1 h) 0;
      c ← ctx_allocation_set b c;
      '(bs, c) ← locate_replicas n' fuel h c;
      mret (b :: bs, c)
  end.

(** Where the context's [super_block] lies in memory. *)
Context (sb_place : buffer_place).

Fixpoint write_replicas (bs : list Z) (c : afs_private) : res (Z * afs_private) :=
  match bs with
  | [] => Ok (0, c)
  | b :: bs' =>
      dst ← of_option (block_list (passive_fs c) !! Z.to_nat b);
      '(ret, c) ← ctx_write_page sb_place (sb_bytes (super_block c)) dst false c;
      if negb (ret =? 0) then Ok (ret, c) else write_replicas bs' c
  end.

Definition finish_sb (c : afs_private) : afs_private :=
  let sb := super_block c in
  let sb1 := {| sb_hash := sb_hash sb; sb_pass_hash := sb_pass_hash sb;
    sb_instance_size := instance_size (config c); sb_reserved := sb_reserved sb;
    sb_entropy_dir := strncpy (Z.to_nat ENTROPY_DIR_SZ) (args_entropy_dir c);
    sb_shadow_passphrase := sb_shadow_passphrase sb;
    sb_map_block_ptrs := sb_map_block_ptrs sb; sb_first_ptr_block := sb_first_ptr_block sb |} in
  set_super_block {| sb_hash := sha256 (sb_body sb1); sb_pass_hash := sb_pass_hash sb1;
    sb_instance_size := sb_instance_size sb1; sb_reserved := sb_reserved sb1;
    sb_entropy_dir := sb_entropy_dir sb1; sb_shadow_passphrase := sb_shadow_passphrase sb1;
    sb_map_block_ptrs := sb_map_block_ptrs sb1; sb_first_ptr_block := sb_first_ptr_block sb1 |} c.

Definition zero_pb : afs_ptr_block :=
  {| pb_hash := replicate 16 0; pb_map_block_ptrs := replicate 1019 0; pb_next_ptr_block := 0 |}.

Definition write_super_block (fuel : nat) (c : afs_private) : res (Z * afs_private) :=
  '(b0, h0, _) ← locate fuel (passive_fs c) (block_device_size c) (sha1 (passphrase c)) 0;
  c ← ctx_allocation_set b0 c;
  '(bs, c) ← locate_replicas (Z.to_nat NUM_SUPERBLOCK_REPLICAS - 1) fuel h0 c;
  '(ret, c) ← afs_create_map c;
  if negb (ret =? 0) then Ok (ret, c) else
  '(ret, c) ← afs_create_map_blocks c;
  if negb (ret =? 0) then Ok (ret, c) else
  let '(ok, c) := alloc c in
  if negb ok then Ok (- ENOMEM, c) else
  let c := set_ptr_blocks (replicate (Z.to_nat (num_ptr_blocks (config c))) zero_pb) c in
  let c := sb_set_first AFS_INVALID_BLOCK c in
  '(ret, c) ← write_ptr_blocks c;
  if negb (ret =? 0) then Ok (ret, c) else
  let c := finish_sb c in
  '(ret, c) ← write_replicas (b0 :: bs) c;
  if negb (ret =? 0) then Ok (ret, c) else
  Ok (0, set_map_blocks [] c).

(** ** Mounting *)
Definition rebuild_tuple (cfg : afs_config) (i j : Z) (c : afs_private) : res afs_private :=
  t ← of_option (slice (Z.to_nat (i *32 map_entry_sz cfg) + Z.to_nat (map_tuple_sz * j))
                       (Z.to_nat map_tuple_sz) (afs_map c));
  ctx_allocation_set (carrier_block_ptr (tuple_of_bytes t)) c.

Definition rebuild_allocation_vector (c : afs_private) : res afs_private :=
  let cfg := config c in
  forM (Z.to_nat (num_blocks cfg)) 0
    (fun i c => forM (Z.to_nat (num_carrier_blocks cfg)) 0 (rebuild_tuple cfg i) c) c.

Fixpoint rebuild_ptr_loop (n : nat) (i : Z) (c : afs_private) : res (Z * afs_private) :=
  match n with
  | O => Ok (0, c)
  | S n' =>
      pb ← of_option (afs_ptr_blocks c !! Z.to_nat i);
      let block_num := if i =? 0 then sb_first_ptr_block (super_block c) else pb_next_ptr_block pb in
      '(ret, page, c) ← ctx_read_page (Linear false) (pb_bytes pb) block_num false c;
      let c := set_ptr_blocks (<[Z.to_nat i := pb_of_bytes page]> (afs_ptr_blocks c)) c in
      if negb (ret =? 0) then Ok (ret, c) else rebuild_ptr_loop n' (i + 1) c
  end.

Definition rebuild_ptr_blocks (c : afs_private) : res (Z * afs_private) :=
  rebuild_ptr_loop (Z.to_nat (num_ptr_blocks (config c))) 0 c.

(** The search loop: [ret], the block number of the last attempt and the
    context. [n] bounds the outer loop, which runs at most 32 times. *)
Fixpoint find_loop (n : nat) (fuel : nat) (tries : Z) (h : list Z) (ret b : Z) (c : afs_private)
  : res (bool * Z * Z * afs_private) :=
  if tries <? 32 then
    match n with
    | O => OutOfFuel
    | S n' =>
        '(b, h, tries) ← locate fuel (passive_fs c) (block_device_size c) h tries;
        src ← of_option (block_list (passive_fs c) !! Z.to_nat b);
        '(ret, page, c) ← ctx_read_page sb_place (sb_bytes (super_block c)) src false c;
        let c := set_super_block (sb_of_bytes page) c in
        if negb (ret =? 0) then Ok (true, ret, b, c) else
        if bool_decide (sb_hash (super_block c) = sha256 (sb_body (super_block c)))
        then Ok (false, 0, b, c)
        else find_loop n' fuel (tries +32 1) h 1 b c
    end
  else Ok (false, ret, b, c).

Definition find_super_block (fuel : nat) (c : afs_private) : res (Z * afs_private) :=
  b0 ← hash_block (block_device_size c) (sha1 (passphrase c));
  '(failed, ret, b, c) ← find_loop 32 fuel 0 (sha1 (passphrase c)) 0 b0 c;
  if (failed : bool) then Ok (ret, c) else
  c ← ctx_allocation_set b c;
  if negb (ret =? 0) then Ok (- ENOENT, c) else
  if negb (instance_size (config c) =? sb_instance_size (super_block c)) then Ok (- EINVAL, c) else
  cfg ← build_configuration (config c) 4 1;
  let c := set_config cfg c in
  '(ret, c) ← afs_create_map c;
  if negb (ret =? 0) then Ok (ret, c) else
  '(ret, c) ← afs_fill_map (super_block c) c;
  if negb (ret =? 0) then Ok (ret, c) else
  c ← rebuild_allocation_vector c;
  let '(ok, c) := alloc c in
  if negb ok then Ok (- ENOMEM, c) else
  let c := set_ptr_blocks (replicate (Z.to_nat (num_ptr_blocks (config c)))
                                     (pb_of_bytes (uninit 4096))) c in
  rebuild_ptr_blocks c.
End Metadata.

(** ** [binary_search] decides membership *)
Lemma binary_search_loop_spec fuel l rest v first last :
  ascending l -> 0 <= first -> last < Z.of_nat (List.length l) <= 2 ^ 30 ->
  last - first + 1 < 2 ^ Z.of_nat fuel ->
  (forall i x, l !! i = Some x -> Z.of_nat i < first -> x < v) ->
  (forall i x, l !! i = Some x -> last < Z.of_nat i -> v < x) ->
  exists r, binary_search_loop fuel (l ++ rest) v first last = Ok r /\
    (0 <= r /\ l !! Z.to_nat r = Some v \/ r = -1 /\ v ∉ l).
Proof.
  intros Hasc. revert first last.
  induction fuel as [|f IH]; intros first last Hf Hl Hfuel Hlo Hhi; cbn [binary_search_loop];
    destruct (Z.leb_spec first last) as [Hfl|Hfl].
  1: { cbn in Hfuel. lia. }
  1, 3: exists (-1); split; [done|]; right; split; [done|];
    intros [i Hi]%list_elem_of_lookup_1; specialize (Hlo i v Hi); specialize (Hhi i v Hi); lia.
  assert (Hm : first <= Z.quot (first + last) 2 <= last) by (Z.quot_rem_to_equations; lia).
  set (m := Z.quot (first + last) 2) in *.
  destruct (Z.leb_spec (2 ^ 31) (first + last)) as [?|_]; [lia|].
  destruct (Z.ltb_spec m 0); [lia|].
  destruct (lookup_lt_is_Some_2 l (Z.to_nat m)) as [a Ha]; [lia|]. rewrite (lookup_app_l_Some _ rest _ _ Ha). cbn [of_option mbind res_bind].
  rewrite Nat2Z.inj_succ, Z.pow_succ_r in Hfuel by lia.
  assert (Hhalf : m - first + m - first <= last - first /\ last - m <= m - first + 1).
  { unfold m. Z.quot_rem_to_equations; lia. }
  destruct (Z.ltb_spec a v).
  - apply IH; [lia|lia|lia| |done]. intros i x Hi Him.
    destruct (decide (i = Z.to_nat m)) as [->|Hne]; [congruence|].
    pose proof (Hasc i (Z.to_nat m) x a ltac:(lia) Hi Ha). lia.
  - destruct (Z.eqb_spec a v) as [->|Hne]; [exists m; split; [done|]; left; split; [lia|done]|].
    apply IH; [lia|lia|lia|done|]. intros i x Hi Him.
    destruct (decide (i = Z.to_nat m)) as [->|?]; [simplify_eq; lia|].
    pose proof (Hasc (Z.to_nat m) i a x ltac:(lia) Ha Hi). lia.
Qed.

(** On an ascending free list, [binary_search] returns the index of the
    value when it is in the list and -1 when it is not; it always returns, in
    at most 32 iterations, without reading outside the list, whatever follows
    it in the array. *)
Theorem binary_search_correct l rest v :
  ascending l -> Z.of_nat (List.length l) <= 2 ^ 30 ->
  exists r, binary_search (l ++ rest) v (Z.of_nat (List.length l)) = Ok r /\
    (0 <= r /\ l !! Z.to_nat r = Some v \/ r = -1 /\ v ∉ l).
Proof.
  intros Hasc Hlen. unfold binary_search.
  assert (E : (if u32 (Z.of_nat (List.length l) - 1) <? 2 ^ 31 then u32 (Z.of_nat (List.length l) - 1)
          else u32 (Z.of_nat (List.length l) - 1) - 2 ^ 32) = Z.of_nat (List.length l) - 1).
  { destruct (Z.ltb_spec (u32 (Z.of_nat (List.length l) - 1)) (2 ^ 31)); zlia. }
  rewrite E. apply binary_search_loop_spec; [done|lia|lia|change (2 ^ Z.of_nat 32) with 4294967296; lia| |].
  - lia.
  - intros i x Hi. apply lookup_lt_Some in Hi. lia.
Qed.

Lemma binary_search_correct_witness :
  exists r, binary_search [3; 5; 9; 10; 0; 0] 9 4 = Ok r /\
    (0 <= r /\ [3; 5; 9; 10] !! Z.to_nat r = Some 9 \/ r = -1 /\ 9 ∉ [3; 5; 9; 10]).
Proof.
  refine (binary_search_correct [3; 5; 9; 10] [0; 0] 9 _ _); [|cbn; lia].
  intros i j x y Hij Hi Hj.
  do 5 (destruct i as [|i]; [do 5 (destruct j as [|j]; [cbn in *; lia || (simplify_eq; lia)|]); cbn in *; simplify_eq|]).
  cbn in *; simplify_eq.
Defined.

(** ** The geometry of an instance *)
Lemma entry_size carriers :
  1 <= carriers <= 35 -> u8 (CARRIER_HASH_SZ + ENTROPY_HASH_SZ + map_tuple_sz * carriers) = 40 + 6 * carriers.
Proof.
  intros. apply wrap_id. unfold in_range, CARRIER_HASH_SZ, ENTROPY_HASH_SZ, map_tuple_sz. lia.
Qed.

Lemma round_up n d : 0 <= n -> 0 < d ->
  let q := n / d + (if n mod d =? 0 then 0 else 1) in n <= q * d /\ (q - 1) * d < n.
Proof.
  intros Hn Hd q. unfold q. pose proof (Z.div_mod n d ltac:(lia)). pose proof (Z.mod_pos_bound n d Hd).
  destruct (Z.eqb_spec (n mod d) 0); nia.
Qed.

(** What the rest of the metadata code relies on. *)
Definition config_wf (cfg : afs_config) : Prop :=
  map_entry_sz cfg = 40 + 6 * num_carrier_blocks cfg /\
  1 <= num_carrier_blocks cfg <= 35 /\
  SHA512_SZ + unused_space_per_block cfg + num_map_entries_per_block cfg * map_entry_sz cfg = AFS_BLOCK_SIZE /\
  0 <= unused_space_per_block cfg /\ 0 < num_map_entries_per_block cfg <= 255 /\
  0 <= num_blocks cfg < 2 ^ 32 /\ 0 <= num_map_blocks cfg < 2 ^ 32 /\
  num_blocks cfg <= num_map_blocks cfg * num_map_entries_per_block cfg /\
  (num_map_blocks cfg - 1) * num_map_entries_per_block cfg < num_blocks cfg /\
  0 <= num_ptr_blocks cfg /\
  num_map_blocks cfg <= NUM_MAP_BLKS_IN_SB + num_ptr_blocks cfg * NUM_MAP_BLKS_IN_PB /\
  (0 < num_ptr_blocks cfg ->
     NUM_MAP_BLKS_IN_SB + (num_ptr_blocks cfg - 1) * NUM_MAP_BLKS_IN_PB < num_map_blocks cfg).

(** The pointer block count: "exploit unsigned math". *)
Lemma ptr_block_count mb :
  0 <= mb < 2 ^ 32 ->
  let p := if mb <? (mb -32 NUM_MAP_BLKS_IN_SB) then 0
    else ((mb -32 NUM_MAP_BLKS_IN_SB) / NUM_MAP_BLKS_IN_PB)
         +32 (if (mb -32 NUM_MAP_BLKS_IN_SB) mod NUM_MAP_BLKS_IN_PB =? 0 then 0 else 1) in
  0 <= p /\ mb <= NUM_MAP_BLKS_IN_SB + p * NUM_MAP_BLKS_IN_PB /\
  (0 < p -> NUM_MAP_BLKS_IN_SB + (p - 1) * NUM_MAP_BLKS_IN_PB < mb).
Proof.
  intros Hmb p. unfold p, NUM_MAP_BLKS_IN_SB, NUM_MAP_BLKS_IN_PB. destruct (Z.ltb_spec mb 975) as [H|H].
  - assert (E : mb -32 975 = mb - 975 + 2 ^ 32) by zlia. rewrite E.
    destruct (Z.ltb_spec mb (mb - 975 + 2 ^ 32)); lia.
  - assert (E : mb -32 975 = mb - 975) by (apply wrap_id; unfold in_range; lia). rewrite E.
    destruct (Z.ltb_spec mb (mb - 975)); [lia|].
    pose proof (round_up (mb - 975) 1019 ltac:(lia) ltac:(lia)) as R. cbv zeta in R.
    rewrite wrap_id; [lia|]. unfold in_range.
    pose proof (Z.div_pos (mb - 975) 1019). pose proof (Z.div_le_upper_bound (mb - 975) 1019 (mb - 975)).
    destruct (_ =? 0); lia.
Qed.

Lemma build_configuration_consistent cfg carriers entropy :
  1 <= carriers <= 35 -> 0 <= instance_size cfg < 2 ^ 44 ->
  exists cfg', build_configuration cfg carriers entropy = Ok cfg' /\ config_wf cfg' /\
    num_blocks cfg' = instance_size cfg / AFS_BLOCK_SIZE /\ num_carrier_blocks cfg' = carriers /\
    instance_size cfg' = instance_size cfg /\ bdev_size cfg' = bdev_size cfg.
Proof.
  intros Hc Hi. unfold build_configuration. rewrite entry_size by done.
  destruct (Z.eqb_spec (40 + 6 * carriers) 0); [lia|].
  change (AFS_BLOCK_SIZE - SHA512_SZ) with 4032. set (sz := 40 + 6 * carriers) in *.
  assert (Hsz : 46 <= sz <= 250) by (unfold sz; lia).
  pose proof (Z.div_mod 4032 sz ltac:(lia)) as Hdm. pose proof (Z.mod_pos_bound 4032 sz ltac:(lia)) as Hmod.
  assert (Hq : 0 < 4032 / sz <= 255) by nia.
  rewrite (wrap_id 8 (4032 mod sz)) by (unfold in_range; lia).
  rewrite (wrap_id 8 (4032 / sz)) by (unfold in_range; lia).
  destruct (Z.eqb_spec (4032 / sz) 0); [lia|].
  assert (Hnb : 0 <= instance_size cfg / AFS_BLOCK_SIZE < 2 ^ 32) by (unfold AFS_BLOCK_SIZE; zlia).
  rewrite (wrap_id 32 (instance_size cfg / AFS_BLOCK_SIZE)) by done.
  set (nb := instance_size cfg / AFS_BLOCK_SIZE) in *.
  pose proof (round_up nb (4032 / sz) ltac:(lia) ltac:(lia)) as R. cbv zeta in R.
  set (mb := nb / (4032 / sz) + _) in *.
  assert (Hmb : 0 <= mb < 2 ^ 32) by nia. rewrite (wrap_id 32 mb) by done.
  pose proof (ptr_block_count mb Hmb) as P. cbv zeta in P.
  eexists. split; [reflexivity|].
  unfold config_wf; cbn [map_entry_sz num_carrier_blocks unused_space_per_block num_map_entries_per_block
    num_blocks num_map_blocks num_ptr_blocks instance_size bdev_size].
  destruct P as (P1 & P2 & P3). unfold SHA512_SZ, AFS_BLOCK_SIZE in *.
  repeat match goal with |- _ /\ _ => split end; done || lia.
Qed.

(** C36: [build_configuration] gives a consistent geometry for every carrier
    count from 1 to 35 and every instance below 2^44 bytes: hash, padding and
    entries fill a map block exactly, the map blocks hold all entries and no
    block is superfluous, and the super block's 975 pointers with the pointer
    blocks' 1019 each reach every map block, again with none superfluous. *)
Theorem build_configuration_wf cfg carriers entropy :
  1 <= carriers <= 35 -> 0 <= instance_size cfg < 2 ^ 44 ->
  exists cfg', build_configuration cfg carriers entropy = Ok cfg' /\ config_wf cfg' /\
    num_blocks cfg' = instance_size cfg / AFS_BLOCK_SIZE /\ num_carrier_blocks cfg' = carriers /\
    instance_size cfg' = instance_size cfg /\ bdev_size cfg' = bdev_size cfg.
Proof. apply build_configuration_consistent. Qed.

Definition config_of_size (n bdev : Z) : afs_config :=
  {| num_carrier_blocks := 0; threshold := 0; num_entropy_blocks := 0; map_entry_sz := 0;
     unused_space_per_block := 0; num_map_entries_per_block := 0; num_blocks := 0;
     num_map_blocks := 0; num_ptr_blocks := 0; instance_size := n; bdev_size := bdev |}.

Lemma build_configuration_wf_witness :
  exists cfg', build_configuration (config_of_size (2 ^ 30) (2 ^ 22)) 4 1 = Ok cfg' /\ config_wf cfg' /\
    num_blocks cfg' = 2 ^ 30 / AFS_BLOCK_SIZE /\ num_carrier_blocks cfg' = 4 /\
    instance_size cfg' = 2 ^ 30 /\ bdev_size cfg' = 2 ^ 22.
Proof.
  exact (build_configuration_wf (config_of_size (2 ^ 30) (2 ^ 22)) 4 1 ltac:(lia) ltac:(cbn; lia)).
Defined.
