(* ===== verification/MapBlocks.v ===== *)
(** * MapBlocks: the Artifice map on disk

    Theorems about src/dm_afs_metadata.c: what [afs_create_map] and
    [afs_create_map_blocks] build, and that the map written by
    [write_map_blocks] is the map [afs_fill_map] reads, for instances whose
    map blocks fit in the super block's 975 pointers. *)
From stdpp Require Import base tactics option list numbers gmap.
From Stdlib Require Import ZArith Lia.
From S2P Require Import Prelude BitVector Allocation BlockIo Format Metadata.

Local Open Scope Z_scope.
Local Open Scope afs_scope.

(** ** The layout as a function of the map *)
Section Layout.
Context (sha512 : list Z -> list Z) (sha512_length : forall l, List.length (sha512 l) = 64%nat).
Context (cfg : afs_config) (Hcfg : config_wf cfg) (Hptr : num_ptr_blocks cfg = 0).

(** Sizes in bytes: the entries of a map block, and the whole map. *)
Definition entries_bytes : nat := Z.to_nat (num_map_entries_per_block cfg * map_entry_sz cfg).
Definition map_bytes : nat := Z.to_nat (num_blocks cfg * map_entry_sz cfg).
Definition pad : nat := Z.to_nat (unused_space_per_block cfg).

Lemma sizes :
  (64 + pad + entries_bytes = 4096)%nat /\ 0 <= num_map_blocks cfg <= 975 /\
  0 <= num_blocks cfg * map_entry_sz cfg < 2 ^ 31 /\ 0 < map_entry_sz cfg <= 250 /\
  0 <= num_blocks cfg < 2 ^ 18 /\ (0 < entries_bytes)%nat /\
  num_map_entries_per_block cfg * map_entry_sz cfg = Z.of_nat entries_bytes.
Proof.
  destruct Hcfg as (E & C & F & U & P & NB & MB & A & B & _ & D & _).
  unfold entries_bytes, pad, NUM_MAP_BLKS_IN_SB, SHA512_SZ, AFS_BLOCK_SIZE in *. rewrite Hptr in D.
  assert (0 < map_entry_sz cfg <= 250) by lia.
  assert (0 <= num_blocks cfg < 2 ^ 18) by nia.
  assert (0 <= num_blocks cfg * map_entry_sz cfg < 2 ^ 31) by nia.
  assert (0 < num_map_entries_per_block cfg * map_entry_sz cfg) by nia.
  split_and!; lia.
Qed.
Context (amap : list Z) (Hmap : List.length amap = map_bytes).

(** The entries that block [b] holds, and the block. *)
Definition chunk (b : nat) : list Z := take entries_bytes (drop (b * entries_bytes) amap).

Definition map_page (b : nat) : list Z :=
  let body := chunk b ++ replicate (entries_bytes - List.length (chunk b)) 0 in
  sha512 body ++ replicate pad 0 ++ body.

Lemma chunk_length b : (List.length (chunk b) = entries_bytes `min` (map_bytes - b * entries_bytes))%nat.
Proof. unfold chunk. by rewrite length_take, length_drop, Hmap. Qed.

Lemma map_page_length b : List.length (map_page b) = 4096%nat.
Proof.
  unfold map_page. rewrite !length_app, sha512_length, !length_replicate.
  pose proof (chunk_length b). pose proof sizes as (? & _). lia.
Qed.

Lemma map_page_chunk b : slice (64 + pad) (List.length (chunk b)) (map_page b) = Some (chunk b).
Proof.
  unfold map_page. set (body := chunk b ++ _).
  replace (64 + pad)%nat with (List.length (sha512 body) + (List.length (replicate pad 0%Z) + 0))%nat
    by (rewrite sha512_length, length_replicate; lia).
  rewrite !slice_app_r. unfold body. rewrite slice_app_l by lia.
  rewrite slice_Some by lia. f_equal. apply firstn_all.
Qed.

(** The counters of the loops in bytes: after [i] blocks [i * per] entries,
    at most [num_blocks], are done. *)
Definition entries_done (i : Z) : Z := Z.min (i * num_map_entries_per_block cfg) (num_blocks cfg).

Definition entry_count (i : Z) : Z :=
  let left := num_blocks cfg -32 entries_done i in
  if left <=? num_map_entries_per_block cfg then left else num_map_entries_per_block cfg.

Lemma entries_done_step i :
  0 <= i -> entries_done i +32 entry_count i = entries_done (i + 1) /\
  (num_blocks cfg -32 entries_done i <=? num_map_entries_per_block cfg)
    = bool_decide (num_blocks cfg <= (i + 1) * num_map_entries_per_block cfg).
Proof.
  intros Hi. destruct Hcfg as (_ & _ & _ & _ & P & _). pose proof sizes as (_ & _ & _ & _ & NB & _).
  unfold entry_count, entries_done.
  assert (0 <= i * num_map_entries_per_block cfg) by nia.
  assert (E : (i + 1) * num_map_entries_per_block cfg
            = i * num_map_entries_per_block cfg + num_map_entries_per_block cfg) by lia.
  rewrite E. set (x := i * _) in *.
  rewrite (wrap_id 32 (_ - _)) by (unfold in_range; lia).
  destruct (Z.leb_spec (num_blocks cfg - Z.min x (num_blocks cfg)) (num_map_entries_per_block cfg));
    case_bool_decide; try lia; rewrite wrap_id by (unfold in_range; lia); lia.
Qed.

Lemma entries_offset i :
  0 <= i -> i * num_map_entries_per_block cfg <= num_blocks cfg ->
  Z.to_nat (entries_done i *32 map_entry_sz cfg) = (Z.to_nat i * entries_bytes)%nat /\
  Z.to_nat (entry_count i *32 map_entry_sz cfg) = List.length (chunk (Z.to_nat i)) /\
  (Z.to_nat i * entries_bytes <= map_bytes)%nat.
Proof.
  intros Hi Hle. destruct Hcfg as (_ & _ & _ & _ & P & _).
  pose proof sizes as (_ & _ & T & S & NB & EB & PE). rewrite chunk_length.
  unfold entry_count, entries_done, map_bytes. rewrite Z.min_l by done.
  set (sz := map_entry_sz cfg) in *. set (per := num_map_entries_per_block cfg) in *.
  set (nb := num_blocks cfg) in *.
  assert (0 <= i * per) by nia.
  rewrite (wrap_id 32 (nb - i * per)) by (unfold in_range; lia).
  assert (Hb : i * per * sz = i * Z.of_nat entries_bytes) by lia.
  assert (0 <= i * per * sz <= nb * sz) by nia.
  assert (Hn : Z.of_nat (Z.to_nat i * entries_bytes) = i * per * sz) by (rewrite Nat2Z.inj_mul; lia).
  split_and!.
  - rewrite wrap_id by (unfold in_range; lia). lia.
  - destruct (Z.leb_spec (nb - i * per) per).
    + assert (0 <= (nb - i * per) * sz <= per * sz) by nia.
      rewrite wrap_id by (unfold in_range; nia). lia.
    + assert (per * sz <= (nb - i * per) * sz) by nia.
      rewrite wrap_id by (unfold in_range; nia). lia.
  - unfold map_bytes. lia.
Qed.

(** ** [afs_create_map_blocks] *)
Definition pages (n : nat) : list Z := concat (map map_page (seq 0 n)).

Lemma pages_length n : List.length (pages n) = (4096 * n)%nat.
Proof.
  unfold pages. induction n as [|n IH]; [done|].
  rewrite seq_S, map_app, concat_app, length_app, IH. cbn [map concat].
  rewrite app_nil_r, map_page_length. lia.
Qed.

Lemma pages_S n : pages (S n) = pages n ++ map_page n.
Proof. unfold pages. rewrite seq_S, map_app, concat_app. cbn. by rewrite app_nil_r. Qed.

Lemma pages_slice n b : (b < n)%nat -> slice (4096 * b) 4096 (pages n) = Some (map_page b).
Proof.
  intros Hb. induction n as [|n IH]; [lia|]. rewrite pages_S. destruct (decide (b = n)) as [->|].
  - rewrite <- (pages_length n), <- (Nat.add_0_r (List.length _)), slice_app_r.
    rewrite slice_Some by (rewrite map_page_length; lia). cbn [drop].
    f_equal. apply take_ge. by rewrite map_page_length.
  - rewrite slice_app_l by (rewrite pages_length; lia). apply IH. lia.
Qed.

(** Building one block in place, in a page of zeros followed by [rest]. *)
Lemma build_page b (rest : list Z) :
  let start := (64 + pad)%nat in
  let body := chunk b ++ replicate (entries_bytes - List.length (chunk b)) 0 in
  splice start (chunk b) (replicate 4096 0 ++ rest) = Some (replicate start 0 ++ body ++ rest) /\
  slice start entries_bytes (replicate start 0 ++ body ++ rest) = Some body /\
  splice 0 (sha512 body) (replicate start 0 ++ body ++ rest) = Some (map_page b ++ rest).
Proof.
  intros start body. pose proof sizes as (Hs & _). pose proof (chunk_length b) as Hc.
  assert (Hb : List.length body = entries_bytes) by (unfold body; rewrite length_app, length_replicate; lia).
  split_and!.
  - rewrite splice_Some by (rewrite length_app, length_replicate; unfold start; lia). f_equal.
    rewrite take_app_le, take_replicate by (rewrite length_replicate; unfold start; lia).
    rewrite Nat.min_l by (unfold start; lia).
    rewrite drop_app_le, drop_replicate by (rewrite length_replicate; unfold start; lia).
    unfold body. rewrite <- !app_assoc. do 4 f_equal. unfold start. lia.
  - rewrite <- (length_replicate start 0%Z) at 1. rewrite <- (Nat.add_0_r (List.length _)), slice_app_r.
    rewrite slice_app_l by lia. rewrite slice_Some by lia. cbn [drop]. f_equal. apply take_ge. lia.
  - rewrite splice_Some by (rewrite length_app, length_replicate, sha512_length; unfold start; lia).
    rewrite take_0, app_nil_l, Nat.add_0_l. f_equal. rewrite sha512_length. unfold map_page. fold body.
    rewrite drop_app_le, drop_replicate by (rewrite length_replicate; unfold start; lia).
    rewrite <- !app_assoc. do 3 f_equal. unfold start. lia.
Qed.

Lemma map_block_step_spec i :
  0 <= i < num_map_blocks cfg ->
  map_block_step sha512 cfg amap i
    (entries_done i, pages (Z.to_nat i) ++ replicate (4096 * (Z.to_nat (num_map_blocks cfg) - Z.to_nat i)) 0)
  = Ok (entries_done (i + 1), pages (Z.to_nat (i + 1)) ++
          replicate (4096 * (Z.to_nat (num_map_blocks cfg) - Z.to_nat (i + 1))) 0).
Proof.
  intros Hi. pose proof sizes as (Hs & _). pose proof (entries_done_step i ltac:(lia)) as [Hstep _].
  destruct (entries_offset i ltac:(lia)) as (Ho & Hcnt & Hin).
  { destruct Hcfg as (_ & _ & _ & _ & ? & _ & _ & _ & ? & _). nia. }
  unfold map_block_step. cbv zeta. fold (entry_count i).
  rewrite Ho, Hcnt, slice_Some.
  2: { rewrite Hmap. rewrite chunk_length. lia. }
  cbn [of_option mbind res_bind]. 
  assert (Hch : take (List.length (chunk (Z.to_nat i))) (drop (Z.to_nat i * entries_bytes) amap)
                = chunk (Z.to_nat i)).
  { unfold chunk. rewrite length_take, length_drop, Hmap.
    destruct (Nat.le_ge_cases entries_bytes (map_bytes - Z.to_nat i * entries_bytes)).
    - by rewrite Nat.min_l by lia.
    - rewrite Nat.min_r by lia. rewrite !take_ge by (rewrite length_drop; lia). done. }
  rewrite Hch. set (n := Z.to_nat i).
  replace (4096 * (Z.to_nat (num_map_blocks cfg) - n))%nat
    with (4096 + 4096 * (Z.to_nat (num_map_blocks cfg) - S n))%nat by lia.
  rewrite replicate_add.
  set (rest := replicate (4096 * (Z.to_nat (num_map_blocks cfg) - S n)) 0).
  destruct (build_page n rest) as (B1 & B2 & B3).
  replace (Z.to_nat (i * AFS_BLOCK_SIZE)) with (List.length (pages n) + 0)%nat
    by (rewrite pages_length; unfold AFS_BLOCK_SIZE; lia).
  change (Z.to_nat SHA512_SZ) with 64%nat. fold pad.
  replace (List.length (pages n) + 0 + 64 + pad)%nat with (List.length (pages n) + (64 + pad))%nat by lia.
  rewrite splice_app_r, B1. cbn [fmap option_fmap option_map of_option mbind res_bind].
  replace (Z.to_nat (AFS_BLOCK_SIZE - SHA512_SZ - unused_space_per_block cfg)) with entries_bytes
    by (pose proof Hcfg as (_ & _ & _ & ? & _); unfold pad in Hs; unfold AFS_BLOCK_SIZE, SHA512_SZ; lia).
  rewrite slice_app_r, B2. cbn [of_option mbind res_bind].
  rewrite splice_app_r, B3. cbn [fmap option_fmap option_map of_option mbind res_bind].
  rewrite Hstep. replace (Z.to_nat (i + 1)) with (S n) by lia. by rewrite pages_S, <- app_assoc.
Qed.

Lemma create_map_blocks_loop :
  forM (Z.to_nat (num_map_blocks cfg)) 0 (map_block_step sha512 cfg amap)
    (0, replicate (Z.to_nat (AFS_BLOCK_SIZE *32 num_map_blocks cfg)) 0)
  = Ok (num_blocks cfg, pages (Z.to_nat (num_map_blocks cfg))).
Proof.
  pose proof sizes as (_ & Hmb & _ & _ & Hnb & _).
  destruct (forM_invariant (fun i st => st = (entries_done i, pages (Z.to_nat i) ++
      replicate (4096 * (Z.to_nat (num_map_blocks cfg) - Z.to_nat i)) 0))
    (Z.to_nat (num_map_blocks cfg)) 0 (map_block_step sha512 cfg amap)
    (0, replicate (Z.to_nat (AFS_BLOCK_SIZE *32 num_map_blocks cfg)) 0)) as (st & -> & ->).
  - unfold entries_done. rewrite Z.mul_0_l, Z.min_l by lia.
    change (pages (Z.to_nat 0)) with (@nil Z). rewrite app_nil_l. do 2 f_equal. unfold AFS_BLOCK_SIZE. rewrite wrap_id by (unfold in_range; lia). lia.
  - intros k st Hk ->. rewrite map_block_step_spec by lia. by eexists.
  - f_equal. f_equal.
    + unfold entries_done. destruct Hcfg as (_ & _ & _ & _ & ? & _ & _ & ? & _). apply Z.min_r. lia.
    + rewrite Z.add_0_l, Z2Nat.id by lia. rewrite Nat.sub_diag, Nat.mul_0_r. cbn. by rewrite app_nil_r.
Qed.

(** ** [write_map_blocks] on an update *)
Section Write.
Context (c : afs_private) (Hc : config c = cfg) (Hblocks : afs_map_blocks c = pages (Z.to_nat (num_map_blocks cfg))).
Let off := data_start_off (passive_fs c).
Let ptrs := sb_map_block_ptrs (super_block c).

(** The pointers in use: distinct blocks of the device. *)
Definition ptrs_ok (d : block_device) : Prop :=
  List.length ptrs = 975%nat /\
  (forall k p, (k < Z.to_nat (num_map_blocks cfg))%nat -> ptrs !! k = Some p -> on_device d off p) /\
  NoDup (take (Z.to_nat (num_map_blocks cfg)) ptrs).

(** [d'] holds the map blocks [0 .. n) and is [d] elsewhere. *)
Definition holds_pages (d d' : block_device) (n : nat) : Prop :=
  dev_ok d' /\ nr_sects d' = nr_sects d /\ same_below off d d' /\
  (forall k p, (k < n)%nat -> ptrs !! k = Some p -> block_at d' off p = map_page k) /\
  (forall b, on_device d off b -> b ∉ take (Z.to_nat (num_map_blocks cfg)) ptrs ->
     block_at d' off b = block_at d off b).

Lemma ptrs_distinct d j k p q :
  ptrs_ok d -> (j < Z.to_nat (num_map_blocks cfg))%nat -> (k < Z.to_nat (num_map_blocks cfg))%nat ->
  ptrs !! j = Some p -> ptrs !! k = Some q -> j <> k -> p <> q.
Proof.
  intros (_ & _ & Hnd) Hj Hk Hp Hq Hne ->. apply Hne.
  eapply NoDup_lookup; [exact Hnd|rewrite lookup_take_lt by done; done|by rewrite lookup_take_lt].
Qed.

Lemma holds_pages_step d d' n p :
  ptrs_ok d -> holds_pages d d' n -> (n < Z.to_nat (num_map_blocks cfg))%nat -> ptrs !! n = Some p ->
  holds_pages d (set_block d' off p (map_page n)) (S n).
Proof.
  intros Hok (Hd & Hn & Hlo & Hh & Ho) Hlt Hp. pose proof Hok as (_ & Hon & _).
  assert (Hon' : forall b, on_device d off b -> on_device d' off b)
    by (intros b (? & ? & ?); unfold on_device; rewrite Hn; done).
  split_and!.
  - apply set_block_ok; [done|apply map_page_length].
  - done.
  - etransitivity; [exact Hlo|]. by apply set_block_below, Hon', (Hon n).
  - intros k q Hk Hq. destruct (decide (k = n)) as [->|Hne].
    + simplify_eq. apply block_at_set, map_page_length.
    + rewrite block_at_set_ne; [apply Hh; [lia|done]|..].
      * apply Hon', (Hon n); done.
      * apply Hon', (Hon k); [lia|done].
      * eapply (ptrs_distinct d n k); [done|lia|lia|done..].
  - intros b Hb Hni. rewrite block_at_set_ne; [by apply Ho|apply Hon', (Hon n); done|by apply Hon'|].
    intros <-. apply Hni. apply list_elem_of_lookup. exists n. by rewrite lookup_take_lt.
Qed.

Lemma set_bdev_bdev x : set_bdev (bdev x) x = x.
Proof. by destruct x. Qed.

Lemma write_sb_loop_update n : forall i d',
  (i + n = 975)%nat -> (i <= Z.to_nat (num_map_blocks cfg))%nat ->
  ptrs_ok (bdev c) -> holds_pages (bdev c) d' i ->
  exists stop bw d'', write_sb_map_blocks n (Z.of_nat i) true (Z.of_nat i) (set_bdev d' c)
      = Ok (0, stop, bw, set_bdev d'' c) /\
    holds_pages (bdev c) d'' (Z.to_nat (num_map_blocks cfg)).
Proof.
  pose proof sizes as (_ & Hmb & _).
  induction n as [|n IH]; intros i d' Hi Hle Hok Hh; cbn [write_sb_map_blocks].
  - eexists _, _, d'. split; [done|]. by replace (Z.to_nat (num_map_blocks cfg)) with i by lia.
  - change (config (set_bdev d' c)) with (config c). rewrite Hc.
    rewrite wrap_id by (unfold in_range; lia).
    destruct (Z.eqb_spec (num_map_blocks cfg - Z.of_nat i) 0) as [E|E].
    { eexists _, _, d'. split; [done|]. by replace (Z.to_nat (num_map_blocks cfg)) with i by lia. }
    pose proof Hok as (Hlen & Hon & _).
    destruct (lookup_lt_is_Some_2 ptrs i ltac:(lia)) as [p Hp].
    unfold map_block_target. change (super_block (set_bdev d' c)) with (super_block c). fold ptrs.
    rewrite Nat2Z.id, Hp. cbn [of_option mbind res_bind mret res_ret].
    unfold write_map_block, ctx_write_page.
    change (afs_map_blocks (set_bdev d' c)) with (afs_map_blocks c). rewrite Hblocks.
    replace (Z.to_nat (Z.of_nat i *32 AFS_BLOCK_SIZE)) with (4096 * i)%nat
      by (unfold AFS_BLOCK_SIZE; rewrite wrap_id by (unfold in_range; lia); lia).
    rewrite pages_slice by lia. cbn [of_option mbind res_bind].
    change (bdev (set_bdev d' c)) with d'. change (passive_fs (set_bdev d' c)) with (passive_fs c). fold off.
    destruct Hh as (Hd & Hn & Hh').
    rewrite write_page_good.
    2: done.
    2: { destruct (Hon i p ltac:(lia) Hp) as (? & ? & ?). unfold on_device. by rewrite Hn. }
    2: done.
    2: apply map_page_length.
    cbn [of_option mbind res_bind mret res_ret].
    rewrite (wrap_id 32 (Z.of_nat i + 1)) by (unfold in_range; lia).
    replace (Z.of_nat i + 1) with (Z.of_nat (S i)) by lia.
    apply (IH (S i) (set_block d' off p (map_page i))); [lia|lia|done|].
    apply holds_pages_step; [done|done|lia|done].
Qed.

Lemma write_map_blocks_update :
  ptrs_ok (bdev c) -> dev_ok (bdev c) ->
  exists d', write_map_blocks c true = Ok (0, set_bdev d' c) /\
    holds_pages (bdev c) d' (Z.to_nat (num_map_blocks cfg)).
Proof.
  intros Hok Hd. unfold write_map_blocks. rewrite <- (set_bdev_bdev c).
  destruct (write_sb_loop_update 975 0 (bdev c) ltac:(lia) ltac:(lia) Hok) as (stop & bw & d' & E & Hh).
  { split_and!; try done. lia. }
  change (Z.of_nat 0) with 0 in E. change (Z.to_nat NUM_MAP_BLKS_IN_SB) with 975%nat. rewrite E.
  cbn [mbind res_bind]. exists d'. split; [|done]. destruct stop; [done|].
  change (config (set_bdev d' c)) with (config c). by rewrite Hc, Hptr.
Qed.
End Write.

(** ** [afs_fill_map] *)
(** Bits only ever become set. *)
Definition grows (v v' : option bit_vector_t) : Prop :=
  bvok v' /\ bvlen v' = bvlen v /\ forall j, bvmem v j = true -> bvmem v' j = true.

Lemma grows_trans v v' v'' : grows v v' -> grows v' v'' -> grows v v''.
Proof. intros (? & ? & H1) (? & ? & H2). split_and!; [done|congruence|auto]. Qed.

(** Only bits whose numbers satisfy [P] are new. *)
Definition marked (P : Z -> Prop) (v v' : option bit_vector_t) : Prop :=
  grows v v' /\ forall j, bvmem v' j = true -> bvmem v j = true \/ P j.

Lemma marked_refl P v : bvok v -> marked P v v.
Proof. intros H. split; [by split_and!|]. intros j Hj. by left. Qed.

Lemma marked_trans (P : Z -> Prop) v v' v'' : marked P v v' -> marked P v' v'' -> marked P v v''.
Proof. intros [G1 H1] [G2 H2]. split; [by eapply grows_trans|]. intros j [Hj|Hj]%H2; [by apply H1|by right]. Qed.

Lemma marked_mono (P Q : Z -> Prop) v v' : (forall j, P j -> Q j) -> marked P v v' -> marked Q v v'.
Proof. intros HPQ [G H]. split; [done|]. intros j [Hj|Hj]%H; [by left|right; by apply HPQ]. Qed.

Section Fill.
Context (c : afs_private) (Hc : config c = cfg) (Hnb : 0 < num_blocks cfg).
Let off := data_start_off (passive_fs c).
Context (ptrs : list Z) (Hptrs : List.length ptrs = 975%nat).
Context (Hdev : dev_ok (bdev c)) (Hpages : forall k p, (k < Z.to_nat (num_map_blocks cfg))%nat ->
           ptrs !! k = Some p -> on_device (bdev c) off p /\ block_at (bdev c) off p = map_page k).

(** The bytes of the map after [i] blocks. *)
Definition filled (i : nat) (m : list Z) : Prop :=
  List.length m = map_bytes /\ take (i * entries_bytes) m = take (i * entries_bytes) amap.

Lemma filled_step i m :
  (i * entries_bytes <= map_bytes)%nat -> filled i m ->
  exists m', splice (i * entries_bytes) (chunk i) m = Some m' /\ filled (S i) m'.
Proof.
  intros Hi [Hl Ht]. pose proof (chunk_length i) as Hcl.
  rewrite splice_Some by lia. eexists; split; [done|]. split.
  - rewrite !length_app, length_take, length_drop. lia.
  - rewrite Ht. rewrite app_assoc.
    assert (E : take (i * entries_bytes) amap ++ chunk i = take (i * entries_bytes + entries_bytes) amap).
    { unfold chunk. apply take_take_drop. }
    rewrite E. replace (S i * entries_bytes)%nat with (i * entries_bytes + entries_bytes)%nat by lia.
    destruct (Nat.le_ge_cases (i * entries_bytes + entries_bytes) map_bytes) as [H|H].
    + rewrite take_app_le by (rewrite length_take; lia). by rewrite take_take, Nat.min_id.
    + rewrite (drop_ge m) by lia. rewrite app_nil_r, take_take. f_equal. lia.
Qed.

Lemma fill_one_spec i p buf m v :
  (i < Z.to_nat (num_map_blocks cfg))%nat -> ptrs !! i = Some p -> List.length buf = 4096%nat ->
  filled i m -> bvok v ->
  exists v' m', fill_one p (entries_done (Z.of_nat i)) buf (set_map m (set_vector v c))
    = Ok (0, bool_decide (S i = Z.to_nat (num_map_blocks cfg)), entries_done (Z.of_nat (S i)), map_page i,
          set_map m' (set_vector v' c)) /\ filled (S i) m' /\ marked (fun q => q ∈ take (Z.to_nat (num_map_blocks cfg)) ptrs) v v'.
Proof.
  intros Hi Hp Hbuf Hf Hv. destruct (Hpages i p Hi Hp) as [Hon Hpage].
  assert (Hlast : bool_decide (num_blocks cfg <= (Z.of_nat i + 1) * num_map_entries_per_block cfg)
                  = bool_decide (S i = Z.to_nat (num_map_blocks cfg))).
  { apply bool_decide_ext. destruct Hcfg as (_ & _ & _ & _ & ? & _ & _ & ? & ? & _). split; intros; nia. }
  destruct (entries_offset (Z.of_nat i)) as (Ho & Hcnt & Hin); [lia| |].
  { destruct Hcfg as (_ & _ & _ & _ & ? & _ & _ & _ & ? & _). nia. }
  rewrite Nat2Z.id in Ho, Hcnt, Hin.
  destruct (entries_done_step (Z.of_nat i)) as [Hstep Hle]; [lia|].
  unfold fill_one, ctx_read_page, ctx_allocation_set. cbn [bdev set_map set_vector passive_fs config vector afs_map].
  fold off. rewrite read_page_good by (done || exact I). rewrite Hpage.
  cbn [mbind res_bind mret res_ret negb Z.eqb].
  cbn [set_bdev set_map set_vector vector config passive_fs].
  destruct (allocation_set_total v p Hv) as (r & v' & Hset & Hv' & Hl' & Hm'); [destruct Hon as (? & _); lia|].
  rewrite Hset. cbn [mbind res_bind mret res_ret]. rewrite Hc. fold (entry_count (Z.of_nat i)).
  cbn [set_vector set_bdev afs_map].
  rewrite Ho, Hcnt, Hle, Hlast, Hstep.
  replace (Z.to_nat (SHA512_SZ + unused_space_per_block cfg)) with (64 + pad)%nat
    by (pose proof Hcfg as (_ & _ & _ & ? & _); unfold pad, SHA512_SZ; lia).
  rewrite map_page_chunk. cbn [of_option mbind res_bind].
  change (afs_map (set_map m (set_vector v c))) with m.
  destruct (filled_step i m Hin Hf) as (m' & -> & Hf'). cbn [of_option mbind res_bind].
  exists v', m'. split; [|split; [done|split; [split_and!; [done|done|intros j Hj; apply Hm'; by left]|]]].
  2: { intros j [Hj|[-> _]]%Hm'; [by left|right; apply (list_elem_of_lookup_2 _ i); by rewrite lookup_take_lt]. }
  replace (Z.of_nat (S i)) with (Z.of_nat i + 1) by lia. by destruct c.
Qed.

Lemma fill_from_sb_spec n : forall i buf m v,
  (i + n = 975)%nat -> (i < Z.to_nat (num_map_blocks cfg))%nat -> List.length buf = 4096%nat ->
  filled i m -> bvok v ->
  exists v' buf', fill_from_sb n (Z.of_nat i) ptrs (entries_done (Z.of_nat i)) buf (set_map m (set_vector v c))
    = Ok (0, num_blocks cfg, buf', set_map amap (set_vector v' c)) /\ marked (fun q => q ∈ take (Z.to_nat (num_map_blocks cfg)) ptrs) v v'.
Proof.
  pose proof sizes as (_ & Hmb & _).
  induction n as [|n IH]; intros i buf m v Hi Hlt Hbuf Hf Hv; [lia|]. cbn [fill_from_sb].
  destruct (lookup_lt_is_Some_2 ptrs i ltac:(lia)) as [p Hp]. rewrite Nat2Z.id, Hp.
  cbn [of_option mbind res_bind].
  destruct (fill_one_spec i p buf m v Hlt Hp Hbuf Hf Hv) as (v' & m' & -> & Hf' & Hv').
  cbn [mbind res_bind]. case_bool_decide as E.
  - exists v', (map_page i). split; [|done].
    assert (Hge : (map_bytes <= S i * entries_bytes)%nat).
    { pose proof Hcfg as (_ & _ & _ & _ & ? & _ & _ & Hup & _). unfold map_bytes, entries_bytes.
      pose proof sizes as (_ & _ & ? & ? & _). rewrite E, <- Z2Nat.inj_mul by nia. apply Z2Nat.inj_le; nia. }
    destruct Hf' as [Hl Ht]. rewrite (take_ge m'), (take_ge amap) in Ht by (rewrite ?Hl, ?Hmap; exact Hge).
    rewrite Ht. do 4 f_equal.
    unfold entries_done. apply Z.min_r. pose proof Hcfg as (_ & _ & _ & _ & ? & _ & _ & Hup & _). nia.
  - replace (Z.of_nat i + 1) with (Z.of_nat (S i)) by lia.
    destruct (IH (S i) (map_page i) m' v') as (v2 & buf' & -> & Hg); [lia|lia|apply map_page_length|done|apply Hv'|].
    exists v2, buf'. split; [done|]. by eapply marked_trans.
Qed.
End Fill.
End Layout.

(** ** [afs_create_map] *)
Definition fresh_map (cfg : afs_config) : list Z :=
  concat (replicate (Z.to_nat (num_blocks cfg)) (fresh_entry (num_carrier_blocks cfg))).

Lemma concat_replicate_length {A} n (l : list A) :
  List.length (concat (replicate n l)) = (n * List.length l)%nat.
Proof. induction n as [|n IH]; [done|]. cbn [replicate concat]. rewrite length_app, IH. lia. Qed.

Lemma fresh_entry_length n : 0 <= n -> List.length (fresh_entry n) = Z.to_nat (40 + 6 * n).
Proof.
  intros Hn. unfold fresh_entry. rewrite length_app, concat_replicate_length, tuple_bytes_length, length_replicate.
  change (Z.to_nat (CARRIER_HASH_SZ + ENTROPY_HASH_SZ)) with 40%nat. lia.
Qed.

Lemma concat_replicate_S {A} n (l : list A) : concat (replicate (S n) l) = concat (replicate n l) ++ l.
Proof. rewrite replicate_S_end, concat_app. cbn. by rewrite app_nil_r. Qed.

Section CreateMap.
Context (cfg : afs_config) (Hcfg : config_wf cfg) (Hptr : num_ptr_blocks cfg = 0).
Context (junk : list Z) (Hjunk : List.length junk = Z.to_nat (num_blocks cfg * map_entry_sz cfg)).
Let sz := Z.to_nat (map_entry_sz cfg).

Lemma create_map_step i :
  0 <= i < num_blocks cfg ->
  splice (Z.to_nat (i *32 map_entry_sz cfg)) (fresh_entry (num_carrier_blocks cfg))
    (concat (replicate (Z.to_nat i) (fresh_entry (num_carrier_blocks cfg))) ++ drop (Z.to_nat i * sz) junk)
  = Some (concat (replicate (Z.to_nat (i + 1)) (fresh_entry (num_carrier_blocks cfg))) ++
          drop (Z.to_nat (i + 1) * sz) junk).
Proof.
  intros Hi. pose proof (sizes cfg Hcfg Hptr) as (_ & _ & T & S & NB & _).
  assert (He : List.length (fresh_entry (num_carrier_blocks cfg)) = sz).
  { destruct Hcfg as (E & ? & _). rewrite fresh_entry_length by lia. unfold sz. by rewrite E. }
  set (e := fresh_entry (num_carrier_blocks cfg)) in *.
  assert (0 <= i * map_entry_sz cfg /\ i * map_entry_sz cfg + map_entry_sz cfg <= num_blocks cfg * map_entry_sz cfg) by nia.
  assert (Hn : Z.of_nat (Z.to_nat i * sz) = i * map_entry_sz cfg) by (unfold sz; rewrite Nat2Z.inj_mul; lia).
  rewrite wrap_id by (unfold in_range; lia).
  replace (Z.to_nat (i * map_entry_sz cfg)) with (List.length (concat (replicate (Z.to_nat i) e)) + 0)%nat
    by (rewrite concat_replicate_length, He; lia).
  rewrite splice_app_r, splice_Some by (rewrite length_drop; unfold sz in *; lia).
  rewrite take_0, app_nil_l, Nat.add_0_l, drop_drop, He. cbn [fmap option_fmap option_map].
  replace (Z.to_nat (i + 1)) with (Datatypes.S (Z.to_nat i)) by lia.
  rewrite concat_replicate_S, <- app_assoc. do 3 f_equal. f_equal. lia.
Qed.

Lemma create_map_loop :
  forM (Z.to_nat (num_blocks cfg)) 0
    (fun i m => of_option (splice (Z.to_nat (i *32 map_entry_sz cfg))
                                  (fresh_entry (num_carrier_blocks cfg)) m)) junk
  = Ok (fresh_map cfg).
Proof.
  destruct (forM_invariant (fun i m => m =
      concat (replicate (Z.to_nat i) (fresh_entry (num_carrier_blocks cfg))) ++ drop (Z.to_nat i * sz) junk)
    (Z.to_nat (num_blocks cfg)) 0
    (fun i m => of_option (splice (Z.to_nat (i *32 map_entry_sz cfg))
                                  (fresh_entry (num_carrier_blocks cfg)) m)) junk) as (m & -> & ->).
  - done.
  - intros k m Hk ->. rewrite create_map_step by lia. by eexists.
  - pose proof (sizes cfg Hcfg Hptr) as (_ & _ & T & S & NB & _).
    rewrite Z.add_0_l, Nat2Z.id. rewrite drop_ge; [by rewrite app_nil_r|].
    rewrite Hjunk. unfold sz. rewrite Z2Nat.inj_mul by lia. lia.
Qed.
End CreateMap.

Lemma fresh_map_length cfg :
  config_wf cfg -> List.length (fresh_map cfg) = map_bytes cfg.
Proof.
  intros (E & ? & _ & _ & _ & ? & _). unfold fresh_map, map_bytes.
  rewrite concat_replicate_length, fresh_entry_length, E by lia. lia.
Qed.

Lemma set_allocs_nil c : allocs c = [] -> set_allocs [] c = c.
Proof. by destruct c as [????????????]; cbn; intros ->. Qed.

(** ** Theorems *)
Section MapTheorems.
Context (sha512 : list Z -> list Z) (uninit : nat -> list Z).
Context (sha512_length : forall l, List.length (sha512 l) = 64%nat).
Context (uninit_length : forall n, List.length (uninit n) = n).

Lemma afs_create_map_spec c :
  config_wf (config c) -> num_ptr_blocks (config c) = 0 -> allocs c = [] ->
  afs_create_map uninit c = Ok (0, set_map (fresh_map (config c)) c).
Proof.
  intros Hcfg Hptr Ha. unfold afs_create_map, alloc. rewrite Ha. cbn [head default tail negb].
  pose proof (sizes _ Hcfg Hptr) as (_ & _ & T & _).
  rewrite create_map_loop; [|done|done|].
  - cbn [mbind res_bind]. by rewrite set_allocs_nil.
  - rewrite uninit_length, wrap_id by (unfold in_range; lia). done.
Qed.

Lemma afs_create_map_blocks_spec c :
  config_wf (config c) -> num_ptr_blocks (config c) = 0 -> allocs c = [] ->
  List.length (afs_map c) = map_bytes (config c) ->
  afs_create_map_blocks sha512 c = Ok (0, set_map_blocks
    (pages sha512 (config c) (afs_map c) (Z.to_nat (num_map_blocks (config c)))) c).
Proof.
  intros Hcfg Hptr Ha Hm. unfold afs_create_map_blocks, alloc. rewrite Ha. cbn [head default tail negb].
  rewrite create_map_blocks_loop by done. cbn [mbind res_bind]. rewrite Z.eqb_refl. cbn [negb].
  by rewrite set_allocs_nil.
Qed.

(** A context in which the map of [c] is mounted from [d]. *)
Definition mounts c d cm : Prop :=
  config cm = config c /\ data_start_off (passive_fs cm) = data_start_off (passive_fs c) /\
  bdev cm = d /\ allocs cm = [] /\ bvok (vector cm) /\
  List.length (afs_map cm) = map_bytes (config c).

Lemma fill_map_spec c d cm :
  config_wf (config c) -> num_ptr_blocks (config c) = 0 -> 0 < num_blocks (config c) ->
  List.length (afs_map c) = map_bytes (config c) ->
  List.length (sb_map_block_ptrs (super_block c)) = 975%nat -> dev_ok d ->
  (forall k p, (k < Z.to_nat (num_map_blocks (config c)))%nat ->
     sb_map_block_ptrs (super_block c) !! k = Some p ->
     on_device d (data_start_off (passive_fs c)) p /\
     block_at d (data_start_off (passive_fs c)) p = map_page sha512 (config c) (afs_map c) k) ->
  mounts c d cm ->
  exists v, afs_fill_map uninit (super_block c) cm = Ok (0, set_map (afs_map c) (set_vector v cm)) /\
    marked (fun q => q ∈ take (Z.to_nat (num_map_blocks (config c))) (sb_map_block_ptrs (super_block c))) (vector cm) v.
Proof.
  intros Hcfg Hptr Hnb Hm Hp Hd Hpages (E1 & E2 & E3 & E4 & Hv & Hlm).
  unfold afs_fill_map, alloc. rewrite E4. cbn [head default tail negb andb allocs set_allocs].
  destruct (fill_from_sb_spec sha512 sha512_length (config c) Hcfg Hptr (afs_map c) Hm
    cm E1 Hnb (sb_map_block_ptrs (super_block c)) Hp) with
    (n := 975%nat) (i := 0%nat) (buf := uninit 4096) (m := afs_map cm) (v := vector cm)
    as (v & buf' & Hfill & Hv').
  { by rewrite E3. }
  { rewrite E2, E3. exact Hpages. }
  { done. }
  { destruct Hcfg as (_ & _ & _ & _ & ? & _ & _ & ? & _). nia. }
  { apply uninit_length. }
  { done. }
  { done. }
  assert (Ecm : set_map (afs_map cm) (set_vector (vector cm) cm) = cm) by by destruct cm.
  rewrite !(set_allocs_nil cm) by done. rewrite Ecm in Hfill.
  assert (E0 : entries_done (config c) (Z.of_nat 0) = 0) by (unfold entries_done; lia).
  change (Z.to_nat NUM_MAP_BLKS_IN_SB) with 975%nat. rewrite E0 in Hfill. change (Z.of_nat 0) with 0 in Hfill.
  rewrite Hfill. cbn [mbind res_bind negb Z.eqb].
  set (cf := set_map _ _). assert (Ecf : config cf = config c) by done. rewrite Ecf, Hptr.
  cbn [fill_from_ptr_blocks Z.to_nat]. rewrite Ecf, Hptr. cbn [Z.ltb Z.compare mbind res_bind negb Z.eqb].
  rewrite Ecf, Z.eqb_refl. cbn [negb]. by exists v.
Qed.

(** [afs_create_map] followed by [afs_create_map_blocks] builds the
    documented layout: the map is [num_blocks] entries of invalid tuples and
    zero hashes, and the buffer of map blocks is the concatenation of blocks
    made of the SHA-512 of the entry area, the padding and the entries of that
    block, zero-padded at the end. Every byte of memory that was not
    initialised is overwritten. *)
Theorem create_map_blocks_layout c :
  config_wf (config c) -> num_ptr_blocks (config c) = 0 -> allocs c = [] ->
  exists c1 c2, afs_create_map uninit c = Ok (0, c1) /\ afs_create_map_blocks sha512 c1 = Ok (0, c2) /\
    afs_map c2 = fresh_map (config c) /\
    afs_map_blocks c2 = concat (map (map_page sha512 (config c) (fresh_map (config c)))
                                    (seq 0 (Z.to_nat (num_map_blocks (config c))))).
Proof.
  intros Hcfg Hptr Ha. eexists _, _. split; [by apply afs_create_map_spec|].
  split; [apply afs_create_map_blocks_spec; try done; by apply fresh_map_length|]. done.
Qed.

(** C13: the map survives unmounting and mounting. For an instance whose map
    blocks fit in the super block: whatever the map holds, writing it out
    ([afs_create_map_blocks], then [write_map_blocks] over the blocks the
    super block points to) and reading it into a new context
    ([afs_fill_map]) succeeds and gives the same map; blocks the super block
    does not point to are not touched. *)
Theorem map_roundtrip c :
  config_wf (config c) -> num_ptr_blocks (config c) = 0 -> 0 < num_blocks (config c) ->
  allocs c = [] -> dev_ok (bdev c) ->
  List.length (afs_map c) = map_bytes (config c) -> ptrs_ok (config c) c (bdev c) ->
  exists c1 c2, afs_create_map_blocks sha512 c = Ok (0, c1) /\ write_map_blocks c1 true = Ok (0, c2) /\
    (forall b, on_device (bdev c) (data_start_off (passive_fs c)) b ->
       b ∉ take (Z.to_nat (num_map_blocks (config c))) (sb_map_block_ptrs (super_block c)) ->
       block_at (bdev c2) (data_start_off (passive_fs c)) b
       = block_at (bdev c) (data_start_off (passive_fs c)) b) /\
    forall cm, mounts c (bdev c2) cm ->
      exists cm', afs_fill_map uninit (super_block c2) cm = Ok (0, cm') /\ afs_map cm' = afs_map c.
Proof.
  intros Hcfg Hptr Hnb Ha Hd Hm Hp.
  rewrite (afs_create_map_blocks_spec c) by done. set (c1 := set_map_blocks _ c).
  destruct (write_map_blocks_update sha512 sha512_length (config c) Hcfg Hptr (afs_map c) Hm c1
    eq_refl eq_refl Hp Hd) as (d' & Hw & Hd' & Hn & _ & Hpg & Hother).
  exists c1, (set_bdev d' c1). split_and!; [done|exact Hw|exact Hother|].
  intros cm Hcm. destruct Hp as (Hlen & Hon & _).
  destruct (fill_map_spec c d' cm Hcfg Hptr Hnb Hm Hlen Hd') as (v & Hf & _); [|done|].
  - intros k p Hk Hkp. split; [|by apply Hpg].
    destruct (Hon k p Hk Hkp) as (? & ? & ?). unfold on_device. by rewrite Hn.
  - eexists. split; [exact Hf|done].
Qed.
End MapTheorems.

(** A small instance: two data blocks, one map block at block 5. *)
Definition small_config : afs_config :=
  {| num_carrier_blocks := 4; threshold := 0; num_entropy_blocks := 1; map_entry_sz := 64;
     unused_space_per_block := 0; num_map_entries_per_block := 63; num_blocks := 2;
     num_map_blocks := 1; num_ptr_blocks := 0; instance_size := 8192; bdev_size := 800 |}.

Definition small_sb : afs_super_block :=
  {| sb_hash := replicate 32 0; sb_pass_hash := replicate 20 0; sb_instance_size := 0;
     sb_reserved := replicate 4 0; sb_entropy_dir := replicate 64 0;
     sb_shadow_passphrase := replicate 64 0; sb_map_block_ptrs := 5 :: replicate 974 0;
     sb_first_ptr_block := 0 |}.

Definition small_context (m : list Z) (d : block_device) : afs_private :=
  {| config := small_config; super_block := small_sb; passive_fs := small_fs; vector := small_vector;
     afs_map := m; afs_map_blocks := []; afs_ptr_blocks := []; passphrase := replicate 64 1;
     args_entropy_dir := replicate 64 0; bdev := d; rng := []; allocs := [] |}.

Definition zero_sha512 (l : list Z) : list Z := replicate 64 0.

Lemma small_config_wf : config_wf small_config.
Proof.
  unfold config_wf, small_config, NUM_MAP_BLKS_IN_SB, NUM_MAP_BLKS_IN_PB, SHA512_SZ, AFS_BLOCK_SIZE.
  cbn [num_carrier_blocks map_entry_sz unused_space_per_block num_map_entries_per_block num_blocks
       num_map_blocks num_ptr_blocks]. lia.
Qed.

Lemma create_map_blocks_layout_witness :
  exists c1 c2, afs_create_map (fun n => replicate n 7) (small_context [] (empty_device 800)) = Ok (0, c1) /\
    afs_create_map_blocks zero_sha512 c1 = Ok (0, c2) /\ afs_map c2 = fresh_map small_config.
Proof.
  destruct (create_map_blocks_layout zero_sha512 (fun n => replicate n 7)
    (fun _ => length_replicate 64 0) (fun n => length_replicate n 7)
    (small_context [] (empty_device 800)) small_config_wf eq_refl eq_refl) as (c1 & c2 & H1 & H2 & H3 & _).
  exists c1, c2. split; [exact H1|]. split; [exact H2|exact H3].
Defined.

Lemma small_ptrs_ok m : ptrs_ok small_config (small_context m (empty_device 800)) (empty_device 800).
Proof.
  split_and!.
  - cbn [small_context super_block small_sb sb_map_block_ptrs]. cbn [List.length].
    by rewrite length_replicate.
  - intros k p Hk Hp. change (Z.to_nat (num_map_blocks small_config)) with 1%nat in Hk.
    destruct k; [|lia]. cbn in Hp. injection Hp as <-. unfold on_device; cbn. lia.
  - change (Z.to_nat (num_map_blocks small_config)) with 1%nat.
    cbn [small_context super_block small_sb sb_map_block_ptrs]. apply NoDup_singleton.
Qed.

Lemma map_roundtrip_witness :
  exists c1 c2, afs_create_map_blocks zero_sha512 (small_context (replicate 128 9) (empty_device 800)) = Ok (0, c1) /\
    write_map_blocks c1 true = Ok (0, c2) /\
    exists cm', afs_fill_map (fun n => replicate n 7) (super_block c2) (small_context (replicate 128 0) (bdev c2))
      = Ok (0, cm') /\ afs_map cm' = replicate 128 9.
Proof.
  destruct (map_roundtrip zero_sha512 (fun n => replicate n 7)
    (fun _ => length_replicate 64 0) (fun n => length_replicate n 7)
    (small_context (replicate 128 9) (empty_device 800)) small_config_wf eq_refl eq_refl eq_refl
    (empty_device_ok 800) eq_refl (small_ptrs_ok _)) as (c1 & c2 & H1 & H2 & _ & H3).
  exists c1, c2. split; [exact H1|]. split; [exact H2|]. apply H3.
  split_and!; try reflexivity. apply small_fs_wf.
Defined.
