(* ===== verification/SuperBlock.v ===== *)
(** * SuperBlock: creating an instance and mounting it again

    Theorems about [write_super_block] and [find_super_block] of
    src/dm_afs_metadata.c: an instance that was created is found again by its
    passphrase, with the same super block and the same map. *)
From stdpp Require Import base tactics option list numbers gmap.
From Stdlib Require Import ZArith Lia.
From S2P Require Import Prelude BitVector Allocation BlockIo Format Metadata MapBlocks.

Local Open Scope Z_scope.
Local Open Scope afs_scope.

Section SuperBlock.
Context (sha1 sha256 sha512 : list Z -> list Z) (uninit : nat -> list Z) (sb_place : buffer_place).
Context (sha256_length : forall l, List.length (sha256 l) = 32%nat).
Context (sha512_length : forall l, List.length (sha512 l) = 64%nat).
Context (uninit_length : forall n, List.length (uninit n) = n).
Context (sb_place_ok : place_ok false sb_place).

Implicit Types c : afs_private.

(** The fields that no phase of the creation changes after the geometry is
    fixed. *)
Definition frame c c' : Prop :=
  config c' = config c /\ passive_fs c' = passive_fs c /\ passphrase c' = passphrase c /\
  args_entropy_dir c' = args_entropy_dir c /\ allocs c' = allocs c.

(** No entry of the array repeats an entry of the list, which may be shorter
    than the array. *)
Definition list_apart (fs : afs_passive_fs) : Prop := forall i j x, (i < Z.to_nat (list_len fs))%nat ->
  block_list fs !! i = Some x -> block_list fs !! j = Some x -> i = j.

Lemma NoDup_list_apart fs : NoDup (block_list fs) -> list_apart fs.
Proof. intros Hnd i j x _ Hi Hj. by eapply NoDup_lookup. Qed.

(** ** Reserving the locations *)
Lemma hash_block_nonneg n h b : 0 <= n -> hash_block n h = Ok b -> 0 <= b.
Proof.
  unfold hash_block. intros Hn. destruct (Z.eqb_spec n 0); [done|]. intros [= <-].
  apply Z.mod_pos_bound. lia.
Qed.

Lemma locate_nonneg fuel fs n h t b h' t' :
  0 <= n -> locate sha1 fuel fs n h t = Ok (b, h', t') -> 0 <= b.
Proof.
  intros Hn. revert h t. induction fuel as [|f IH]; intros h t H; cbn [locate] in H;
    apply res_bind_Ok in H as (b0 & Hb & H); apply res_bind_Ok in H as (r & _ & H);
    destruct (negb (r =? -1)); try done.
  - injection H as <- <- <-. by eapply hash_block_nonneg.
  - injection H as <- <- <-. by eapply hash_block_nonneg.
  - by eapply IH.
Qed.

Lemma device_size_nonneg c : 0 <= block_device_size c.
Proof. apply wrap_range. lia. Qed.

(** [b] is reserved in [v], if it is an index of the vector at all. *)
Definition reserved (v : option bit_vector_t) (b : Z) : Prop :=
  0 <= b /\ (b <= bvlen v -> bvmem v b = true).

Lemma reserved_grows v v' b : grows v v' -> reserved v b -> reserved v' b.
Proof. intros (_ & E & H) [? Hb]. split; [done|]. rewrite E. auto. Qed.

Lemma ctx_allocation_set_spec b c :
  bvok (vector c) -> 0 <= b ->
  exists v, ctx_allocation_set b c = Ok (set_vector v c) /\ marked (fun j => j = b) (vector c) v /\ reserved v b.
Proof.
  intros Hv Hb. destruct (allocation_set_total (vector c) b Hv Hb) as (r & v & E & Hok & Hl & Hm).
  unfold ctx_allocation_set. rewrite E. cbn [mbind res_bind mret res_ret]. exists v. split; [done|].
  split; [split; [split_and!; try done; intros j Hj; apply Hm; by left|intros j [Hj|[-> _]]%Hm; [by left|by right]]|].
  split; [done|]. intros Hle. apply Hm. right. split; [done|lia].
Qed.

Lemma locate_replicas_spec n fuel : forall h c bs c1,
  bvok (vector c) -> locate_replicas sha1 n fuel h c = Ok (bs, c1) ->
  exists v, c1 = set_vector v c /\ grows (vector c) v /\ Forall (reserved v) bs.
Proof.
  induction n as [|n IH]; intros h c bs c1 Hv H; cbn [locate_replicas] in H.
  { injection H as <- <-. exists (vector c). split_and!; [by destruct c|split_and!; done|constructor]. }
  apply res_bind_Ok in H as ([[b h'] t] & Hloc & H).
  apply (locate_nonneg _ _ _ _ _ _ _ _ (device_size_nonneg c)) in Hloc as Hb.
  destruct (ctx_allocation_set_spec b c Hv Hb) as (v & Hset & [Hg _] & Hr). rewrite Hset in H. cbn [mbind res_bind] in H.
  apply res_bind_Ok in H as ([bs' c2] & Hrec & H). injection H as <- <-.
  destruct (IH h' (set_vector v c) bs' c2) as (v' & -> & Hg' & Hrs); [apply Hg|done|].
  exists v'. split; [done|]. split; [by eapply grows_trans|]. constructor; [by eapply reserved_grows|done].
Qed.

(** ** Writing the map blocks of a new instance *)
Section Create.
Context (c0 : afs_private) (Hcfg : config_wf (config c0)) (Hptr : num_ptr_blocks (config c0) = 0).
Let fs := passive_fs c0.
Let off := data_start_off fs.
Let mb := Z.to_nat (num_map_blocks (config c0)).
Context (Hmap : List.length (afs_map c0) = map_bytes (config c0)).
Context (Hblocks : afs_map_blocks c0 = pages sha512 (config c0) (afs_map c0) mb).
Context (Hfs : fs_wf fs (vector c0)) (Hnd : list_apart fs).
Context (Hon : Forall (on_device (bdev c0) off) (block_list fs)).
Let page := map_page sha512 (config c0) (afs_map c0).

(** Map block pointer [p] for block [k]: the block of an index that was free
    at the start and is taken now, holding page [k]. *)
Definition placed c (k : nat) (p : Z) : Prop :=
  exists idx, 0 <= idx < list_len fs /\ block_list fs !! Z.to_nat idx = Some p /\
    bvmem (vector c0) idx = false /\ bvmem (vector c) idx = true /\
    block_at (bdev c) off p = page k.

(** What [write_map_blocks] leaves of the super block. *)
Definition same_but_ptrs (sb sb' : afs_super_block) : Prop :=
  sb_hash sb' = sb_hash sb /\ sb_pass_hash sb' = sb_pass_hash sb /\
  sb_instance_size sb' = sb_instance_size sb /\ sb_reserved sb' = sb_reserved sb /\
  sb_entropy_dir sb' = sb_entropy_dir sb /\ sb_shadow_passphrase sb' = sb_shadow_passphrase sb /\
  sb_first_ptr_block sb' = sb_first_ptr_block sb.

Record written (i : nat) c : Prop := mk_written {
  w_frame : frame c0 c;
  w_map : afs_map c = afs_map c0;
  w_blocks : afs_map_blocks c = afs_map_blocks c0;
  w_ptrblocks : afs_ptr_blocks c = afs_ptr_blocks c0;
  w_fs : fs_wf fs (vector c);
  w_grows : grows (vector c0) (vector c);
  w_dev : dev_ok (bdev c) /\ nr_sects (bdev c) = nr_sects (bdev c0);
  w_low : same_below off (bdev c0) (bdev c);
  w_sb : same_but_ptrs (super_block c0) (super_block c);
  w_len : List.length (sb_map_block_ptrs (super_block c)) = 975%nat;
  w_range : Forall (in_range 32) (sb_map_block_ptrs (super_block c));
  w_nodup : NoDup (take i (sb_map_block_ptrs (super_block c)));
  w_ptrs : forall k, (k < i)%nat -> exists p, sb_map_block_ptrs (super_block c) !! k = Some p /\ placed c k p;
}.

Lemma on_list c idx p :
  nr_sects (bdev c) = nr_sects (bdev c0) -> block_list fs !! idx = Some p -> on_device (bdev c) off p.
Proof.
  intros Hn Hp. pose proof (Forall_lookup_1 _ _ _ _ Hon Hp) as (? & ? & ?). unfold on_device. by rewrite Hn.
Qed.

Lemma acquire_marks i c b c1 :
  written i c -> ctx_acquire_block c = Ok (b, c1) -> b <> AFS_INVALID_BLOCK ->
  exists idx v r, c1 = set_rng r (set_vector v c) /\ 0 <= idx < list_len fs /\
    block_list fs !! Z.to_nat idx = Some b /\ marks (vector c) v idx /\ fs_wf fs v.
Proof.
  intros W H Hb. apply res_bind_Ok in H as ([[b' v] r] & Ha & H). injection H as <- <-.
  destruct (w_frame _ _ W) as (_ & Ef & _). rewrite Ef in Ha. fold fs in Ha.
  pose proof (acquire_block_sound _ _ _ _ _ _ (w_fs _ _ W) Ha) as Hacq.
  pose proof (acquired_wf _ _ _ _ (w_fs _ _ W) Hacq).
  destruct Hacq as [(idx & ? & ? & ?)|[-> _]]; [|done]. by exists idx, v, r.
Qed.

(** The context after one more map block. *)
Definition place_block (i : nat) (b : Z) (v : option bit_vector_t) (r : list Z) c : afs_private :=
  set_bdev (set_block (bdev c) off b (page i)) (sb_set_ptr (Z.of_nat i) b (set_rng r (set_vector v c))).

Lemma written_step i c idx b v r :
  (i < 975)%nat -> written i c -> 0 <= idx < list_len fs -> block_list fs !! Z.to_nat idx = Some b ->
  marks (vector c) v idx -> fs_wf fs v -> written (S i) (place_block i b v r c).
Proof.
  intros Hi W Hidx Hb (Hfree & Hok & Hl & Hm) Hwf. pose proof W as [Fr M B P _ G [D N] Lo S L R Nd Pt].
  assert (Hgv : grows (vector c) v).
  { split_and!; [done|done|]. intros j Hj. rewrite Hm. by destruct (decide (j = idx)). }
  assert (Hbr : in_range 32 b).
  { destruct Hfs as (_ & _ & _ & HF). apply (free_list_Forall _ _ _ _ HF) in Hb; [|done].
    unfold in_range, AFS_INVALID_BLOCK in *. lia. }
  assert (Hfree0 : bvmem (vector c0) idx = false).
  { destruct (bvmem (vector c0) idx) eqn:E; [|done]. destruct G as (_ & _ & G). rewrite (G idx E) in Hfree. done. }
  constructor; try done.
  - by eapply grows_trans.
  - split; [|done]. apply set_block_ok; [done|by apply map_page_length].
  - etransitivity; [exact Lo|]. apply set_block_below. by eapply on_list.
  - cbn. by rewrite length_insert.
  - cbn. by apply Forall_insert.
  - cbn [place_block super_block sb_set_ptr set_bdev set_super_block sb_map_block_ptrs set_rng set_vector]. rewrite Nat2Z.id.
    rewrite (take_S_r _ _ b) by (apply list_lookup_insert_eq; lia). rewrite take_insert_ge by lia. apply NoDup_app. split; [done|].
    split; [|apply NoDup_singleton]. intros p Hp%list_elem_of_lookup_1. destruct Hp as (k & Hk). apply lookup_take_Some in Hk as [Hk Hki].
    destruct (Pt k Hki) as (p' & Hp' & j & Hj & Hjp & _ & Hjt & _). assert (p' = p) as -> by congruence. intros ->%list_elem_of_singleton.
    assert (Z.to_nat idx = Z.to_nat j) by (eapply Hnd; [|done..]; lia). assert (j = idx) as -> by lia. congruence.
  - intros k Hk. cbn [place_block super_block sb_set_ptr set_bdev set_super_block sb_map_block_ptrs set_rng set_vector].
    rewrite Nat2Z.id. destruct (decide (k = i)) as [->|Hne].
    + exists b. rewrite list_lookup_insert_eq by lia. split; [done|]. exists idx. split_and!; try (done || lia).
      * change (bvmem v idx = true). rewrite Hm. by destruct (decide (idx = idx)).
      * cbn [place_block bdev set_bdev]. apply block_at_set, map_page_length; done.
    + rewrite list_lookup_insert_ne by done. destruct (Pt k ltac:(lia)) as (p & Hp & j & Hj & Hjp & Hj0 & Hjt & Hpg).
      exists p. split; [done|]. exists j. split_and!; try (done || lia).
      * change (bvmem v j = true). rewrite Hm. by destruct (decide (j = idx)).
      * cbn [place_block bdev set_bdev]. rewrite block_at_set_ne; [done|by eapply on_list..|].
        intros ->. assert (Z.to_nat idx = Z.to_nat j) by (eapply Hnd; [|done..]; lia).
        assert (j = idx) as -> by lia. congruence.
Qed.

Lemma write_sb_loop_create n : forall i c ret stop bw c',
  (i + n = 975)%nat -> (i <= mb)%nat -> written i c ->
  write_sb_map_blocks n (Z.of_nat i) false (Z.of_nat i) c = Ok (ret, stop, bw, c') -> ret = 0 \/ stop = false ->
  written mb c'.
Proof.
  pose proof (sizes _ Hcfg Hptr) as (_ & Hmb & _).
  induction n as [|n IH]; intros i c ret stop bw c' Hi Hle W H Hret; cbn [write_sb_map_blocks] in H.
  { injection H as <- <- <- <-. by replace mb with i by lia. }
  pose proof W as [Fr M B P _ G [D N] Lo S L R Nd Pt].
  destruct Fr as (Ec & Ef & _). rewrite Ec in H. rewrite wrap_id in H by (unfold in_range; lia).
  destruct (Z.eqb_spec (num_map_blocks (config c0) - Z.of_nat i) 0) as [E|E].
  { injection H as <- <- <- <-. by replace mb with i by lia. }
  apply res_bind_Ok in H as ([target c1] & Ht & H). unfold map_block_target in Ht.
  apply res_bind_Ok in Ht as ([b c2] & Ha & Ht).
  destruct (Z.eqb_spec b AFS_INVALID_BLOCK) as [|Hb]; [by injection Ht as <- <-; injection H as <- <- <- <-; destruct Hret|].
  injection Ht as <- <-. destruct (acquire_marks i c b c2 W Ha Hb) as (idx & v & r & -> & Hidx & Hbl & Hm & Hwf).
  unfold write_map_block, ctx_write_page in H.
  cbn [sb_set_ptr set_super_block set_rng set_vector afs_map_blocks bdev passive_fs] in H.
  rewrite B, Hblocks, Ef in H.
  replace (Z.to_nat (Z.of_nat i *32 AFS_BLOCK_SIZE)) with (4096 * i)%nat in H
    by (unfold AFS_BLOCK_SIZE; rewrite wrap_id by (unfold in_range; lia); lia).
  rewrite pages_slice in H by (done || lia). cbn [of_option mbind res_bind] in H.
  fold fs off page in H. rewrite write_page_good in H;
    [|done|by eapply on_list|done|by apply map_page_length].
  cbn [mbind res_bind mret res_ret negb Z.eqb] in H.
  rewrite (wrap_id 32 (Z.of_nat i + 1)) in H by (unfold in_range; lia).
  replace (Z.of_nat i + 1) with (Z.of_nat (Datatypes.S i)) in H by lia.
  eapply (IH (Datatypes.S i)); [lia|lia| |exact H|done].
  by apply written_step with (idx := idx); [lia|..].
Qed.

Lemma write_map_blocks_create c' :
  written 0 c0 -> write_map_blocks c0 false = Ok (0, c') -> written mb c'.
Proof.
  intros W H. unfold write_map_blocks in H. apply res_bind_Ok in H as ([[[ret stop] bw] c1] & Hl & H).
  change (Z.to_nat NUM_MAP_BLKS_IN_SB) with 975%nat in Hl.
  assert (Hret : ret = 0 \/ stop = false -> written mb c1).
  { intros E. by eapply (write_sb_loop_create 975 0 c0 ret stop bw c1); [lia|lia|..]. }
  destruct stop; [injection H as -> ->; auto|].
  destruct (w_frame _ _ (Hret (or_intror eq_refl))) as (Ec & _).
  rewrite Ec, Hptr in H. injection H as <-. auto.
Qed.
End Create.

(** ** Writing the replicas *)
Lemma write_replicas_spec bs : forall c c' ret,
  let off := data_start_off (passive_fs c) in
  let img := sb_bytes (super_block c) in
  dev_ok (bdev c) -> List.length img = 4096%nat -> Forall (on_device (bdev c) off) (block_list (passive_fs c)) ->
  write_replicas sb_place bs c = Ok (ret, c') ->
  exists d, c' = set_bdev d c /\ ret = 0 /\ dev_ok d /\ nr_sects d = nr_sects (bdev c) /\ same_below off (bdev c) d /\
    (forall x, on_device (bdev c) off x -> block_at (bdev c) off x = img -> block_at d off x = img) /\
    Forall (fun b => exists x, block_list (passive_fs c) !! Z.to_nat b = Some x /\ block_at d off x = img) bs /\
    (forall x, on_device (bdev c) off x -> (forall b, b ∈ bs -> block_list (passive_fs c) !! Z.to_nat b <> Some x) ->
       block_at d off x = block_at (bdev c) off x).
Proof.
  induction bs as [|b bs IH]; intros c c' ret off img Hd Hl Hon H; cbn [write_replicas] in H.
  { injection H as <- <-. exists (bdev c). split_and!; try done. by rewrite set_bdev_bdev. }
  apply res_bind_Ok in H as (dst & Hdst & H). apply of_option_Ok in Hdst.
  pose proof (Forall_lookup_1 _ _ _ _ Hon Hdst) as Hod. unfold ctx_write_page in H.
  fold off img in H. rewrite write_page_good in H by done. cbn [mbind res_bind mret res_ret negb Z.eqb] in H.
  set (d1 := set_block (bdev c) off dst img) in H.
  destruct (IH (set_bdev d1 c) c' ret) as (d & -> & -> & Hd' & Hn & Hlow & Hkeep & Hall & Hout); try done.
  { by apply set_block_ok. }
  assert (Hkeep' : forall x, on_device (bdev c) off x -> block_at (bdev c) off x = img -> block_at d off x = img).
  { intros x Hx Hxi. apply Hkeep; [done|]. change (block_at d1 off x = img). unfold d1.
    destruct (decide (x = dst)) as [->|]; [by apply block_at_set|by rewrite block_at_set_ne]. }
  exists d. split_and!; try done.
  - etransitivity; [|exact Hlow]. by apply set_block_below.
  - constructor; [|done]. exists dst. split; [done|]. apply Hkeep; [done|]. by apply block_at_set.
  - intros x Hx Hni. etransitivity; [apply (Hout x Hx); intros b' Hb'; apply Hni; by right|].
    change (block_at d1 off x = block_at (bdev c) off x). unfold d1. rewrite block_at_set_ne; [done..|].
    intros ->. by apply (Hni b); [left|].
Qed.

(** ** Rebuilding the allocation vector *)
(** The carrier block numbers of the map are not negative. *)
Definition map_ptrs_ok c : Prop := forall i j t, 0 <= i < num_blocks (config c) -> 0 <= j < num_carrier_blocks (config c) ->
  slice (Z.to_nat (i *32 map_entry_sz (config c)) + Z.to_nat (map_tuple_sz * j)) (Z.to_nat map_tuple_sz) (afs_map c) = Some t ->
  0 <= carrier_block_ptr (tuple_of_bytes t).

Lemma bytes_ptrs_ok c : bytes (afs_map c) -> map_ptrs_ok c.
Proof.
  intros Hb i j t _ _ Ht. unfold slice in Ht. case_decide; [|discriminate]. injection Ht as <-.
  apply le_load_range. by repeat apply Forall_take || apply Forall_drop.
Qed.

(** The number of a carrier block in the map. *)
Definition carrier_in c (q : Z) : Prop := exists i j t, 0 <= i < num_blocks (config c) /\ 0 <= j < num_carrier_blocks (config c) /\
  slice (Z.to_nat (i *32 map_entry_sz (config c)) + Z.to_nat (map_tuple_sz * j)) (Z.to_nat map_tuple_sz) (afs_map c) = Some t /\
  q = carrier_block_ptr (tuple_of_bytes t).

Lemma rebuild_total c :
  config_wf (config c) -> num_ptr_blocks (config c) = 0 -> bvok (vector c) ->
  List.length (afs_map c) = map_bytes (config c) -> map_ptrs_ok c ->
  exists v, rebuild_allocation_vector c = Ok (set_vector v c) /\ marked (carrier_in c) (vector c) v.
Proof.
  intros Hcfg Hptr Hv Hl Hb. unfold rebuild_allocation_vector.
  pose proof (sizes _ Hcfg Hptr) as (_ & _ & T & S & NB & _).
  destruct (forM_invariant (fun _ x => exists v, x = set_vector v c /\ marked (carrier_in c) (vector c) v)
    (Z.to_nat (num_blocks (config c))) 0
    (fun i x => forM (Z.to_nat (num_carrier_blocks (config c))) 0 (rebuild_tuple (config c) i) x) c)
    as (c' & Hf & v & -> & Hv'); [| |by exists v].
  { exists (vector c). split; [by destruct c|by apply marked_refl]. }
  intros i x Hi (v & -> & Hv'). apply (forM_invariant (fun _ x => exists v, x = set_vector v c /\ marked (carrier_in c) (vector c) v)); [by exists v|].
  intros j x Hj (w & -> & Hw). unfold rebuild_tuple.
  change (afs_map (set_vector w c)) with (afs_map c).
  destruct Hcfg as (Esz & Hcar & _).
  assert (Hle : i * map_entry_sz (config c) + map_entry_sz (config c) <= num_blocks (config c) * map_entry_sz (config c)) by nia.
  assert (exists t, slice (Z.to_nat (i *32 map_entry_sz (config c)) + Z.to_nat (map_tuple_sz * j)) (Z.to_nat map_tuple_sz) (afs_map c) = Some t) as [t Et].
  { rewrite wrap_id by (unfold in_range; nia). eexists. apply slice_Some. rewrite Hl. unfold map_bytes, map_tuple_sz. lia. }
  rewrite Et. cbn [of_option mbind res_bind].
  pose proof (Hb i j t ltac:(lia) ltac:(lia) Et) as Hload.
  destruct (ctx_allocation_set_spec _ (set_vector w c) (proj1 (proj1 Hw)) Hload) as (v' & -> & Hg & _).
  exists (set_vector v' c). split; [done|]. exists v'. split; [done|]. eapply marked_trans; [exact Hw|].
  eapply marked_mono; [|exact Hg]. intros q ->. exists i, j, t. split_and!; done || lia.
Qed.

Lemma fresh_map_bytes cfg : bytes (fresh_map cfg).
Proof.
  assert (R : forall n l, bytes l -> bytes (concat (replicate n l))).
  { induction n; intros l Hl; cbn; [constructor|]. apply Forall_app_2; [done|by apply IHn]. }
  apply R, Forall_app_2; [apply R; apply Forall_app_2; apply le_store_bytes|].
  by apply Forall_replicate.
Qed.

(** ** Creation *)
Record creatable c : Prop := mk_creatable {
  cr_cfg : config_wf (config c);
  cr_ptr : num_ptr_blocks (config c) = 0;
  cr_size : in_range 64 (instance_size (config c));
  cr_allocs : allocs c = [];
  cr_dev : dev_ok (bdev c);
  cr_fs : fs_wf (passive_fs c) (vector c);
  cr_apart : list_apart (passive_fs c);
  cr_on : Forall (on_device (bdev c) (data_start_off (passive_fs c))) (block_list (passive_fs c));
  cr_sb : sb_wf (super_block c);
}.

(** An instance whose super block is on the device, where its passphrase leads,
    and whose map block pointers are distinct blocks of the device. *)
Record installed (fuel : nat) c : Prop := mk_installed {
  in_cfg : config_wf (config c);
  in_ptr : num_ptr_blocks (config c) = 0;
  in_dev : dev_ok (bdev c);
  in_map : List.length (afs_map c) = map_bytes (config c) /\ map_ptrs_ok c;
  in_wf : sb_wf (super_block c);
  in_hash : sb_hash (super_block c) = sha256 (sb_body (super_block c));
  in_size : sb_instance_size (super_block c) = instance_size (config c);
  in_sb : exists b h t x,
    locate sha1 fuel (passive_fs c) (block_device_size c) (sha1 (passphrase c)) 0 = Ok (b, h, t) /\ 0 <= b /\
    block_list (passive_fs c) !! Z.to_nat b = Some x /\ on_device (bdev c) (data_start_off (passive_fs c)) x /\
    x ∉ take (Z.to_nat (num_map_blocks (config c))) (sb_map_block_ptrs (super_block c)) /\
    block_at (bdev c) (data_start_off (passive_fs c)) x = sb_bytes (super_block c);
  in_ptrs : ptrs_ok (config c) c (bdev c);
}.

(** The map blocks on the device are those of the map. *)
Definition saved c : Prop := forall k p, (k < Z.to_nat (num_map_blocks (config c)))%nat ->
  sb_map_block_ptrs (super_block c) !! k = Some p ->
  block_at (bdev c) (data_start_off (passive_fs c)) p = map_page sha512 (config c) (afs_map c) k.

(** The state of a created instance. *)
Record created (fuel : nat) c c' : Prop := mk_created {
  cd_frame : frame c c';
  cd_map : afs_map c' = fresh_map (config c);
  cd_nr : nr_sects (bdev c') = nr_sects (bdev c);
  cd_low : same_below (data_start_off (passive_fs c)) (bdev c) (bdev c');
  cd_vector : fs_wf (passive_fs c) (vector c');
  cd_installed : installed fuel c';
  cd_saved : saved c';
  cd_owned : forall k p, (k < Z.to_nat (num_map_blocks (config c)))%nat -> sb_map_block_ptrs (super_block c') !! k = Some p ->
    exists idx, 0 <= idx < list_len (passive_fs c) /\ block_list (passive_fs c) !! Z.to_nat idx = Some p /\ bvmem (vector c') idx = true;
  cd_reserved : forall b h t, locate sha1 fuel (passive_fs c) (block_device_size c) (sha1 (passphrase c)) 0 = Ok (b, h, t) ->
    b < list_len (passive_fs c) -> bvmem (vector c') b = true;
}.

(** The context when [write_map_blocks] is called. *)
Definition before_map_blocks (v : option bit_vector_t) c : afs_private :=
  sb_set_first AFS_INVALID_BLOCK (set_ptr_blocks []
    (set_map_blocks (pages sha512 (config c) (fresh_map (config c)) (Z.to_nat (num_map_blocks (config c))))
      (set_map (fresh_map (config c)) (set_vector v c)))).

Lemma before_wf v c : creatable c -> grows (vector c) v -> fs_wf (passive_fs c) v.
Proof. intros H (? & E & ?). destruct (cr_fs _ H) as (? & ? & ? & ?). unfold fs_wf. by rewrite E. Qed.

Lemma before_start v c : creatable c -> grows (vector c) v -> written (before_map_blocks v c) 0 (before_map_blocks v c).
Proof.
  intros Hcr Hg. pose proof (before_wf v c Hcr Hg) as Hwf. destruct Hcr as [_ _ _ _ Hd _ _ _ (? & ? & ? & ? & ? & Hl & ? & ? & Hr)].
  constructor; try done.
  - split_and!; try done. apply Hg.
  - constructor.
  - lia.
Qed.

Lemma written_sb_wf v c i c2 : creatable c -> written (before_map_blocks v c) i c2 -> sb_wf (super_block c2).
Proof.
  intros Hcr W. destruct (w_sb _ _ _ W) as (S1 & S2 & S3 & S4 & S5 & S6 & S7). pose proof (w_len _ _ _ W). pose proof (w_range _ _ _ W).
  destruct (cr_sb _ Hcr) as (? & ? & ? & ? & ? & ? & ? & ? & ?). unfold sb_wf. rewrite S1, S2, S3, S4, S5, S6, S7. done.
Qed.

Lemma before_written v c c2 :
  creatable c -> grows (vector c) v -> write_map_blocks (before_map_blocks v c) false = Ok (0, c2) ->
  written (before_map_blocks v c) (Z.to_nat (num_map_blocks (config c))) c2.
Proof.
  intros Hcr Hg Hw. pose proof (before_wf v c Hcr Hg) as Hwf. pose proof (before_start v c Hcr Hg).
  destruct Hcr. eapply (write_map_blocks_create (before_map_blocks v c)); try done. by apply (fresh_map_length (config c)).
Qed.

Lemma write_super_block_phases fuel c c' :
  creatable c -> write_super_block sha1 sha256 sha512 uninit sb_place fuel c = Ok (0, c') ->
  exists b h t bs v c2 d,
    locate sha1 fuel (passive_fs c) (block_device_size c) (sha1 (passphrase c)) 0 = Ok (b, h, t) /\
    Forall (reserved v) (b :: bs) /\ bvlen v = bvlen (vector c) /\
    written (before_map_blocks v c) (Z.to_nat (num_map_blocks (config c))) c2 /\
    write_replicas sb_place (b :: bs) (finish_sb sha256 c2) = Ok (0, d) /\ c' = set_map_blocks [] d.
Proof.
  intros Hcr H. pose proof Hcr as [Hcfg Hptr _ Ha _ Hfs _ _ _]. unfold write_super_block in H.
  apply res_bind_Ok in H as ([[b h] t] & Hloc & H).
  pose proof (locate_nonneg _ _ _ _ _ _ _ _ (device_size_nonneg c) Hloc) as Hb.
  destruct (ctx_allocation_set_spec b c) as (v1 & Hs & [Hg1 _] & Hr1); [apply Hfs|done|].
  rewrite Hs in H. cbn [mbind res_bind] in H. apply res_bind_Ok in H as ([bs c1] & Hrep & H).
  destruct (locate_replicas_spec _ _ _ (set_vector v1 c) _ _ (proj1 Hg1) Hrep) as (v & -> & Hg2 & Hrs).
  change (set_vector v (set_vector v1 c)) with (set_vector v c) in H.
  rewrite (afs_create_map_spec uninit uninit_length) in H by done. cbn [mbind res_bind negb Z.eqb] in H.
  rewrite (afs_create_map_blocks_spec sha512 sha512_length) in H;
    [|done|done|done|by apply (fresh_map_length (config c))].
  cbn [mbind res_bind negb Z.eqb] in H. unfold alloc in H.
  match type of H with context [set_map_blocks ?p ?m] => set (cb := set_map_blocks p m) in H end.
  assert (Eb : allocs cb = [] /\ config cb = config c) by done. destruct Eb as [Eb1 Eb2].
  rewrite Eb1 in H. cbn [head default tail negb] in H. rewrite set_allocs_nil, Eb2, Hptr in H by done.
  change (sb_set_first _ (set_ptr_blocks _ cb)) with (before_map_blocks v c) in H.
  apply res_bind_Ok in H as ([ret c2] & Hw & H). unfold write_ptr_blocks in Hw.
  apply res_bind_Ok in Hw as ([ret' c3] & Hmbs & Hw).
  destruct (Z.eqb_spec ret' 0) as [->|Hne]; cbn [negb] in Hw.
  2: { injection Hw as <- <-. destruct (Z.eqb_spec ret' 0); [done|]. cbn [negb] in H. by injection H. }
  assert (Hg : grows (vector c) v) by by eapply grows_trans.
  pose proof (before_written v c c3 Hcr Hg Hmbs) as W.
  destruct (w_frame _ _ _ W) as (Ec & _). rewrite Ec in Hw.
  change (config (before_map_blocks v c)) with (config c) in Hw. rewrite Hptr in Hw.
  cbn [Z.eqb] in Hw. injection Hw as <- <-. cbn [negb Z.eqb] in H.
  apply res_bind_Ok in H as ([ret c4] & Hwr & H).
  exists b, h, t, bs, v, c3, c4. destruct Hg as (_ & Hgl & _).
  destruct (Z.eqb_spec ret 0) as [->|Hne]; cbn [negb] in H; [|by injection H].
  injection H as <-. split_and!; try done. constructor; [by eapply reserved_grows|done].
Qed.

Lemma finish_sb_wf c2 :
  sb_wf (super_block c2) -> in_range 64 (instance_size (config c2)) ->
  sb_wf (super_block (finish_sb sha256 c2)).
Proof.
  intros (? & ? & ? & ? & ? & ? & ? & ? & ?) Hi.
  unfold sb_wf, finish_sb. cbn [super_block set_super_block sb_hash sb_pass_hash sb_instance_size sb_reserved
    sb_entropy_dir sb_shadow_passphrase sb_map_block_ptrs sb_first_ptr_block].
  rewrite strncpy_length. split_and!; try done; by destruct Hi.
Qed.

Lemma write_super_block_creates fuel c c' :
  creatable c -> write_super_block sha1 sha256 sha512 uninit sb_place fuel c = Ok (0, c') -> created fuel c c'.
Proof.
  intros Hcr H. pose proof Hcr as [Hcfg Hptr Hsz Ha Hd Hfs Hnd Hon Hsb].
  destruct (write_super_block_phases fuel c c' Hcr H) as (b & h & t & bs & v & c2 & c4 & Hloc & Hres & Hvl & W & Hwr & ->).
  pose proof W as [(Ec & Ef & Ep & Ee & Eal) M _ _ Wfs Wg [D N] Lo (S1 & S2 & S3 & S4 & S5 & S6 & S7) L R Nd Pt].
  change (config (before_map_blocks v c)) with (config c) in Ec.
  change (passive_fs (before_map_blocks v c)) with (passive_fs c) in Ef, Pt.
  pose proof (written_sb_wf v c _ c2 Hcr W) as Hwf2.
  pose proof (finish_sb_wf c2 Hwf2 ltac:(by rewrite Ec)) as Hwf3.
  destruct (write_replicas_spec (b :: bs) (finish_sb sha256 c2) c4 0) as (d & -> & _ & Hd' & Hn & Hlow & _ & Hall & Hout);
    [done|by apply sb_bytes_length| |done|].
  { change (passive_fs (finish_sb sha256 c2)) with (passive_fs c2). rewrite Ef.
    eapply Forall_impl; [exact Hon|]. intros x (? & ? & ?). unfold on_device.
    change (bdev (finish_sb sha256 c2)) with (bdev c2). by rewrite N. }
  change (passive_fs (finish_sb sha256 c2)) with (passive_fs c2) in *. rewrite Ef in *.
  change (bdev (finish_sb sha256 c2)) with (bdev c2) in *.
  set (c' := set_map_blocks [] (set_bdev d (finish_sb sha256 c2))) in *.
  assert (Hlisted : forall x i, block_list (passive_fs c) !! i = Some x -> on_device d (data_start_off (passive_fs c)) x).
  { intros x i Hx. pose proof (Forall_lookup_1 _ _ _ _ Hon Hx) as (? & ? & ?). unfold on_device. by rewrite Hn, N. }
  assert (Hplace : forall k p, (k < Z.to_nat (num_map_blocks (config c)))%nat -> sb_map_block_ptrs (super_block c2) !! k = Some p ->
    exists idx, 0 <= idx < list_len (passive_fs c) /\ block_list (passive_fs c) !! Z.to_nat idx = Some p /\ bvmem (vector c2) idx = true /\
      (forall b', b' ∈ b :: bs -> block_list (passive_fs c) !! Z.to_nat b' <> Some p) /\
      block_at (bdev c2) (data_start_off (passive_fs c)) p = map_page sha512 (config c) (fresh_map (config c)) k).
  { intros k p Hk Hp. destruct (Pt k Hk) as (p' & Hp' & idx & Hidx & Hbl & Hfree & Ht & Hpg). assert (p' = p) as -> by congruence.
    change (0 <= idx < list_len (passive_fs c)) in Hidx. exists idx. split_and!; try done; [lia..|]. intros b' Hb' Hbp.
    assert (Z.to_nat b' = Z.to_nat idx) by (symmetry; eapply Hnd; [|done..]; lia).
    apply (proj1 (Forall_forall _ _) Hres) in Hb' as [Hb0 Hbit].
    assert (b' = idx) as -> by lia. change (vector (before_map_blocks v c)) with v in Hfree.
    rewrite Hbit in Hfree; [done|]. rewrite Hvl. destruct Hfs as (_ & ? & _). lia. }
  pose proof (sizes _ Hcfg Hptr) as (_ & Hmb & _).
  constructor; try done.
  - exact (eq_trans Hn N).
  - etransitivity; [exact Lo|exact Hlow].
  - constructor; try done.
    + change (config c') with (config c2). by rewrite Ec.
    + change (config c') with (config c2). by rewrite Ec.
    + change (afs_map c') with (afs_map c2). change (config c') with (config c2). rewrite Ec, M. split; [by apply fresh_map_length|]. apply bytes_ptrs_ok. change (afs_map c') with (afs_map c2). rewrite M. apply fresh_map_bytes.
    + inversion Hall as [|? ? (x & Hx & Hxi) _]; subst. inversion Hres as [|? ? [Hb0 _] _]; subst.
      exists b, h, t, x. change (passive_fs c') with (passive_fs c2). change (passphrase c') with (passphrase c2). unfold block_device_size.
      change (config c') with (config c2). rewrite Ec, Ef, Ep. split_and!; try done; [by eapply Hlisted|].
      change (sb_map_block_ptrs (super_block c')) with (sb_map_block_ptrs (super_block c2)). intros (k & Hk)%list_elem_of_lookup_1.
      apply lookup_take_Some in Hk as [Hk Hki]. destruct (Hplace k x Hki Hk) as (_ & _ & _ & _ & Hni & _). by apply (Hni b); [left|].
    + split_and!.
      * exact L.
      * change (config c') with (config c2). rewrite Ec. intros k p Hk Hp. destruct (Hplace k p Hk Hp) as (idx & _ & Hbl & _).
        change (passive_fs c') with (passive_fs c2). rewrite Ef. by eapply Hlisted.
      * change (config c') with (config c2). rewrite Ec. exact Nd.
  - unfold saved. change (config c') with (config c2). change (passive_fs c') with (passive_fs c2). change (afs_map c') with (afs_map c2).
    rewrite Ec, Ef, M. intros k p Hk Hp. destruct (Hplace k p Hk Hp) as (idx & _ & Hbl & _ & Hni & Hpg).
    etransitivity; [apply (Hout p)|exact Hpg]; [|exact Hni]. destruct (Hlisted _ _ Hbl) as (? & ? & ?). unfold on_device. by rewrite <- Hn.
  - intros k p Hk Hp. destruct (Hplace k p Hk Hp) as (idx & ? & ? & ? & _). by exists idx.
  - intros b' h' t' E' Hlt. rewrite Hloc in E'. injection E' as <- _ _. inversion Hres as [|? ? [_ Hbit] _]; subst.
    destruct Wg as (_ & _ & Wg). apply Wg, Hbit. rewrite Hvl. destruct Hfs as (_ & ? & _). lia.
Qed.

(** ** Mounting *)

(** A context that a mount starts from: the same passphrase, free list and
    sizes, the device that the creation left, anything else. *)
Record mountable c c' cm : Prop := mk_mountable {
  mo_pass : passphrase cm = passphrase c;
  mo_fs : passive_fs cm = passive_fs c;
  mo_size : instance_size (config cm) = instance_size (config c);
  mo_bdev_size : bdev_size (config cm) = bdev_size (config c);
  mo_geometry : build_configuration (config cm) 4 1 = Ok (config c);
  mo_dev : bdev cm = bdev c';
  mo_allocs : allocs cm = [];
  mo_vector : bvok (vector cm);
  mo_sb : sb_wf (super_block cm);
}.

Lemma find_loop_hits fuel c cm :
  installed fuel c -> mountable c c cm ->
  exists b0 b, hash_block (block_device_size cm) (sha1 (passphrase cm)) = Ok b0 /\ 0 <= b /\
    (exists h t, locate sha1 fuel (passive_fs c) (block_device_size c) (sha1 (passphrase c)) 0 = Ok (b, h, t)) /\
    find_loop sha1 sha256 sb_place 32 fuel 0 (sha1 (passphrase cm)) 0 b0 cm
    = Ok (false, 0, b, set_super_block (super_block c) cm).
Proof.
  intros [_ _ D _ Wf Hh Hs (b & h & t & x & Hloc & Hb & Hx & Hon & _ & Himg) _] [Ep Ef Es Eb _ Ed _ _ Wm].
  assert (Esz : block_device_size cm = block_device_size c) by (unfold block_device_size; by rewrite Eb).
  rewrite Esz, Ep.
  assert (exists b0, hash_block (block_device_size c) (sha1 (passphrase c)) = Ok b0) as [b0 Hb0].
  { destruct fuel; cbn [locate] in Hloc; apply res_bind_Ok in Hloc as (b0 & ? & _); by exists b0. }
  exists b0, b. split; [done|]. split; [done|]. split; [by exists h, t|].
  change 32%nat with (S 31). cbn [find_loop]. change (0 <? 32) with true. cbv iota.
  rewrite Esz, Ef, Hloc. cbn [mbind res_bind]. rewrite Hx. cbn [of_option mbind res_bind].
  unfold ctx_read_page. rewrite Ef, Ed.
  rewrite read_page_good; [|done|done|done|by apply sb_bytes_length].
  rewrite Himg. cbn [mbind res_bind mret res_ret negb Z.eqb]. rewrite sb_of_sb_bytes by done.
  replace (set_bdev (bdev c) cm) with cm by (rewrite <- Ed; by destruct cm).
  change (super_block (set_super_block (super_block c) cm)) with (super_block c).
  by rewrite bool_decide_eq_true_2.
Qed.

(** The numbers of the blocks the mount takes for in use: those of the map
    blocks and the carriers, and the number of the super block. *)
Definition named fuel c (q : Z) : Prop :=
  q ∈ take (Z.to_nat (num_map_blocks (config c))) (sb_map_block_ptrs (super_block c)) \/ carrier_in c q \/
  exists h t, locate sha1 fuel (passive_fs c) (block_device_size c) (sha1 (passphrase c)) 0 = Ok (q, h, t).

(** The mount of an instance whose map was saved. *)
Lemma find_super_block_mounts fuel c cm :
  installed fuel c -> saved c -> 0 < num_blocks (config c) -> mountable c c cm ->
  exists v, find_super_block sha1 sha256 uninit sb_place fuel cm =
    Ok (0, set_ptr_blocks [] (set_vector v (set_map (afs_map c) (set_config (config c) (set_super_block (super_block c) cm))))) /\
    marked (named fuel c) (vector cm) v.
Proof.
  intros Hin Hsv Hnb Hmo.
  destruct (find_loop_hits fuel c cm Hin Hmo) as (b0 & b & Hb0 & Hb & Hloc & Hfl).
  pose proof Hin as [Hcfg Hptr D [Hlm Hby] Wf Hh Hs _ (Hlp & Hop & _)]. pose proof Hmo as [Ep Ef Es Eb Eg Ed Eal Ev Wm].
  unfold find_super_block. rewrite Hb0. cbn [mbind res_bind]. rewrite Hfl. cbn [mbind res_bind].
  set (c1 := set_super_block (super_block c) cm).
  destruct (ctx_allocation_set_spec b c1 Ev Hb) as (v1 & -> & Hv1 & _). cbn [mbind res_bind negb Z.eqb].
  change (config (set_vector v1 c1)) with (config cm).
  change (super_block (set_vector v1 c1)) with (super_block c).
  rewrite Es, Hs, Z.eqb_refl. cbn [negb]. rewrite Eg. cbn [mbind res_bind].
  set (c2 := set_config (config c) (set_vector v1 c1)).
  rewrite (afs_create_map_spec uninit uninit_length c2) by done. cbn [mbind res_bind negb Z.eqb].
  set (c3 := set_map (fresh_map (config c2)) c2).
  destruct (fill_map_spec sha512 uninit sha512_length uninit_length c (bdev c) c3 Hcfg Hptr Hnb Hlm Hlp D) as (v2 & Hfill & Hv2).
  { intros k p Hk Hp. split; [by apply (Hop k)|by apply Hsv]. }
  { split_and!; [done| |done|done|apply Hv1|by apply (fresh_map_length (config c))].
    change (data_start_off (passive_fs cm) = data_start_off (passive_fs c)). by rewrite Ef. }
  change (super_block c3) with (super_block c). rewrite Hfill. cbn [mbind res_bind negb Z.eqb].
  destruct (rebuild_total (set_map (afs_map c) (set_vector v2 c3))) as (v3 & -> & Hv3); try done; [apply Hv2|].
  cbn [mbind res_bind]. set (c4 := set_vector v3 _). unfold alloc.
  change (allocs c4) with (allocs cm). rewrite Eal. cbn [head default tail negb].
  unfold rebuild_ptr_blocks.
  change (num_ptr_blocks (config (set_ptr_blocks _ _))) with (num_ptr_blocks (config c)).
  change (num_ptr_blocks (config (set_allocs _ _))) with (num_ptr_blocks (config c)). rewrite Hptr.
  cbn [Z.to_nat rebuild_ptr_loop replicate]. exists v3. split; [unfold c4, c3, c2, c1; by rewrite set_allocs_nil|].
  eapply marked_trans; [eapply marked_mono; [|exact Hv1]; intros q ->; by right; right|].
  eapply marked_trans; [eapply marked_mono; [|exact Hv2]; intros q Hq; by left|].
  eapply marked_mono; [|exact Hv3]. intros q Hq. by right; left.
Qed.

(** C6: an instance that was created can be mounted. If [write_super_block]
    returns 0, then [find_super_block], started with the same passphrase, free
    list and sizes on the device it left, returns 0 with the super block and
    the map that were written: the eight replicas, the map blocks and the
    reserved bits of the allocation vector do not collide. For instances
    whose map blocks fit in the super block. *)
Theorem create_then_mount fuel c c' cm :
  creatable c -> 0 < num_blocks (config c) ->
  write_super_block sha1 sha256 sha512 uninit sb_place fuel c = Ok (0, c') ->
  mountable c c' cm ->
  exists cm', find_super_block sha1 sha256 uninit sb_place fuel cm = Ok (0, cm') /\
    super_block cm' = super_block c' /\ afs_map cm' = afs_map c' /\ config cm' = config c.
Proof.
  intros Hcr Hnb Hw Hmo. pose proof (write_super_block_creates fuel c c' Hcr Hw) as Hcd.
  pose proof (cd_frame _ _ _ Hcd) as (Ec & Ef & Ep & _). destruct Hmo as [Mp Mf Ms Mb Mg Md Ma Mv Mw].
  destruct (find_super_block_mounts fuel c' cm) as (v & Hf & _).
  - apply Hcd.
  - apply Hcd.
  - by rewrite Ec.
  - constructor; rewrite ?Ec, ?Ef, ?Ep; done.
  - eexists. split; [exact Hf|]. split; [done|]. split; [done|]. exact Ec.
Qed.
(** C33: [acquire_block] numbers the allocation vector by positions in the free
    list, but the mount marks the blocks in use by their block numbers. So the
    mount of an installed instance without pointer blocks does not protect its
    own map: let [p] be its [k]-th map block, and [i] the position of [p] in
    the free list, and let no map block and no carrier of the map have the
    number [i], nor the replica of the super block that is found. Then after the
    mount, which returns 0 with the super block that names [p], the allocator
    hands out [p] as soon as it draws [i]. *)
Theorem mount_forgets_map_blocks fuel c cm k p i r rest :
  installed fuel c -> saved c -> 0 < num_blocks (config c) -> mountable c c cm -> fs_wf (passive_fs cm) (vector cm) ->
  (k < Z.to_nat (num_map_blocks (config c)))%nat -> sb_map_block_ptrs (super_block c) !! k = Some p ->
  0 <= i < list_len (passive_fs c) -> block_list (passive_fs c) !! Z.to_nat i = Some p ->
  bvmem (vector cm) i = false -> ~ named fuel c i ->
  rng cm = r :: rest -> u32 r mod list_len (passive_fs c) = i ->
  exists cm' c2, find_super_block sha1 sha256 uninit sb_place fuel cm = Ok (0, cm') /\
    sb_map_block_ptrs (super_block cm') !! k = Some p /\ ctx_acquire_block cm' = Ok (p, c2).
Proof.
  intros Hin Hsv Hnb Hmo Hfs Hk Hp Hi Hbl Hfree Hnn Hr Hd.
  destruct (find_super_block_mounts fuel c cm Hin Hsv Hnb Hmo) as (v & Hf & Hg & Hm).
  match type of Hf with _ = Ok (0, ?x) => set (cm' := x) in Hf end.
  assert (Hclear : bvmem v i = false) by (destruct (bvmem v i) eqn:E; [apply Hm in E as [E|E]; [congruence|done]|done]).
  assert (Hfs' : fs_wf (passive_fs cm) v).
  { destruct Hfs as (W1 & W2 & W3 & W4), Hg as (G1 & G2 & _). unfold fs_wf. rewrite G2. split_and!; done || lia. }
  rewrite (mo_fs _ _ _ Hmo) in Hfs'.
  destruct (acquire_loop_step (passive_fs c) v i i rest Hfs' Hi) as [[E _]|(b & v' & Eb & _ & Ea)]; [congruence|].
  assert (b = p) as -> by congruence.
  exists cm', (set_rng rest (set_vector v' cm')). split; [exact Hf|]. split; [exact Hp|].
  unfold ctx_acquire_block, acquire_block, random_block_index.
  change (rng cm') with (rng cm). change (vector cm') with v. change (passive_fs cm') with (passive_fs cm).
  rewrite Hr, (mo_fs _ _ _ Hmo). destruct (Z.eqb_spec (list_len (passive_fs c)) 0); [lia|]. rewrite bind_Ok, Hd, Ea. done.
Qed.
End SuperBlock.

(** ** A small instance

    Four free blocks on a device of 100 blocks; every hash selects block 2,
    so the super block goes there, and the map block to block 1. *)
Definition id_fs : afs_passive_fs :=
  {| block_list := [0; 1; 2; 3]; list_len := 4; sectors_per_block := 8;
     total_blocks := 100; data_start_off := 0; blocks_in_tuple := 0 |}.

Definition id_context (d : block_device) : afs_private :=
  {| config := small_config; super_block := small_sb; passive_fs := id_fs; vector := small_vector;
     afs_map := []; afs_map_blocks := []; afs_ptr_blocks := []; passphrase := replicate 64 1;
     args_entropy_dir := replicate 64 0; bdev := d; rng := [5]; allocs := [] |}.

Definition two_sha1 (l : list Z) : list Z := 2 :: replicate 19 0.
Definition zero_sha256 (l : list Z) : list Z := replicate 32 0.

Lemma id_fs_wf : fs_wf id_fs small_vector.
Proof.
  split_and!.
  - done.
  - done.
  - by vm_compute.
  - apply small_fs_wf.
  - repeat constructor; cbn; done.
Qed.

Lemma small_sb_wf : sb_wf small_sb.
Proof.
  unfold sb_wf, small_sb. cbn [sb_hash sb_pass_hash sb_reserved sb_entropy_dir sb_shadow_passphrase
    sb_map_block_ptrs sb_instance_size sb_first_ptr_block]. cbn [List.length].
  rewrite !length_replicate. split_and!; try done.
  constructor; [done|]. apply Forall_replicate. done.
Qed.

Lemma id_creatable : creatable (id_context (empty_device 800)).
Proof.
  constructor.
  - apply small_config_wf.
  - done.
  - done.
  - done.
  - apply empty_device_ok.
  - apply id_fs_wf.
  - apply NoDup_list_apart. by apply (bool_decide_unpack _).
  - cbn. repeat constructor; cbn; lia.
  - apply small_sb_wf.
Qed.

Lemma id_mountable c' : mountable (id_context (empty_device 800)) c' (id_context (bdev c')).
Proof. constructor; try done; [apply small_fs_wf|apply small_sb_wf]. Qed.

Definition returns_zero (r : res (Z * afs_private)) : bool :=
  match r with Ok (0, _) => true | _ => false end.

Lemma returns_zero_Ok r : returns_zero r = true -> exists c, r = Ok (0, c).
Proof. destruct r as [[[| |] c]| |]; try done. by exists c. Qed.

Lemma create_then_mount_witness :
  exists c' cm',
    write_super_block two_sha1 zero_sha256 zero_sha512 (fun n => replicate n 7) (Linear false) 0
      (id_context (empty_device 800)) = Ok (0, c') /\
    find_super_block two_sha1 zero_sha256 (fun n => replicate n 7) (Linear false) 0 (id_context (bdev c'))
      = Ok (0, cm') /\ super_block cm' = super_block c' /\ afs_map cm' = afs_map c'.
Proof.
  destruct (returns_zero_Ok (write_super_block two_sha1 zero_sha256 zero_sha512 (fun n => replicate n 7)
    (Linear false) 0 (id_context (empty_device 800)))) as [c' Hw]; [vm_compute; reflexivity|].
  destruct (create_then_mount two_sha1 zero_sha256 zero_sha512 (fun n => replicate n 7) (Linear false)
    (fun _ => length_replicate 32 0) (fun _ => length_replicate 64 0) (fun n => length_replicate n 7) (conj eq_refl I)
    0 (id_context (empty_device 800)) c' (id_context (bdev c')) id_creatable eq_refl Hw (id_mountable c'))
    as (cm' & Hf & Hs & Hm & _).
  exists c', cm'. split; [exact Hw|]. split; [exact Hf|]. split; [exact Hs|exact Hm].
Defined.

(** ** The allocation vector after a mount *)
Definition gap_fs : afs_passive_fs :=
  {| block_list := [0; 2; 3; 4]; list_len := 4; sectors_per_block := 8;
     total_blocks := 100; data_start_off := 0; blocks_in_tuple := 0 |}.

Definition gap_context (d : block_device) : afs_private :=
  {| config := small_config; super_block := small_sb; passive_fs := gap_fs; vector := small_vector;
     afs_map := []; afs_map_blocks := []; afs_ptr_blocks := []; passphrase := replicate 64 1;
     args_entropy_dir := replicate 64 0; bdev := d; rng := [1]; allocs := [] |}.

Definition gap_create : res (Z * afs_private) :=
  write_super_block two_sha1 zero_sha256 zero_sha512 (fun n => replicate n 7) (Linear false) 0
    (gap_context (empty_device 800)).

Definition gap_mount (c : afs_private) : res (Z * afs_private) :=
  find_super_block two_sha1 zero_sha256 (fun n => replicate n 7) (Linear false) 0 (gap_context (bdev c)).

Lemma gap_creatable : creatable (gap_context (empty_device 800)).
Proof.
  constructor.
  - apply small_config_wf.
  - done.
  - done.
  - done.
  - apply empty_device_ok.
  - split_and!; [done|done|by vm_compute|apply small_fs_wf|repeat constructor; cbn; done].
  - apply NoDup_list_apart. by apply (bool_decide_unpack _).
  - cbn. repeat constructor; cbn; lia.
  - apply small_sb_wf.
Qed.

(** Its map block is block 2, at position 1 of the list. *)
Definition gap_map_block (r : res (Z * afs_private)) : bool :=
  match r with Ok (0, c) => bool_decide (take 1 (sb_map_block_ptrs (super_block c)) = [2]) | _ => false end.

Lemma gap_created : exists c', gap_create = Ok (0, c') /\ take 1 (sb_map_block_ptrs (super_block c')) = [2].
Proof.
  assert (H : gap_map_block gap_create = true) by (vm_compute; reflexivity). unfold gap_map_block in H.
  destruct gap_create as [[[| |] c']| |]; try discriminate H. exists c'. split; [done|]. by apply bool_decide_eq_true in H.
Qed.

Lemma fresh_no_carrier q c : config c = small_config -> afs_map c = fresh_map small_config -> carrier_in c q -> q = AFS_INVALID_BLOCK.
Proof.
  intros Ec Em (i & j & t & Hi & Hj & Ht & ->). rewrite Ec, Em in *. cbn in Hi, Hj.
  assert (H : (i = 0 \/ i = 1) /\ (j = 0 \/ j = 1 \/ j = 2 \/ j = 3)) by lia.
  destruct H as [[-> | ->] [-> |[-> |[-> | ->]]]]; vm_compute in Ht; injection Ht as <-; reflexivity.
Qed.

Lemma mount_forgets_map_blocks_witness : exists c' cm' c2,
  gap_create = Ok (0, c') /\ gap_mount c' = Ok (0, cm') /\
  sb_map_block_ptrs (super_block cm') !! 0%nat = Some 2 /\ ctx_acquire_block cm' = Ok (2, c2).
Proof.
  destruct gap_created as (c' & Hc & Hp). exists c'.
  pose proof (write_super_block_creates two_sha1 zero_sha256 zero_sha512 (fun n => replicate n 7) (Linear false)
    (fun _ => length_replicate 32 0) (fun _ => length_replicate 64 0) (fun n => length_replicate n 7) (conj eq_refl I) 0 _ c' gap_creatable Hc)
    as [(Ec & Ef & Ep & _) Em _ _ _ Hin Hsv _ _]. change (config (gap_context (empty_device 800))) with small_config in *.
  assert (Hk : sb_map_block_ptrs (super_block c') !! 0%nat = Some 2).
  { destruct (sb_map_block_ptrs (super_block c')); [discriminate Hp|]. cbn in Hp. by injection Hp as ->. }
  destruct (mount_forgets_map_blocks two_sha1 zero_sha256 zero_sha512 (fun n => replicate n 7) (Linear false)
    (fun _ => length_replicate 64 0) (fun n => length_replicate n 7) (conj eq_refl I) 0 c' (gap_context (bdev c')) 0 2 1 1 [] Hin Hsv)
    as (cm' & c2 & Hf & Hs & Ha).
  - rewrite Ec. reflexivity.
  - constructor; cbn [gap_context passphrase passive_fs config bdev allocs vector super_block];
      [by rewrite Ep|by rewrite Ef|by rewrite Ec|by rewrite Ec|rewrite Ec; vm_compute; reflexivity|done|done|apply small_fs_wf|apply small_sb_wf].
  - apply (cr_fs _ gap_creatable).
  - rewrite Ec. cbn. lia.
  - exact Hk.
  - rewrite Ef. cbn. lia.
  - rewrite Ef. reflexivity.
  - reflexivity.
  - intros [H|[H|(h & t & H)]].
    + rewrite Ec in H. change (Z.to_nat (num_map_blocks small_config)) with 1%nat in H. rewrite Hp in H. by apply list_elem_of_singleton in H.
    + by apply (fresh_no_carrier 1 c' Ec Em) in H.
    + rewrite Ef, Ep in H. unfold block_device_size in H. rewrite Ec in H. vm_compute in H. discriminate H.
  - reflexivity.
  - rewrite Ef. reflexivity.
  - exists cm', c2. split; [exact Hc|]. split; [exact Hf|]. split; [exact Hs|exact Ha].
Defined.
