(* ===== verification/Creation.v ===== *)
(** * Creation: when the creation of an instance succeeds

    The other half of the creation theorem of SuperBlock: if the locations of
    the super block are indices of the free list's array and the random
    numbers select a free index for every map block, [write_super_block] of
    src/dm_afs_metadata.c ends, without a fault, and returns 0. *)
From stdpp Require Import base tactics option list numbers gmap.
From Stdlib Require Import ZArith Lia.
From S2P Require Import Prelude BitVector Allocation BlockIo Format Metadata MapBlocks SuperBlock.

Local Open Scope Z_scope.
Local Open Scope afs_scope.

(** ** The vector *)

(** Only bits of [bs] were added. *)
Definition adds (bs : list Z) (v v' : option bit_vector_t) : Prop :=
  marked (fun j => j ∈ bs) v v'.

Lemma adds_app bs bs' v v' v'' : adds bs v v' -> adds bs' v' v'' -> adds (bs ++ bs') v v''.
Proof.
  intros [G1 H1] [G2 H2]. split; [by eapply grows_trans|]. intros j [Hj|Hj]%H2; [|right; apply elem_of_app; by right].
  apply H1 in Hj as [Hj|Hj]; [by left|right; apply elem_of_app; by left].
Qed.

Lemma adds_marks v v' i : marks v v' i -> adds [i] v v'.
Proof.
  intros (_ & Hok & Hl & Hm). split; [split_and!; [done|done|]|]; intros j; rewrite Hm; case_decide as E; try done; [intros _|by left].
  subst. right. by left.
Qed.

Lemma adds_refl v : bvok v -> adds [] v v.
Proof. intros Hv. split; [split_and!; done|by left]. Qed.

Lemma adds_free bs v v' j : adds bs v v' -> bvmem v j = false -> j ∉ bs -> bvmem v' j = false.
Proof. intros [_ H] Hj Hn. destruct (bvmem v' j) eqn:E; [|done]. apply H in E as [E|E]; [congruence|done]. Qed.

Lemma ctx_allocation_set_adds b c : bvok (vector c) -> 0 <= b ->
  exists v, ctx_allocation_set b c = Ok (set_vector v c) /\ adds [b] (vector c) v.
Proof.
  intros Hv Hb. destruct (allocation_set_total (vector c) b Hv Hb) as (r & v & E & Hok & Hl & Hm).
  unfold ctx_allocation_set. rewrite E. exists v. split; [done|]. split.
  - split_and!; [done|done|]. intros j Hj. apply Hm. by left.
  - intros j [Hj|[-> _]]%Hm; [by left|right; by left].
Qed.

(** The first draw selects a free index. *)
Lemma acquire_first fs (v : option bit_vector_t) r rnd : fs_wf fs v -> bvmem v (u32 r mod list_len fs) = false ->
  exists b v', acquire_block fs v (r :: rnd) = Ok (b, v', rnd) /\
    block_list fs !! Z.to_nat (u32 r mod list_len fs) = Some b /\ marks v v' (u32 r mod list_len fs) /\ b <> AFS_INVALID_BLOCK.
Proof.
  intros Hwf Hfree. pose proof (random_index_range fs v r Hwf) as Hi.
  destruct (acquire_loop_step fs v (u32 r mod list_len fs) _ rnd Hwf Hi) as [[Ht _]|(b & v' & Hb & Hm & E)]; [congruence|].
  exists b, v'. unfold acquire_block, random_block_index. destruct Hwf as (Hl & Hp & Hok & HF).
  destruct (Z.eqb_spec (list_len fs) 0); [lia|]. cbn [mbind res_bind]. split_and!; try done.
  pose proof (free_list_Forall _ _ _ _ HF Hi Hb) as Hr. cbn in Hr. lia.
Qed.

Definition draw_index (fs : afs_passive_fs) (r : Z) : Z := u32 r mod list_len fs.

(** Draws that select different free indices. *)
Lemma acquire_many_total fs draws : forall (v : option bit_vector_t) rest, fs_wf fs v ->
  Forall (fun r => bvmem v (draw_index fs r) = false) draws -> NoDup (map (draw_index fs) draws) ->
  exists bs v', acquire_many fs v (draws ++ rest) (List.length draws) = Ok (bs, v', rest) /\ AFS_INVALID_BLOCK ∉ bs.
Proof.
  induction draws as [|r draws IH]; intros v rest Hwf Hfree Hnd; [exists [], v; split; [done|by intros ?%elem_of_nil]|].
  apply Forall_cons in Hfree as [Hr Hfree]. cbn [map] in Hnd. apply NoDup_cons in Hnd as [Hni Hnd].
  destruct (acquire_first fs v r (draws ++ rest) Hwf Hr) as (b & v1 & Ha & Hb & Hm & Hinv). cbn [app List.length acquire_many].
  rewrite Ha. cbn [mbind res_bind]. pose proof (random_index_range fs v r Hwf) as Hi.
  assert (Hwf1 : fs_wf fs v1) by (eapply acquired_wf; [exact Hwf|]; left; by exists (draw_index fs r)).
  destruct (IH v1 rest Hwf1) as (bs & v2 & -> & Hbs); [|done|].
  - apply Forall_forall. intros r' Hr'. destruct Hm as (_ & _ & _ & ->). case_decide as E; [|by apply (proj1 (Forall_forall _ _) Hfree)].
    destruct Hni. unfold draw_index in *. rewrite <- E. apply list_elem_of_fmap. by exists r'.
  - exists (b :: bs), v2. split; [done|]. by apply not_elem_of_cons.
Qed.

Section Creation.
Context (sha1 sha256 sha512 : list Z -> list Z) (uninit : nat -> list Z) (sb_place : buffer_place).
Context (sha512_length : forall l, List.length (sha512 l) = 64%nat).
Context (sha256_length : forall l, List.length (sha256 l) = 32%nat).
Context (uninit_length : forall n, List.length (uninit n) = n) (sb_place_ok : place_ok false sb_place).

(** ** The plan of a creation *)

(** The indices of the replicas after the first. *)
Fixpoint replica_indices (n fuel : nat) (fs : afs_passive_fs) (size : Z) (h : list Z) : res (list Z) :=
  match n with
  | O => Ok []
  | S n' => '(b, h, _) ← locate sha1 fuel fs size (sha1 h) 0; bs ← replica_indices n' fuel fs size h; Ok (b :: bs)
  end.

(** [bs]: the indices of the super block and its replicas; [draws]: the random
    numbers, one for each map block. *)
Record plan (fuel : nat) (c : afs_private) (bs draws : list Z) : Prop := mk_plan {
  pl_first : exists b h t bs', locate sha1 fuel (passive_fs c) (block_device_size c) (sha1 (passphrase c)) 0 = Ok (b, h, t) /\
    replica_indices (Z.to_nat NUM_SUPERBLOCK_REPLICAS - 1) fuel (passive_fs c) (block_device_size c) h = Ok bs' /\ bs = b :: bs';
  pl_slots : Forall (fun b => is_Some (block_list (passive_fs c) !! Z.to_nat b)) bs;
  pl_rng : exists rest, rng c = draws ++ rest;
  pl_count : List.length draws = Z.to_nat (num_map_blocks (config c));
  pl_free : Forall (fun r => bvmem (vector c) (draw_index (passive_fs c) r) = false /\ draw_index (passive_fs c) r ∉ bs) draws;
  pl_nodup : NoDup (map (draw_index (passive_fs c)) draws);
}.

Lemma locate_replicas_total n fuel : forall h c bs, bvok (vector c) ->
  replica_indices n fuel (passive_fs c) (block_device_size c) h = Ok bs ->
  exists v, locate_replicas sha1 n fuel h c = Ok (bs, set_vector v c) /\ adds bs (vector c) v.
Proof.
  induction n as [|n IH]; intros h c bs Hv H; cbn [replica_indices locate_replicas] in *.
  { injection H as <-. exists (vector c). split; [by destruct c|]. by apply adds_refl. }
  apply res_bind_Ok in H as ([[b h'] t] & Hloc & H). apply res_bind_Ok in H as (bs' & Hrest & H). injection H as <-.
  pose proof (locate_nonneg sha1 _ _ _ _ _ _ _ _ (device_size_nonneg c) Hloc) as Hb.
  destruct (ctx_allocation_set_adds b c Hv Hb) as (v & Hs & Ha). rewrite Hloc. cbn [mbind res_bind]. rewrite Hs. cbn [mbind res_bind].
  destruct (IH h' (set_vector v c) bs' (proj1 (proj1 Ha)) Hrest) as (v' & -> & Ha'). exists v'. split; [done|]. change (b :: bs') with ([b] ++ bs'). by eapply adds_app.
Qed.

(** ** The map blocks *)
Section MapBlocks.
Context (c0 : afs_private) (Hcfg : config_wf (config c0)) (Hptr : num_ptr_blocks (config c0) = 0).
Context (Hmap : List.length (afs_map c0) = map_bytes (config c0)).
Context (Hblocks : afs_map_blocks c0 = pages sha512 (config c0) (afs_map c0) (Z.to_nat (num_map_blocks (config c0)))).
Context (Hfs : fs_wf (passive_fs c0) (vector c0)) (Hnd : list_apart (passive_fs c0)).
Context (Hon : Forall (on_device (bdev c0) (data_start_off (passive_fs c0))) (block_list (passive_fs c0))).

Lemma write_map_block_total i c b v r : written sha512 c0 i c -> (i < Z.to_nat (num_map_blocks (config c0)))%nat -> (i < 975)%nat ->
  on_device (bdev c) (data_start_off (passive_fs c0)) b ->
  write_map_block (Z.of_nat i) b (sb_set_ptr (Z.of_nat i) b (set_rng r (set_vector v c))) = Ok (0, place_block sha512 c0 i b v r c).
Proof.
  intros W Hi Hi' Hb. destruct (w_frame _ _ _ _ W) as (Ec & Ef & _). unfold write_map_block, ctx_write_page.
  cbn [sb_set_ptr set_super_block set_rng set_vector afs_map_blocks bdev passive_fs].
  rewrite (w_blocks _ _ _ _ W), Hblocks, Ef.
  replace (Z.to_nat (Z.of_nat i *32 AFS_BLOCK_SIZE)) with (4096 * i)%nat by (unfold AFS_BLOCK_SIZE; rewrite wrap_id by (unfold in_range; lia); lia).
  rewrite pages_slice by done. cbn [of_option mbind res_bind].
  rewrite write_page_good; [done|apply (w_dev _ _ _ _ W)|done|done|by apply map_page_length].
Qed.

(** Enough draws at free indices, one for each block that is left. *)
Lemma write_sb_loop_total n : forall i c draws rest,
  (i + n = 975)%nat -> written sha512 c0 i c -> (i + List.length draws = Z.to_nat (num_map_blocks (config c0)))%nat ->
  rng c = draws ++ rest -> Forall (fun r => bvmem (vector c) (draw_index (passive_fs c0) r) = false) draws ->
  NoDup (map (draw_index (passive_fs c0)) draws) ->
  exists stop bw c', write_sb_map_blocks n (Z.of_nat i) false (Z.of_nat i) c = Ok (0, stop, bw, c') /\ config c' = config c0 /\
    rng c' = rest /\ adds (map (draw_index (passive_fs c0)) draws) (vector c) (vector c').
Proof.
  pose proof (sizes _ Hcfg Hptr) as (_ & Hmb & _).
  induction n as [|n IH]; intros i c draws rest Hi W Hl Hr Hfree Hndr; cbn [write_sb_map_blocks].
  { destruct draws as [|? ?]; [|cbn in Hl; lia]. exists false, (Z.of_nat i), c. split; [done|]. split; [apply (w_frame _ _ _ _ W)|].
    split; [done|]. apply adds_refl, (w_fs _ _ _ _ W). }
  pose proof (w_frame _ _ _ _ W) as (Ec & Ef & _). rewrite Ec, wrap_id by (unfold in_range; lia).
  destruct (Z.eqb_spec (num_map_blocks (config c0) - Z.of_nat i) 0) as [E|E].
  { destruct draws as [|? ?]; [|cbn in Hl; lia]. exists true, (Z.of_nat i), c. split_and!; try done. apply adds_refl, (w_fs _ _ _ _ W). }
  destruct draws as [|r draws]; [cbn in Hl; lia|]. cbn [List.length] in Hl. apply Forall_cons in Hfree as [Hfr Hfree].
  cbn [map] in Hndr. apply NoDup_cons in Hndr as [Hnin Hndr].
  pose proof (w_fs _ _ _ _ W) as Wfs.
  destruct (acquire_first (passive_fs c0) (vector c) r (draws ++ rest) Wfs Hfr) as (b & v & Ha & Hb & Hm & Hinv).
  pose proof (random_index_range _ _ r Wfs) as Hidx.
  unfold map_block_target, ctx_acquire_block. rewrite Ef, Hr. cbn [app]. rewrite Ha. cbn [mbind res_bind mret res_ret].
  destruct (Z.eqb_spec b AFS_INVALID_BLOCK); [done|]. cbn [mbind res_bind mret res_ret].
  assert (Hbd : on_device (bdev c) (data_start_off (passive_fs c0)) b).
  { destruct (Forall_lookup_1 _ _ _ _ Hon Hb) as (? & ? & ?). unfold on_device. by rewrite (proj2 (w_dev _ _ _ _ W)). }
  rewrite (write_map_block_total i c b v (draws ++ rest)) by (done || lia). cbn [mbind res_bind negb Z.eqb].
  rewrite (wrap_id 32 (Z.of_nat i + 1)) by (unfold in_range; lia). replace (Z.of_nat i + 1) with (Z.of_nat (S i)) by lia.
  assert (Wfs' : fs_wf (passive_fs c0) v) by (eapply acquired_wf; [exact Wfs|]; left; by exists (draw_index (passive_fs c0) r)).
  destruct (IH (S i) (place_block sha512 c0 i b v (draws ++ rest) c) draws rest) as (stop & bw & c' & -> & Ec' & Er' & Ha'); [lia| |lia|done| |done|].
  - by apply written_step with (idx := draw_index (passive_fs c0) r); [done..|lia|done|done|done|done|done].
  - apply Forall_forall. intros r' Hr'. change (vector (place_block _ _ _ _ _ _ _)) with v. destruct Hm as (_ & _ & _ & ->).
    case_decide as Ed; [|by apply (proj1 (Forall_forall _ _) Hfree)]. destruct Hnin. unfold draw_index in *. rewrite <- Ed.
    apply list_elem_of_fmap. by exists r'.
  - exists stop, bw, c'. split_and!; try done. change (map _ (r :: draws)) with ([draw_index (passive_fs c0) r] ++ map (draw_index (passive_fs c0)) draws).
    eapply adds_app; [by apply adds_marks|exact Ha'].
Qed.

Lemma write_map_blocks_total draws rest : written sha512 c0 0 c0 -> List.length draws = Z.to_nat (num_map_blocks (config c0)) ->
  rng c0 = draws ++ rest -> Forall (fun r => bvmem (vector c0) (draw_index (passive_fs c0) r) = false) draws ->
  NoDup (map (draw_index (passive_fs c0)) draws) -> exists c',
    write_map_blocks c0 false = Ok (0, c') /\ config c' = config c0 /\ rng c' = rest /\ adds (map (draw_index (passive_fs c0)) draws) (vector c0) (vector c').
Proof.
  intros W Hl Hr Hfree Hndr. unfold write_map_blocks. change (Z.to_nat NUM_MAP_BLKS_IN_SB) with 975%nat.
  destruct (write_sb_loop_total 975 0 c0 draws rest) as (stop & bw & c' & E & Ec & Hc'); [done..|]. change (Z.of_nat 0) with 0 in E.
  rewrite E. cbn [mbind res_bind]. exists c'. split; [|done]. destruct stop; [done|]. by rewrite Ec, Hptr.
Qed.
End MapBlocks.

(** ** The replicas *)
Lemma write_replicas_total bs : forall c, dev_ok (bdev c) -> List.length (sb_bytes (super_block c)) = 4096%nat ->
  Forall (on_device (bdev c) (data_start_off (passive_fs c))) (block_list (passive_fs c)) ->
  Forall (fun b => is_Some (block_list (passive_fs c) !! Z.to_nat b)) bs -> exists d, write_replicas sb_place bs c = Ok (0, set_bdev d c).
Proof.
  induction bs as [|b bs IH]; intros c Hd Hl Hon Hs; cbn [write_replicas]; [exists (bdev c); by destruct c|]. apply Forall_cons in Hs as [[x Hx] Hs].
  rewrite Hx. cbn [of_option mbind res_bind]. unfold ctx_write_page.
  rewrite write_page_good by (done || by eapply Forall_lookup_1 in Hx). cbn [mbind res_bind mret res_ret negb Z.eqb].
  destruct (IH (set_bdev (set_block (bdev c) (data_start_off (passive_fs c)) x (sb_bytes (super_block c))) c)) as (d & E); try done.
  { by apply set_block_ok. }
  by exists d.
Qed.

Lemma write_super_block_total fuel c bs draws rest : creatable c -> plan fuel c bs draws -> rng c = draws ++ rest ->
  exists c', write_super_block sha1 sha256 sha512 uninit sb_place fuel c = Ok (0, c') /\ rng c' = rest /\
    adds (bs ++ map (draw_index (passive_fs c)) draws) (vector c) (vector c').
Proof.
  intros Hcr [(b & h & t & bs' & Hloc & Hrep & ->) Hslots _ Hcount Hfree Hndr] Hrng.
  pose proof Hcr as [Hcfg Hptr Hsz Hal Hd Hfs Hnd Hon Hsb]. pose proof (proj1 (proj2 (proj2 Hfs))) as Hv.
  pose proof (locate_nonneg sha1 _ _ _ _ _ _ _ _ (device_size_nonneg c) Hloc) as Hb.
  unfold write_super_block. rewrite Hloc. cbn [mbind res_bind].
  destruct (ctx_allocation_set_adds b c Hv Hb) as (v1 & -> & Ha1). cbn [mbind res_bind].
  destruct (locate_replicas_total _ fuel h (set_vector v1 c) bs' (proj1 (proj1 Ha1)) Hrep) as (v & -> & Ha2). cbn [mbind res_bind].
  pose proof (adds_app _ _ _ _ _ Ha1 Ha2) as Ha. cbn [app] in Ha. change (set_vector v (set_vector v1 c)) with (set_vector v c).
  rewrite (afs_create_map_spec uninit uninit_length) by done. cbn [mbind res_bind negb Z.eqb].
  rewrite (afs_create_map_blocks_spec sha512 sha512_length); [|done|done|done|by apply (fresh_map_length (config c))].
  cbn [mbind res_bind negb Z.eqb]. unfold alloc.
  match goal with |- context [set_map_blocks ?p ?m] => set (cb := set_map_blocks p m) end.
  change (allocs cb) with (allocs c). rewrite Hal. cbn [head default tail negb].
  rewrite set_allocs_nil by done. change (config cb) with (config c). rewrite Hptr. change (sb_set_first _ _) with (before_map_blocks sha512 v c).
  unfold write_ptr_blocks.
  pose proof (before_start sha512 v c Hcr (proj1 Ha)) as W0.
  destruct (write_map_blocks_total (before_map_blocks sha512 v c)) with (draws := draws) (rest := rest) as (c2 & Hw & Ec & Er & Ha3); try done.
  - by apply (fresh_map_length (config c)).
  - exact (before_wf v c Hcr (proj1 Ha)).
  - eapply Forall_impl; [exact Hfree|]. intros r [Hr1 Hr2]. exact (adds_free _ _ _ _ Ha Hr1 Hr2).
  - rewrite Hw. cbn [mbind res_bind negb Z.eqb]. change (config (before_map_blocks sha512 v c)) with (config c) in Ec. rewrite Ec, Hptr.
    cbn [Z.eqb mbind res_bind negb].
    pose proof (before_written sha512 sha512_length v c c2 Hcr (proj1 Ha) Hw) as W.
    pose proof (w_frame _ _ _ _ W) as (_ & Ef & _). change (passive_fs (before_map_blocks sha512 v c)) with (passive_fs c) in Ef.
    destruct (w_dev _ _ _ _ W) as [Hd2 Hn2]. change (nr_sects (bdev c2) = nr_sects (bdev c)) in Hn2.
    destruct (write_replicas_total (b :: bs') (finish_sb sha256 c2)) as (d & ->); [done| | | |].
    + apply sb_bytes_length, finish_sb_wf; [done| |by rewrite Ec]. eapply written_sb_wf; [exact Hcr|exact W].
    + change (passive_fs (finish_sb sha256 c2)) with (passive_fs c2). rewrite Ef.
      eapply Forall_impl; [exact Hon|]. intros x (? & ? & ?). unfold on_device. change (bdev (finish_sb sha256 c2)) with (bdev c2). by rewrite Hn2.
    + change (passive_fs (finish_sb sha256 c2)) with (passive_fs c2). by rewrite Ef.
    + cbn [mbind res_bind negb Z.eqb]. eexists. split; [done|]. split; [exact Er|]. exact (adds_app _ _ _ _ _ Ha Ha3).
Qed.

(** C7: creation succeeds. If the search for the super block and its
    seven replicas ends at indices inside the free list's array, and the
    random numbers select a different free index, none of these, for every
    map block, then [write_super_block] returns 0 without a fault; the
    instance is on the device, with its map saved. *)
Theorem creation_succeeds fuel c bs draws : creatable c -> plan fuel c bs draws ->
  exists c', write_super_block sha1 sha256 sha512 uninit sb_place fuel c = Ok (0, c') /\ created sha1 sha256 sha512 fuel c c'.
Proof.
  intros Hcr Hp. destruct (pl_rng _ _ _ _ Hp) as (rest & Hrng).
  destruct (write_super_block_total fuel c bs draws rest Hcr Hp Hrng) as (c' & H & _). exists c'. split; [done|].
  by eapply write_super_block_creates.
Qed.
End Creation.

(** The instance of SuperBlock: every hash selects block 2, the draw block 1. *)
Lemma id_plan : plan two_sha1 0 (id_context (empty_device 800)) (replicate 8 2) [5].
Proof.
  constructor.
  - exists 2, (two_sha1 (replicate 64 1)), 0, (replicate 7 2). split; [vm_compute; reflexivity|]. split; [vm_compute; reflexivity|done].
  - apply Forall_replicate. by exists 2.
  - by exists [].
  - done.
  - constructor; [|constructor]. split; [by vm_compute|]. by apply (bool_decide_unpack _).
  - by apply (bool_decide_unpack _).
Qed.

Lemma creation_succeeds_witness : exists c',
  write_super_block two_sha1 zero_sha256 zero_sha512 (fun n => replicate n 7) (Linear false) 0 (id_context (empty_device 800)) = Ok (0, c').
Proof.
  destruct (creation_succeeds two_sha1 zero_sha256 zero_sha512 (fun n => replicate n 7) (Linear false)
    (fun _ => length_replicate 64 0) (fun _ => length_replicate 32 0) (fun n => length_replicate n 7) (conj eq_refl I)
    0 (id_context (empty_device 800)) (replicate 8 2) [5] id_creatable id_plan) as (c' & H & _).
  exists c'. exact H.
Defined.
