(* ===== verification/Galois.v ===== *)
(** * Galois: arithmetic of GF(2^8) and interpolation

    Mathematics shared by the secret sharing and the erasure coding
    libraries. Bytes are polynomials over GF(2) modulo a polynomial [poly] of
    degree 8; [xtime] multiplies by [x]. [Primitive] states that the powers of
    [x] enumerate the non-zero bytes, with their logarithms; it is what the
    tables of the two libraries are checked to satisfy, and it makes the
    bytes a field ([gf_field]). [Lagrange] is interpolation at 0 over any
    field. *)
From stdpp Require Import base tactics option list numbers gmap.
From Stdlib Require Import ZArith Lia Ring Field.
From S2P Require Import Prelude.

Local Open Scope Z_scope.

Section Gf.
Context (poly : Z) (Hpoly : in_range 9 poly) (Htop : Z.testbit poly 8 = true).

(** Multiplication by [x]. *)
Definition xtime (a : Z) : Z :=
  if Z.testbit a 7 then Z.lxor (Z.shiftl a 1) poly else Z.shiftl a 1.

Fixpoint xpow (n : nat) (a : Z) : Z :=
  match n with O => a | S n' => xtime (xpow n' a) end.

Lemma byte_bits a : is_byte a <-> forall i, 8 <= i -> Z.testbit a i = false.
Proof. apply in_range_bits. lia. Qed.

Lemma xtime_byte a : is_byte a -> is_byte (xtime a).
Proof.
  rewrite !byte_bits. intros Ha i Hi. unfold xtime.
  pose proof (proj1 (in_range_bits 9 poly ltac:(lia)) Hpoly) as Hp.
  destruct (decide (i = 8)) as [->|Hne].
  - destruct (Z.testbit a 7) eqn:E; rewrite ?Z.lxor_spec, Z.shiftl_spec by lia;
      change (8 - 1) with 7; rewrite E, ?Htop; done.
  - destruct (Z.testbit a 7); rewrite ?Z.lxor_spec, Z.shiftl_spec by lia;
      rewrite (Ha (i - 1)) by lia; rewrite ?(Hp i) by lia; done.
Qed.

Lemma xtime_xor a b : xtime (Z.lxor a b) = Z.lxor (xtime a) (xtime b).
Proof.
  unfold xtime. rewrite Z.lxor_spec. apply Z.bits_inj'. intros i Hi.
  destruct (Z.testbit a 7), (Z.testbit b 7); cbn [xorb];
    repeat rewrite ?Z.lxor_spec, ?Z.shiftl_spec by lia;
    destruct (Z.testbit a (i - 1)), (Z.testbit b (i - 1)), (Z.testbit poly i); done.
Qed.

Lemma xtime_0 : xtime 0 = 0.
Proof. unfold xtime. rewrite Z.bits_0. done. Qed.

Lemma xpow_0 n : xpow n 0 = 0.
Proof. induction n as [|n IH]; cbn; [done|]. by rewrite IH, xtime_0. Qed.

Lemma xpow_byte n a : is_byte a -> is_byte (xpow n a).
Proof. intros. induction n; cbn; auto using xtime_byte. Qed.

Lemma xpow_xor n a b : xpow n (Z.lxor a b) = Z.lxor (xpow n a) (xpow n b).
Proof. induction n as [|n IH]; cbn; [done|]. by rewrite IH, xtime_xor. Qed.

Lemma xpow_add m n a : xpow (m + n) a = xpow m (xpow n a).
Proof. induction m as [|m IH]; cbn; [done|]. by rewrite IH. Qed.

(** ** Logarithms *)
Class Primitive (glog : Z -> nat) : Prop := {
  glog_bound a : is_byte a -> a <> 0 -> (glog a < 255)%nat;
  xpow_glog a : is_byte a -> a <> 0 -> xpow (glog a) 1 = a;
  glog_xpow k : (k < 255)%nat -> glog (xpow k 1) = k;
  xpow_period : xpow 255 1 = 1;
}.

Context (glog : Z -> nat) `{!Primitive glog}.

Definition gmul (a b : Z) : Z := if a =? 0 then 0 else xpow (glog a) b.
Definition ginv (a : Z) : Z := xpow (255 - glog a) 1.
Definition gdiv (a b : Z) : Z := gmul a (ginv b).

Lemma byte_0 : is_byte 0.
Proof. done. Qed.
Lemma byte_1 : is_byte 1.
Proof. done. Qed.

Lemma xpow_nonzero_255 a : is_byte a -> xpow 255 a = a.
Proof.
  intros Ha. destruct (decide (a = 0)) as [->|Hn]; [apply xpow_0|].
  rewrite <- (xpow_glog a Ha Hn) at 1. rewrite <- xpow_add, Nat.add_comm, xpow_add, xpow_period.
  by apply xpow_glog.
Qed.

Lemma xpow_mod n a : is_byte a -> xpow (n mod 255) a = xpow n a.
Proof.
  intros Ha. rewrite (Nat.div_mod_eq n 255) at 2. generalize (n / 255)%nat as q. intros q.
  rewrite Nat.add_comm, xpow_add.
  assert (E : xpow (255 * q) a = a).
  { induction q as [|q IH]; [done|]. replace (255 * S q)%nat with (255 + 255 * q)%nat by lia.
    by rewrite xpow_add, IH, xpow_nonzero_255. }
  by rewrite E.
Qed.

Lemma xpow_one_nonzero k : xpow k 1 <> 0.
Proof.
  intros E. assert (H : xpow (255 * k) 1 = 1).
  { rewrite <- xpow_mod by apply byte_1. by rewrite Nat.mul_comm, Nat.Div0.mod_mul. }
  destruct k as [|k]; [done|].
  replace (255 * S k)%nat with (254 * S k + S k)%nat in H by lia. rewrite xpow_add, E, xpow_0 in H. done.
Qed.

Lemma gmul_byte a b : is_byte b -> is_byte (gmul a b).
Proof. intros. unfold gmul. destruct (a =? 0); [done|by apply xpow_byte]. Qed.

Lemma ginv_byte a : is_byte (ginv a).
Proof. apply xpow_byte, byte_1. Qed.

(** The product of non-zero bytes, by logarithms. *)
Lemma gmul_log a b :
  is_byte a -> is_byte b -> a <> 0 -> b <> 0 -> gmul a b = xpow (glog a + glog b) 1.
Proof.
  intros Ha Hb Na Nb. unfold gmul. destruct (Z.eqb_spec a 0); [done|].
  rewrite xpow_add. by rewrite (xpow_glog b).
Qed.

Lemma gmul_0_r a : gmul a 0 = 0.
Proof. unfold gmul. destruct (a =? 0); [done|apply xpow_0]. Qed.

Lemma gmul_0_l a : gmul 0 a = 0.
Proof. done. Qed.

Lemma gmul_comm a b : is_byte a -> is_byte b -> gmul a b = gmul b a.
Proof.
  intros Ha Hb. destruct (decide (a = 0)) as [->|Na]; [by rewrite gmul_0_r|].
  destruct (decide (b = 0)) as [->|Nb]; [by rewrite gmul_0_r|].
  rewrite !gmul_log by done. by rewrite Nat.add_comm.
Qed.

Lemma gmul_xor_r a b c : gmul a (Z.lxor b c) = Z.lxor (gmul a b) (gmul a c).
Proof. unfold gmul. destruct (a =? 0); [done|apply xpow_xor]. Qed.

Lemma gmul_1_l a : is_byte a -> gmul 1 a = a.
Proof.
  intros Ha. unfold gmul. cbn. change (xpow (glog (xpow 0 1)) a = a).
  rewrite glog_xpow by lia. done.
Qed.

Lemma gmul_nonzero a b : is_byte a -> is_byte b -> a <> 0 -> b <> 0 -> gmul a b <> 0.
Proof. intros. rewrite gmul_log by done. apply xpow_one_nonzero. Qed.

Lemma xpow_gmul k b : is_byte b -> xpow k b = gmul (xpow k 1) b.
Proof.
  intros Hb. pose proof (xpow_one_nonzero k). unfold gmul. destruct (Z.eqb_spec (xpow k 1) 0); [done|].
  rewrite <- (xpow_mod k 1) by apply byte_1. rewrite glog_xpow by (apply Nat.mod_upper_bound; lia).
  by rewrite xpow_mod.
Qed.

Lemma gmul_assoc a b c :
  is_byte a -> is_byte b -> is_byte c -> gmul a (gmul b c) = gmul (gmul a b) c.
Proof.
  intros Ha Hb Hc. destruct (decide (a = 0)) as [->|Na]; [done|].
  destruct (decide (b = 0)) as [->|Nb]; [change (gmul 0 c) with 0; by rewrite !gmul_0_r|].
  unfold gmul at 1 2. destruct (Z.eqb_spec a 0); [done|]. destruct (Z.eqb_spec b 0); [done|].
  rewrite <- xpow_add, xpow_gmul by done. by rewrite <- gmul_log.
Qed.

Lemma ginv_l a : is_byte a -> a <> 0 -> gmul (ginv a) a = 1.
Proof.
  intros Ha Na. pose proof (glog_bound a Ha Na). unfold ginv. rewrite <- xpow_gmul by done.
  rewrite <- (xpow_glog a) at 2 by done. rewrite <- xpow_add.
  replace (255 - glog a + glog a)%nat with 255%nat by lia. apply xpow_period.
Qed.

(** ** The product by shift and add

    The schoolbook product: the sum of [b * x^i] over the bits of [a]. *)
Fixpoint clmul (n : nat) (a b : Z) : Z :=
  match n with
  | O => 0
  | S n' => Z.lxor (clmul n' a b) (if Z.testbit a (Z.of_nat n') then xpow n' b else 0)
  end.

Fixpoint low_bits (n : nat) (a : Z) : Z :=
  match n with
  | O => 0
  | S n' => Z.lxor (low_bits n' a) (if Z.testbit a (Z.of_nat n') then 2 ^ Z.of_nat n' else 0)
  end.

Lemma low_bits_byte n a : (n <= 8)%nat -> is_byte (low_bits n a).
Proof.
  induction n as [|n IH]; intros Hn; cbn [low_bits]; [done|]. apply lxor_range; [lia|apply IH; lia|].
  destruct (Z.testbit a (Z.of_nat n)); [|done]. split; [apply Z.pow_nonneg; lia|]. apply Z.pow_lt_mono_r; lia.
Qed.

Lemma xpow_small i : (i < 8)%nat -> xpow i 1 = 2 ^ Z.of_nat i.
Proof. intros. do 8 (destruct i as [|i]; [reflexivity|]). lia. Qed.

Lemma gmul_low_bits n a b :
  (n <= 8)%nat -> is_byte b -> gmul (low_bits n a) b = clmul n a b.
Proof.
  intros Hn Hb. induction n as [|n IH]; cbn [low_bits clmul]; [done|].
  assert (Hl : is_byte (low_bits n a)) by (apply low_bits_byte; lia).
  assert (Hp : is_byte (if Z.testbit a (Z.of_nat n) then 2 ^ Z.of_nat n else 0)).
  { destruct (Z.testbit a (Z.of_nat n)); [|done]. split; [apply Z.pow_nonneg; lia|]. apply Z.pow_lt_mono_r; lia. }
  rewrite gmul_comm, gmul_xor_r by (done || by apply lxor_range).
  rewrite (gmul_comm b (low_bits n a)), IH by (done || lia). f_equal. rewrite gmul_comm by done.
  destruct (Z.testbit a (Z.of_nat n)); [|done]. rewrite <- xpow_small by lia. by rewrite <- xpow_gmul.
Qed.

Lemma low_bits_8 a : is_byte a -> low_bits 8 a = a.
Proof.
  intros Ha. assert (H : forallb (fun a => low_bits 8 a =? a) (seqZ 0 256) = true) by (vm_compute; reflexivity).
  apply Z.eqb_eq. rewrite forallb_forall in H. apply H, list_elem_of_In, elem_of_seqZ.
  unfold is_byte, in_range in Ha. lia.
Qed.

Lemma gmul_clmul a b : is_byte a -> is_byte b -> gmul a b = clmul 8 a b.
Proof. intros Ha Hb. rewrite <- (low_bits_8 a Ha) at 1. by apply gmul_low_bits. Qed.

(** ** The field of bytes *)
Definition gf : Type := { a : Z | bool_decide (is_byte a) = true }.
Definition gfz (a : Z) (H : is_byte a) : gf := exist _ a (bool_decide_eq_true_2 _ H).

Lemma gf_eq (a b : gf) : proj1_sig a = proj1_sig b -> a = b.
Proof.
  destruct a as [a Ha], b as [b Hb]; cbn. intros ->. f_equal. apply Eqdep_dec.UIP_dec. apply bool_dec.
Qed.

Lemma gf_byte (a : gf) : is_byte (proj1_sig a).
Proof. destruct a as [a Ha]. exact (bool_decide_eq_true_1 _ Ha). Qed.

Definition gf0 : gf := gfz 0 byte_0.
Definition gf1 : gf := gfz 1 byte_1.
Definition gfadd (a b : gf) : gf :=
  gfz (Z.lxor (proj1_sig a) (proj1_sig b)) (lxor_range 8 _ _ ltac:(lia) (gf_byte a) (gf_byte b)).
Definition gfmul (a b : gf) : gf := gfz (gmul (proj1_sig a) (proj1_sig b)) (gmul_byte _ _ (gf_byte b)).
Definition gfopp (a : gf) : gf := a.
Definition gfsub (a b : gf) : gf := gfadd a b.
Definition gfinv (a : gf) : gf := gfz (ginv (proj1_sig a)) (ginv_byte _).
Definition gfdiv (a b : gf) : gf := gfmul a (gfinv b).

Lemma gf_field : field_theory gf0 gf1 gfadd gfmul gfsub gfopp gfdiv gfinv eq.
Proof.
  constructor; [constructor| | |]; try done.
  - intros x. apply gf_eq. cbn. apply Z.lxor_0_l.
  - intros x y. apply gf_eq. cbn. apply Z.lxor_comm.
  - intros x y z. apply gf_eq. cbn. by rewrite Z.lxor_assoc.
  - intros x. apply gf_eq. cbn. apply gmul_1_l, gf_byte.
  - intros x y. apply gf_eq. cbn. apply gmul_comm; apply gf_byte.
  - intros x y z. apply gf_eq. cbn. apply gmul_assoc; apply gf_byte.
  - intros x y z. apply gf_eq. cbn. pose proof (gf_byte x). pose proof (gf_byte y). pose proof (gf_byte z).
    rewrite (gmul_comm _ (proj1_sig z)), gmul_xor_r by (done || by apply lxor_range).
    by rewrite (gmul_comm (proj1_sig z)), (gmul_comm (proj1_sig z) (proj1_sig y)) by done.
  - intros x. apply gf_eq. cbn. apply Z.lxor_nilpotent.
  - intros p Hp. apply gf_eq. cbn. apply ginv_l; [apply gf_byte|]. intros E. apply Hp. by apply gf_eq.
Qed.
End Gf.

(** ** Interpolation at 0 over a field *)
Section Lagrange.
Context {F : Type} (f0 f1 : F) (fadd fmul fsub : F -> F -> F) (fopp : F -> F) (fdiv : F -> F -> F)
  (finv : F -> F) (Hf : field_theory f0 f1 fadd fmul fsub fopp fdiv finv eq).
Add Field lagrange_field : Hf.
Local Infix "⊕" := fadd (at level 50, left associativity).
Local Infix "⊗" := fmul (at level 40, left associativity).
Local Infix "⊖" := fsub (at level 50, left associativity).
Local Infix "⊘" := fdiv (at level 40, left associativity).

(** Horner evaluation, highest coefficient first. *)
Fixpoint horner (acc : F) (cs : list F) (x : F) : F :=
  match cs with [] => acc | c :: cs' => horner (acc ⊗ x ⊕ c) cs' x end.
Definition feval (cs : list F) (x : F) : F := horner f0 cs x.

(** The weight of [x] against the other points [ys]. *)
Fixpoint weight (ys : list F) (x : F) : F :=
  match ys with [] => f1 | y :: ys' => (y ⊘ (y ⊖ x)) ⊗ weight ys' x end.

(** The interpolated value at 0 of [f] known at [xs]. *)
Fixpoint interp (xs : list F) (f : F -> F) : F :=
  match xs with
  | [] => f0
  | x :: xs' => f x ⊗ weight xs' x ⊕ interp xs' (fun z => f z ⊗ (x ⊘ (x ⊖ z)))
  end.

Lemma fsub_nonzero x y : x <> y -> x ⊖ y <> f0.
Proof.
  intros Hne E. apply Hne. assert (x = x ⊖ y ⊕ y) as -> by ring. rewrite E. ring.
Qed.

Lemma interp_ext xs f g : (forall z, z ∈ xs -> f z = g z) -> interp xs f = interp xs g.
Proof.
  revert f g; induction xs as [|x xs IH]; intros f g H; cbn; [done|].
  rewrite (H x) by left. f_equal. apply IH. intros z Hz. by rewrite (H z) by (by right).
Qed.

Lemma interp_linear xs a b f g :
  interp xs (fun z => a ⊗ f z ⊕ b ⊗ g z) = a ⊗ interp xs f ⊕ b ⊗ interp xs g.
Proof.
  revert f g; induction xs as [|x xs IH]; intros f g; cbn; [ring|].
  rewrite (interp_ext xs _ (fun z => a ⊗ (f z ⊗ (x ⊘ (x ⊖ z))) ⊕ b ⊗ (g z ⊗ (x ⊘ (x ⊖ z)))))
    by (intros; ring).
  rewrite IH. ring.
Qed.

Lemma interp_one xs : NoDup xs -> xs <> [] -> interp xs (fun _ => f1) = f1.
Proof.
  remember (length xs) as n eqn:Hn. revert xs Hn.
  induction n as [|n IH]; intros xs Hn Hnd Hne; [by destruct xs|].
  destruct xs as [|x [|y zs]]; [done|cbn; ring|].
  apply NoDup_cons in Hnd as [Hx Hnd]. pose proof Hnd as Hyz. apply NoDup_cons in Hyz as [Hy Hzs].
  apply not_elem_of_cons in Hx as [Hxy Hxz].
  assert (Hxzs : NoDup (x :: zs)) by (by apply NoDup_cons).
  pose proof (IH (y :: zs) ltac:(cbn in *; lia) Hnd ltac:(done)) as E1.
  pose proof (IH (x :: zs) ltac:(cbn in *; lia) Hxzs ltac:(done)) as E2. cbn in E1, E2 |- *.
  pose proof (fsub_nonzero x y Hxy) as Nxy. pose proof (fsub_nonzero y x ltac:(done)) as Nyx.
  set (A := interp zs (fun z => f1 ⊗ (y ⊘ (y ⊖ z)))) in *.
  set (B := interp zs (fun z => f1 ⊗ (x ⊘ (x ⊖ z)))) in *.
  assert (EC : interp zs (fun z => f1 ⊗ (x ⊘ (x ⊖ z)) ⊗ (y ⊘ (y ⊖ z)))
               = (x ⊘ (x ⊖ y)) ⊗ A ⊕ (fopp y ⊘ (x ⊖ y)) ⊗ B).
  { unfold A, B. rewrite <- interp_linear. apply interp_ext. intros z Hz. field.
    split_and!; apply fsub_nonzero; congruence. }
  rewrite EC.
  assert (EA : A = f1 ⊖ weight zs y) by (transitivity ((f1 ⊗ weight zs y ⊕ A) ⊖ weight zs y); [ring|by rewrite E1]).
  assert (EB : B = f1 ⊖ weight zs x) by (transitivity ((f1 ⊗ weight zs x ⊕ B) ⊖ weight zs x); [ring|by rewrite E2]).
  rewrite EA, EB. field. split; done.
Qed.

(** Division of a polynomial by [z - x]: the quotient's coefficients are the
    intermediate values of the evaluation at [x]. *)
Fixpoint trace (q : F) (cs : list F) (x : F) : list F :=
  match cs with [] => [] | c :: cs' => q :: trace (q ⊗ x ⊕ c) cs' x end.

Lemma trace_length q cs x : length (trace q cs x) = length cs.
Proof. revert q; induction cs; intros; cbn; auto. Qed.

Lemma horner_divide cs x z : forall p q r,
  p = q ⊕ (z ⊖ x) ⊗ r -> horner p cs z = horner q cs x ⊕ (z ⊖ x) ⊗ horner r (trace q cs x) z.
Proof.
  induction cs as [|c cs IH]; intros p q r E; cbn; [done|]. apply IH. rewrite E. ring.
Qed.

Lemma feval_divide c cs x : exists g, length g = length cs /\
  forall z, feval (c :: cs) z = feval (c :: cs) x ⊕ (z ⊖ x) ⊗ feval g z.
Proof.
  exists (trace (f0 ⊗ x ⊕ c) cs x). split; [apply trace_length|]. intros z. unfold feval. cbn [horner].
  apply horner_divide. ring.
Qed.

(** A polynomial with as many coefficients as there are points is determined
    at 0 by its values at the points. *)
Lemma interp_feval xs cs :
  NoDup xs -> length cs = length xs -> interp xs (feval cs) = feval cs f0.
Proof.
  revert cs; induction xs as [|x xs IH]; intros cs Hnd Hl; [by destruct cs|].
  destruct cs as [|c cs]; [done|]. injection Hl as Hl.
  destruct (feval_divide c cs x) as (g & Hg & E).
  pose proof (interp_one (x :: xs) Hnd ltac:(done)) as H1.
  apply NoDup_cons in Hnd as [Hx Hnd]. cbn [interp] in H1 |- *.
  rewrite (interp_ext xs _ (fun z => feval (c :: cs) x ⊗ (f1 ⊗ (x ⊘ (x ⊖ z))) ⊕ fopp x ⊗ feval g z)).
  2: { intros z Hz. rewrite (E z). field. apply fsub_nonzero. congruence. }
  rewrite interp_linear, IH by (done || congruence).
  rewrite (E f0).
  transitivity (feval (c :: cs) x ⊗ (f1 ⊗ weight xs x ⊕ interp xs (fun z => f1 ⊗ (x ⊘ (x ⊖ z))))
                ⊖ x ⊗ feval g f0); [ring|]. rewrite H1. ring.
Qed.

(** The interpolation as a sum over the points with the others on both
    sides, the way a double loop computes it. *)
Fixpoint interp_loop (pre xs : list F) (f : F -> F) : F :=
  match xs with
  | [] => f0
  | x :: xs' => f x ⊗ (weight pre x ⊗ weight xs' x) ⊕ interp_loop (pre ++ [x]) xs' f
  end.

Lemma weight_app pre ys x : weight (pre ++ ys) x = weight pre x ⊗ weight ys x.
Proof. induction pre as [|y pre IH]; cbn; [ring|]. rewrite IH. ring. Qed.

Lemma interp_loop_spec pre xs f : interp_loop pre xs f = interp xs (fun z => f z ⊗ weight pre z).
Proof.
  revert pre; induction xs as [|x xs IH]; intros pre; cbn; [done|].
  rewrite IH. f_equal; [ring|]. apply interp_ext. intros z _. rewrite weight_app. cbn. ring.
Qed.

Theorem lagrange_at_zero xs cs :
  NoDup xs -> length cs = length xs -> interp_loop [] xs (feval cs) = feval cs f0.
Proof.
  intros. rewrite interp_loop_spec. rewrite <- (interp_feval xs) by done.
  apply interp_ext. intros z _. cbn. ring.
Qed.
End Lagrange.

(** ** Checking a predicate on all bytes *)
Lemma byte_forall (P : Z -> bool) :
  forallb P (seqZ 0 256) = true -> forall b, is_byte b -> P b = true.
Proof.
  intros H b Hb. rewrite forallb_forall in H. apply H.
  apply list_elem_of_In, elem_of_seqZ. unfold is_byte, in_range in Hb. lia.
Qed.

Lemma nat_forall (n : nat) (P : nat -> bool) :
  forallb P (seq 0 n) = true -> forall k, (k < n)%nat -> P k = true.
Proof. intros H k Hk. rewrite forallb_forall in H. apply H. apply in_seq. lia. Qed.
