(* ===== verification/GfShare.v ===== *)
(** * GfShare: Shamir secret sharing (src/lib/libgfshare.c)

    The logarithm tables, the Speck generator that fills the coefficients, the
    sharing context, and the splitting and recombination loops. Theorems: the
    tables are those of GF(2^8) modulo x^8+x^4+x^3+x^2+1; the tables are never
    indexed out of range; and any [threshold] of the shares, whatever the
    random coefficients, recombine to the secret. *)
From stdpp Require Import base tactics option list numbers gmap.
From Stdlib Require Import ZArith Lia Ring Field.
From S2P Require Import Prelude Galois.

Local Open Scope Z_scope.
Local Open Scope afs_scope.

(** ** Tables *)
Definition logs : list Z := [
  0x00; 0x00; 0x01; 0x19; 0x02; 0x32; 0x1a; 0xc6;
  0x03; 0xdf; 0x33; 0xee; 0x1b; 0x68; 0xc7; 0x4b;
  0x04; 0x64; 0xe0; 0x0e; 0x34; 0x8d; 0xef; 0x81;
  0x1c; 0xc1; 0x69; 0xf8; 0xc8; 0x08; 0x4c; 0x71;
  0x05; 0x8a; 0x65; 0x2f; 0xe1; 0x24; 0x0f; 0x21;
  0x35; 0x93; 0x8e; 0xda; 0xf0; 0x12; 0x82; 0x45;
  0x1d; 0xb5; 0xc2; 0x7d; 0x6a; 0x27; 0xf9; 0xb9;
  0xc9; 0x9a; 0x09; 0x78; 0x4d; 0xe4; 0x72; 0xa6;
  0x06; 0xbf; 0x8b; 0x62; 0x66; 0xdd; 0x30; 0xfd;
  0xe2; 0x98; 0x25; 0xb3; 0x10; 0x91; 0x22; 0x88;
  0x36; 0xd0; 0x94; 0xce; 0x8f; 0x96; 0xdb; 0xbd;
  0xf1; 0xd2; 0x13; 0x5c; 0x83; 0x38; 0x46; 0x40;
  0x1e; 0x42; 0xb6; 0xa3; 0xc3; 0x48; 0x7e; 0x6e;
  0x6b; 0x3a; 0x28; 0x54; 0xfa; 0x85; 0xba; 0x3d;
  0xca; 0x5e; 0x9b; 0x9f; 0x0a; 0x15; 0x79; 0x2b;
  0x4e; 0xd4; 0xe5; 0xac; 0x73; 0xf3; 0xa7; 0x57;
  0x07; 0x70; 0xc0; 0xf7; 0x8c; 0x80; 0x63; 0x0d;
  0x67; 0x4a; 0xde; 0xed; 0x31; 0xc5; 0xfe; 0x18;
  0xe3; 0xa5; 0x99; 0x77; 0x26; 0xb8; 0xb4; 0x7c;
  0x11; 0x44; 0x92; 0xd9; 0x23; 0x20; 0x89; 0x2e;
  0x37; 0x3f; 0xd1; 0x5b; 0x95; 0xbc; 0xcf; 0xcd;
  0x90; 0x87; 0x97; 0xb2; 0xdc; 0xfc; 0xbe; 0x61;
  0xf2; 0x56; 0xd3; 0xab; 0x14; 0x2a; 0x5d; 0x9e;
  0x84; 0x3c; 0x39; 0x53; 0x47; 0x6d; 0x41; 0xa2;
  0x1f; 0x2d; 0x43; 0xd8; 0xb7; 0x7b; 0xa4; 0x76;
  0xc4; 0x17; 0x49; 0xec; 0x7f; 0x0c; 0x6f; 0xf6;
  0x6c; 0xa1; 0x3b; 0x52; 0x29; 0x9d; 0x55; 0xaa;
  0xfb; 0x60; 0x86; 0xb1; 0xbb; 0xcc; 0x3e; 0x5a;
  0xcb; 0x59; 0x5f; 0xb0; 0x9c; 0xa9; 0xa0; 0x51;
  0x0b; 0xf5; 0x16; 0xeb; 0x7a; 0x75; 0x2c; 0xd7;
  0x4f; 0xae; 0xd5; 0xe9; 0xe6; 0xe7; 0xad; 0xe8;
  0x74; 0xd6; 0xf4; 0xea; 0xa8; 0x50; 0x58; 0xaf].

Definition exps : list Z := [
  0x01; 0x02; 0x04; 0x08; 0x10; 0x20; 0x40; 0x80;
  0x1d; 0x3a; 0x74; 0xe8; 0xcd; 0x87; 0x13; 0x26;
  0x4c; 0x98; 0x2d; 0x5a; 0xb4; 0x75; 0xea; 0xc9;
  0x8f; 0x03; 0x06; 0x0c; 0x18; 0x30; 0x60; 0xc0;
  0x9d; 0x27; 0x4e; 0x9c; 0x25; 0x4a; 0x94; 0x35;
  0x6a; 0xd4; 0xb5; 0x77; 0xee; 0xc1; 0x9f; 0x23;
  0x46; 0x8c; 0x05; 0x0a; 0x14; 0x28; 0x50; 0xa0;
  0x5d; 0xba; 0x69; 0xd2; 0xb9; 0x6f; 0xde; 0xa1;
  0x5f; 0xbe; 0x61; 0xc2; 0x99; 0x2f; 0x5e; 0xbc;
  0x65; 0xca; 0x89; 0x0f; 0x1e; 0x3c; 0x78; 0xf0;
  0xfd; 0xe7; 0xd3; 0xbb; 0x6b; 0xd6; 0xb1; 0x7f;
  0xfe; 0xe1; 0xdf; 0xa3; 0x5b; 0xb6; 0x71; 0xe2;
  0xd9; 0xaf; 0x43; 0x86; 0x11; 0x22; 0x44; 0x88;
  0x0d; 0x1a; 0x34; 0x68; 0xd0; 0xbd; 0x67; 0xce;
  0x81; 0x1f; 0x3e; 0x7c; 0xf8; 0xed; 0xc7; 0x93;
  0x3b; 0x76; 0xec; 0xc5; 0x97; 0x33; 0x66; 0xcc;
  0x85; 0x17; 0x2e; 0x5c; 0xb8; 0x6d; 0xda; 0xa9;
  0x4f; 0x9e; 0x21; 0x42; 0x84; 0x15; 0x2a; 0x54;
  0xa8; 0x4d; 0x9a; 0x29; 0x52; 0xa4; 0x55; 0xaa;
  0x49; 0x92; 0x39; 0x72; 0xe4; 0xd5; 0xb7; 0x73;
  0xe6; 0xd1; 0xbf; 0x63; 0xc6; 0x91; 0x3f; 0x7e;
  0xfc; 0xe5; 0xd7; 0xb3; 0x7b; 0xf6; 0xf1; 0xff;
  0xe3; 0xdb; 0xab; 0x4b; 0x96; 0x31; 0x62; 0xc4;
  0x95; 0x37; 0x6e; 0xdc; 0xa5; 0x57; 0xae; 0x41;
  0x82; 0x19; 0x32; 0x64; 0xc8; 0x8d; 0x07; 0x0e;
  0x1c; 0x38; 0x70; 0xe0; 0xdd; 0xa7; 0x53; 0xa6;
  0x51; 0xa2; 0x59; 0xb2; 0x79; 0xf2; 0xf9; 0xef;
  0xc3; 0x9b; 0x2b; 0x56; 0xac; 0x45; 0x8a; 0x09;
  0x12; 0x24; 0x48; 0x90; 0x3d; 0x7a; 0xf4; 0xf5;
  0xf7; 0xf3; 0xfb; 0xeb; 0xcb; 0x8b; 0x0b; 0x16;
  0x2c; 0x58; 0xb0; 0x7d; 0xfa; 0xe9; 0xcf; 0x83;
  0x1b; 0x36; 0x6c; 0xd8; 0xad; 0x47; 0x8e; 0x01;
  0x02; 0x04; 0x08; 0x10; 0x20; 0x40; 0x80; 0x1d;
  0x3a; 0x74; 0xe8; 0xcd; 0x87; 0x13; 0x26; 0x4c;
  0x98; 0x2d; 0x5a; 0xb4; 0x75; 0xea; 0xc9; 0x8f;
  0x03; 0x06; 0x0c; 0x18; 0x30; 0x60; 0xc0; 0x9d;
  0x27; 0x4e; 0x9c; 0x25; 0x4a; 0x94; 0x35; 0x6a;
  0xd4; 0xb5; 0x77; 0xee; 0xc1; 0x9f; 0x23; 0x46;
  0x8c; 0x05; 0x0a; 0x14; 0x28; 0x50; 0xa0; 0x5d;
  0xba; 0x69; 0xd2; 0xb9; 0x6f; 0xde; 0xa1; 0x5f;
  0xbe; 0x61; 0xc2; 0x99; 0x2f; 0x5e; 0xbc; 0x65;
  0xca; 0x89; 0x0f; 0x1e; 0x3c; 0x78; 0xf0; 0xfd;
  0xe7; 0xd3; 0xbb; 0x6b; 0xd6; 0xb1; 0x7f; 0xfe;
  0xe1; 0xdf; 0xa3; 0x5b; 0xb6; 0x71; 0xe2; 0xd9;
  0xaf; 0x43; 0x86; 0x11; 0x22; 0x44; 0x88; 0x0d;
  0x1a; 0x34; 0x68; 0xd0; 0xbd; 0x67; 0xce; 0x81;
  0x1f; 0x3e; 0x7c; 0xf8; 0xed; 0xc7; 0x93; 0x3b;
  0x76; 0xec; 0xc5; 0x97; 0x33; 0x66; 0xcc; 0x85;
  0x17; 0x2e; 0x5c; 0xb8; 0x6d; 0xda; 0xa9; 0x4f;
  0x9e; 0x21; 0x42; 0x84; 0x15; 0x2a; 0x54; 0xa8;
  0x4d; 0x9a; 0x29; 0x52; 0xa4; 0x55; 0xaa; 0x49;
  0x92; 0x39; 0x72; 0xe4; 0xd5; 0xb7; 0x73; 0xe6;
  0xd1; 0xbf; 0x63; 0xc6; 0x91; 0x3f; 0x7e; 0xfc;
  0xe5; 0xd7; 0xb3; 0x7b; 0xf6; 0xf1; 0xff; 0xe3;
  0xdb; 0xab; 0x4b; 0x96; 0x31; 0x62; 0xc4; 0x95;
  0x37; 0x6e; 0xdc; 0xa5; 0x57; 0xae; 0x41; 0x82;
  0x19; 0x32; 0x64; 0xc8; 0x8d; 0x07; 0x0e; 0x1c;
  0x38; 0x70; 0xe0; 0xdd; 0xa7; 0x53; 0xa6; 0x51;
  0xa2; 0x59; 0xb2; 0x79; 0xf2; 0xf9; 0xef; 0xc3;
  0x9b; 0x2b; 0x56; 0xac; 0x45; 0x8a; 0x09; 0x12;
  0x24; 0x48; 0x90; 0x3d; 0x7a; 0xf4; 0xf5; 0xf7;
  0xf3; 0xfb; 0xeb; 0xcb; 0x8b; 0x0b; 0x16; 0x2c;
  0x58; 0xb0; 0x7d; 0xfa; 0xe9; 0xcf; 0x83; 0x1b;
  0x36; 0x6c; 0xd8; 0xad; 0x47; 0x8e].

(** A [uint8_t] index cannot leave [logs]; [exps] is indexed with a sum. *)
Definition logs_at (b : Z) : Z := default 0 (logs !! Z.to_nat b).
Definition exps_at (k : Z) : res Z := of_option (exps !! Z.to_nat k).

(** ** The random coefficients: Speck in counter mode *)
Definition ROR (x r : Z) : Z := Z.lor (Z.shiftr x r) (u64 (Z.shiftl x (64 - r))).
Definition ROL (x r : Z) : Z := Z.lor (u64 (Z.shiftl x r)) (Z.shiftr x (64 - r)).

(** The macro [R(x, y, k)] on the pair of its two variables. *)
Definition R (xy : Z * Z) (k : Z) : Z * Z :=
  let '(x, y) := xy in
  let x := (ROR x 8 +64 y) xor k in
  let y := ROL y 3 xor x in
  (x, y).

Definition ROUNDS : nat := 32.

Definition speck_encrypt_rng (pt K : Z * Z) : Z * Z :=
  let '(y, x) := pt in
  let '(b, a) := K in
  let xy := R (x, y) b in
  let '(xy, _) := for_ (ROUNDS - 1) 0
    (fun i '(xy, ab) => let '(a, b) := R ab i in (R xy b, (a, b))) (xy, (a, b)) in
  let '(x, y) := xy in (y, x).

Definition BLOCK_SIZE : Z := 16.

(** The bytes written: block [i] is the encryption of the counter [i]. *)
Definition generate_block_ctr (output_length : Z) (output_block seed : list Z) : option (list Z) :=
  let rounds := u32 (output_length / BLOCK_SIZE) in
  let key := (le_load (take 8 seed), le_load (take 8 (drop 8 seed))) in
  let '(_, stream) := for_ (Z.to_nat rounds) 0
    (fun i '(ctr, acc) =>
       let '(o0, o1) := speck_encrypt_rng (ctr, 0) key in
       (ctr +64 1, acc ++ le_store 8 o0 ++ le_store 8 o1)) (0, []) in
  splice 0 stream output_block.

(** [gfshare_fill_rand]: [get_seed_64] reads 16 random bytes. *)
Definition gfshare_fill_rand (seed : list Z) (count : Z) (buffer : list Z) : res (list Z) :=
  of_option (generate_block_ctr count buffer seed).

(** ** The context *)
Record gfshare_ctx := mk_gfshare_ctx {
  sharecount : Z;
  threshold : Z;
  maxsize : Z;
  size : Z;
  sharenrs : list Z;
  buffer : list Z;
}.

Definition set_buffer (b : list Z) (ctx : gfshare_ctx) : gfshare_ctx :=
  mk_gfshare_ctx (sharecount ctx) (threshold ctx) (maxsize ctx) (size ctx) (sharenrs ctx) b.
Definition set_sharenrs (s : list Z) (ctx : gfshare_ctx) : gfshare_ctx :=
  mk_gfshare_ctx (sharecount ctx) (threshold ctx) (maxsize ctx) (size ctx) s (buffer ctx).

(** The three booleans say which [kmalloc]s succeed; [mem] is the contents of
    the new buffer. [None] is the null pointer. *)
Definition gfshare_ctx_init_core (ok1 ok2 ok3 : bool) (mem nrs : list Z) (count thr max : Z)
  : res (option gfshare_ctx) :=
  if (max <? 1) || (thr <? 1) || (thr >? count) then Ok None else
  if negb ok1 then Ok None else
  if negb ok2 then Ok None else
  nrs' ← of_option (slice 0 (Z.to_nat count) nrs);
  if negb ok3 then Ok None else
  Ok (Some {| sharecount := count; threshold := thr; maxsize := u32 max; size := u32 max;
              sharenrs := nrs'; buffer := take (Z.to_nat (count *64 max)) mem |}).

Definition gfshare_ctx_init_enc (ok1 ok2 ok3 : bool) (mem nrs : list Z) (count thr max : Z)
  : res (option gfshare_ctx) :=
  nrs' ← of_option (slice 0 (Z.to_nat count) nrs);
  if existsb (fun x => x =? 0) nrs' then Ok None
  else gfshare_ctx_init_core ok1 ok2 ok3 mem nrs count thr max.

Definition gfshare_ctx_init_dec := gfshare_ctx_init_core.

Definition gfshare_ctx_setsize (ctx : gfshare_ctx) (sz : Z) : Z * gfshare_ctx :=
  if (sz <? 1) || (sz >=? maxsize ctx) then (1, ctx)
  else (0, mk_gfshare_ctx (sharecount ctx) (threshold ctx) (maxsize ctx) (u32 sz) (sharenrs ctx) (buffer ctx)).

(** ** Splitting *)
Definition gfshare_ctx_enc_setsecret (seed : list Z) (ctx : gfshare_ctx) (secret : list Z) : res gfshare_ctx :=
  src ← of_option (slice 0 (Z.to_nat (size ctx)) secret);
  b ← of_option (splice (Z.to_nat ((threshold ctx -32 1) *32 maxsize ctx)) src (buffer ctx));
  b ← gfshare_fill_rand seed ((threshold ctx -32 1) *32 maxsize ctx) b;
  Ok (set_buffer b ctx).

(** One step of the byte loop: multiply by the share number, add the
    coefficient. *)
Definition enc_byte (ilog share_byte coefficient_byte : Z) : res Z :=
  b ← (if share_byte =? 0 then Ok 0 else exps_at (ilog +32 logs_at share_byte));
  Ok (b xor coefficient_byte).

Fixpoint enc_row (ilog : Z) (share row : list Z) : res (list Z) :=
  match share, row with
  | s :: share', c :: row' =>
      b ← enc_byte ilog s c; rest ← enc_row ilog share' row'; Ok (b :: rest)
  | _, _ => Ok []
  end.

Definition coefficient_row (ctx : gfshare_ctx) (k : Z) : res (list Z) :=
  of_option (slice (Z.to_nat (k *32 maxsize ctx)) (Z.to_nat (size ctx)) (buffer ctx)).

Definition enc_share (ctx : gfshare_ctx) (nr : Z) : res (list Z) :=
  first ← of_option (slice 0 (Z.to_nat (size ctx)) (buffer ctx));
  forM (Z.to_nat (threshold ctx) - 1) 1
    (fun k share => row ← coefficient_row ctx k; enc_row (logs_at nr) share row) first.

Fixpoint enc_shares (ctx : gfshare_ctx) (nrs : list Z) (shares : list (list Z)) : res (list (list Z)) :=
  match nrs, shares with
  | nr :: nrs', s :: shares' =>
      new ← enc_share ctx nr;
      s' ← of_option (splice 0 new s);
      rest ← enc_shares ctx nrs' shares';
      Ok (s' :: rest)
  | [], _ => Ok shares
  | _ :: _, [] => Fault
  end.

Definition gfshare_ctx_enc_getshares (seed : list Z) (ctx : gfshare_ctx) (secret : list Z)
    (shares : list (list Z)) : res (Z * gfshare_ctx * list (list Z)) :=
  ctx ← gfshare_ctx_enc_setsecret seed ctx secret;
  shares ← enc_shares ctx (take (Z.to_nat (sharecount ctx)) (sharenrs ctx)) shares;
  Ok (0, ctx, shares).

(** ** Recombination *)
Definition gfshare_ctx_dec_newshares (ctx : gfshare_ctx) (nrs : list Z) : res gfshare_ctx :=
  s ← of_option (slice 0 (Z.to_nat (sharecount ctx)) nrs); Ok (set_sharenrs s ctx).

Definition gfshare_ctx_dec_giveshare (ctx : gfshare_ctx) (sharenr : Z) (share : list Z) : res (Z * gfshare_ctx) :=
  if sharenr >=? sharecount ctx then Ok (1, ctx) else
  s ← of_option (slice 0 (Z.to_nat (size ctx)) share);
  b ← of_option (splice (Z.to_nat (sharenr *32 maxsize ctx)) s (buffer ctx));
  Ok (0, set_buffer b ctx).

(** The inner loop over [j] and [jn], from position [j] of the share numbers:
    the logarithms of the numerator and the denominator of L(i). The
    [jn--; continue] of an absent share leaves [jn] as it was. *)
Fixpoint li_loop (thr i xi : Z) (js : list Z) (j jn Li_top Li_bottom : Z) : Z * Z :=
  match js with
  | [] => (Li_top, Li_bottom)
  | xj :: js' =>
      if jn <? thr then
        if i =? j then li_loop thr i xi js' (j + 1) (jn + 1) Li_top Li_bottom
        else if xj =? 0 then li_loop thr i xi js' (j + 1) jn Li_top Li_bottom
        else li_loop thr i xi js' (j + 1) (jn + 1) (Li_top +32 logs_at xj) (Li_bottom +32 logs_at (xi xor xj))
      else (Li_top, Li_bottom)
  end.

Definition log_li (thr i xi : Z) (nrs : list Z) : Z :=
  let '(top, bottom) := li_loop thr i xi nrs 0 0 0 0 in
  (top +32 (255 - bottom mod 255)) mod 255.

Fixpoint dec_row (li : Z) (secret share : list Z) : res (list Z) :=
  match secret, share with
  | s :: secret', y :: share' =>
      s' ← (if y =? 0 then Ok s else e ← exps_at (li +32 logs_at y); Ok (s xor e));
      rest ← dec_row li secret' share'; Ok (s' :: rest)
  | _, _ => Ok []
  end.

(** The outer loop over [i] and [n]. *)
Fixpoint dec_loop (ctx : gfshare_ctx) (nrs : list Z) (i n : Z) (secret : list Z) : res (list Z) :=
  match nrs with
  | [] => Ok secret
  | xi :: nrs' =>
      if n <? threshold ctx then
        if xi =? 0 then dec_loop ctx nrs' (i + 1) n secret
        else
          share ← of_option (slice (Z.to_nat (maxsize ctx *32 i)) (Z.to_nat (size ctx)) (buffer ctx));
          secret ← dec_row (log_li (threshold ctx) i xi (sharenrs ctx)) secret share;
          dec_loop ctx nrs' (i + 1) (n + 1) secret
      else Ok secret
  end.

Definition gfshare_ctx_dec_extract (ctx : gfshare_ctx) (secretbuf : list Z) : res (list Z) :=
  secret ← dec_loop ctx (sharenrs ctx) 0 0 (replicate (Z.to_nat (size ctx)) 0);
  of_option (splice 0 secret secretbuf).

Fixpoint copy_shares (ctx : gfshare_ctx) (shares : list (list Z)) (n : nat) (i : Z) : res gfshare_ctx :=
  match n with
  | O => Ok ctx
  | S n' =>
      share ← of_option (shares !! Z.to_nat i);
      s ← of_option (slice 0 (Z.to_nat (size ctx)) share);
      b ← of_option (splice (Z.to_nat (i *32 maxsize ctx)) s (buffer ctx));
      copy_shares (set_buffer b ctx) shares n' (i + 1)
  end.

Definition gfshare_ctx_dec_decode (ctx : gfshare_ctx) (nrs : list Z) (shares : list (list Z))
    (secretbuf : list Z) : res (gfshare_ctx * list Z) :=
  ctx ← gfshare_ctx_dec_newshares ctx nrs;
  ctx ← copy_shares ctx shares (Z.to_nat (sharecount ctx)) 0;
  s ← gfshare_ctx_dec_extract ctx secretbuf;
  Ok (ctx, s).

(** [gfshare_ctx_free] overwrites the buffer and the share numbers with
    random bytes before it frees them. *)
Definition gfshare_ctx_free (seed nrs_random : list Z) (ctx : gfshare_ctx) : res gfshare_ctx :=
  b ← gfshare_fill_rand seed (sharecount ctx *32 maxsize ctx) (buffer ctx);
  s ← of_option (splice 0 (take (Z.to_nat (sharecount ctx)) nrs_random) (sharenrs ctx));
  Ok (set_sharenrs s (set_buffer b ctx)).

(** ** The tables are the powers of x modulo 0x11d *)
Definition gfshare_poly : Z := 0x11d.
Definition glog (a : Z) : nat := Z.to_nat (logs_at a).

Lemma poly_range : in_range 9 gfshare_poly.
Proof. done. Qed.
Lemma poly_top : Z.testbit gfshare_poly 8 = true.
Proof. done. Qed.

Lemma exps_xpow k : (k < 510)%nat -> exps !! k = Some (xpow gfshare_poly k 1).
Proof.
  induction k as [|k IH]; [done|]. intros Hk. specialize (IH ltac:(lia)).
  assert (H : forallb (fun k => match exps !! k, exps !! S k with
      | Some a, Some b => b =? xtime gfshare_poly a | _, _ => false end) (seq 0 509) = true)
    by (vm_compute; reflexivity).
  pose proof (nat_forall 509 _ H k ltac:(lia)) as E. cbn beta in E. rewrite IH in E.
  destruct (exps !! S k) as [b|]; [|done]. apply Z.eqb_eq in E as ->. done.
Qed.

Lemma exps_at_xpow k : 0 <= k < 510 -> exps_at k = Ok (xpow gfshare_poly (Z.to_nat k) 1).
Proof. intros. unfold exps_at. by rewrite exps_xpow by lia. Qed.

Lemma logs_at_range b : 0 <= logs_at b < 255.
Proof.
  unfold logs_at. destruct (logs !! Z.to_nat b) as [x|] eqn:E; cbn; [|lia].
  assert (H : Forall (fun x => 0 <= x < 255) logs) by (by apply (bool_decide_unpack _); vm_compute).
  exact (Forall_lookup_1 _ _ _ _ H E).
Qed.

#[global] Instance gfshare_primitive : Primitive gfshare_poly glog.
Proof.
  constructor.
  - intros a _ _. unfold glog. pose proof (logs_at_range a). lia.
  - intros a Ha Hn. pose proof (logs_at_range a) as Hr.
    assert (H : forallb (fun a => (a =? 0) || bool_decide (exps !! glog a = Some a)) (seqZ 0 256) = true)
      by (vm_compute; reflexivity).
    pose proof (byte_forall _ H a Ha) as E. cbn beta in E. rewrite (proj2 (Z.eqb_neq a 0) Hn), orb_false_l in E.
    apply bool_decide_eq_true_1 in E. rewrite exps_xpow in E by (unfold glog; lia). congruence.
  - intros k Hk.
    assert (H : forallb (fun k => bool_decide (glog <$> exps !! k = Some k)) (seq 0 255) = true)
      by (vm_compute; reflexivity).
    pose proof (nat_forall _ _ H k Hk) as E. cbn beta in E. apply bool_decide_eq_true_1 in E.
    rewrite exps_xpow in E by lia. cbn in E. congruence.
  - vm_compute. reflexivity.
Qed.

Abbreviation mul := (gmul gfshare_poly glog).

(** The table lookup is the product of the field. *)
Lemma exps_mul x b :
  is_byte x -> is_byte b -> x <> 0 -> b <> 0 -> exps_at (logs_at x + logs_at b) = Ok (mul x b).
Proof.
  intros Hx Hb Nx Nb. pose proof (logs_at_range x). pose proof (logs_at_range b).
  rewrite exps_at_xpow by lia. rewrite (gmul_log gfshare_poly glog) by done. unfold glog.
  do 2 f_equal. lia.
Qed.

Lemma enc_byte_spec x s c :
  is_byte x -> is_byte s -> x <> 0 -> enc_byte (logs_at x) s c = Ok (Z.lxor (mul x s) c).
Proof.
  intros Hx Hs Nx. unfold enc_byte. pose proof (logs_at_range x). pose proof (logs_at_range s).
  destruct (Z.eqb_spec s 0) as [->|Ns].
  - cbn [mbind res_bind]. by rewrite gmul_0_r.
  - rewrite wrap_id by (unfold in_range; lia). by rewrite exps_mul.
Qed.

Lemma enc_row_spec x share row :
  is_byte x -> x <> 0 -> bytes share ->
  enc_row (logs_at x) share row = Ok (zip_with (fun s c => Z.lxor (mul x s) c) share row).
Proof.
  intros Hx Nx Hs. revert row; induction Hs as [|s share Hb _ IH]; intros [|c row]; cbn [enc_row zip_with]; try done.
  rewrite enc_byte_spec by done. cbn [mbind res_bind]. by rewrite IH.
Qed.

(** ** A share as the value of a polynomial at its number *)
Section Share.
Context (ctx : gfshare_ctx).
Context (Hsize : 0 < size ctx <= maxsize ctx) (Hthr : 1 <= threshold ctx <= 255)
  (Hmax : maxsize ctx * 255 < 2 ^ 32).
Let t := Z.to_nat (threshold ctx).
Let sz := Z.to_nat (size ctx).
Let mx := Z.to_nat (maxsize ctx).
Context (Hbuf : (t * mx <= length (buffer ctx))%nat) (Hbytes : bytes (buffer ctx)).

(** Row [k] of the buffer, and the coefficients of position [p], highest
    power first. *)
Definition row (k : nat) : list Z := take sz (drop (k * mx) (buffer ctx)).
Definition column (p n : nat) : list Z := map (fun k => default 0 (row k !! p)) (seq 0 n).

Lemma row_length k : (k < t)%nat -> length (row k) = sz.
Proof. intros. unfold row. rewrite length_take, length_drop. unfold sz, mx in *. nia. Qed.

Lemma row_bytes k : bytes (row k).
Proof. apply Forall_take. by apply Forall_drop. Qed.

Lemma coefficient_row_spec k : (k < t)%nat -> coefficient_row ctx (Z.of_nat k) = Ok (row k).
Proof.
  intros Hk. unfold coefficient_row. rewrite wrap_id by (unfold in_range, t in *; nia).
  rewrite slice_Some by (unfold t, mx in *; nia). cbn. unfold row. do 3 f_equal. unfold mx. nia.
Qed.

Fixpoint hornerz (x acc : Z) (cs : list Z) : Z :=
  match cs with [] => acc | c :: cs' => hornerz x (Z.lxor (mul x acc) c) cs' end.

Lemma hornerz_app x acc cs ds : hornerz x acc (cs ++ ds) = hornerz x (hornerz x acc cs) ds.
Proof. revert acc; induction cs; intros; cbn; auto. Qed.

Lemma hornerz_byte x acc cs : is_byte x -> is_byte acc -> bytes cs -> is_byte (hornerz x acc cs).
Proof.
  intros Hx Ha Hc. revert acc Ha; induction Hc as [|c cs Hb _ IH]; intros acc Ha; cbn; [done|].
  apply IH. apply lxor_range; [lia|by apply gmul_byte; [apply poly_range|apply poly_top|]|done].
Qed.

Definition share_byte (x : Z) (n p : nat) : Z := hornerz x 0 (column p n).

Lemma column_bytes p n : bytes (column p n).
Proof.
  unfold column. apply Forall_map, Forall_forall. intros k _.
  destruct (row k !! p) as [b|] eqn:E; cbn; [|done]. exact (Forall_lookup_1 _ _ _ _ (row_bytes k) E).
Qed.

Lemma share_byte_S x n p :
  share_byte x (S n) p = Z.lxor (mul x (share_byte x n p)) (default 0 (row n !! p)).
Proof. unfold share_byte, column. rewrite seq_S, map_app, hornerz_app. done. Qed.

Definition share_row (x : Z) (n : nat) : list Z := map (share_byte x n) (seq 0 sz).

Lemma share_row_1 x : share_row x 1 = row 0.
Proof.
  unfold share_row. apply list_eq. intros p.
  rewrite list_lookup_fmap. destruct (decide (p < sz)%nat) as [Hp|Hp].
  - rewrite lookup_seq_lt by done. cbn [fmap option_fmap option_map].
    destruct (lookup_lt_is_Some_2 (row 0) p) as [b Hb]; [rewrite row_length; [done|unfold t; lia]|].
    rewrite Hb. f_equal. rewrite share_byte_S, Nat.add_0_l, Hb. unfold share_byte, column. cbn [seq map hornerz].
    by rewrite gmul_0_r, Z.lxor_0_l.
  - rewrite lookup_seq_ge by lia. symmetry. apply lookup_ge_None_2. rewrite row_length; [lia|unfold t; lia].
Qed.

Lemma share_row_length x n : length (share_row x n) = sz.
Proof. unfold share_row. by rewrite length_map, length_seq. Qed.

Lemma share_byte_byte x n p : is_byte x -> is_byte (share_byte x n p).
Proof. intros. apply hornerz_byte; [done|done|apply column_bytes]. Qed.

Lemma share_row_bytes x n : is_byte x -> bytes (share_row x n).
Proof. intros. unfold share_row. apply Forall_map, Forall_forall. intros. by apply share_byte_byte. Qed.

Lemma share_row_S x n :
  (n < t)%nat -> zip_with (fun s c => Z.lxor (mul x s) c) (share_row x n) (row n) = share_row x (S n).
Proof.
  intros Hn. apply list_eq. intros p. rewrite lookup_zip_with.
  destruct (decide (p < sz)%nat) as [Hp|Hp].
  - destruct (lookup_lt_is_Some_2 (row n) p) as [b Hb]; [by rewrite row_length|].
    unfold share_row. rewrite !list_lookup_fmap, !lookup_seq_lt by done.
    cbn [fmap option_fmap option_map mbind option_bind]. rewrite Hb. cbn [mbind option_bind].
    by rewrite share_byte_S, Nat.add_0_l, Hb.
  - rewrite (lookup_ge_None_2 (share_row x n)) by (rewrite share_row_length; lia).
    by rewrite (lookup_ge_None_2 (share_row x (S n))) by (rewrite share_row_length; lia).
Qed.

Lemma enc_share_spec x :
  is_byte x -> x <> 0 -> enc_share ctx x = Ok (share_row x t).
Proof.
  intros Hx Nx. unfold enc_share. rewrite slice_Some by (unfold t, mx in *; nia).
  cbn [of_option mbind res_bind].
  destruct (forM_invariant (fun k share => share = share_row x (Z.to_nat k)) (t - 1) 1
    (fun k share => row ← coefficient_row ctx k; enc_row (logs_at x) share row)
    (take sz (drop 0 (buffer ctx)))) as (s & Hs & ->).
  - change (Z.to_nat 1) with 1%nat. by rewrite share_row_1.
  - intros k s Hk ->. pose proof (coefficient_row_spec (Z.to_nat k) ltac:(lia)) as Hr.
    rewrite Z2Nat.id in Hr by lia. rewrite Hr. cbn [mbind res_bind].
    rewrite enc_row_spec by (done || by apply share_row_bytes).
    eexists. split; [reflexivity|]. rewrite share_row_S by lia. f_equal. lia.
  - change (Z.to_nat (threshold ctx) - 1)%nat with (t - 1)%nat. change (Z.to_nat (size ctx)) with sz.
    rewrite Hs. do 2 f_equal. unfold t. lia.
Qed.
End Share.

(** ** Into the field *)
Abbreviation G := gf.
Definition toG (z : Z) : G := match decide (is_byte z) with left H => gfz z H | right _ => gf0 end.
Abbreviation add := gfadd.
Abbreviation gm := (gfmul gfshare_poly poly_range poly_top glog).
Abbreviation gi := (gfinv gfshare_poly poly_range poly_top glog).
Abbreviation gd := (gfdiv gfshare_poly poly_range poly_top glog).

Lemma gf11d : field_theory gf0 gf1 add gm gfsub gfopp gd gi eq.
Proof. apply (gf_field gfshare_poly poly_range poly_top glog). Qed.
Add Field gf11d_field : gf11d.

Lemma toG_proj z : is_byte z -> proj1_sig (toG z) = z.
Proof. intros H. unfold toG. by destruct (decide (is_byte z)). Qed.

Lemma toG_of (g : G) : toG (proj1_sig g) = g.
Proof. apply gf_eq, toG_proj, gf_byte. Qed.

Lemma toG_inj a b : is_byte a -> is_byte b -> toG a = toG b -> a = b.
Proof. intros Ha Hb E. rewrite <- (toG_proj a Ha), <- (toG_proj b Hb). congruence. Qed.

Lemma toG_xor a b : is_byte a -> is_byte b -> toG (Z.lxor a b) = add (toG a) (toG b).
Proof.
  intros. apply gf_eq. rewrite toG_proj by (apply lxor_range; done || lia). cbn. by rewrite !toG_proj.
Qed.

Lemma toG_mul a b : is_byte a -> is_byte b -> toG (mul a b) = gm (toG a) (toG b).
Proof.
  intros. apply gf_eq. rewrite toG_proj by (by apply gmul_byte; [apply poly_range|apply poly_top|]).
  cbn. by rewrite !toG_proj.
Qed.

Lemma hornerz_feval x acc cs :
  is_byte x -> is_byte acc -> bytes cs ->
  toG (hornerz x acc cs) = horner add gm (toG acc) (map toG cs) (toG x).
Proof.
  intros Hx Ha Hc. revert acc Ha; induction Hc as [|c cs Hb _ IH]; intros acc Ha; cbn; [done|].
  assert (Hm : is_byte (mul x acc)) by (by apply gmul_byte; [apply poly_range|apply poly_top|]).
  rewrite IH by (apply lxor_range; done || lia). rewrite toG_xor, toG_mul by done. f_equal. ring.
Qed.

(** [e n] is x to the power n. *)
Definition e (n : nat) : G := toG (xpow gfshare_poly n 1).

Lemma xpow1_byte n : is_byte (xpow gfshare_poly n 1).
Proof. by apply xpow_byte; [apply poly_range|apply poly_top|]. Qed.

Lemma e_add m n : e (m + n) = gm (e m) (e n).
Proof.
  unfold e. rewrite <- toG_mul by apply xpow1_byte. f_equal.
  rewrite xpow_add. apply (xpow_gmul gfshare_poly glog), xpow1_byte.
Qed.

Lemma e_mod n : e (n mod 255) = e n.
Proof. unfold e. by rewrite (xpow_mod gfshare_poly glog) by done. Qed.

Lemma e_255 : e 255 = gf1.
Proof. unfold e. rewrite (xpow_period gfshare_poly (glog := glog)). by apply gf_eq. Qed.

Lemma e_nonzero n : e n <> gf0.
Proof.
  intros E. apply (xpow_one_nonzero gfshare_poly glog n).
  rewrite <- (toG_proj _ (xpow1_byte n)). fold (e n). by rewrite E.
Qed.

Lemma e_log x : is_byte x -> x <> 0 -> e (glog x) = toG x.
Proof. intros. unfold e. by rewrite (xpow_glog gfshare_poly). Qed.

(** ** Recombination: the shares that are used *)
Fixpoint picks (thr : Z) (nrs : list Z) (i n : Z) : list (Z * Z) :=
  match nrs with
  | [] => []
  | x :: nrs' =>
      if n <? thr then
        if x =? 0 then picks thr nrs' (i + 1) n else (i, x) :: picks thr nrs' (i + 1) (n + 1)
      else []
  end.

Lemma picks_spec thr nrs i n j x :
  (j, x) ∈ picks thr nrs i n -> i <= j /\ nrs !! Z.to_nat (j - i) = Some x /\ x <> 0.
Proof.
  revert i n; induction nrs as [|y nrs IH]; intros i n H; cbn in H; [by apply not_elem_of_nil in H|].
  destruct (n <? thr); [|by apply not_elem_of_nil in H].
  destruct (Z.eqb_spec y 0).
  - apply IH in H as (? & Hl & ?). split_and!; [lia| |done].
    replace (Z.to_nat (j - i)) with (S (Z.to_nat (j - (i + 1)))) by lia. done.
  - apply elem_of_cons in H as [[= -> ->]|H]; [by rewrite Z.sub_diag|].
    apply IH in H as (? & Hl & ?). split_and!; [lia| |done].
    replace (Z.to_nat (j - i)) with (S (Z.to_nat (j - (i + 1)))) by lia. done.
Qed.

Lemma picks_length thr nrs i n : n <= thr -> Z.of_nat (length (picks thr nrs i n)) <= thr - n.
Proof.
  revert i n; induction nrs as [|y nrs IH]; intros i n H; cbn; [lia|].
  destruct (Z.ltb_spec n thr); [|cbn; lia]. destruct (y =? 0); [by apply IH|].
  cbn. pose proof (IH (i + 1) (n + 1) ltac:(lia)). lia.
Qed.

(** Enough shares present: exactly [thr - n] are used. *)
Lemma picks_enough thr nrs i n :
  n <= thr -> thr - n <= Z.of_nat (length (filter (fun x => x <> 0) nrs)) ->
  Z.of_nat (length (picks thr nrs i n)) = thr - n.
Proof.
  revert i n; induction nrs as [|y nrs IH]; intros i n Hn H; [cbn in *; lia|].
  rewrite filter_cons in H. cbn [picks]. destruct (Z.ltb_spec n thr); [|cbn; lia]. destruct (Z.eqb_spec y 0).
  - rewrite decide_False in H by auto. apply IH; lia.
  - rewrite decide_True in H by done. cbn [length] in H |- *. pose proof (IH (i + 1) (n + 1) ltac:(lia)). lia.
Qed.

Lemma picks_nodup thr nrs i n :
  NoDup (map fst (picks thr nrs i n)) /\ Forall (fun j => i <= j) (map fst (picks thr nrs i n)).
Proof.
  revert i n; induction nrs as [|y nrs IH]; intros i n; cbn [picks map]; [split; constructor|].
  destruct (n <? thr); [|split; constructor]. destruct (y =? 0).
  - destruct (IH (i + 1) n) as [H1 H2]. split; [done|]. eapply Forall_impl; [exact H2|cbn; lia].
  - destruct (IH (i + 1) (n + 1)) as [H1 H2]. cbn [map fst]. split; constructor; try done; try lia.
    + intros Hi. rewrite Forall_forall in H2. specialize (H2 _ Hi). lia.
    + eapply Forall_impl; [exact H2|cbn; lia].
Qed.

(** The logarithms of numerator and denominator add up over the used shares
    other than [i]. *)
Definition others (i : Z) (l : list (Z * Z)) : list (Z * Z) := filter (fun p => fst p <> i) l.

Definition top_sum (l : list (Z * Z)) : Z := foldr (fun p s => logs_at (snd p) + s) 0 l.
Definition bottom_sum (xi : Z) (l : list (Z * Z)) : Z := foldr (fun p s => logs_at (Z.lxor xi (snd p)) + s) 0 l.

Lemma top_sum_cons p l : top_sum (p :: l) = logs_at (snd p) + top_sum l.
Proof. done. Qed.
Lemma bottom_sum_cons xi p l : bottom_sum xi (p :: l) = logs_at (Z.lxor xi (snd p)) + bottom_sum xi l.
Proof. done. Qed.

Lemma top_sum_range l : 0 <= top_sum l <= 254 * Z.of_nat (length l).
Proof. induction l as [|p l IH]; [cbn; lia|]. rewrite top_sum_cons. cbn [length]. pose proof (logs_at_range (snd p)). lia. Qed.

Lemma bottom_sum_range xi l : 0 <= bottom_sum xi l <= 254 * Z.of_nat (length l).
Proof.
  induction l as [|p l IH]; [cbn; lia|]. rewrite bottom_sum_cons. cbn [length].
  pose proof (logs_at_range (Z.lxor xi (snd p))). lia.
Qed.

Lemma li_loop_spec thr i xi js : forall j jn top bottom,
  (forall x, js !! Z.to_nat (i - j) = Some x -> j <= i -> x <> 0) ->
  0 <= jn <= thr -> thr <= 255 -> 0 <= top <= 254 * jn -> 0 <= bottom <= 254 * jn ->
  li_loop thr i xi js j jn top bottom =
    (top + top_sum (others i (picks thr js j jn)), bottom + bottom_sum xi (others i (picks thr js j jn))).
Proof.
  induction js as [|xj js IH]; intros j jn top bottom Hi Hjn Hthr Ht Hb; cbn [li_loop picks].
  { cbn. f_equal; lia. }
  destruct (Z.ltb_spec jn thr); [|cbn; f_equal; lia].
  assert (Hnext : forall x, js !! Z.to_nat (i - (j + 1)) = Some x -> j + 1 <= i -> x <> 0).
  { intros x Hx Hle. apply (Hi x); [|lia]. by replace (Z.to_nat (i - j)) with (S (Z.to_nat (i - (j + 1)))) by lia. }
  destruct (Z.eqb_spec i j) as [->|Hne].
  - specialize (Hi xj). rewrite Z.sub_diag in Hi. specialize (Hi eq_refl ltac:(lia)).
    destruct (Z.eqb_spec xj 0); [done|]. rewrite IH by (done || lia). unfold others.
    rewrite filter_cons_False by (cbn; auto). done.
  - destruct (Z.eqb_spec xj 0); [by apply IH; lia || done|].
    pose proof (logs_at_range xj). pose proof (logs_at_range (Z.lxor xi xj)).
    rewrite !wrap_id by (unfold in_range; lia). rewrite IH by (done || lia). unfold others.
    rewrite filter_cons_True by (cbn; auto). rewrite top_sum_cons, bottom_sum_cons. cbn [snd]. f_equal; lia.
Qed.

(** The weight of a point, in the field. *)
Abbreviation gweight := (weight gf1 gm gfsub gd).

Lemma weight_logs xi l :
  is_byte xi -> Forall (fun p => is_byte (snd p) /\ snd p <> 0 /\ snd p <> xi) l ->
  gm (gweight (map (fun p => toG (snd p)) l) (toG xi)) (e (Z.to_nat (bottom_sum xi l))) = e (Z.to_nat (top_sum l)).
Proof.
  intros Hx Hl. induction Hl as [|p l (Hb & Hn & Hne) _ IH]; cbn [map weight].
  { change (bottom_sum xi []) with 0. change (top_sum []) with 0. ring. }
  rewrite top_sum_cons, bottom_sum_cons. pose proof (top_sum_range l). pose proof (bottom_sum_range xi l).
  pose proof (logs_at_range (snd p)). pose proof (logs_at_range (Z.lxor xi (snd p))).
  rewrite !Z2Nat.inj_add by lia. rewrite !e_add, <- IH.
  assert (Nx : Z.lxor xi (snd p) <> 0) by (intros E; apply Z.lxor_eq in E; congruence).
  change (Z.to_nat (logs_at (snd p))) with (glog (snd p)).
  change (Z.to_nat (logs_at (Z.lxor xi (snd p)))) with (glog (Z.lxor xi (snd p))).
  rewrite !e_log by (done || by apply lxor_range). rewrite toG_xor by done.
  assert (Hd : gfsub (toG (snd p)) (toG xi) <> gf0).
  { unfold gfsub. rewrite <- toG_xor by done. intros E. apply Nx. rewrite Z.lxor_comm.
    apply toG_inj; [by apply lxor_range|done|]. rewrite E. by apply gf_eq. }
  replace (add (toG xi) (toG (snd p))) with (gfsub (toG (snd p)) (toG xi))
    by (apply gf_eq; cbn; apply Z.lxor_comm).
  field. done.
Qed.

Lemma filter_id {A} (P : A -> Prop) `{!forall x, Decision (P x)} l : Forall P l -> filter P l = l.
Proof. induction 1 as [|x l Hx _ IH]; [done|]. by rewrite filter_cons_True, IH. Qed.

Section Decode.
Context (ctx : gfshare_ctx).
Context (Hsize : 0 < size ctx <= maxsize ctx) (Hthr : 1 <= threshold ctx <= 255)
  (Hmax : maxsize ctx * 255 < 2 ^ 32).
Let sz := Z.to_nat (size ctx).
Let mx := Z.to_nat (maxsize ctx).
Let nrs := sharenrs ctx.
Let full := picks (threshold ctx) nrs 0 0.
Context (Hcount : (length nrs <= 255)%nat).
Context (Hbuf : (length nrs * mx <= length (buffer ctx))%nat) (Hbytes : bytes (buffer ctx)).
Context (Hnrs : bytes nrs) (Hnd : NoDup (map snd full)).

Lemma full_spec j x : (j, x) ∈ full -> 0 <= j < Z.of_nat (length nrs) /\ is_byte x /\ x <> 0.
Proof.
  intros H. apply picks_spec in H as (Hj & Hl & Hn). rewrite Z.sub_0_r in Hl.
  pose proof (lookup_lt_Some _ _ _ Hl). pose proof (Forall_lookup_1 _ _ _ _ Hnrs Hl).
  split_and!; [lia|lia|done|done].
Qed.

Lemma others_split pre i x post : full = pre ++ (i, x) :: post -> others i full = pre ++ post.
Proof.
  intros E. pose proof (picks_nodup (threshold ctx) nrs 0 0) as [H _]. fold full in H. rewrite E in *.
  rewrite map_app in H. cbn [map fst] in H. apply NoDup_app in H as (_ & H1 & H2).
  apply NoDup_cons in H2 as [H2 _]. unfold others. rewrite filter_app, filter_cons_False by (cbn; auto).
  f_equal; apply filter_id, Forall_forall.
  - intros p Hp Hi. apply (H1 (fst p)); [by apply list_elem_of_fmap_2|]. rewrite Hi. left.
  - intros p Hp Hi. apply H2. rewrite <- Hi. by apply list_elem_of_fmap_2.
Qed.

Lemma others_ok pre i x post :
  full = pre ++ (i, x) :: post ->
  Forall (fun p => is_byte (snd p) /\ snd p <> 0 /\ snd p <> x) (pre ++ post).
Proof.
  intros E. apply Forall_forall. intros [j y] Hp.
  assert (Hf : (j, y) ∈ full).
  { rewrite E. apply elem_of_app. apply elem_of_app in Hp as [?|?]; [by left|right; by right]. }
  pose proof (full_spec j y Hf) as (_ & ? & ?). split_and!; [done|done|]. cbn [snd]. intros ->.
  rewrite E, map_app in Hnd. cbn [map snd] in Hnd. apply NoDup_app in Hnd as (_ & N1 & N2).
  apply NoDup_cons in N2 as [N2 _].
  apply elem_of_app in Hp as [Hp|Hp]; apply (list_elem_of_fmap_2 snd) in Hp; [apply (N1 _ Hp); left|by apply N2].
Qed.

Lemma log_li_spec pre i x post :
  full = pre ++ (i, x) :: post ->
  0 <= log_li (threshold ctx) i x nrs < 255 /\
  e (Z.to_nat (log_li (threshold ctx) i x nrs))
  = gm (gweight (map (fun p => toG (snd p)) pre) (toG x)) (gweight (map (fun p => toG (snd p)) post) (toG x)).
Proof.
  intros E. assert (Hin : (i, x) ∈ full) by (rewrite E; apply elem_of_app; right; left).
  pose proof (full_spec i x Hin) as (Hi & Hx & Hn).
  unfold log_li. rewrite li_loop_spec; [|intros y Hy _|lia|lia|lia|lia].
  2: { rewrite Z.sub_0_r in Hy. apply picks_spec in Hin as (_ & Hl & _). rewrite Z.sub_0_r in Hl.
       assert (y = x) as -> by congruence. done. }
  fold full. rewrite (others_split pre i x post E).
  pose proof (picks_length (threshold ctx) nrs 0 0 ltac:(lia)) as Hlen. fold full in Hlen. rewrite E, length_app in Hlen.
  cbn [length] in Hlen.
  pose proof (top_sum_range (pre ++ post)) as Ht. pose proof (bottom_sum_range x (pre ++ post)) as Hb.
  rewrite length_app in Ht, Hb. set (T := top_sum _) in *. set (B := bottom_sum _ _) in *.
  pose proof (Z.mod_pos_bound B 255 ltac:(lia)). rewrite !Z.add_0_l, wrap_id by (unfold in_range; lia).
  split; [apply Z.mod_pos_bound; lia|].
  rewrite Z2Nat.inj_mod by lia. change (Z.to_nat 255) with 255%nat. rewrite e_mod.
  rewrite <- (weight_app gf0 gf1 add gm gfsub gfopp gd gi gf11d). rewrite <- map_app.
  pose proof (weight_logs x (pre ++ post) Hx (others_ok pre i x post E)) as HW. fold T B in HW.
  set (W := gweight _ _) in *.
  assert (EB : e (Z.to_nat (T + (255 - B mod 255))) = gm W gf1).
  { assert (Hc : gm (e (Z.to_nat (T + (255 - B mod 255)))) (e (Z.to_nat B)) = gm W (e (Z.to_nat B))).
    { rewrite HW. rewrite <- (e_mod (Z.to_nat B)).
      replace (Z.to_nat B mod 255)%nat with (Z.to_nat (B mod 255)) by (rewrite Z2Nat.inj_mod by lia; done).
      rewrite <- e_add. replace (Z.to_nat (T + (255 - B mod 255)) + Z.to_nat (B mod 255))%nat with (Z.to_nat T + 255)%nat by lia.
      rewrite e_add, e_255. ring. }
    pose proof (e_nonzero (Z.to_nat B)) as Nz. set (b := e (Z.to_nat B)) in *.
    transitivity (gd (gm (e (Z.to_nat (T + (255 - B mod 255)))) b) b); [field; done|]. rewrite Hc. field. done. }
  rewrite EB. ring.
Qed.

Lemma dec_row_spec li secret share :
  0 <= li < 255 -> bytes share ->
  dec_row li secret share
  = Ok (zip_with (fun s y => Z.lxor s (mul (xpow gfshare_poly (Z.to_nat li) 1) y)) secret share).
Proof.
  intros Hli Hs. revert secret; induction Hs as [|y share Hy _ IH]; intros [|s secret]; cbn [dec_row zip_with]; try done.
  destruct (Z.eqb_spec y 0) as [->|Ny]; cbn [mbind res_bind].
  - rewrite IH. cbn. by rewrite gmul_0_r, Z.lxor_0_r.
  - pose proof (logs_at_range y). rewrite wrap_id by (unfold in_range; lia). rewrite exps_at_xpow by lia.
    cbn [mbind res_bind]. rewrite IH. cbn [mbind res_bind]. do 4 f_equal.
    rewrite <- (xpow_gmul gfshare_poly glog) by done. rewrite <- (xpow_glog gfshare_poly (glog := glog) y) at 2 by done.
    rewrite <- xpow_add. f_equal. unfold glog. lia.
Qed.

Definition byte_at (l : list Z) (p : nat) : Z := default 0 (l !! p).
Definition share_at (i : nat) : list Z := take sz (drop (i * mx) (buffer ctx)).
Abbreviation ginterp := (interp_loop gf0 gf1 add gm gfsub gd).

(** The values the shares hold at position [p] are those of a function of
    their numbers. *)
Context (F : nat -> G -> G).
Context (HF : forall i x p, (i, x) ∈ full -> (p < sz)%nat -> toG (byte_at (share_at (Z.to_nat i)) p) = F p (toG x)).

Lemma share_at_length i : (i < length nrs)%nat -> length (share_at i) = sz.
Proof. intros. unfold share_at. rewrite length_take, length_drop. unfold sz, mx in *. nia. Qed.

Lemma dec_step pre i x post secret :
  full = pre ++ (i, x) :: post -> length secret = sz -> bytes secret ->
  exists s', dec_row (log_li (threshold ctx) i x nrs) secret (share_at (Z.to_nat i)) = Ok s' /\
    length s' = sz /\ bytes s' /\
    forall p, (p < sz)%nat -> toG (byte_at s' p) = add (toG (byte_at secret p))
      (gm (F p (toG x)) (gm (gweight (map (fun q => toG (snd q)) pre) (toG x))
                            (gweight (map (fun q => toG (snd q)) post) (toG x)))).
Proof.
  intros E Hl Hb. assert (Hin : (i, x) ∈ full) by (rewrite E; apply elem_of_app; right; left).
  pose proof (full_spec i x Hin) as (Hi & Hx & Hn). destruct (log_li_spec pre i x post E) as [Hr Hw].
  assert (Hlen : length (share_at (Z.to_nat i)) = sz) by (apply share_at_length; lia).
  assert (Hsb : bytes (share_at (Z.to_nat i))) by (apply Forall_take; by apply Forall_drop).
  rewrite dec_row_spec by done. set (m := xpow gfshare_poly _ 1).
  assert (Hm : is_byte m) by apply xpow1_byte.
  eexists; split; [reflexivity|]. split; [|split].
  - rewrite length_zip_with. lia.
  - apply Forall_lookup. intros p b Hp. apply lookup_zip_with_Some in Hp as (s & y & -> & Hs & Hy).
    pose proof (Forall_lookup_1 _ _ _ _ Hb Hs). pose proof (Forall_lookup_1 _ _ _ _ Hsb Hy).
    apply lxor_range; [lia|done|by apply gmul_byte; [apply poly_range|apply poly_top|]].
  - intros p Hp. destruct (lookup_lt_is_Some_2 secret p ltac:(lia)) as [s Hs].
    destruct (lookup_lt_is_Some_2 (share_at (Z.to_nat i)) p ltac:(lia)) as [y Hy].
    pose proof (Forall_lookup_1 _ _ _ _ Hb Hs). pose proof (Forall_lookup_1 _ _ _ _ Hsb Hy).
    rewrite <- (HF i x p Hin Hp), <- Hw. unfold byte_at. rewrite lookup_zip_with, Hs, Hy.
    change (toG (Z.lxor s (mul m y)) = add (toG s) (gm (toG y) (toG m))).
    rewrite toG_xor, toG_mul by (done || by apply gmul_byte; [apply poly_range|apply poly_top|]). ring.
Qed.

Lemma dec_loop_spec rest : forall i n pre secret,
  full = pre ++ picks (threshold ctx) rest i n -> 0 <= i -> (Z.to_nat i + length rest = length nrs)%nat ->
  length secret = sz -> bytes secret ->
  exists s', dec_loop ctx rest i n secret = Ok s' /\ length s' = sz /\ bytes s' /\
    forall p, (p < sz)%nat -> toG (byte_at s' p) = add (toG (byte_at secret p))
      (ginterp (map (fun q => toG (snd q)) pre) (map (fun q => toG (snd q)) (picks (threshold ctx) rest i n)) (F p)).
Proof.
  induction rest as [|x rest IH]; intros i n pre secret E Hi Hlen Hl Hb; cbn [dec_loop picks] in *.
  { exists secret. split_and!; try done. intros p Hp. cbn. ring. }
  destruct (n <? threshold ctx).
  2: { exists secret. split_and!; try done. intros p Hp. cbn. ring. }
  cbn [length] in Hlen. destruct (Z.eqb_spec x 0); [apply (IH (i + 1) n pre secret); done || lia|].
  rewrite wrap_id by (unfold in_range; nia).
  replace (Z.to_nat (maxsize ctx * i)) with (Z.to_nat i * mx)%nat by (unfold mx; nia).
  rewrite slice_Some by (fold sz; unfold sz, mx in *; nia). cbn [of_option mbind res_bind].
  change (take (Z.to_nat (size ctx)) (drop (Z.to_nat i * mx) (buffer ctx))) with (share_at (Z.to_nat i)).
  destruct (dec_step pre i x _ secret E Hl Hb) as (s1 & H1 & Hl1 & Hb1 & Hp1). fold nrs. rewrite H1. cbn [mbind res_bind].
  destruct (IH (i + 1) (n + 1) (pre ++ [(i, x)]) s1) as (s2 & H2 & Hl2 & Hb2 & Hp2); [by rewrite <- app_assoc|lia|lia|done|done|].
  exists s2. split_and!; [done..|]. intros p Hp. rewrite Hp2, Hp1 by done. rewrite map_app. cbn [map snd interp_loop]. ring.
Qed.

(** Recombination gives the value at 0 of any function that interpolates the
    used shares position by position. *)
Lemma dec_loop_full :
  exists s, dec_loop ctx nrs 0 0 (replicate sz 0) = Ok s /\ length s = sz /\ bytes s /\
    forall p, (p < sz)%nat -> toG (byte_at s p) = ginterp [] (map (fun q => toG (snd q)) full) (F p).
Proof.
  destruct (dec_loop_spec nrs 0 0 [] (replicate sz 0)) as (s & ? & ? & ? & Hp); try done.
  { apply length_replicate. } { by apply Forall_replicate. }
  exists s. split_and!; try done. intros p Hpz. rewrite Hp by done. cbn [map].
  unfold byte_at at 1. rewrite lookup_replicate_2 by done. fold full.
  change (toG (default 0 (Some 0))) with (toG 0).
  assert (E0 : toG 0 = gf0) by by apply gf_eq. rewrite E0. ring.
Qed.
End Decode.

(** ** Filling with random bytes leaves the secret alone *)
Lemma stream_spec key n : forall i ctr acc,
  bytes acc ->
  let '(_, s) := for_ n i (fun i '(ctr, acc) =>
       let '(o0, o1) := speck_encrypt_rng (ctr, 0) key in
       (ctr +64 1, acc ++ le_store 8 o0 ++ le_store 8 o1)) (ctr, acc) in
  length s = (length acc + 16 * n)%nat /\ bytes s.
Proof.
  induction n as [|n IH]; intros i ctr acc Ha; cbn [for_]; [split; [lia|done]|].
  destruct (speck_encrypt_rng (ctr, 0) key) as [o0 o1].
  specialize (IH (i + 1) (ctr +64 1) (acc ++ le_store 8 o0 ++ le_store 8 o1)).
  destruct (for_ n (i + 1) _ _) as [c s]. destruct IH as [H1 H2].
  { repeat apply Forall_app_2; [done|apply le_store_bytes..]. }
  split; [|done]. rewrite H1, !length_app, !le_store_length. lia.
Qed.

Lemma fill_rand_spec seed count b :
  0 <= count < 2 ^ 32 -> count <= Z.of_nat (length b) -> bytes b ->
  exists b', gfshare_fill_rand seed count b = Ok b' /\ length b' = length b /\ bytes b' /\
    forall o n, (Z.to_nat count <= o)%nat -> slice o n b' = slice o n b.
Proof.
  intros Hc Hl Hb. unfold gfshare_fill_rand, generate_block_ctr, BLOCK_SIZE.
  rewrite wrap_id by (unfold in_range; zlia).
  pose proof (stream_spec (le_load (take 8 seed), le_load (take 8 (drop 8 seed))) (Z.to_nat (count / 16)) 0 0 []
    ltac:(constructor)) as H.
  destruct (for_ _ _ _ _) as [c s]. destruct H as [Hs Hsb]. cbn [length] in Hs.
  assert (Hle : Z.of_nat (length s) <= count) by zlia.
  destruct (splice 0 s b) as [b'|] eqn:E.
  2: { rewrite splice_Some in E by lia. done. }
  exists b'. cbn [of_option]. split_and!; [done|by eapply splice_length|by eapply splice_bytes|].
  intros o n Ho. eapply slice_splice_ne; [exact E|]. lia.
Qed.

(** ** Contexts *)
Record ctx_wf (ctx : gfshare_ctx) : Prop := mk_ctx_wf {
  cw_thr : 1 <= threshold ctx <= sharecount ctx;
  cw_count : sharecount ctx <= 255;
  cw_size : 0 < size ctx <= maxsize ctx;
  cw_max : maxsize ctx * 255 < 2 ^ 32;
  cw_nrs : Z.of_nat (length (sharenrs ctx)) = sharecount ctx;
  cw_buf : Z.of_nat (length (buffer ctx)) = sharecount ctx * maxsize ctx;
  cw_bytes : bytes (buffer ctx);
}.

Definition rowslice (ctx : gfshare_ctx) (k : nat) : option (list Z) :=
  slice (k * Z.to_nat (maxsize ctx)) (Z.to_nat (size ctx)) (buffer ctx).

Lemma setsecret_spec seed ctx secret :
  ctx_wf ctx -> bytes secret -> size ctx <= Z.of_nat (length secret) ->
  exists b, gfshare_ctx_enc_setsecret seed ctx secret = Ok (set_buffer b ctx) /\
    ctx_wf (set_buffer b ctx) /\
    rowslice (set_buffer b ctx) (Z.to_nat (threshold ctx) - 1) = Some (take (Z.to_nat (size ctx)) secret).
Proof.
  intros [Ht Hc Hs Hm Hn Hb Hbb] Hsec Hl. unfold gfshare_ctx_enc_setsecret.
  rewrite slice_Some by lia. cbn [of_option mbind res_bind]. change (drop 0 secret) with secret.
  assert (Eo : (threshold ctx -32 1) *32 maxsize ctx = (threshold ctx - 1) * maxsize ctx).
  { rewrite (wrap_id 32 (threshold ctx - 1)) by (unfold in_range; lia). rewrite wrap_id; [done|]. unfold in_range. nia. }
  rewrite Eo. set (src := take _ secret). assert (Hsl : length src = Z.to_nat (size ctx)) by (unfold src; rewrite length_take; lia).
  destruct (splice (Z.to_nat ((threshold ctx - 1) * maxsize ctx)) src (buffer ctx)) as [b1|] eqn:E1.
  2: { rewrite splice_Some in E1 by nia. done. }
  cbn [of_option mbind res_bind]. pose proof (splice_length _ _ _ _ E1) as Hl1.
  destruct (fill_rand_spec seed ((threshold ctx - 1) * maxsize ctx) b1) as (b & -> & Hl2 & Hbb2 & Hsl2).
  { nia. } { rewrite Hl1. nia. } { eapply splice_bytes; [exact E1|by apply Forall_take|done]. }
  cbn [mbind res_bind]. exists b. split; [done|]. split.
  { constructor; try done. cbn. rewrite Hl2, Hl1. done. }
  unfold rowslice. cbn [set_buffer buffer size maxsize].
  replace ((Z.to_nat (threshold ctx) - 1) * Z.to_nat (maxsize ctx))%nat
    with (Z.to_nat ((threshold ctx - 1) * maxsize ctx)) by nia.
  rewrite Hsl2 by done. rewrite <- Hsl. by eapply slice_splice.
Qed.

(** The secret is the constant coefficient. *)
Lemma feval_column_zero ctx p secret :
  ctx_wf ctx -> rowslice ctx (Z.to_nat (threshold ctx) - 1) = Some secret ->
  feval gf0 add gm (map toG (column ctx p (Z.to_nat (threshold ctx)))) gf0 = toG (byte_at secret p).
Proof.
  intros [Ht _ _ _ _ _ _] Hr. unfold column.
  replace (Z.to_nat (threshold ctx)) with (S (Z.to_nat (threshold ctx) - 1)) at 1 by lia.
  rewrite seq_S, !map_app. cbn [map].
  assert (Ha : forall cs acc c, horner add gm acc (cs ++ [c]) gf0 = c).
  { induction cs as [|d cs IH]; intros acc c; cbn; [ring|apply IH]. }
  unfold feval. rewrite Ha. rewrite Nat.add_0_l. unfold byte_at, row. unfold rowslice, slice in Hr. case_decide; [|done].
  injection Hr as <-. done.
Qed.

Definition share_buf (ctx : gfshare_ctx) (s : list Z) : Prop :=
  (Z.to_nat (size ctx) <= length s)%nat /\ bytes s.

#[global] Instance share_buf_dec ctx s : Decision (share_buf ctx s).
Proof. unfold share_buf. apply _. Defined.

Lemma enc_shares_spec ctx nrs : forall shares,
  ctx_wf ctx -> Forall (fun x => is_byte x /\ x <> 0) nrs ->
  length shares = length nrs -> Forall (share_buf ctx) shares ->
  exists shares', enc_shares ctx nrs shares = Ok shares' /\ length shares' = length nrs /\
    Forall2 (fun x s => share_buf ctx s /\
      take (Z.to_nat (size ctx)) s = share_row ctx x (Z.to_nat (threshold ctx))) nrs shares'.
Proof.
  intros shares Hwf Hn. pose proof Hwf as [Ht Hc Hs Hm Hnr Hb Hbb]. revert shares.
  induction Hn as [|x nrs [Hx Nx] _ IH]; intros [|s shares] Hl Hsh; try done.
  { exists []. cbn. split_and!; [done|done|constructor]. }
  inversion Hsh as [|? ? [Hls Hbs] Hsh']; subst. injection Hl as Hl. cbn [enc_shares].
  rewrite enc_share_spec by (done || lia || nia). cbn [mbind res_bind].
  set (r := share_row ctx x _). assert (Hr : length r = Z.to_nat (size ctx)) by apply share_row_length.
  destruct (splice 0 r s) as [s'|] eqn:E; [|rewrite splice_Some in E by lia; done].
  cbn [of_option mbind res_bind]. destruct (IH shares Hl Hsh') as (shares' & -> & Hl' & HF). cbn [mbind res_bind].
  exists (s' :: shares'). split_and!; [done|cbn; lia|]. constructor; [|done]. split; [split|].
  - rewrite (splice_length _ _ _ _ E). done.
  - eapply splice_bytes; [exact E| |done]. apply share_row_bytes; done || nia.
  - pose proof (slice_splice _ _ _ _ E) as Hsl. unfold slice in Hsl. case_decide; [|done]. injection Hsl as Hsl.
    rewrite <- Hr. exact Hsl.
Qed.

(** Copying the shares into the rows of a decoding context. *)
Lemma copy_shares_spec n : forall ctx shares i,
  ctx_wf ctx -> Z.of_nat (i + n) <= sharecount ctx -> (i + n <= length shares)%nat ->
  Forall (share_buf ctx) shares ->
  exists b, copy_shares ctx shares n (Z.of_nat i) = Ok (set_buffer b ctx) /\ ctx_wf (set_buffer b ctx) /\
    forall k, rowslice (set_buffer b ctx) k =
      if decide (i <= k < i + n)%nat then take (Z.to_nat (size ctx)) <$> shares !! k else rowslice ctx k.
Proof.
  induction n as [|n IH]; intros ctx shares i Hwf Hle Hls Hsh; cbn [copy_shares].
  { exists (buffer ctx). replace (set_buffer (buffer ctx) ctx) with ctx by (by destruct ctx).
    split; [done|]. split; [done|]. intros k. by rewrite decide_False by lia. }
  pose proof Hwf as [Ht Hc Hs Hm Hnr Hb Hbb].
  destruct (lookup_lt_is_Some_2 shares i ltac:(lia)) as [s Hsi]. rewrite Nat2Z.id, Hsi. cbn [of_option mbind res_bind].
  pose proof (Forall_lookup_1 _ _ _ _ Hsh Hsi) as [Hsl Hsb]. rewrite slice_Some by lia. cbn [of_option mbind res_bind].
  change (drop 0 s) with s. set (r := take _ s). assert (Hr : length r = Z.to_nat (size ctx)) by (unfold r; rewrite length_take; lia).
  rewrite wrap_id by (unfold in_range; nia).
  replace (Z.to_nat (Z.of_nat i * maxsize ctx)) with (i * Z.to_nat (maxsize ctx))%nat by nia.
  destruct (splice (i * Z.to_nat (maxsize ctx)) r (buffer ctx)) as [b|] eqn:E; [|rewrite splice_Some in E by nia; done].
  cbn [of_option mbind res_bind].
  assert (Hwf' : ctx_wf (set_buffer b ctx)).
  { constructor; try done; cbn; [rewrite (splice_length _ _ _ _ E); done|].
    eapply splice_bytes; [exact E|by apply Forall_take|done]. }
  replace (Z.of_nat i + 1) with (Z.of_nat (S i)) by lia.
  destruct (IH (set_buffer b ctx) shares (S i) Hwf') as (b' & Hcp & Hwf2 & Hrows); [cbn; lia|lia|done|].
  exists b'. split_and!; [done|done|]. intros k.
  change (set_buffer b' (set_buffer b ctx)) with (set_buffer b' ctx) in Hrows. rewrite Hrows.
  destruct (decide (k = i)) as [->|Hne].
  - rewrite decide_False, decide_True by lia. rewrite Hsi. unfold rowslice. cbn [set_buffer buffer size maxsize fmap option_fmap option_map].
    change (slice (i * Z.to_nat (maxsize ctx)) (Z.to_nat (size ctx)) b = Some r).
    rewrite <- Hr. by eapply slice_splice.
  - destruct (decide (S i <= k < S i + n)%nat); destruct (decide (i <= k < i + S n)%nat); try lia; try done.
    unfold rowslice. cbn [set_buffer buffer size maxsize]. eapply slice_splice_ne; [exact E|]. nia.
Qed.

(** The share numbers given to the decoder: those of the encoder, with 0 for
    a share that is missing. *)
Definition available (nrs nrs' : list Z) : Prop := Forall2 (fun x x' => x' = x \/ x' = 0) nrs nrs'.

Lemma available_lookup nrs nrs' i x :
  available nrs nrs' -> nrs' !! i = Some x -> x <> 0 -> nrs !! i = Some x.
Proof.
  intros Ha Hi Hn. destruct (Forall2_lookup_r _ _ _ _ _ Ha Hi) as (y & Hy & [->| ->]); done.
Qed.

Lemma picked_nodup thr nrs nrs' :
  NoDup nrs -> available nrs nrs' -> NoDup (map snd (picks thr nrs' 0 0)).
Proof.
  intros Hnd Ha. apply NoDup_alt. intros a b x Hx Hy.
  apply list_lookup_fmap_Some in Hx as ([i x1] & -> & Hi). apply list_lookup_fmap_Some in Hy as ([j x2] & E & Hj).
  cbn in E. subst x2. pose proof (picks_nodup thr nrs' 0 0) as [Hf _].
  assert (Hi' := list_elem_of_lookup_2 _ _ _ Hi). assert (Hj' := list_elem_of_lookup_2 _ _ _ Hj).
  apply picks_spec in Hi' as (? & Hi' & Hn). apply picks_spec in Hj' as (? & Hj' & _).
  rewrite Z.sub_0_r in Hi', Hj'. apply (available_lookup nrs) in Hi'; [|done|done]. apply (available_lookup nrs) in Hj'; [|done|done].
  assert (Eij : Z.to_nat i = Z.to_nat j) by exact (NoDup_lookup nrs _ _ x1 Hnd Hi' Hj').
  assert (i = j) as -> by lia.
  apply (NoDup_lookup (map fst (picks thr nrs' 0 0)) a b j Hf); apply list_lookup_fmap_Some.
  - by exists (j, x1).
  - by exists (j, x1).
Qed.

Lemma share_byte_feval ctx x p :
  ctx_wf ctx -> is_byte x ->
  toG (share_byte ctx x (Z.to_nat (threshold ctx)) p)
  = feval gf0 add gm (map toG (column ctx p (Z.to_nat (threshold ctx)))) (toG x).
Proof.
  intros [_ _ _ _ _ _ Hb] Hx. unfold share_byte. rewrite hornerz_feval by (done || by apply column_bytes).
  unfold feval. f_equal. by apply gf_eq.
Qed.

(** Recombining the rows of a context that holds enough shares of [ectx]. *)
Lemma extract_spec ectx ctx nrs secret secretbuf :
  ctx_wf ectx -> rowslice ectx (Z.to_nat (threshold ectx) - 1) = Some secret ->
  ctx_wf ctx -> threshold ctx = threshold ectx -> size ctx = size ectx ->
  bytes nrs -> NoDup nrs -> available nrs (sharenrs ctx) ->
  threshold ctx <= Z.of_nat (length (filter (fun x => x <> 0) (sharenrs ctx))) ->
  (forall i x, sharenrs ctx !! i = Some x -> x <> 0 ->
     rowslice ctx i = Some (share_row ectx x (Z.to_nat (threshold ectx)))) ->
  size ctx <= Z.of_nat (length secretbuf) ->
  gfshare_ctx_dec_extract ctx secretbuf = Ok (secret ++ drop (Z.to_nat (size ctx)) secretbuf).
Proof.
  intros Hwe Hsec Hwf Et Es Hnb Hnd Hav Hen Hrows Hsb. pose proof Hwf as [Ht Hc Hs Hm Hn Hb Hbb].
  assert (Hnb' : bytes (sharenrs ctx)).
  { apply Forall_lookup. intros i x Hx. destruct (Forall2_lookup_r _ _ _ _ _ Hav Hx) as (y & Hy & [->| ->]); [|done].
    exact (Forall_lookup_1 _ _ _ _ Hnb Hy). }
  set (F := fun p => feval gf0 add gm (map toG (column ectx p (Z.to_nat (threshold ectx))))).
  destruct (dec_loop_full ctx ltac:(lia) ltac:(lia) Hm ltac:(lia) ltac:(nia) Hbb Hnb'
    (picked_nodup _ _ _ Hnd Hav) F) as (s & Hdec & Hsl & Hsbytes & Hval).
  { intros i x p Hin Hp. apply picks_spec in Hin as (Hi & Hl & Nx). rewrite Z.sub_0_r in Hl.
    pose proof (Forall_lookup_1 _ _ _ _ Hnb' Hl) as Hx. specialize (Hrows _ _ Hl Nx). unfold rowslice, slice in Hrows.
    case_decide; [|done]. injection Hrows as Hrow. unfold share_at. rewrite Hrow. unfold byte_at, share_row.
    rewrite list_lookup_fmap, lookup_seq_lt by (rewrite <- Es; done). by apply share_byte_feval. }
  assert (Hslen : length secret = Z.to_nat (size ctx)) by (apply slice_length in Hsec; by rewrite Es).
  assert (Hsecb : bytes secret).
  { unfold rowslice, slice in Hsec. case_decide; [|done]. injection Hsec as <-. apply Forall_take, Forall_drop. apply Hwe. }
  assert (E : s = secret).
  { apply list_eq. intros p. destruct (decide (p < Z.to_nat (size ctx))%nat) as [Hp|Hp].
    2: { rewrite !lookup_ge_None_2 by lia. done. }
    destruct (lookup_lt_is_Some_2 s p ltac:(lia)) as [a Ha]. destruct (lookup_lt_is_Some_2 secret p ltac:(lia)) as [b Hb'].
    rewrite Ha, Hb'. f_equal. apply toG_inj; [exact (Forall_lookup_1 _ _ _ _ Hsbytes Ha)|exact (Forall_lookup_1 _ _ _ _ Hsecb Hb')|].
    specialize (Hval p Hp). unfold byte_at at 1 in Hval. rewrite Ha in Hval. cbn [default] in Hval. unfold id in Hval. 
    assert (Hb0 : toG b = toG (byte_at secret p)) by (unfold byte_at; by rewrite Hb'). rewrite Hb0.
    rewrite <- (feval_column_zero ectx p secret Hwe Hsec). etransitivity; [exact Hval|].
    apply (lagrange_at_zero gf0 gf1 add gm gfsub gfopp gd gi gf11d).
    - rewrite <- map_map. apply NoDup_fmap_2_strong; [|by eapply picked_nodup].
      intros x y Hx Hy Exy. apply list_elem_of_fmap_1 in Hx as ([i x'] & -> & Hx). apply list_elem_of_fmap_1 in Hy as ([j y'] & -> & Hy).
      apply picks_spec in Hx as (_ & Hx & _). apply picks_spec in Hy as (_ & Hy & _).
      eapply toG_inj; [exact (Forall_lookup_1 _ _ _ _ Hnb' Hx)|exact (Forall_lookup_1 _ _ _ _ Hnb' Hy)|done].
    - unfold column. rewrite !length_map, length_seq. pose proof (picks_enough (threshold ctx) (sharenrs ctx) 0 0). lia. }
  unfold gfshare_ctx_dec_extract. rewrite Hdec, E. cbn [mbind res_bind]. rewrite splice_Some by lia. cbn [of_option].
  rewrite take_0, Nat.add_0_l, Hslen. done.
Qed.

(** C12: Shamir secret sharing recovers the secret. Splitting succeeds, and
    for whatever random coefficients were drawn, any [threshold] or more of
    the shares (the missing ones marked by share number 0, their buffers
    holding anything) recombine to the secret, with no table or buffer access
    out of range. *)
Theorem shamir_roundtrip seed ctx secret shares dctx :
  ctx_wf ctx -> Forall (fun x => is_byte x /\ x <> 0) (sharenrs ctx) -> NoDup (sharenrs ctx) ->
  bytes secret -> size ctx <= Z.of_nat (length secret) ->
  length shares = length (sharenrs ctx) -> Forall (share_buf ctx) shares ->
  ctx_wf dctx -> sharecount dctx = sharecount ctx -> threshold dctx = threshold ctx ->
  size dctx = size ctx -> maxsize dctx = maxsize ctx ->
  exists ctx' shares', gfshare_ctx_enc_getshares seed ctx secret shares = Ok (0, ctx', shares') /\
    forall nrs' sh secretbuf,
      available (sharenrs ctx) nrs' -> length sh = length shares' -> Forall (share_buf ctx) sh ->
      (forall i x, nrs' !! i = Some x -> x <> 0 -> sh !! i = shares' !! i) ->
      threshold ctx <= Z.of_nat (length (filter (fun x => x <> 0) nrs')) ->
      size ctx <= Z.of_nat (length secretbuf) ->
      exists dctx', gfshare_ctx_dec_decode dctx nrs' sh secretbuf
        = Ok (dctx', take (Z.to_nat (size ctx)) secret ++ drop (Z.to_nat (size ctx)) secretbuf).
Proof.
  intros Hwf Hnrs Hnd Hsec Hsl Hshl Hsh Hwd Ec Et Es Em.
  destruct (setsecret_spec seed ctx secret Hwf Hsec Hsl) as (b & Hset & Hwe & Hrow).
  destruct (enc_shares_spec (set_buffer b ctx) (sharenrs ctx) shares Hwe Hnrs Hshl Hsh) as (shares' & Henc & Hl' & HF).
  exists (set_buffer b ctx), shares'. split.
  { unfold gfshare_ctx_enc_getshares. rewrite Hset. cbn [mbind res_bind].
    change (sharenrs (set_buffer b ctx)) with (sharenrs ctx). change (sharecount (set_buffer b ctx)) with (sharecount ctx).
    rewrite take_ge by (pose proof (cw_nrs _ Hwf); lia). rewrite Henc. done. }
  intros nrs' sh secretbuf Hav Hlsh Hshok Hsame Hen Hbuf. pose proof (Forall2_length _ _ _ Hav) as Hln.
  pose proof Hwd as [Ht Hc Hs Hm Hn Hb Hbb]. pose proof (cw_nrs _ Hwf) as Hn0.
  unfold gfshare_ctx_dec_decode, gfshare_ctx_dec_newshares. rewrite slice_Some by lia.
  cbn [of_option mbind res_bind]. change (drop 0 nrs') with nrs'. rewrite take_ge by lia.
  assert (Hwd1 : ctx_wf (set_sharenrs nrs' dctx)) by (constructor; try done; cbn; lia).
  destruct (copy_shares_spec (Z.to_nat (sharecount dctx)) (set_sharenrs nrs' dctx) sh 0 Hwd1) as (b' & Hcp & Hwd2 & Hrows).
  { cbn. lia. } { lia. } { unfold share_buf. cbn [set_sharenrs size]. by rewrite Es. }
  change (Z.of_nat 0) with 0 in Hcp. change (sharecount (set_sharenrs nrs' dctx)) with (sharecount dctx).
  rewrite Hcp. cbn [mbind res_bind]. set (dc := set_buffer b' (set_sharenrs nrs' dctx)) in *.
  rewrite (extract_spec (set_buffer b ctx) dc (sharenrs ctx) (take (Z.to_nat (size ctx)) secret) secretbuf); try done.
  - cbn [mbind res_bind]. change (size dc) with (size dctx). rewrite Es. by eexists.
  - eapply Forall_impl; [exact Hnrs|]. by intros x [? _].
  - change (threshold dctx <= Z.of_nat (length (filter (fun x => x <> 0) nrs'))). lia.
  - intros i x Hx Nx. change (nrs' !! i = Some x) in Hx. rewrite Hrows.
    pose proof (lookup_lt_Some _ _ _ Hx). rewrite decide_True by lia. rewrite (Hsame i x Hx Nx).
    pose proof (available_lookup _ _ _ _ Hav Hx Nx) as Hx0.
    destruct (Forall2_lookup_l _ _ _ _ _ HF Hx0) as (s & Hs' & _ & Htk). rewrite Hs'.
    change (size (set_sharenrs nrs' dctx)) with (size dctx). rewrite Es.
    change (size (set_buffer b ctx)) with (size ctx) in Htk. change (threshold (set_buffer b ctx)) with (threshold ctx) in Htk |- *.
    cbn [fmap option_fmap option_map]. by rewrite Htk.
  - change (size dctx <= Z.of_nat (length secretbuf)). lia.
Qed.

(** Four shares of 16 bytes with threshold 2, of which the second and the
    fourth are used. *)
Definition small_share_ctx : gfshare_ctx :=
  {| sharecount := 4; threshold := 2; maxsize := 16; size := 16; sharenrs := [1; 2; 3; 4]; buffer := replicate 64 0xa5 |}.

Lemma small_share_ctx_wf : ctx_wf small_share_ctx.
Proof.
  constructor; cbn [small_share_ctx sharecount threshold maxsize size sharenrs buffer]; try (cbn; lia).
  by apply (bool_decide_unpack _); vm_compute.
Qed.

Lemma shamir_roundtrip_witness :
  exists ctx' shares' dctx',
    gfshare_ctx_enc_getshares (seqZ 1 16) small_share_ctx (seqZ 100 16) (replicate 4 (replicate 16 0)) = Ok (0, ctx', shares') /\
    gfshare_ctx_dec_decode small_share_ctx [0; 2; 0; 4] shares' (replicate 16 9) = Ok (dctx', seqZ 100 16).
Proof.
  destruct (shamir_roundtrip (seqZ 1 16) small_share_ctx (seqZ 100 16) (replicate 4 (replicate 16 0)) small_share_ctx
    small_share_ctx_wf ltac:(by apply (bool_decide_unpack _); vm_compute) ltac:(by apply (bool_decide_unpack _); vm_compute)
    ltac:(by apply (bool_decide_unpack _); vm_compute) ltac:(vm_compute; discriminate) eq_refl
    ltac:(apply Forall_replicate; split; [cbn; lia|by apply (bool_decide_unpack _); vm_compute])
    small_share_ctx_wf eq_refl eq_refl eq_refl eq_refl) as (ctx' & shares' & He & Hd).
  destruct (Hd [0; 2; 0; 4] shares' (replicate 16 9)) as (dctx' & Hdec).
  - unfold available. by apply (bool_decide_unpack _); vm_compute.
  - reflexivity.
  - vm_compute in He. injection He as _ <-. by apply (bool_decide_unpack _); vm_compute.
  - reflexivity.
  - vm_compute. discriminate.
  - vm_compute. discriminate.
  - exists ctx', shares', dctx'. split; [exact He|exact Hdec].
Defined.
