(* ===== verification/CauchyGf.v ===== *)
(** * CauchyGf: GF(2^8) tables (src/lib/cauchy_rs.c, include/lib/cauchy_rs.h)

    The initialisation of the global [gf_ctx] for the configuration the
    Makefile selects (x86, no AVX2, no ARM) and the inline accessors of the
    header. Theorem: the tables are those of GF(2^8) modulo 0x14d. *)
From stdpp Require Import base tactics option list numbers gmap.
From Stdlib Require Import ZArith Lia Ring Field.
From S2P Require Import Prelude Galois.

Local Open Scope Z_scope.
Local Open Scope afs_scope.

(** ** The context *)
Record gf_ctx := mk_gf_ctx {
  TABLE_LO_Y : list (list Z);
  TABLE_HI_Y : list (list Z);
  GF_MUL_TABLE : list Z;
  GF_DIV_TABLE : list Z;
  GF_INV_TABLE : list Z;
  GF_SQR_TABLE : list Z;
  GF_LOG_TABLE : list Z;
  GF_EXP_TABLE : list Z;
  Polynomial : Z;
}.

(** The context before [gf_init]: static storage, all zero. *)
Definition zero_ctx : gf_ctx :=
  {| TABLE_LO_Y := replicate 256 (replicate 16 0); TABLE_HI_Y := replicate 256 (replicate 16 0);
     GF_MUL_TABLE := replicate 65536 0; GF_DIV_TABLE := replicate 65536 0;
     GF_INV_TABLE := replicate 256 0; GF_SQR_TABLE := replicate 256 0;
     GF_LOG_TABLE := replicate 256 0; GF_EXP_TABLE := replicate 1025 0; Polynomial := 0 |}.

Definition GF_GEN_POLY : list Z :=
  [0x8e; 0x95; 0x96; 0xa6; 0xaf; 0xb1; 0xb2; 0xb4; 0xb8; 0xc3; 0xc6; 0xd4; 0xe1; 0xe7; 0xf3; 0xfa].
Definition GF_GEN_POLY_COUNT : Z := 16.
Definition kDefaultPolynomialIndex : Z := 3.

Definition gf_poly_init (polynomialIndex : Z) : Z :=
  let i := if (polynomialIndex <? 0) || (polynomialIndex >=? GF_GEN_POLY_COUNT)
           then kDefaultPolynomialIndex else polynomialIndex in
  Z.lor (Z.shiftl (tab GF_GEN_POLY i) 1) 1.

(** The exponential and logarithm tables. *)
Definition gf_explog_init (poly : Z) (exptab logtab : list Z) : list Z * list Z :=
  let logtab := <[0%nat := 512]> logtab in
  let exptab := <[0%nat := 1]> exptab in
  let '(exptab, logtab) := for_ 254 1 (fun jj '(exptab, logtab) =>
      let next := tab exptab (jj - 1) * 2 in
      let next := if next >=? 256 then next xor poly else next in
      (<[Z.to_nat jj := u8 next]> exptab, <[Z.to_nat (u8 next) := jj]> logtab)) (exptab, logtab) in
  let exptab := <[255%nat := tab exptab 0]> exptab in
  let logtab := <[Z.to_nat (tab exptab 255) := 255]> logtab in
  let exptab := for_ (510 - 256) 256 (fun jj exptab => <[Z.to_nat jj := tab exptab (jj mod 255)]> exptab) exptab in
  let exptab := <[510%nat := 1]> exptab in
  let exptab := for_ (1020 - 511) 511 (fun jj exptab => <[Z.to_nat jj := 0]> exptab) exptab in
  (exptab, logtab).

(** Row [y] of the multiplication and division tables. *)
Definition mul_row (exptab logtab : list Z) (y : Z) : list Z :=
  if y =? 0 then replicate 256 0 else
  let log_y := u8 (tab logtab y) in
  0 :: map (fun x => tab exptab (tab logtab x + log_y)) (seqZ 1 255).

Definition div_row (exptab logtab : list Z) (y : Z) : list Z :=
  if y =? 0 then replicate 256 0 else
  let log_yn := u8 (255 - u8 (tab logtab y)) in
  0 :: map (fun x => tab exptab (tab logtab x + log_yn)) (seqZ 1 255).

Definition gf_muldiv_init (exptab logtab : list Z) : list Z * list Z :=
  (concat (map (mul_row exptab logtab) (seqZ 0 256)), concat (map (div_row exptab logtab) (seqZ 0 256))).

(** The inline accessors of cauchy_rs.h. *)
Definition gf_add (x y : Z) : Z := x xor y.
Definition gf_mul (c : gf_ctx) (x y : Z) : Z := tab (GF_MUL_TABLE c) (Z.shiftl y 8 + x).
Definition gf_div (c : gf_ctx) (x y : Z) : Z := tab (GF_DIV_TABLE c) (Z.shiftl y 8 + x).
Definition gf_inv (c : gf_ctx) (x : Z) : Z := tab (GF_INV_TABLE c) x.
Definition gf_sqr (c : gf_ctx) (x : Z) : Z := tab (GF_SQR_TABLE c) x.

Definition gf_inv_init (c : gf_ctx) : list Z := map (fun x => gf_div c 1 x) (seqZ 0 256).
Definition gf_sqr_init (c : gf_ctx) : list Z := map (fun x => gf_mul c x x) (seqZ 0 256).

(** The nibble tables of row [y]. *)
Definition gf_mul_mem_init (c : gf_ctx) : list (list Z) * list (list Z) :=
  (map (fun y => map (fun x => gf_mul c x y) (seqZ 0 16)) (seqZ 0 256),
   map (fun y => map (fun x => gf_mul c (Z.shiftl x 4) y) (seqZ 0 16)) (seqZ 0 256)).

(** The bytes of [kLittleEndianTestData] read as an integer of the platform,
    which is little-endian. *)
Definition IsLittleEndian : bool := 0x01020304 =? le_load [4; 3; 2; 1].

(** [Initialized] and the context. *)
Definition gf_init (initialized : bool) (c : gf_ctx) : Z * bool * gf_ctx :=
  if initialized then (0, true, c) else
  if negb IsLittleEndian then (-2, true, c) else
  let poly := gf_poly_init kDefaultPolynomialIndex in
  let '(exptab, logtab) := gf_explog_init poly (GF_EXP_TABLE c) (GF_LOG_TABLE c) in
  let '(m, d) := gf_muldiv_init exptab logtab in
  let c1 := mk_gf_ctx (TABLE_LO_Y c) (TABLE_HI_Y c) m d (GF_INV_TABLE c) (GF_SQR_TABLE c) logtab exptab poly in
  let c2 := mk_gf_ctx (TABLE_LO_Y c) (TABLE_HI_Y c) m d (gf_inv_init c1) (gf_sqr_init c1) logtab exptab poly in
  let '(lo, hi) := gf_mul_mem_init c2 in
  (0, true, mk_gf_ctx lo hi m d (gf_inv_init c1) (gf_sqr_init c1) logtab exptab poly).

Definition cauchy_init := gf_init.

(** ** The tables are those of GF(2^8) modulo 0x14d *)
Definition cauchy_poly : Z := gf_poly_init kDefaultPolynomialIndex.
Definition explog : list Z * list Z := Eval vm_compute in gf_explog_init cauchy_poly (replicate 1025 0) (replicate 256 0).
Definition clog (a : Z) : nat := (Z.to_nat (tab (snd explog) a) mod 255)%nat.

Lemma explog_init : gf_explog_init cauchy_poly (replicate 1025 0) (replicate 256 0) = explog.
Proof. vm_compute. reflexivity. Qed.

Lemma cpoly_range : in_range 9 cauchy_poly.
Proof. done. Qed.
Lemma cpoly_top : Z.testbit cauchy_poly 8 = true.
Proof. done. Qed.

Lemma exp_xpow k : 0 <= k <= 510 -> tab (fst explog) k = xpow cauchy_poly (Z.to_nat k) 1.
Proof.
  assert (H : forallb (fun k => tab (fst explog) (Z.of_nat (S k)) =? xtime cauchy_poly (tab (fst explog) (Z.of_nat k)))
                (seq 0 510) = true) by (vm_compute; reflexivity).
  intros Hk. rewrite <- (Z2Nat.id k) at 1 by lia. assert (Hn : (Z.to_nat k <= 510)%nat) by lia.
  induction (Z.to_nat k) as [|n IH]; [done|]. rewrite (proj1 (Z.eqb_eq _ _) (nat_forall _ _ H n ltac:(lia))).
  rewrite IH by lia. done.
Qed.

Lemma log_range a : is_byte a -> a <> 0 -> 1 <= tab (snd explog) a <= 255.
Proof.
  intros Ha Na.
  assert (H : forallb (fun a => (a =? 0) || ((1 <=? tab (snd explog) a) && (tab (snd explog) a <=? 255)))
                (seqZ 0 256) = true) by (vm_compute; reflexivity).
  pose proof (byte_forall _ H a Ha) as E. cbn beta in E. rewrite (proj2 (Z.eqb_neq a 0) Na), orb_false_l in E.
  apply andb_true_iff in E as [E1 E2]. lia.
Qed.

#[global] Instance cauchy_primitive : Primitive cauchy_poly clog.
Proof.
  constructor.
  - intros a _ _. unfold clog. apply Nat.mod_upper_bound. lia.
  - intros a Ha Hn.
    assert (H : forallb (fun a => (a =? 0) || (tab (fst explog) (Z.of_nat (clog a)) =? a)) (seqZ 0 256) = true)
      by (vm_compute; reflexivity).
    pose proof (byte_forall _ H a Ha) as E. cbn beta in E. rewrite (proj2 (Z.eqb_neq a 0) Hn), orb_false_l in E.
    apply Z.eqb_eq in E. assert (clog a < 255)%nat by (unfold clog; apply Nat.mod_upper_bound; lia).
    rewrite exp_xpow, Nat2Z.id in E by lia. done.
  - intros k Hk.
    assert (H : forallb (fun k => (clog (tab (fst explog) (Z.of_nat k)) =? k)%nat) (seq 0 255) = true)
      by (vm_compute; reflexivity).
    pose proof (nat_forall _ _ H k Hk) as E. cbn beta in E. apply Nat.eqb_eq in E.
    rewrite exp_xpow, Nat2Z.id in E by lia. done.
  - vm_compute. reflexivity.
Qed.

Abbreviation cmul := (gmul cauchy_poly clog).
Abbreviation cinv := (ginv cauchy_poly clog).

(** The context after initialisation. *)
Definition ready_ctx : gf_ctx := snd (gf_init false zero_ctx).

Lemma concat_lookup {A} (ls : list (list A)) n i j :
  Forall (fun l => length l = n) ls -> (j < n)%nat -> concat ls !! (i * n + j)%nat = ls !! i ≫= (fun l => l !! j).
Proof.
  intros H Hj. revert i; induction H as [|l ls Hl _ IH]; intros i; cbn [concat]; [done|].
  destruct i as [|i].
  - rewrite lookup_app_l by lia. done.
  - rewrite lookup_app_r by lia. rewrite Hl. replace (S i * n + j - n)%nat with (i * n + j)%nat by lia. apply IH.
Qed.

Lemma lookup_seqZ_map {A} (f : Z -> A) m n k : (k < Z.to_nat n)%nat -> map f (seqZ m n) !! k = Some (f (m + Z.of_nat k)).
Proof.
  intros Hk. rewrite list_lookup_fmap. rewrite lookup_seqZ_lt by lia. done.
Qed.

Lemma row_table (row : Z -> list Z) x y :
  (forall y, length (row y) = 256%nat) -> is_byte x -> is_byte y ->
  tab (concat (map row (seqZ 0 256))) (Z.shiftl y 8 + x) = tab (row y) x.
Proof.
  intros Hr Hx Hy. unfold is_byte, in_range in *. unfold tab. rewrite Z.shiftl_mul_pow2 by lia.
  replace (Z.to_nat (y * 2 ^ 8 + x)) with (Z.to_nat y * 256 + Z.to_nat x)%nat by lia.
  rewrite concat_lookup; [|apply Forall_map, Forall_forall; intros; apply Hr|lia].
  rewrite lookup_seqZ_map by lia. cbn. by rewrite Z2Nat.id by lia.
Qed.

Lemma mul_row_spec x y : is_byte x -> is_byte y ->
  tab (mul_row (fst explog) (snd explog) y) x = cmul x y.
Proof.
  intros Hx Hy. unfold mul_row. destruct (Z.eqb_spec y 0) as [->|Ny].
  { rewrite gmul_0_r. unfold tab. destruct (replicate 256 0 !! Z.to_nat x) eqn:E; [|done].
    by apply lookup_replicate in E as [-> _]. }
  pose proof (log_range y Hy Ny). rewrite (wrap_id 8) by (unfold in_range; lia).
  destruct (decide (x = 0)) as [->|Nx]; [done|]. pose proof (log_range x Hx Nx).
  unfold is_byte, in_range in Hx. unfold tab at 1. replace (Z.to_nat x) with (S (Z.to_nat (x - 1))) by lia.
  change ((0 :: ?l) !! S ?k) with (l !! k). rewrite lookup_seqZ_map by lia. cbn [default].
  rewrite Z2Nat.id by lia. replace (1 + (x - 1)) with x by lia. unfold id. rewrite exp_xpow by lia.
  rewrite (gmul_log cauchy_poly clog) by done. unfold clog.
  rewrite <- (xpow_mod cauchy_poly clog (Z.to_nat _)) by done.
  rewrite <- (xpow_mod cauchy_poly clog (_ + _)) by done. rewrite <- Nat.Div0.add_mod. f_equal. f_equal. lia.
Qed.

Lemma div_row_spec x y : is_byte x -> is_byte y -> y <> 0 ->
  tab (div_row (fst explog) (snd explog) y) x = cmul x (cinv y).
Proof.
  intros Hx Hy Ny. unfold div_row. destruct (Z.eqb_spec y 0) as [|_]; [done|].
  pose proof (log_range y Hy Ny). rewrite (wrap_id 8 (tab (snd explog) y)), (wrap_id 8) by (unfold in_range; lia).
  destruct (decide (x = 0)) as [->|Nx]; [done|]. pose proof (log_range x Hx Nx).
  unfold is_byte, in_range in Hx. unfold tab at 1. replace (Z.to_nat x) with (S (Z.to_nat (x - 1))) by lia.
  change ((0 :: ?l) !! S ?k) with (l !! k). rewrite lookup_seqZ_map by lia. cbn [default].
  rewrite Z2Nat.id by lia. replace (1 + (x - 1)) with x by lia. unfold id. rewrite exp_xpow by lia.
  unfold gmul. destruct (Z.eqb_spec x 0); [done|]. unfold ginv. rewrite <- xpow_add.
  rewrite <- (xpow_mod cauchy_poly clog (Z.to_nat _)) by done.
  rewrite <- (xpow_mod cauchy_poly clog (_ + _)) by done. f_equal. unfold clog.
  assert (Hy' : (Z.to_nat (tab (snd explog) y) = 255 \/ Z.to_nat (tab (snd explog) y) < 255)%nat) by lia.
  destruct Hy' as [E|Hlt].
  - rewrite E, Nat.Div0.mod_same, Nat.sub_0_r.
    replace (Z.to_nat (tab (snd explog) x + (255 - tab (snd explog) y))) with (Z.to_nat (tab (snd explog) x)) by lia.
    rewrite (Nat.Div0.add_mod _ 255 255), Nat.Div0.mod_same, Nat.add_0_r, !Nat.Div0.mod_mod. done.
  - rewrite (Nat.mod_small (Z.to_nat (tab (snd explog) y))) by lia. rewrite Nat.Div0.add_mod_idemp_l. f_equal. lia.
Qed.

Lemma ready_tables :
  GF_MUL_TABLE ready_ctx = concat (map (mul_row (fst explog) (snd explog)) (seqZ 0 256)) /\
  GF_DIV_TABLE ready_ctx = concat (map (div_row (fst explog) (snd explog)) (seqZ 0 256)) /\
  GF_INV_TABLE ready_ctx = map (fun x => gf_div ready_ctx 1 x) (seqZ 0 256) /\
  TABLE_LO_Y ready_ctx = map (fun y => map (fun x => gf_mul ready_ctx x y) (seqZ 0 16)) (seqZ 0 256) /\
  TABLE_HI_Y ready_ctx = map (fun y => map (fun x => gf_mul ready_ctx (Z.shiftl x 4) y) (seqZ 0 16)) (seqZ 0 256).
Proof.
  unfold ready_ctx, gf_init. change (negb IsLittleEndian) with false. cbn [GF_EXP_TABLE GF_LOG_TABLE zero_ctx]. fold cauchy_poly. rewrite explog_init.
  destruct explog as [et lt]. unfold gf_muldiv_init. cbn [fst snd].
  generalize (concat (map (mul_row et lt) (seqZ 0 256))) as m.
  generalize (concat (map (div_row et lt) (seqZ 0 256))) as d. intros d m.
  unfold gf_inv_init, gf_mul_mem_init, gf_mul, gf_div. cbn [GF_MUL_TABLE GF_DIV_TABLE GF_INV_TABLE TABLE_LO_Y TABLE_HI_Y snd].
  done.
Qed.

Lemma mul_row_length et lt y : length (mul_row et lt y) = 256%nat.
Proof. unfold mul_row. destruct (y =? 0); [apply length_replicate|]. cbn [length]. by rewrite length_map, length_seqZ. Qed.
Lemma div_row_length et lt y : length (div_row et lt y) = 256%nat.
Proof. unfold div_row. destruct (y =? 0); [apply length_replicate|]. cbn [length]. by rewrite length_map, length_seqZ. Qed.

Lemma gf_mul_spec x y : is_byte x -> is_byte y -> gf_mul ready_ctx x y = cmul x y.
Proof.
  intros. unfold gf_mul. destruct ready_tables as (-> & _).
  rewrite row_table by (done || apply mul_row_length). by apply mul_row_spec.
Qed.

Lemma gf_div_spec x y : is_byte x -> is_byte y -> y <> 0 -> gf_div ready_ctx x y = cmul x (cinv y).
Proof.
  intros. unfold gf_div. destruct ready_tables as (_ & -> & _).
  rewrite row_table by (done || apply div_row_length). by apply div_row_spec.
Qed.

Lemma gf_inv_spec y : is_byte y -> y <> 0 -> gf_inv ready_ctx y = cinv y.
Proof.
  intros Hy Ny. unfold gf_inv. destruct ready_tables as (_ & _ & -> & _). unfold is_byte, in_range in Hy.
  unfold tab. rewrite lookup_seqZ_map by lia. cbn [default]. unfold id. rewrite Z2Nat.id, Z.add_0_l by lia.
  rewrite gf_div_spec by done. apply (gmul_1_l cauchy_poly clog). by apply ginv_byte; [apply cpoly_range|apply cpoly_top].
Qed.

(** C28: after [gf_init] the multiplication table is the product of
    polynomials over GF(2) modulo 0x14d computed by shift and add, for all
    65536 pairs; division undoes multiplication and the inverse table holds
    inverses, for every non-zero divisor. *)
Theorem gf_tables_correct x y :
  is_byte x -> is_byte y ->
  gf_mul ready_ctx x y = clmul cauchy_poly 8 x y /\
  (y <> 0 -> gf_mul ready_ctx (gf_div ready_ctx x y) y = x /\ gf_mul ready_ctx (gf_inv ready_ctx y) y = 1).
Proof.
  intros Hx Hy. assert (Hi : is_byte (cinv y)) by (by apply ginv_byte; [apply cpoly_range|apply cpoly_top]).
  split; [rewrite gf_mul_spec by done; by apply gmul_clmul; [apply _| |]|]. intros Ny. split.
  - rewrite gf_div_spec by done.
    assert (is_byte (cmul x (cinv y))) by (by apply gmul_byte; [apply cpoly_range|apply cpoly_top|]).
    rewrite gf_mul_spec by done. rewrite <- (gmul_assoc cauchy_poly clog) by done.
    rewrite (ginv_l cauchy_poly clog), (gmul_comm cauchy_poly clog) by done. by apply gmul_1_l; [apply _|].
  - rewrite gf_inv_spec by done. rewrite gf_mul_spec by done. by apply ginv_l; [apply _| |].
Qed.

Lemma gf_tables_correct_witness :
  gf_mul ready_ctx 0x53 0xca = clmul cauchy_poly 8 0x53 0xca /\
  gf_mul ready_ctx (gf_div ready_ctx 0x53 0xca) 0xca = 0x53.
Proof.
  destruct (gf_tables_correct 0x53 0xca ltac:(done) ltac:(done)) as [H1 H2].
  split; [exact H1|]. exact (proj1 (H2 ltac:(done))).
Defined.
