(* ===== verification/CauchyMem.v ===== *)
(** * CauchyMem: bulk memory operations (src/lib/cauchy_rs.c)

    [gf_add_mem], [gf_add2_mem], [gf_addset_mem], [gf_mul_mem],
    [gf_muladd_mem] and [gf_div_mem] with their vector loops, 8- and 4-byte
    words and last bytes, and the theorem that each is the byte-wise operation
    on the first [bytes] bytes of its destination. *)
From stdpp Require Import base tactics option list numbers gmap.
From Stdlib Require Import ZArith Lia.
From S2P Require Import Prelude Galois CauchyGf.

Local Open Scope Z_scope.
Local Open Scope afs_scope.

(** ** Loops over chunks

    [while (bytes >= k) { z[0..k) = f(z[0..k), src[0..k)); bytes -= k; advance }]:
    the bytes written so far, then the rest of both buffers. [src] is one
    source buffer, or two zipped, whose pointers advance together. *)
Fixpoint chunk_loop {A} (fuel k : nat) (f : list Z -> list A -> list Z) (out z : list Z) (src : list A) (bytes : Z)
  : res (list Z * list Z * list A * Z) :=
  if Z.of_nat k <=? bytes then
    match fuel with
    | O => OutOfFuel
    | S fuel' =>
        zc ← of_option (slice 0 k z);
        sc ← of_option (slice 0 k src);
        chunk_loop fuel' k f (out ++ f zc sc) (drop k z) (drop k src) (bytes - Z.of_nat k)
    end
  else Ok (out, z, src, bytes).

(** One conditional block of [k] bytes: [if (bytes & k)]. *)
Definition chunk_if {A} (k : nat) (f : list Z -> list A -> list Z) (out z : list Z) (src : list A) (bytes : Z)
  : res (list Z * list Z * list A) :=
  if Z.land bytes (Z.of_nat k) =? 0 then Ok (out, z, src) else
  zc ← of_option (slice 0 k z);
  sc ← of_option (slice 0 k src);
  Ok (out ++ f zc sc, drop k z, drop k src).

(** [switch (bytes & 3)]: the last one, two or three bytes. *)
Definition last_bytes {A} (g : Z -> A -> Z) (out z : list Z) (src : list A) (bytes : Z) : res (list Z) :=
  let n := Z.to_nat (Z.land bytes 3) in
  zc ← of_option (slice 0 n z);
  sc ← of_option (slice 0 n src);
  Ok (out ++ zip_with g zc sc ++ drop n z).

(** [f] is the byte-wise operation [g] on [k] bytes. *)
Definition bytewise {A} (ok : A -> Prop) (k : nat) (f : list Z -> list A -> list Z) (g : Z -> A -> Z) : Prop :=
  forall z s, length z = k -> length s = k -> bytes z -> Forall ok s -> f z s = zip_with g z s.

Lemma zip_with_split {A} (g : Z -> A -> Z) k z s :
  zip_with g (take k z) (take k s) ++ zip_with g (drop k z) (drop k s) = zip_with g z s.
Proof.
  revert z s; induction k as [|k IH]; intros z s; [done|].
  destruct z as [|a z], s as [|b s]; cbn [take drop zip_with app]; try done; [by destruct (drop k z)|]. f_equal. apply IH.
Qed.

Section Chunks.
Context {A : Type} (ok : A -> Prop) (g : Z -> A -> Z).

(** The state of an operation that has processed a prefix: what is written,
    followed by the operation on the rest, is the operation on the whole. *)
Definition progress (z0 : list Z) (s0 : list A) (n : nat) (out z : list Z) (s : list A) (b : Z) : Prop :=
  0 <= b /\ (Z.to_nat b <= length z)%nat /\ (Z.to_nat b <= length s)%nat /\ bytes z /\ Forall ok s /\
  out ++ zip_with g (take (Z.to_nat b) z) (take (Z.to_nat b) s) ++ drop (Z.to_nat b) z
  = zip_with g (take n z0) (take n s0) ++ drop n z0.

Lemma progress_start z s n :
  (n <= length z)%nat -> (n <= length s)%nat -> bytes z -> Forall ok s ->
  progress z s n [] z s (Z.of_nat n).
Proof. intros. unfold progress. rewrite Nat2Z.id. split_and!; done || lia. Qed.

Lemma progress_step z0 s0 n out z s b k f :
  bytewise ok k f g -> progress z0 s0 n out z s b -> Z.of_nat k <= b ->
  exists zc sc, slice 0 k z = Some zc /\ slice 0 k s = Some sc /\
    progress z0 s0 n (out ++ f zc sc) (drop k z) (drop k s) (b - Z.of_nat k).
Proof.
  intros Hf (Hb & Hz & Hs & Bz & Os & E) Hk. exists (take k z), (take k s).
  rewrite !slice_Some by lia. rewrite !drop_0. split_and!; [done|done|]. unfold progress.
  rewrite !length_drop. split_and!; [lia|lia|lia|by apply Forall_drop|by apply Forall_drop|].
  rewrite Hf; [|rewrite length_take; lia|rewrite length_take; lia|by apply Forall_take|by apply Forall_take].
  rewrite <- E, <- !app_assoc. f_equal. rewrite drop_drop.
  replace (k + Z.to_nat (b - Z.of_nat k))%nat with (Z.to_nat b) by lia. rewrite app_assoc. f_equal.
  rewrite <- (zip_with_split g k (take (Z.to_nat b) z) (take (Z.to_nat b) s)).
  rewrite !take_take, !Nat.min_l by lia. f_equal.
  rewrite <- !skipn_firstn_comm || rewrite !firstn_skipn_comm.
  all: replace (k + Z.to_nat (b - Z.of_nat k))%nat with (Z.to_nat b) by lia; done.
Qed.

Lemma chunk_loop_spec k f z0 s0 n : (0 < k)%nat -> bytewise ok k f g ->
  forall fuel out z s b, progress z0 s0 n out z s b -> b < Z.of_nat fuel ->
  exists out' z' s' b', chunk_loop fuel k f out z s b = Ok (out', z', s', b') /\
    progress z0 s0 n out' z' s' b' /\ b' < Z.of_nat k /\ b' <= b.
Proof.
  intros Hk Hf. induction fuel as [|fuel IH]; intros out z s b P Hb; cbn [chunk_loop];
    (destruct (Z.leb_spec (Z.of_nat k) b) as [Hle|Hlt]; [|exists out, z, s, b; split_and!; done || lia]).
  - destruct P; lia.
  - destruct (progress_step _ _ _ _ _ _ _ _ _ Hf P Hle) as (zc & sc & -> & -> & P'). cbn [of_option mbind res_bind].
    destruct (IH _ _ _ _ P' ltac:(lia)) as (o & z' & s' & b' & ? & ? & ? & ?).
    exists o, z', s', b'. split_and!; done || lia.
Qed.

Lemma land_parts b : 0 <= b < 16 ->
  Z.land b 8 = 8 * (b / 8) /\ Z.land b 4 = 4 * (b mod 8 / 4) /\ Z.land b 3 = b mod 4.
Proof.
  intros Hb. assert (H : forallb (fun b => (Z.land b 8 =? 8 * (b / 8)) && (Z.land b 4 =? 4 * (b mod 8 / 4)) && (Z.land b 3 =? b mod 4))
    (seqZ 0 16) = true) by (vm_compute; reflexivity).
  rewrite forallb_forall in H. specialize (H b ltac:(apply list_elem_of_In, elem_of_seqZ; lia)).
  rewrite !andb_true_iff, !Z.eqb_eq in H. tauto.
Qed.

(** The 4-byte word and the last bytes, with at most 7 bytes left. *)
Lemma tail4_spec z0 s0 n out z s b B f4 :
  bytewise ok 4 f4 g -> progress z0 s0 n out z s b -> 0 <= B < 16 -> b = B mod 8 ->
  ('(out, z, s) ← chunk_if 4 f4 out z s B; last_bytes g out z s B)
  = Ok (zip_with g (take n z0) (take n s0) ++ drop n z0).
Proof.
  intros Hf P HB Eb. destruct (land_parts B HB) as (_ & E4 & E3). unfold chunk_if. change (Z.of_nat 4) with 4. rewrite E4.
  assert (Hlast : forall out z s b, progress z0 s0 n out z s b -> b = B mod 4 ->
    last_bytes g out z s B = Ok (zip_with g (take n z0) (take n s0) ++ drop n z0)).
  { clear out z s b P Eb. intros out z s b (Hb & Hz & Hs & _ & _ & E) ->. unfold last_bytes. rewrite E3.
    rewrite !slice_Some by lia. cbn [of_option mbind res_bind]. by rewrite !drop_0, E. }
  destruct (Z.eqb_spec (4 * (B mod 8 / 4)) 0) as [E|E]; cbn [mbind res_bind].
  - apply (Hlast out z s b P). zlia.
  - destruct (progress_step _ _ _ _ _ _ _ _ _ Hf P) as (zc & sc & -> & -> & P'); [zlia|]. cbn [of_option mbind res_bind].
    apply (Hlast _ _ _ _ P'). zlia.
Qed.

(** The 8-byte word, the 4-byte word and the last bytes. *)
Lemma tail8_spec z0 s0 n out z s b f8 f4 :
  bytewise ok 8 f8 g -> bytewise ok 4 f4 g -> progress z0 s0 n out z s b -> b < 16 ->
  ('(out, z, s) ← chunk_if 8 f8 out z s b;
   '(out, z, s) ← chunk_if 4 f4 out z s b; last_bytes g out z s b)
  = Ok (zip_with g (take n z0) (take n s0) ++ drop n z0).
Proof.
  intros Hf8 Hf4 P Hb. pose proof P as (Hb0 & _). destruct (land_parts b ltac:(lia)) as (E8 & _).
  destruct (decide (8 * (b / 8) = 0)) as [E|E].
  - assert (H : chunk_if 8 f8 out z s b = Ok (out, z, s)).
    { unfold chunk_if. change (Z.of_nat 8) with 8. by rewrite E8, E. }
    rewrite H. cbn [mbind res_bind]. eapply tail4_spec; [done|exact P|lia|zlia].
  - destruct (progress_step _ _ _ _ _ _ _ _ _ Hf8 P) as (zc & sc & Hz & Hs & P'); [zlia|].
    assert (H : chunk_if 8 f8 out z s b = Ok (out ++ f8 zc sc, drop 8 z, drop 8 s)).
    { unfold chunk_if. change (Z.of_nat 8) with 8. rewrite E8, Hz, Hs.
      by destruct (Z.eqb_spec (8 * (b / 8)) 0). }
    rewrite H. cbn [mbind res_bind]. eapply tail4_spec; [done|exact P'|lia|]. change (Z.of_nat 8) with 8. zlia.
Qed.

Lemma chunk_loop_skip fuel k f out z s b :
  b < Z.of_nat k -> @chunk_loop A fuel k f out z s b = Ok (out, z, s, b).
Proof. intros. destruct fuel; cbn [chunk_loop]; by destruct (Z.leb_spec (Z.of_nat k) b); [lia|]. Qed.
End Chunks.

(** ** Vectors and words *)

(** Exclusive or of [k]-byte little-endian words. *)
Definition word_xor (k : nat) (x y : list Z) : list Z := le_store k (le_load x xor le_load y).

(** [vector_xor]: two 64-bit lanes. *)
Definition vector_xor (x y : list Z) : list Z :=
  word_xor 8 (take 8 x) (take 8 y) ++ word_xor 8 (drop 8 x) (drop 8 y).

Definition vector_and (x y : list Z) : list Z :=
  le_store 8 (Z.land (le_load (take 8 x)) (le_load (take 8 y))) ++
  le_store 8 (Z.land (le_load (drop 8 x)) (le_load (drop 8 y))).

(** Both 64-bit lanes shifted right by [n] bits. *)
Definition vector_srli_epi64 (x : list Z) (n : Z) : list Z :=
  le_store 8 (Z.shiftr (le_load (take 8 x)) n) ++ le_store 8 (Z.shiftr (le_load (drop 8 x)) n).

(** [pshufb]: byte [i] of the result is table byte [idx i mod 16], or 0 when
    the high bit of the index is set. *)
Definition vector_shuffle_epi8 (table idx : list Z) : list Z :=
  map (fun i => if Z.testbit i 7 then 0 else tab table (Z.land i 15)) idx.

Definition vector_set (x : Z) : list Z := replicate 16 x.

(** Four vectors in a row. *)
Definition four_vectors {A} (f : list Z -> list A -> list Z) (z : list Z) (s : list A) : list Z :=
  f (take 16 z) (take 16 s) ++ f (take 16 (drop 16 z)) (take 16 (drop 16 s)) ++
  f (take 16 (drop 32 z)) (take 16 (drop 32 s)) ++ f (take 16 (drop 48 z)) (take 16 (drop 48 s)).

(** ** Addition *)
Definition gf_add_mem (vx vy : list Z) (bytes : Z) : res (list Z) :=
  let fuel := S (Z.to_nat bytes) in
  '(out, x, y, b) ← chunk_loop fuel 64 (four_vectors vector_xor) [] vx vy bytes;
  '(out, x, y, b) ← chunk_loop fuel 16 vector_xor out x y b;
  '(out, x, y) ← chunk_if 8 (word_xor 8) out x y b;
  '(out, x, y) ← chunk_if 4 (word_xor 4) out x y b;
  last_bytes Z.lxor out x y b.

(** Sources of the three-operand operations: the pairs of bytes of [x] and [y]. *)
Definition vector_xor3 (z : list Z) (xy : list (Z * Z)) : list Z :=
  vector_xor z (vector_xor (map fst xy) (map snd xy)).
Definition word_xor3 (k : nat) (z : list Z) (xy : list (Z * Z)) : list Z :=
  le_store k (le_load z xor (le_load (map fst xy) xor le_load (map snd xy))).

Definition gf_add2_mem (vz vx vy : list Z) (bytes : Z) : res (list Z) :=
  '(out, z, xy, b) ← chunk_loop (S (Z.to_nat bytes)) 16 vector_xor3 [] vz (zip vx vy) bytes;
  '(out, z, xy) ← chunk_if 8 (word_xor3 8) out z xy b;
  '(out, z, xy) ← chunk_if 4 (word_xor3 4) out z xy b;
  last_bytes (fun z p => z xor (fst p xor snd p)) out z xy b.

Definition gf_addset_mem (vz vx vy : list Z) (bytes : Z) : res (list Z) :=
  let fuel := S (Z.to_nat bytes) in
  let set_vector _ xy := vector_xor (map fst xy) (map snd xy) in
  '(out, z, xy, b) ← chunk_loop fuel 64 (four_vectors set_vector) [] vz (zip vx vy) bytes;
  '(out, z, xy, b) ← chunk_loop fuel 16 set_vector out z xy b;
  '(out, z, xy) ← chunk_if 8 (fun _ xy => word_xor 8 (map fst xy) (map snd xy)) out z xy b;
  '(out, z, xy) ← chunk_if 4 (fun _ xy => word_xor 4 (map fst xy) (map snd xy)) out z xy b;
  last_bytes (fun _ p => fst p xor snd p) out z xy b.

(** ** Multiplication by a constant *)

(** The product of 16 bytes by the nibble tables. *)
Definition vector_mul (table_lo table_hi x : list Z) : list Z :=
  let clr_mask := vector_set 0x0f in
  let l0 := vector_and x clr_mask in
  let x0 := vector_srli_epi64 x 4 in
  let h0 := vector_and x0 clr_mask in
  vector_xor (vector_shuffle_epi8 table_lo l0) (vector_shuffle_epi8 table_hi h0).

(** [word |= table[x1[i]] << (8 * i)]. *)
Fixpoint word_mul (table x : list Z) (shift : Z) : Z :=
  match x with [] => 0 | b :: x' => Z.lor (Z.shiftl (tab table b) shift) (word_mul table x' (shift + 8)) end.

Definition row_of (c : gf_ctx) (y : Z) : list Z := take 256 (drop (Z.to_nat (Z.shiftl y 8)) (GF_MUL_TABLE c)).
Definition lo_of (c : gf_ctx) (y : Z) : list Z := default [] (TABLE_LO_Y c !! Z.to_nat y).
Definition hi_of (c : gf_ctx) (y : Z) : list Z := default [] (TABLE_HI_Y c !! Z.to_nat y).

Definition gf_mul_mem (c : gf_ctx) (ssse3 : bool) (vz vx : list Z) (y bytes : Z) : res (list Z) :=
  let fuel := S (Z.to_nat bytes) in
  if y <=? 1 then
    if y =? 0 then of_option (splice 0 (replicate (Z.to_nat bytes) 0) vz)
    else src ← of_option (slice 0 (Z.to_nat bytes) vx); of_option (splice 0 src vz)
  else
    let table := row_of c y in
    '(out, z, x, b) ←
      (if ssse3 then chunk_loop fuel 16 (fun _ x => vector_mul (lo_of c y) (hi_of c y) x) [] vz vx bytes
       else Ok ([], vz, vx, bytes));
    '(out, z, x, b) ← chunk_loop fuel 8 (fun _ x => le_store 8 (word_mul table x 0)) out z x b;
    '(out, z, x) ← chunk_if 4 (fun _ x => le_store 4 (word_mul table x 0)) out z x b;
    last_bytes (fun _ x => tab table x) out z x b.

Definition gf_muladd_mem (c : gf_ctx) (ssse3 : bool) (vz : list Z) (y : Z) (vx : list Z) (bytes : Z) : res (list Z) :=
  let fuel := S (Z.to_nat bytes) in
  if y <=? 1 then (if y =? 1 then gf_add_mem vz vx bytes else Ok vz)
  else
    let table := row_of c y in
    let step z x := vector_xor (vector_mul (lo_of c y) (hi_of c y) x) z in
    '(out, z, x, b) ←
      (if ssse3 then
         '(out, z, x, b) ← chunk_loop fuel 32
            (fun z x => step (take 16 z) (take 16 x) ++ step (drop 16 z) (drop 16 x)) [] vz vx bytes;
         chunk_loop fuel 16 step out z x b
       else Ok ([], vz, vx, bytes));
    '(out, z, x, b) ← chunk_loop fuel 8 (fun z x => le_store 8 (le_load z xor word_mul table x 0)) out z x b;
    '(out, z, x) ← chunk_if 4 (fun z x => le_store 4 (le_load z xor word_mul table x 0)) out z x b;
    last_bytes (fun z x => z xor tab table x) out z x b.

Definition gf_div_mem (c : gf_ctx) (ssse3 : bool) (vz vx : list Z) (y bytes : Z) : res (list Z) :=
  gf_mul_mem c ssse3 vz vx (if y =? 1 then 1 else gf_inv c y) bytes.

Definition CPUID_ECX_SSSE3 : Z := 0x200.

(** [cpuid]: the registers that the instruction leaves for a leaf. The result is
    [CpuHasSSSE3]. *)
Definition gf_architecture_init (cpuid : Z -> list Z) : bool := negb (Z.land (tab (cpuid 1) 2) CPUID_ECX_SSSE3 =? 0).

(** Swaps the next [n] bytes of [x] and [y]; [ox] and [oy] are those already done. *)
Definition swap_bytes (n : nat) (s : list Z * list Z * list Z * list Z) : res (list Z * list Z * list Z * list Z) :=
  let '(ox, oy, x, y) := s in
  xc ← of_option (slice 0 n x);
  yc ← of_option (slice 0 n y);
  Ok (ox ++ yc, oy ++ xc, drop n x, drop n y).

Fixpoint swap_loop (fuel : nat) (s : list Z * list Z * list Z * list Z) (bytes : Z) : res (list Z * list Z * list Z * list Z * Z) :=
  if 16 <=? bytes then
    match fuel with
    | O => OutOfFuel
    | S fuel => s ← swap_bytes 16 s; swap_loop fuel s (bytes - 16)
    end
  else Ok (s, bytes).

Definition gf_memswap (vx vy : list Z) (bytes : Z) : res (list Z * list Z) :=
  '(s, bytes) ← swap_loop (Z.to_nat bytes) ([], [], vx, vy) bytes;
  let eight := Z.land bytes 8 in
  s ← (if eight =? 0 then Ok s else swap_bytes 8 s);
  let four := Z.land bytes 4 in
  s ← (if four =? 0 then Ok s else swap_bytes 4 s);
  '(ox, oy, x, y) ← swap_bytes (Z.to_nat (Z.land bytes 3)) s;
  Ok (ox ++ x, oy ++ y).

(** ** Vectors and words act byte by byte *)
Lemma word_xor_bytewise k : bytewise is_byte k (word_xor k) Z.lxor.
Proof. intros z s <- Hs Bz Bs. apply word_lxor; done || by symmetry. Qed.

Lemma vector_xor_bytewise : bytewise is_byte 16 vector_xor Z.lxor.
Proof.
  intros z s Hz Hs Bz Bs. unfold vector_xor.
  rewrite (word_xor_bytewise 8 (take 8 z) (take 8 s)), (word_xor_bytewise 8 (drop 8 z) (drop 8 s));
    try (by rewrite length_take || rewrite length_drop; lia); try (by apply Forall_take || by apply Forall_drop).
  apply zip_with_split.
Qed.

Lemma four_vectors_bytewise {A} ok (f : list Z -> list A -> list Z) g :
  bytewise ok 16 f g -> bytewise ok 64 (four_vectors f) g.
Proof.
  intros Hf z s Hz Hs Bz Os. unfold four_vectors.
  rewrite !Hf by (rewrite ?length_take, ?length_drop; lia || (apply Forall_take; repeat apply Forall_drop; done)).
  rewrite (take_ge (drop 48 z)), (take_ge (drop 48 s)) by (rewrite length_drop; lia).
  rewrite <- (zip_with_split g 16 z s). f_equal.
  rewrite <- (zip_with_split g 16 (drop 16 z) (drop 16 s)). f_equal. rewrite !drop_drop.
  rewrite <- (zip_with_split g 16 (drop (16 + 16) z) (drop (16 + 16) s)). by rewrite !drop_drop.
Qed.

(** Pairs of source bytes. *)
Definition pair_ok (p : Z * Z) : Prop := is_byte (fst p) /\ is_byte (snd p).

Lemma pair_ok_fst xy : Forall pair_ok xy -> bytes (map fst xy).
Proof. induction 1 as [|p l [H _] _ IH]; constructor; done. Qed.
Lemma pair_ok_snd xy : Forall pair_ok xy -> bytes (map snd xy).
Proof. induction 1 as [|p l [_ H] _ IH]; constructor; done. Qed.

Lemma zip_fst_snd xy : zip_with Z.lxor (map fst xy) (map snd xy) = map (fun p => Z.lxor (fst p) (snd p)) xy.
Proof. induction xy as [|p l IH]; cbn; [done|]. by rewrite IH. Qed.

Lemma zip_set {A} (h : A -> Z) (z : list Z) (s : list A) :
  length z = length s -> zip_with (fun _ x => h x) z s = map h s.
Proof. revert s; induction z as [|a z IH]; intros [|b s] Hl; try done. cbn. by rewrite IH by (cbn in *; lia). Qed.

Lemma zip_xor_map {A} (h : A -> Z) (z : list Z) (s : list A) :
  zip_with (fun a x => Z.lxor a (h x)) z s = zip_with Z.lxor z (map h s).
Proof. revert s; induction z as [|a z IH]; intros [|b s]; try done. cbn. by rewrite IH. Qed.

Lemma vector_xor3_bytewise : bytewise pair_ok 16 vector_xor3 (fun z p => Z.lxor z (Z.lxor (fst p) (snd p))).
Proof.
  intros z s Hz Hs Bz Os. unfold vector_xor3. pose proof (pair_ok_fst s Os). pose proof (pair_ok_snd s Os).
  rewrite (vector_xor_bytewise (map fst s)) by (rewrite ?length_map; done).
  rewrite vector_xor_bytewise by (rewrite ?length_zip_with, ?length_map; (lia || done || by apply zip_lxor_bytes)).
  rewrite zip_fst_snd. symmetry. apply (zip_xor_map (fun p => Z.lxor (fst p) (snd p))).
Qed.

Lemma word_xor3_bytewise k : bytewise pair_ok k (word_xor3 k) (fun z p => Z.lxor z (Z.lxor (fst p) (snd p))).
Proof.
  intros z s <- Hs Bz Os. unfold word_xor3. pose proof (pair_ok_fst s Os). pose proof (pair_ok_snd s Os).
  rewrite <- le_load_lxor by (rewrite ?length_map; done).
  rewrite word_lxor by (rewrite ?length_zip_with, ?length_map; (lia || done || by apply zip_lxor_bytes)).
  rewrite zip_fst_snd. symmetry. apply (zip_xor_map (fun p => Z.lxor (fst p) (snd p))).
Qed.

Lemma set_vector_bytewise :
  bytewise pair_ok 16 (fun _ xy => vector_xor (map fst xy) (map snd xy)) (fun _ p => Z.lxor (fst p) (snd p)).
Proof.
  intros z s Hz Hs Bz Os. rewrite vector_xor_bytewise by (rewrite ?length_map; done || by apply pair_ok_fst || by apply pair_ok_snd).
  rewrite zip_fst_snd. symmetry. apply (zip_set (fun p => Z.lxor (fst p) (snd p))). lia.
Qed.

Lemma set_word_bytewise k :
  bytewise pair_ok k (fun _ xy => word_xor k (map fst xy) (map snd xy)) (fun _ p => Z.lxor (fst p) (snd p)).
Proof.
  intros z s Hz Hs Bz Os. rewrite word_xor_bytewise by (rewrite ?length_map; done || by apply pair_ok_fst || by apply pair_ok_snd).
  rewrite zip_fst_snd. symmetry. apply (zip_set (fun p => Z.lxor (fst p) (snd p))). lia.
Qed.

Lemma gf_add_mem_spec vx vy n :
  bytes vx -> bytes vy -> (n <= length vx)%nat -> (n <= length vy)%nat ->
  gf_add_mem vx vy (Z.of_nat n) = Ok (zip_with Z.lxor (take n vx) (take n vy) ++ drop n vx).
Proof.
  intros Bx By Hx Hy. unfold gf_add_mem. rewrite Nat2Z.id.
  destruct (chunk_loop_spec is_byte Z.lxor 64 (four_vectors vector_xor) vx vy n ltac:(lia)
    (four_vectors_bytewise _ _ _ vector_xor_bytewise) (S n) [] vx vy (Z.of_nat n))
    as (o1 & x1 & y1 & b1 & -> & P1 & H1 & L1); [by apply progress_start|lia|]. cbn [mbind res_bind].
  destruct (chunk_loop_spec is_byte Z.lxor 16 vector_xor vx vy n ltac:(lia) vector_xor_bytewise (S n) o1 x1 y1 b1 P1)
    as (o2 & x2 & y2 & b2 & -> & P2 & H2 & L2); [lia|]. cbn [mbind res_bind].
  eapply tail8_spec; [apply word_xor_bytewise|apply word_xor_bytewise|exact P2|lia].
Qed.

Lemma zip_pair_ok vx vy : bytes vx -> bytes vy -> Forall pair_ok (zip vx vy).
Proof.
  intros Bx. revert vy; induction Bx as [|x vx Hx _ IH]; intros [|y vy] By; try constructor.
  - apply Forall_cons in By as [Hy _]. done.
  - apply Forall_cons in By as [_ By]. by apply IH.
Qed.

Lemma map_zip_take n vx vy :
  map (fun p => Z.lxor (fst p) (snd p)) (take n (zip vx vy)) = zip_with Z.lxor (take n vx) (take n vy).
Proof. revert vx vy; induction n as [|n IH]; intros [|x vx] [|y vy]; try done. cbn. by rewrite IH. Qed.

Lemma gf_add2_mem_spec vz vx vy n :
  bytes vz -> bytes vx -> bytes vy -> (n <= length vz)%nat -> (n <= length vx)%nat -> (n <= length vy)%nat ->
  gf_add2_mem vz vx vy (Z.of_nat n)
  = Ok (zip_with (fun z p => Z.lxor z (Z.lxor (fst p) (snd p))) (take n vz) (take n (zip vx vy)) ++ drop n vz).
Proof.
  intros Bz Bx By Hz Hx Hy. unfold gf_add2_mem. rewrite Nat2Z.id.
  destruct (chunk_loop_spec pair_ok (fun z p => Z.lxor z (Z.lxor (fst p) (snd p))) 16 vector_xor3 vz (zip vx vy) n ltac:(lia)
    vector_xor3_bytewise (S n) [] vz (zip vx vy) (Z.of_nat n))
    as (o1 & x1 & y1 & b1 & -> & P1 & H1 & L1); [apply progress_start; try done|lia|].
  { rewrite length_zip_with. lia. } { by apply zip_pair_ok. } cbn [mbind res_bind].
  eapply tail8_spec; [apply word_xor3_bytewise|apply word_xor3_bytewise|exact P1|lia].
Qed.

Lemma gf_addset_mem_spec vz vx vy n :
  bytes vz -> bytes vx -> bytes vy -> (n <= length vz)%nat -> (n <= length vx)%nat -> (n <= length vy)%nat ->
  gf_addset_mem vz vx vy (Z.of_nat n) = Ok (zip_with Z.lxor (take n vx) (take n vy) ++ drop n vz).
Proof.
  intros Bz Bx By Hz Hx Hy. unfold gf_addset_mem. rewrite Nat2Z.id.
  set (g := fun (_ : Z) p => Z.lxor (fst p) (snd p)).
  destruct (chunk_loop_spec pair_ok g 64 (four_vectors (fun _ xy => vector_xor (map fst xy) (map snd xy))) vz (zip vx vy) n ltac:(lia)
    (four_vectors_bytewise _ _ _ set_vector_bytewise) (S n) [] vz (zip vx vy) (Z.of_nat n))
    as (o1 & x1 & y1 & b1 & -> & P1 & H1 & L1); [apply progress_start; try done|lia|].
  { rewrite length_zip_with. lia. } { by apply zip_pair_ok. } cbn [mbind res_bind].
  destruct (chunk_loop_spec pair_ok g 16 _ vz (zip vx vy) n ltac:(lia) set_vector_bytewise (S n) o1 x1 y1 b1 P1)
    as (o2 & x2 & y2 & b2 & -> & P2 & H2 & L2); [lia|]. cbn [mbind res_bind].
  etransitivity; [eapply (tail8_spec pair_ok g); [apply set_word_bytewise|apply set_word_bytewise|exact P2|lia]|].
  do 2 f_equal. unfold g. rewrite (zip_set (fun p => Z.lxor (fst p) (snd p)))
    by (rewrite !length_take, length_zip_with; lia).
  apply map_zip_take.
Qed.

(** ** Multiplication acts byte by byte *)
Lemma le_load_land a b :
  bytes a -> bytes b -> length a = length b -> le_load (zip_with Z.land a b) = Z.land (le_load a) (le_load b).
Proof.
  intros Ha. revert b; induction Ha as [|x a Hx _ IH]; intros b Hb Hl; destruct b as [|y b]; try done.
  apply Forall_cons in Hb as [Hy Hb]. cbn [zip_with le_load]. injection Hl as Hl. rewrite IH by done.
  apply Z.bits_inj'. intros i Hi. rewrite Z.land_spec, !add256_testbit by (done || by apply land_range).
  destruct (i <? 8); by rewrite Z.land_spec.
Qed.

Lemma shift_mask a :
  bytes a -> Z.land (Z.shiftr (le_load a) 4) (le_load (replicate (length a) 15)) = le_load (map (fun b => Z.shiftr b 4) a).
Proof.
  induction 1 as [|x a Hx _ IH]; [done|]. cbn [length replicate map le_load].
  apply Z.bits_inj'. intros i Hi. rewrite Z.land_spec, Z.shiftr_spec by done.
  rewrite !add256_testbit by (done || lia || by apply shiftr_range). rewrite <- IH.
  destruct (Z.ltb_spec i 8); [destruct (Z.ltb_spec (i + 4) 8)|destruct (Z.ltb_spec (i + 4) 8); [lia|]].
  - rewrite Z.shiftr_spec by lia. assert (Z.testbit 15 i = true) as ->; [|apply andb_true_r].
    assert (i = 0 \/ i = 1 \/ i = 2 \/ i = 3) as [->|[->|[->| ->]]] by lia; done.
  - rewrite Z.shiftr_spec by lia. rewrite (proj1 (in_range_bits 8 x ltac:(lia)) Hx (i + 4)) by lia.
    assert (Z.testbit 15 i = false) as ->; [|apply andb_false_r].
    assert (i = 4 \/ i = 5 \/ i = 6 \/ i = 7) as [->|[->|[->| ->]]] by lia; done.
  - rewrite Z.land_spec, Z.shiftr_spec by lia. by replace (i + 4 - 8) with (i - 8 + 4) by lia.
Qed.

Lemma land_map_zip a n : length a = n -> zip_with Z.land a (replicate n 15) = map (fun b => Z.land b 15) a.
Proof. intros <-. induction a as [|x a IH]; [done|]. cbn. by rewrite IH. Qed.

Lemma bytes_replicate n b : is_byte b -> bytes (replicate n b).
Proof. intros. by apply Forall_replicate. Qed.

Lemma lane_and a :
  bytes a -> length a = 8%nat -> le_store 8 (Z.land (le_load a) (le_load (replicate 8 15))) = map (fun b => Z.land b 15) a.
Proof.
  intros Ha Hl. rewrite <- le_load_land by (rewrite ?length_replicate; done || by apply bytes_replicate).
  rewrite land_map_zip by done. rewrite <- Hl, <- (length_map (fun b => Z.land b 15) a). apply le_store_load.
  apply Forall_map, Forall_impl with (P := is_byte); [done|]. intros. by apply land_range.
Qed.

Lemma vector_and_mask x :
  bytes x -> length x = 16%nat -> vector_and x (vector_set 15) = map (fun b => Z.land b 15) x.
Proof.
  intros Hx Hl. unfold vector_and, vector_set. change (take 8 (replicate 16 15)) with (replicate 8 15).
  change (drop 8 (replicate 16 15)) with (replicate 8 15).
  rewrite (lane_and (take 8 x)) by (by apply Forall_take || (rewrite length_take; lia)).
  rewrite (lane_and (drop 8 x)) by (by apply Forall_drop || (rewrite length_drop; lia)).
  by rewrite <- map_app, take_drop.
Qed.

Lemma lane_shift_and a :
  bytes a -> length a = 8%nat ->
  le_store 8 (Z.land (le_load (le_store 8 (Z.shiftr (le_load a) 4))) (le_load (replicate 8 15))) = map (fun b => Z.shiftr b 4) a.
Proof.
  intros Ha Hl. rewrite le_load_store. pose proof (le_load_range a Ha) as Hr. rewrite Hl in Hr.
  rewrite Z.mod_small.
  2: { split; [apply Z.shiftr_nonneg; lia|]. rewrite Z.shiftr_div_pow2 by lia. change (256 ^ Z.of_nat 8) with (2 ^ 64) in *. zlia. }
  rewrite <- Hl at 2. rewrite shift_mask by done. rewrite <- Hl, <- (length_map (fun b => Z.shiftr b 4) a). apply le_store_load.
  apply Forall_map, Forall_impl with (P := is_byte); [done|]. intros. by apply shiftr_range.
Qed.

Lemma vector_high_nibbles x :
  bytes x -> length x = 16%nat -> vector_and (vector_srli_epi64 x 4) (vector_set 15) = map (fun b => Z.shiftr b 4) x.
Proof.
  intros Hx Hl. unfold vector_and, vector_set, vector_srli_epi64. change (take 8 (replicate 16 15)) with (replicate 8 15).
  change (drop 8 (replicate 16 15)) with (replicate 8 15).
  rewrite take_app_length', drop_app_length' by (by rewrite le_store_length).
  rewrite (lane_shift_and (take 8 x)) by (by apply Forall_take || (rewrite length_take; lia)).
  rewrite (lane_shift_and (drop 8 x)) by (by apply Forall_drop || (rewrite length_drop; lia)).
  by rewrite <- map_app, take_drop.
Qed.

Lemma lo_table y i : is_byte y -> 0 <= i < 16 -> tab (lo_of ready_ctx y) i = cmul i y.
Proof.
  intros Hy Hi. pose proof Hy as Hy'. unfold is_byte, in_range in Hy'. unfold lo_of, tab.
  destruct ready_tables as (_ & _ & _ & -> & _). rewrite lookup_seqZ_map by lia. cbn [default]. unfold id.
  rewrite lookup_seqZ_map by lia. cbn [default]. unfold id. rewrite !Z2Nat.id, !Z.add_0_l by lia.
  apply gf_mul_spec; [|done]. unfold is_byte, in_range. lia.
Qed.

Lemma hi_table y i : is_byte y -> 0 <= i < 16 -> tab (hi_of ready_ctx y) i = cmul (Z.shiftl i 4) y.
Proof.
  intros Hy Hi. pose proof Hy as Hy'. unfold is_byte, in_range in Hy'. unfold hi_of, tab.
  destruct ready_tables as (_ & _ & _ & _ & ->). rewrite lookup_seqZ_map by lia. cbn [default]. unfold id.
  rewrite lookup_seqZ_map by lia. cbn [default]. unfold id. rewrite !Z2Nat.id, !Z.add_0_l by lia.
  apply gf_mul_spec; [|done]. unfold is_byte, in_range. rewrite Z.shiftl_mul_pow2; lia.
Qed.

Lemma nibbles b : is_byte b ->
  0 <= Z.land b 15 < 16 /\ 0 <= Z.shiftr b 4 < 16 /\ b = Z.lxor (Z.land b 15) (Z.shiftl (Z.shiftr b 4) 4) /\
  is_byte (Z.shiftl (Z.shiftr b 4) 4).
Proof.
  intros Hb. assert (H : forallb (fun b => (0 <=? Z.land b 15) && (Z.land b 15 <? 16) && (0 <=? Z.shiftr b 4) && (Z.shiftr b 4 <? 16) &&
    (b =? Z.lxor (Z.land b 15) (Z.shiftl (Z.shiftr b 4) 4)) && bool_decide (is_byte (Z.shiftl (Z.shiftr b 4) 4))) (seqZ 0 256) = true)
    by (vm_compute; reflexivity).
  pose proof (byte_forall _ H b Hb) as E. cbn beta in E. rewrite !andb_true_iff, !Z.leb_le, !Z.ltb_lt, Z.eqb_eq in E.
  destruct E as (((((?&?)&?)&?)&?)&E). apply bool_decide_eq_true_1 in E. split_and!; done.
Qed.

Lemma land15 i : 0 <= Z.land i 15 < 16.
Proof. change 15 with (Z.ones 4). rewrite Z.land_ones by lia. by apply Z.mod_pos_bound. Qed.

Lemma cmul_byte_l b y : is_byte b -> is_byte (cmul y b).
Proof. by apply gmul_byte; [apply cpoly_range|apply cpoly_top]. Qed.

Lemma vector_mul_spec y x :
  is_byte y -> bytes x -> length x = 16%nat ->
  vector_mul (lo_of ready_ctx y) (hi_of ready_ctx y) x = map (fun b => cmul b y) x.
Proof.
  intros Hy Hx Hl. unfold vector_mul. rewrite vector_and_mask, vector_high_nibbles by done.
  assert (E : forall b, is_byte b ->
    Z.lxor (if Z.testbit (Z.land b 15) 7 then 0 else tab (lo_of ready_ctx y) (Z.land (Z.land b 15) 15))
           (if Z.testbit (Z.shiftr b 4) 7 then 0 else tab (hi_of ready_ctx y) (Z.land (Z.shiftr b 4) 15)) = cmul b y).
  { intros b Hb. destruct (nibbles b Hb) as (H1 & H2 & H3 & H4).
    assert (Hsmall : forall i, 0 <= i < 16 -> Z.testbit i 7 = false /\ Z.land i 15 = i).
    { intros i Hi. split; [apply (in_range_bits 4); unfold in_range; lia|].
      change 15 with (Z.ones 4). rewrite Z.land_ones by lia. apply Z.mod_small. lia. }
    destruct (Hsmall _ H1) as [-> ->], (Hsmall _ H2) as [-> ->]. rewrite lo_table, hi_table by done.
    assert (is_byte (Z.land b 15)) by (unfold is_byte, in_range; lia).
    rewrite (gmul_comm cauchy_poly clog (Z.land b 15)), (gmul_comm cauchy_poly clog (Z.shiftl _ _)), <- gmul_xor_r, <- H3 by done.
    by apply gmul_comm; [apply _| |]. }
  unfold vector_shuffle_epi8. rewrite !map_map. rewrite vector_xor_bytewise; rewrite ?length_map; try done.
  - clear Hl. induction Hx as [|b x Hb _ IH]; [done|]. cbn [map zip_with]. by rewrite E, IH.
  - apply Forall_map, Forall_impl with (P := is_byte); [done|]. intros b Hb. cbn beta.
    destruct (nibbles b Hb) as (H1 & _). destruct (Z.testbit _ 7); [done|].
    rewrite lo_table; [by apply cmul_byte_l|done|apply land15].
  - apply Forall_map, Forall_impl with (P := is_byte); [done|]. intros b Hb. cbn beta.
    destruct (Z.testbit _ 7); [done|].
    rewrite hi_table; [by apply cmul_byte_l|done|apply land15].
Qed.

(** The word loop: one table lookup per byte, shifted into place. *)
Lemma word_mul_load table x sh :
  0 <= sh -> bytes (map (tab table) x) -> word_mul table x sh = Z.shiftl (le_load (map (tab table) x)) sh.
Proof.
  revert sh; induction x as [|b x IH]; intros sh Hsh Hb; cbn [word_mul map le_load]; [by rewrite Z.shiftl_0_l|].
  apply Forall_cons in Hb as [Hb Hx]. rewrite IH by (lia || done).
  apply Z.bits_inj'. intros i Hi. rewrite Z.lor_spec, !Z.shiftl_spec by lia.
  destruct (Z.ltb_spec i sh).
  { rewrite !(Z.testbit_neg_r _ (i - _)) by lia. done. }
  rewrite add256_testbit by (lia || done). destruct (Z.ltb_spec (i - sh) 8).
  - rewrite (Z.testbit_neg_r _ (i - (sh + 8))) by lia. apply orb_false_r.
  - rewrite (proj1 (in_range_bits 8 _ ltac:(lia)) Hb (i - sh)) by lia. cbn [orb]. f_equal. lia.
Qed.

Lemma row_table_mul y b : is_byte y -> is_byte b -> tab (row_of ready_ctx y) b = cmul b y.
Proof.
  intros Hy Hb. rewrite <- gf_mul_spec by done. unfold row_of, gf_mul, tab. unfold is_byte, in_range in *.
  rewrite Z.shiftl_mul_pow2 by lia. rewrite lookup_take, decide_True by lia. rewrite lookup_drop. do 2 f_equal. lia.
Qed.

Lemma map_row y x : is_byte y -> bytes x -> map (tab (row_of ready_ctx y)) x = map (fun b => cmul b y) x.
Proof. intros Hy. induction 1 as [|b x Hb _ IH]; [done|]. cbn [map]. by rewrite row_table_mul, IH. Qed.

Lemma cmul_bytes y x : is_byte y -> bytes (map (fun b => cmul b y) x).
Proof. intros Hy. apply Forall_map, Forall_forall. intros b _. by apply cmul_byte_l. Qed.

Lemma word_mul_spec y x : is_byte y -> bytes x -> word_mul (row_of ready_ctx y) x 0 = le_load (map (fun b => cmul b y) x).
Proof.
  intros Hy Hx. rewrite word_mul_load; rewrite ?map_row by done; [apply Z.shiftl_0_r|lia|by apply cmul_bytes].
Qed.

Lemma zip_lxor_comm (a b : list Z) : zip_with Z.lxor a b = zip_with Z.lxor b a.
Proof. revert b; induction a as [|x a IH]; intros [|y b]; try done. cbn [zip_with]. by rewrite Z.lxor_comm, IH. Qed.

(** The three shapes of the product, as byte-wise operations. *)
Lemma mul_vector_bytewise y : is_byte y ->
  bytewise is_byte 16 (fun _ x => vector_mul (lo_of ready_ctx y) (hi_of ready_ctx y) x) (fun _ x => tab (row_of ready_ctx y) x).
Proof.
  intros Hy z s Hz Hs _ Bs. rewrite vector_mul_spec, <- map_row by done. symmetry. apply zip_set. lia.
Qed.

Lemma mul_word_bytewise y k : is_byte y ->
  bytewise is_byte k (fun _ x => le_store k (word_mul (row_of ready_ctx y) x 0)) (fun _ x => tab (row_of ready_ctx y) x).
Proof.
  intros Hy z s Hz Hs _ Bs. rewrite word_mul_spec by done.
  rewrite <- Hs at 1. rewrite <- (length_map (fun b => cmul b y) s), le_store_load by by apply cmul_bytes.
  rewrite <- map_row by done. symmetry. apply zip_set. lia.
Qed.

Lemma muladd_vector_bytewise y : is_byte y ->
  bytewise is_byte 16 (fun z x => vector_xor (vector_mul (lo_of ready_ctx y) (hi_of ready_ctx y) x) z)
    (fun z x => z xor tab (row_of ready_ctx y) x).
Proof.
  intros Hy z s Hz Hs Bz Bs. rewrite vector_mul_spec by done.
  rewrite vector_xor_bytewise by (rewrite ?length_map; done || by apply cmul_bytes).
  rewrite (zip_xor_map (tab (row_of ready_ctx y))), map_row by done.
  apply zip_lxor_comm.
Qed.

Lemma muladd_word_bytewise y k : is_byte y ->
  bytewise is_byte k (fun z x => le_store k (le_load z xor word_mul (row_of ready_ctx y) x 0))
    (fun z x => z xor tab (row_of ready_ctx y) x).
Proof.
  intros Hy z s <- Hs Bz Bs. rewrite word_mul_spec by done.
  rewrite word_lxor by (rewrite ?length_map; done || by apply cmul_bytes).
  rewrite (zip_xor_map (tab (row_of ready_ctx y))), map_row by done. done.
Qed.

Lemma two_halves_bytewise f g : bytewise is_byte 16 f g ->
  bytewise is_byte 32 (fun z x => f (take 16 z) (take 16 x) ++ f (drop 16 z) (drop 16 x)) g.
Proof.
  intros Hf z s Hz Hs Bz Bs.
  rewrite !Hf by (rewrite ?length_take, ?length_drop; lia || by apply Forall_take || by apply Forall_drop).
  apply zip_with_split.
Qed.

(** The word loop, the 4-byte word and the last bytes of a product. *)
Lemma word_loop_spec g f8 f4 z0 s0 n fuel out z s b :
  bytewise is_byte 8 f8 g -> bytewise is_byte 4 f4 g -> progress is_byte g z0 s0 n out z s b -> b < Z.of_nat fuel ->
  ('(out, z, x, b) ← chunk_loop fuel 8 f8 out z s b;
   '(out, z, x) ← chunk_if 4 f4 out z x b; last_bytes g out z x b)
  = Ok (zip_with g (take n z0) (take n s0) ++ drop n z0).
Proof.
  intros H8 H4 P Hb.
  destruct (chunk_loop_spec is_byte g 8 f8 z0 s0 n ltac:(lia) H8 fuel out z s b P Hb)
    as (o & z' & s' & b' & -> & P' & ? & ?). cbn [mbind res_bind].
  eapply tail4_spec; [done|exact P'|destruct P'; lia|destruct P'; zlia].
Qed.

Lemma map_mul_0 x : map (fun b => cmul b 0) x = replicate (length x) 0.
Proof. induction x as [|b x IH]; [done|]. cbn [map length replicate]. by rewrite IH, gmul_0_r. Qed.

Lemma map_mul_1 x : bytes x -> map (fun b => cmul b 1) x = x.
Proof.
  induction 1 as [|b x Hb _ IH]; [done|]. cbn [map]. rewrite IH. f_equal. rewrite (gmul_comm cauchy_poly clog) by done.
  by apply gmul_1_l; [apply _|].
Qed.

Lemma zip_lxor_0 z n : (length z = n)%nat -> zip_with Z.lxor z (replicate n 0) = z.
Proof. intros <-. induction z as [|a z IH]; [done|]. cbn [length replicate zip_with]. by rewrite IH, Z.lxor_0_r. Qed.

Lemma map_bytes_ext (f g : Z -> Z) x : (forall b, is_byte b -> f b = g b) -> bytes x -> map f x = map g x.
Proof. intros H. induction 1 as [|b x Hb _ IH]; [done|]. cbn [map]. by rewrite H, IH. Qed.

Lemma mul_case n y (vx vz : list Z) : is_byte y -> bytes vx -> (n <= length vz)%nat -> (n <= length vx)%nat ->
  zip_with (fun _ x => tab (row_of ready_ctx y) x) (take n vz) (take n vx) ++ drop n vz
  = map (fun b => cmul b y) (take n vx) ++ drop n vz.
Proof.
  intros Hy Hx Lz Lx. rewrite zip_set by (rewrite !length_take; lia). by rewrite map_row by by try apply Forall_take.
Qed.

Lemma gf_mul_mem_spec ssse3 vz vx y n :
  is_byte y -> bytes vz -> bytes vx -> (n <= length vz)%nat -> (n <= length vx)%nat ->
  gf_mul_mem ready_ctx ssse3 vz vx y (Z.of_nat n) = Ok (map (fun b => cmul b y) (take n vx) ++ drop n vz).
Proof.
  intros Hy Bz Bx Hz Hx. unfold gf_mul_mem. rewrite Nat2Z.id. destruct (Z.leb_spec y 1) as [H1|H1].
  - destruct (Z.eqb_spec y 0) as [->|N0].
    + rewrite splice_Some by (rewrite length_replicate; lia). cbn [of_option]. rewrite take_0, app_nil_l, length_replicate.
      by rewrite map_mul_0, length_take_le.
    + assert (y = 1) as -> by (unfold is_byte, in_range in Hy; lia).
      rewrite slice_Some, drop_0 by lia. cbn [of_option mbind res_bind].
      rewrite splice_Some by (rewrite length_take; lia). cbn [of_option]. rewrite take_0, app_nil_l, length_take_le by done.
      by rewrite map_mul_1 by by apply Forall_take.
  - rewrite <- mul_case by done.
    assert (P0 := progress_start is_byte (fun _ x => tab (row_of ready_ctx y) x) vz vx n Hz Hx Bz Bx).
    destruct ssse3.
    + destruct (chunk_loop_spec is_byte (fun _ x => tab (row_of ready_ctx y) x) 16 _ vz vx n ltac:(lia)
        (mul_vector_bytewise y Hy) (S n) [] vz vx (Z.of_nat n) P0) as (o1 & x1 & y1 & b1 & -> & P1 & ? & ?); [lia|].
      cbn [mbind res_bind]. apply word_loop_spec; [by apply mul_word_bytewise|by apply mul_word_bytewise|done|lia].
    + cbn [mbind res_bind]. apply word_loop_spec; [by apply mul_word_bytewise|by apply mul_word_bytewise|done|lia].
Qed.

Lemma muladd_case n y (vx vz : list Z) : is_byte y -> bytes vx ->
  zip_with (fun z x => z xor tab (row_of ready_ctx y) x) (take n vz) (take n vx)
  = zip_with Z.lxor (take n vz) (map (fun b => cmul b y) (take n vx)).
Proof.
  intros Hy Hx. rewrite (zip_xor_map (tab (row_of ready_ctx y))). by rewrite map_row by by try apply Forall_take.
Qed.

Lemma gf_muladd_mem_spec ssse3 vz vx y n :
  is_byte y -> bytes vz -> bytes vx -> (n <= length vz)%nat -> (n <= length vx)%nat ->
  gf_muladd_mem ready_ctx ssse3 vz y vx (Z.of_nat n)
  = Ok (zip_with Z.lxor (take n vz) (map (fun b => cmul b y) (take n vx)) ++ drop n vz).
Proof.
  intros Hy Bz Bx Hz Hx. unfold gf_muladd_mem. rewrite Nat2Z.id. destruct (Z.leb_spec y 1) as [H1|H1].
  - destruct (Z.eqb_spec y 1) as [->|N1].
    + rewrite gf_add_mem_spec by done. by rewrite map_mul_1 by by apply Forall_take.
    + assert (y = 0) as -> by (unfold is_byte, in_range in Hy; lia). rewrite map_mul_0, zip_lxor_0 by (rewrite !length_take; lia). by rewrite take_drop.
  - rewrite <- muladd_case by done. set (g := fun z x => z xor tab (row_of ready_ctx y) x).
    assert (P0 := progress_start is_byte g vz vx n Hz Hx Bz Bx).
    pose proof (muladd_vector_bytewise y Hy) as HV.
    destruct ssse3.
    + destruct (chunk_loop_spec is_byte g 32 _ vz vx n ltac:(lia) (two_halves_bytewise _ _ HV)
        (S n) [] vz vx (Z.of_nat n) P0) as (o1 & x1 & y1 & b1 & -> & P1 & ? & ?); [lia|]. cbn [mbind res_bind].
      destruct (chunk_loop_spec is_byte g 16 _ vz vx n ltac:(lia) HV (S n) o1 x1 y1 b1 P1)
        as (o2 & x2 & y2 & b2 & -> & P2 & ? & ?); [lia|].
      cbn [mbind res_bind]. apply word_loop_spec; [by apply muladd_word_bytewise|by apply muladd_word_bytewise|done|lia].
    + cbn [mbind res_bind]. apply word_loop_spec; [by apply muladd_word_bytewise|by apply muladd_word_bytewise|done|lia].
Qed.

Lemma gf_div_mem_spec ssse3 vz vx y n :
  is_byte y -> y <> 0 -> bytes vz -> bytes vx -> (n <= length vz)%nat -> (n <= length vx)%nat ->
  gf_div_mem ready_ctx ssse3 vz vx y (Z.of_nat n) = Ok (map (fun b => cmul b (cinv y)) (take n vx) ++ drop n vz).
Proof.
  intros Hy Ny Bz Bx Hz Hx. unfold gf_div_mem.
  assert ((if y =? 1 then 1 else gf_inv ready_ctx y) = cinv y) as ->.
  { destruct (Z.eqb_spec y 1) as [->|_]; [by vm_compute|by apply gf_inv_spec]. }
  apply gf_mul_mem_spec; try done. by apply ginv_byte; [apply cpoly_range|apply cpoly_top].
Qed.

(** ** Swapping *)
(** [b] of [n] bytes are left. *)
Definition swapped (vx vy : list Z) (n : nat) (b : Z) (s : list Z * list Z * list Z * list Z) : Prop :=
  0 <= b <= Z.of_nat n /\ let k := (n - Z.to_nat b)%nat in s = (take k vy, take k vx, drop k vx, drop k vy).

Lemma swap_bytes_spec vx vy n b k s : (n <= length vx)%nat -> (n <= length vy)%nat -> swapped vx vy n b s -> Z.of_nat k <= b ->
  exists s', swap_bytes k s = Ok s' /\ swapped vx vy n (b - Z.of_nat k) s'.
Proof.
  intros Lx Ly [Hb ->] Hk. unfold swap_bytes. set (m := (n - Z.to_nat b)%nat). rewrite !slice_Some by (rewrite length_drop; lia). cbn [of_option]. rewrite !bind_Ok.
  eexists. split; [reflexivity|]. split; [lia|]. replace (n - Z.to_nat (b - Z.of_nat k))%nat with (m + k)%nat by lia.
  rewrite !drop_0, !drop_drop, !take_take_drop. done.
Qed.

Lemma swap_loop_spec vx vy n fuel b s : (n <= length vx)%nat -> (n <= length vy)%nat -> swapped vx vy n b s -> b <= Z.of_nat fuel ->
  exists s' b', swap_loop fuel s b = Ok (s', b') /\ swapped vx vy n b' s' /\ b' < 16.
Proof.
  intros Lx Ly. revert b s. induction fuel as [|fuel IH]; intros b s Hs Hf; cbn [swap_loop]; (destruct (Z.leb_spec 16 b) as [H|H]; [|by exists s, b]); [lia|].
  destruct (swap_bytes_spec vx vy n b 16 s Lx Ly Hs) as (s' & -> & Hs'); [lia|]. rewrite bind_Ok. apply IH; [done|lia].
Qed.

Lemma gf_memswap_spec vx vy n : (n <= length vx)%nat -> (n <= length vy)%nat ->
  gf_memswap vx vy (Z.of_nat n) = Ok (take n vy ++ drop n vx, take n vx ++ drop n vy).
Proof.
  intros Lx Ly. unfold gf_memswap. destruct (swap_loop_spec vx vy n (Z.to_nat (Z.of_nat n)) (Z.of_nat n) ([], [], vx, vy)) as (s & b & -> & Hs & Hb); [done|done| |lia|].
  { split; [lia|]. by rewrite Nat2Z.id, Nat.sub_diag. }
  rewrite bind_Ok. pose proof Hs as ([H0 _] & _). destruct (land_parts (A := Z) (fun z _ => z) b ltac:(lia)) as (E8 & E4 & E3). rewrite E8, E4, E3.
  assert (H8 : exists s', (if 8 * (b / 8) =? 0 then Ok s else swap_bytes 8 s) = Ok s' /\ swapped vx vy n (b mod 8) s').
  { destruct (Z.eqb_spec (8 * (b / 8)) 0); [exists s; split; [done|]; by replace (b mod 8) with b by zlia|].
    destruct (swap_bytes_spec vx vy n b 8 s Lx Ly Hs) as (s' & -> & Hs'); [zlia|]. exists s'. split; [done|]. by replace (b mod 8) with (b - Z.of_nat 8) by zlia. }
  destruct H8 as (s8 & -> & Hs8). rewrite bind_Ok.
  assert (H4 : exists s', (if 4 * (b mod 8 / 4) =? 0 then Ok s8 else swap_bytes 4 s8) = Ok s' /\ swapped vx vy n (b mod 4) s').
  { destruct (Z.eqb_spec (4 * (b mod 8 / 4)) 0); [exists s8; split; [done|]; by replace (b mod 4) with (b mod 8) by zlia|].
    destruct (swap_bytes_spec vx vy n (b mod 8) 4 s8 Lx Ly Hs8) as (s' & -> & Hs'); [zlia|]. exists s'. split; [done|].
    by replace (b mod 4) with (b mod 8 - Z.of_nat 4) by zlia. }
  destruct H4 as (s4 & -> & Hs4). rewrite bind_Ok.
  destruct (swap_bytes_spec vx vy n (b mod 4) (Z.to_nat (b mod 4)) s4 Lx Ly Hs4) as (s' & -> & [_ ->]); [zlia|]. rewrite bind_Ok.
  replace (n - Z.to_nat (b mod 4 - Z.of_nat (Z.to_nat (b mod 4))))%nat with n by zlia. done.
Qed.

(** C27: on a 64-byte-vectorised, 16-byte-vectorised, word and tail decomposition
    of any length, with or without SSSE3, each bulk operation writes exactly
    the byte-wise field operation over GF(2^8) modulo 0x14d to the first [n]
    bytes of its destination, for every [n] up to the buffer length, and
    leaves the rest of the destination alone: addition (two-operand,
    accumulate of two, and set), multiplication, multiply-and-add, and
    division by a nonzero constant. The swap exchanges the first [n] bytes. *)
Theorem bulk_ops_bytewise cpuid (vz vx vy : list Z) y n :
  is_byte y -> bytes vz -> bytes vx -> bytes vy ->
  (n <= length vz)%nat -> (n <= length vx)%nat -> (n <= length vy)%nat ->
  let ssse3 := gf_architecture_init cpuid in
  gf_add_mem vx vy (Z.of_nat n) = Ok (zip_with Z.lxor (take n vx) (take n vy) ++ drop n vx) /\
  gf_add2_mem vz vx vy (Z.of_nat n)
    = Ok (zip_with Z.lxor (take n vz) (zip_with Z.lxor (take n vx) (take n vy)) ++ drop n vz) /\
  gf_addset_mem vz vx vy (Z.of_nat n) = Ok (zip_with Z.lxor (take n vx) (take n vy) ++ drop n vz) /\
  gf_mul_mem ready_ctx ssse3 vz vx y (Z.of_nat n)
    = Ok (map (fun b => clmul cauchy_poly 8 b y) (take n vx) ++ drop n vz) /\
  gf_muladd_mem ready_ctx ssse3 vz y vx (Z.of_nat n)
    = Ok (zip_with Z.lxor (take n vz) (map (fun b => clmul cauchy_poly 8 b y) (take n vx)) ++ drop n vz) /\
  (y <> 0 -> gf_div_mem ready_ctx ssse3 vz vx y (Z.of_nat n)
    = Ok (map (fun b => gf_div ready_ctx b y) (take n vx) ++ drop n vz)) /\
  gf_memswap vx vy (Z.of_nat n) = Ok (take n vy ++ drop n vx, take n vx ++ drop n vy).
Proof.
  intros Hy Bz Bx By Lz Lx Ly ssse3.
  assert (Bt : bytes (take n vx)) by by apply Forall_take.
  assert (E : map (fun b => clmul cauchy_poly 8 b y) (take n vx) = map (fun b => cmul b y) (take n vx)).
  { apply map_bytes_ext; [|done]. intros b Hb. symmetry. by apply gmul_clmul; [apply _| |]. }
  rewrite E. split_and!.
  - by apply gf_add_mem_spec.
  - rewrite gf_add2_mem_spec by done. by rewrite (zip_xor_map (fun p => Z.lxor (fst p) (snd p))), map_zip_take.
  - by apply gf_addset_mem_spec.
  - by apply gf_mul_mem_spec.
  - by apply gf_muladd_mem_spec.
  - intros Ny. rewrite gf_div_mem_spec by done. do 2 f_equal. apply map_bytes_ext; [|done].
    intros b Hb. symmetry. by apply gf_div_spec.
  - by apply gf_memswap_spec.
Qed.

Lemma bulk_ops_bytewise_witness :
  gf_muladd_mem ready_ctx (gf_architecture_init (fun _ => [0; 0; 0x3ff; 0])) (replicate 50 7) 0x1b (replicate 50 0x35) 47
  = Ok (zip_with Z.lxor (replicate 47 7) (map (fun b => clmul cauchy_poly 8 b 0x1b) (replicate 47 0x35)) ++ replicate 3 7).
Proof.
  change 47 with (Z.of_nat 47).
  apply (bulk_ops_bytewise (fun _ => [0; 0; 0x3ff; 0]) (replicate 50 7) (replicate 50 0x35) (replicate 50 0) 0x1b 47);
    try (apply bytes_replicate); done || (rewrite length_replicate; lia).
Defined.
