(* ===== verification/CauchyMatrix.v ===== *)
(** * CauchyMatrix: triangular elimination of a Cauchy matrix

    Mathematics of the decoder of src/lib/cauchy_rs.c, over any field. The
    generators [gen_g] and [gen_b] that the code updates describe every Schur
    complement of the matrix [d_j / (x_i - y_j)] in closed form; eliminating
    with the factors built from them solves the linear system. Subtraction in
    GF(2^8) is the exclusive or the code adds with. *)
From stdpp Require Import base tactics option list numbers.
From Stdlib Require Import Lia Ring Field.

Section Cauchy.
Context {F : Type} (f0 f1 : F) (fadd fmul fsub : F -> F -> F) (fopp : F -> F) (fdiv : F -> F -> F)
  (finv : F -> F) (FT : field_theory f0 f1 fadd fmul fsub fopp fdiv finv eq).
Add Field Ffield : FT.

Local Notation "a ⊕ b" := (fadd a b) (at level 50, left associativity).
Local Notation "a ⊖ b" := (fsub a b) (at level 50, left associativity).
Local Notation "a ⊗ b" := (fmul a b) (at level 40, left associativity).
Local Notation "a ⊘ b" := (fdiv a b) (at level 40, left associativity).

(** ** Sums *)
Fixpoint fsum (n : nat) (f : nat -> F) : F :=
  match n with O => f0 | S n' => fsum n' f ⊕ f n' end.

Lemma fsum_ext n f g : (forall t, t < n -> f t = g t) -> fsum n f = fsum n g.
Proof. induction n as [|n IH]; intros H; cbn; [done|]. rewrite IH, H; auto. Qed.

Lemma fsum_sub n c f g : fsum n (fun t => f t ⊖ c ⊗ g t) = fsum n f ⊖ c ⊗ fsum n g.
Proof. induction n as [|n IH]; cbn; [ring|]. rewrite IH. ring. Qed.

Lemma fsum_scale n c f : fsum n (fun t => c ⊗ f t) = c ⊗ fsum n f.
Proof. induction n as [|n IH]; cbn; [ring|]. rewrite IH. ring. Qed.

Lemma fsum_zero n f : (forall t, t < n -> f t = f0) -> fsum n f = f0.
Proof. induction n as [|n IH]; intros H; cbn; [done|]. rewrite IH, H by auto. ring. Qed.

(** ** Schur complements *)
Context (N : nat) (x y d : nat -> F).
Context (Hxy : forall i j, i < N -> j < N -> x i ⊖ y j <> f0)
  (Hx : forall i j, i < N -> j < N -> i <> j -> x i ⊖ x j <> f0)
  (Hy : forall i j, i < N -> j < N -> i <> j -> y i ⊖ y j <> f0)
  (Hd : forall j, j < N -> d j <> f0).

Fixpoint gen_g (k i : nat) : F :=
  match k with O => f1 | S k' => gen_g k' i ⊗ ((x i ⊖ x k') ⊘ (x i ⊖ y k')) end.
Fixpoint gen_b (k j : nat) : F :=
  match k with O => f1 | S k' => gen_b k' j ⊗ ((y j ⊖ y k') ⊘ (y j ⊖ x k')) end.

(** The complement after [k] steps; [schur 0] is the matrix. *)
Definition schur (k i j : nat) : F := gen_g k i ⊗ gen_b k j ⊗ d j ⊘ (x i ⊖ y j).

Lemma f1_neq_f0 : f1 <> f0.
Proof. apply (F_1_neq_0 FT). Qed.

Lemma fmul_nonzero a b : a <> f0 -> b <> f0 -> a ⊗ b <> f0.
Proof.
  intros Ha Hb E. apply Hb. transitivity (finv a ⊗ (a ⊗ b)); [field; done|]. rewrite E. field. done.
Qed.

Lemma fdiv_nonzero a b : a <> f0 -> b <> f0 -> a ⊘ b <> f0.
Proof. intros Ha Hb E. apply Ha. transitivity (a ⊘ b ⊗ b); [field; done|]. rewrite E. ring. Qed.

Lemma yx_nonzero i j : i < N -> j < N -> y j ⊖ x i <> f0.
Proof. intros Hi Hj E. apply (Hxy i j Hi Hj). transitivity (f0 ⊖ (y j ⊖ x i)); [ring|]. rewrite E. ring. Qed.

Lemma gen_g_nonzero k i : k <= i -> i < N -> gen_g k i <> f0.
Proof.
  induction k as [|k IH]; intros Hk Hi; cbn; [apply f1_neq_f0|].
  apply fmul_nonzero; [apply IH; lia|]. apply fdiv_nonzero; [apply Hx|apply Hxy]; lia.
Qed.

Lemma gen_b_nonzero k j : k <= j -> j < N -> gen_b k j <> f0.
Proof.
  induction k as [|k IH]; intros Hk Hj; cbn; [apply f1_neq_f0|].
  apply fmul_nonzero; [apply IH; lia|]. apply fdiv_nonzero; [apply Hy; lia|apply yx_nonzero; lia].
Qed.

(** Columns already eliminated are zero. *)
Lemma gen_b_zero k j : j < k -> j < N -> k <= N -> gen_b k j = f0.
Proof.
  induction k as [|k IH]; intros Hj HN Hk; [lia|]. cbn. destruct (decide (j = k)) as [->|Hne].
  - assert (y k ⊖ y k = f0) as -> by ring. field. apply yx_nonzero; lia.
  - rewrite IH by lia. field. apply yx_nonzero; lia.
Qed.

Lemma schur_diag_nonzero k : k < N -> schur k k k <> f0.
Proof.
  intros Hk. unfold schur. apply fdiv_nonzero; [|apply Hxy; lia].
  apply fmul_nonzero; [apply fmul_nonzero; [apply gen_g_nonzero|apply gen_b_nonzero]; lia|by apply Hd].
Qed.

Lemma schur_zero k i j : j < k -> j < N -> k <= N -> i < N -> schur k i j = f0.
Proof. intros. unfold schur. rewrite gen_b_zero by lia. field. apply Hxy; lia. Qed.

(** One elimination step gives the next complement. *)
Lemma schur_step k i j : k < N -> i < N -> j < N ->
  schur (S k) i j = schur k i j ⊖ (schur k i k ⊘ schur k k k) ⊗ schur k k j.
Proof.
  intros Hk Hi Hj. pose proof (gen_g_nonzero k k ltac:(lia) Hk). pose proof (gen_b_nonzero k k ltac:(lia) Hk).
  pose proof (Hd k Hk). unfold schur. cbn [gen_g gen_b]. field.
  split_and!; try done; by (apply Hxy || apply yx_nonzero).
Qed.

(** ** Solving the system *)
Context (e : nat -> F).

(** Row [i] of the right-hand side after [k] steps. *)
Definition lower (k i : nat) : F := fsum N (fun t => schur k i t ⊗ e t).

(** The factors of the decomposition. *)
Definition factor_L (i k : nat) : F := schur k i k ⊘ schur k k k.
Definition factor_U (i t : nat) : F := schur i i t ⊘ schur i i i.

Lemma lower_step k i : k < N -> i < N -> lower (S k) i = lower k i ⊖ factor_L i k ⊗ lower k k.
Proof.
  intros Hk Hi. unfold lower. rewrite <- fsum_sub. apply fsum_ext. intros t Ht.
  rewrite schur_step by lia. unfold factor_L. ring.
Qed.

(** Row [i] when the columns from [m] on have been eliminated. *)
Definition upper (m i : nat) : F := fsum m (fun t => factor_U i t ⊗ e t).

Lemma diagonal_step i : i < N -> upper N i = lower i i ⊘ schur i i i.
Proof.
  intros Hi. pose proof (schur_diag_nonzero i Hi). unfold upper, lower, factor_U.
  rewrite (fsum_ext _ _ (fun t => finv (schur i i i) ⊗ (schur i i t ⊗ e t))) by (intros; field; done).
  rewrite fsum_scale. field. done.
Qed.

Lemma upper_step j i : upper j i = upper (S j) i ⊖ factor_U i j ⊗ e j.
Proof. unfold upper. cbn [fsum]. ring. Qed.

Lemma upper_done i : i < N -> upper (S i) i = e i.
Proof.
  intros Hi. pose proof (schur_diag_nonzero i Hi). unfold upper, factor_U. cbn [fsum].
  rewrite fsum_zero; [field; done|]. intros t Ht. rewrite schur_zero by lia. field. done.
Qed.

(** The factors as the code computes them, before the scaling of the columns
    of U by [d]. *)
Lemma factor_L_code k i : k < N -> i < N -> k <= i ->
  factor_L i k = (gen_g k i ⊘ (x i ⊖ y k)) ⊘ (gen_g k k ⊘ (x k ⊖ y k)).
Proof.
  intros Hk Hi Hki. pose proof (gen_g_nonzero k k ltac:(lia) Hk). pose proof (gen_b_nonzero k k ltac:(lia) Hk).
  pose proof (Hd k Hk). unfold factor_L, schur. field. split_and!; try done; by apply Hxy.
Qed.

Lemma factor_U_code k j : k < N -> j < N ->
  factor_U k j = (gen_b k j ⊘ (x k ⊖ y j)) ⊘ ((gen_b k k ⊘ (x k ⊖ y k)) ⊗ d k) ⊗ d j.
Proof.
  intros Hk Hj. pose proof (gen_g_nonzero k k ltac:(lia) Hk). pose proof (gen_b_nonzero k k ltac:(lia) Hk).
  pose proof (Hd k Hk). unfold factor_U, schur. field. split_and!; try done; by apply Hxy.
Qed.

Lemma diag_code k : k < N ->
  schur k k k = (x k ⊖ y k) ⊗ ((gen_g k k ⊘ (x k ⊖ y k)) ⊗ ((gen_b k k ⊘ (x k ⊖ y k)) ⊗ d k)).
Proof. intros Hk. unfold schur. field. by apply Hxy. Qed.

Lemma diag_last_code k : k < N ->
  schur k k k = (gen_g k k ⊗ (gen_b k k ⊗ d k)) ⊘ (x k ⊖ y k).
Proof. intros Hk. unfold schur. field. by apply Hxy. Qed.
End Cauchy.
