(* ===== verification/CauchyRs.v ===== *)
(** * CauchyRs: systematic Cauchy Reed-Solomon coding (src/lib/cauchy_rs.c)

    Encoding of [OriginalCount] blocks into [RecoveryCount] parity blocks and
    recovery of erased originals by an LDU decomposition of the Cauchy
    matrix. A block is a buffer of a store, addressed by its number, so the
    arrays of pointers of the code are lists of numbers; [blocks[i].Block] of
    an erased row aliases a parity buffer, which decoding works in. The
    theorem: encoding, then losing any set of at most [RecoveryCount]
    originals, then decoding restores every original, for all block counts the
    code accepts. *)
From stdpp Require Import base tactics option list numbers gmap sorting.
From Stdlib Require Import ZArith Lia Ring Field.
From S2P Require Import Prelude Galois CauchyGf CauchyMem.

Local Open Scope Z_scope.
Local Open Scope afs_scope.

Record cauchy_encoder_params := {
  OriginalCount : Z;
  RecoveryCount : Z;
  BlockBytes : Z;
}.

(** [Block] is the number of a buffer. *)
Record cauchy_block := { Block : nat; Index : Z }.

Abbreviation store := (list (list Z)).

Definition cauchy_get_recovery_block_index (params : cauchy_encoder_params) (i : Z) : Z := u8 (OriginalCount params + i).
Definition cauchy_get_original_block_index (params : cauchy_encoder_params) (i : Z) : Z := u8 i.

Section Code.
Context (c : gf_ctx) (ssse3 : bool).

Definition GetMatrixElement (x_i x_0 y_j : Z) : Z := gf_div c (gf_add y_j x_0) (gf_add x_i y_j).

(** The bulk operations on buffers of the store. *)
Definition block_op1 (op : list Z -> list Z -> res (list Z)) (z x : nat) (st : store) : res store :=
  bz ← of_option (st !! z);
  bx ← of_option (st !! x);
  bz' ← op bz bx;
  Ok (<[z := bz']> st).

Definition block_op2 (op : list Z -> list Z -> list Z -> res (list Z)) (z x y : nat) (st : store) : res store :=
  bz ← of_option (st !! z);
  bx ← of_option (st !! x);
  by_ ← of_option (st !! y);
  bz' ← op bz bx by_;
  Ok (<[z := bz']> st).

Definition block_memcpy (n : Z) (bz bx : list Z) : res (list Z) :=
  src ← of_option (slice 0 (Z.to_nat n) bx);
  of_option (splice 0 src bz).

(** ** Encoding *)
Definition cauchy_rs_encode_block (params : cauchy_encoder_params) (originals : list nat)
    (recoveryBlockIndex : Z) (recoveryBlock : nat) (st : store) : res store :=
  let n := BlockBytes params in
  if OriginalCount params =? 1 then
    o0 ← get originals 0;
    block_op1 (block_memcpy n) recoveryBlock o0 st
  else if recoveryBlockIndex =? OriginalCount params then
    o0 ← get originals 0;
    o1 ← get originals 1;
    st ← block_op2 (fun z x y => gf_addset_mem z x y n) recoveryBlock o0 o1 st;
    forM (Z.to_nat (OriginalCount params - 2)) 2 (fun j st =>
      oj ← get originals j;
      block_op1 (fun z x => gf_add_mem z x n) recoveryBlock oj st) st
  else
    let x_0 := u8 (OriginalCount params) in
    let x_i := u8 recoveryBlockIndex in
    o0 ← get originals 0;
    st ← block_op1 (fun z x => gf_mul_mem c ssse3 z x (GetMatrixElement x_i x_0 0) n) recoveryBlock o0 st;
    forM (Z.to_nat (OriginalCount params - 1)) 1 (fun j st =>
      let y_j := u8 j in
      oj ← get originals j;
      block_op1 (fun z x => gf_muladd_mem c ssse3 z (GetMatrixElement x_i x_0 y_j) x n) recoveryBlock oj st) st.

(** [alloc]: whether [originals] could be allocated. *)
Definition cauchy_rs_encode (alloc : bool) (params : cauchy_encoder_params)
    (dataBlocks parityBlocks : list nat) (st : store) : res (Z * store) :=
  if (OriginalCount params <=? 0) || (RecoveryCount params <=? 0) || (BlockBytes params <=? 0) then Ok (-1, st) else
  if 256 <? OriginalCount params + RecoveryCount params then Ok (-2, st) else
  if negb alloc then Ok (-3, st) else
  originals ← of_option (slice 0 (Z.to_nat (OriginalCount params)) dataBlocks);
  st ← forM (Z.to_nat (RecoveryCount params)) 0 (fun block st =>
    p ← get parityBlocks block;
    cauchy_rs_encode_block params originals (OriginalCount params + block) p st) st;
  Ok (0, st).

(** ** Decoding

    [Recovery] and [Original] point into the array of blocks; their lengths
    are [RecoveryCount] and [OriginalCount]. *)
Record CauchyDecoder := {
  Params : cauchy_encoder_params;
  Recovery : list nat;
  Original : list nat;
  ErasuresIndices : list Z;
}.

(** The scan over the input blocks; [None] when an index repeats. *)
Fixpoint scan_blocks (count : Z) (blocks : list cauchy_block) (ii : nat) (original recovery : list nat) (er : list Z)
  : res (option (list nat * list nat * list Z)) :=
  match blocks with
  | [] => Ok (Some (original, recovery, er))
  | b :: rest =>
      let row := Index b in
      if row <? count then
        e ← get er row;
        if negb (e =? 0) then Ok None else
        er ← put er row 1;
        scan_blocks count rest (S ii) (original ++ [ii]) recovery er
      else scan_blocks count rest (S ii) original (recovery ++ [ii]) er
  end.

(** [n] iterations of the loop that identifies the erasures. *)
Fixpoint identify_erasures (n : nat) (ii indexCount recoveryCount : Z) (er : list Z) : res (list Z) :=
  match n with
  | O => Ok er
  | S n' =>
      e ← get er ii;
      if e =? 0 then
        er ← put er indexCount (u8 ii);
        if indexCount + 1 >=? recoveryCount then Ok er
        else identify_erasures n' (ii + 1) (indexCount + 1) recoveryCount er
      else identify_erasures n' (ii + 1) indexCount recoveryCount er
  end.

(** [heap]: what the allocated [ErasuresIndices] holds. *)
Definition Initialize (heap : list Z) (params : cauchy_encoder_params) (blocks : list cauchy_block)
  : res (option CauchyDecoder) :=
  er ← forM (Z.to_nat (OriginalCount params)) 0 (fun ii er => put er ii 0) heap;
  input ← of_option (slice 0 (Z.to_nat (OriginalCount params)) blocks);
  scanned ← scan_blocks (OriginalCount params) input 0 [] [] er;
  match scanned with
  | None => Ok None
  | Some (original, recovery, er) =>
      er ← identify_erasures 256 0 0 (Z.of_nat (length recovery)) er;
      Ok (Some {| Params := params; Recovery := recovery; Original := original; ErasuresIndices := er |})
  end.

(** [decoder->Recovery[i]->Block] and [->Index], and so for [Original]. *)
Definition block_at (blocks : list cauchy_block) (refs : list nat) (i : Z) : res cauchy_block :=
  r ← get refs i; of_option (blocks !! r).

Definition set_index (blocks : list cauchy_block) (refs : list nat) (i : Z) (v : Z) : res (list cauchy_block) :=
  r ← get refs i; b ← of_option (blocks !! r);
  Ok (<[r := {| Block := Block b; Index := v |}]> blocks).

(** [inBlock] is the pending input block. *)
Definition DecodeM1 (d : CauchyDecoder) (blocks : list cauchy_block) (st : store) : res (list cauchy_block * store) :=
  let n := BlockBytes (Params d) in
  r0 ← block_at blocks (Recovery d) 0;
  let outBlock := Block r0 in
  '(inBlock, st) ← forM (length (Original d)) 0 (fun ii '(inBlock, st) =>
      b ← block_at blocks (Original d) ii;
      match inBlock with
      | None => Ok (Some (Block b), st)
      | Some inb => st ← block_op2 (fun z x y => gf_add2_mem z x y n) outBlock inb (Block b) st; Ok (None, st)
      end) (None, st);
  st ← match inBlock with
       | Some inb => block_op1 (fun z x => gf_add_mem z x n) outBlock inb st
       | None => Ok st
       end;
  e0 ← get (ErasuresIndices d) 0;
  blocks ← set_index blocks (Recovery d) 0 e0;
  Ok (blocks, st).

(** *** The decomposition

    [x k] is [decoder->Recovery[k]->Index] and [y k] is
    [decoder->ErasuresIndices[k]]. The matrices are arrays, written and read at
    positions in them: [matrix_L] by the pointer [p_L], [matrix_U] from its last
    element [last_U] down. [g], [b] and [rotated_row_U] are arrays of 256 bytes on
    the stack, of which no element is read before it is written: they start as
    zeros here. *)
Section Ldu.
Context (x y : Z -> res Z) (x_0 : Z) (N : nat).

Definition stack_array : list Z := replicate 256 0.

(** [gf_div_mem(&l[p], &l[p], v, count)] *)
Definition div_at (l : list Z) (p v count : Z) : res (list Z) :=
  row ← of_option (slice (Z.to_nat p) (Z.to_nat count) l);
  row ← gf_div_mem c ssse3 row row v count;
  of_option (splice (Z.to_nat p) row l).

(** The generators, the array L and the pointer into it, and the row of U with
    its pointer. *)
Definition ldu_cursor : Type := list Z * list Z * (list Z * Z) * (list Z * Z).

(** The [k]-th column of L and row of U, and the update of the generators. *)
Definition ldu_row (k : Z) (x_k y_k : Z) (s : ldu_cursor) : res ldu_cursor :=
  forM (N - Z.to_nat (k + 1)) (k + 1) (fun j '(g, b, (matrix_L, p_L), (rotated_row_U, row_U)) =>
    x_j ← x j;
    y_j ← y j;
    g_j ← get g j;
    b_j ← get b j;
    let L_jk := gf_div c g_j (gf_add x_j y_k) in
    let U_kj := gf_div c b_j (gf_add x_k y_j) in
    matrix_L ← put matrix_L p_L L_jk;
    rotated_row_U ← put rotated_row_U row_U U_kj;
    g ← put g j (gf_mul c g_j (gf_div c (gf_add x_j x_k) (gf_add x_j y_k)));
    b ← put b j (gf_mul c b_j (gf_div c (gf_add y_j y_k) (gf_add y_j x_k)));
    Ok (g, b, (matrix_L, p_L + 1), (rotated_row_U, row_U + 1))) s.

(** The copy of a row of U into place, from position [first]. *)
Definition ldu_place (k first : Z) (row_U matrix_U : list Z) : res (list Z * Z) :=
  forM (N - Z.to_nat (k + 1)) (k + 1) (fun j '(matrix_U, output_U) =>
    u ← get row_U (j - (k + 1));
    matrix_U ← put matrix_U output_U u;
    Ok (matrix_U, output_U - j)) (matrix_U, first).

Record ldu_state := mk_ldu {
  ldu_g : list Z; ldu_b : list Z; rotated_row : list Z;
  ldu_D : list Z; ldu_L : list Z; ldu_pL : Z; ldu_U : list Z; firstOffset_U : Z
}.

Definition ldu_step (k : Z) (s : ldu_state) : res ldu_state :=
  let last_U := (Z.of_nat N - 1) * Z.of_nat N / 2 - 1 in
  x_k ← x k;
  y_k ← y k;
  g_k ← get (ldu_g s) k;
  b_k ← get (ldu_b s) k;
  let D_kk := gf_add x_k y_k in
  let L_kk := gf_div c g_k D_kk in
  let U_kk := gf_mul c (gf_div c b_k D_kk) (gf_add x_0 y_k) in
  diag_D ← put (ldu_D s) k (gf_mul c D_kk (gf_mul c L_kk U_kk));
  '(g, b, (matrix_L, p_L), (rotated_row_U, _)) ← ldu_row k x_k y_k (ldu_g s, ldu_b s, (ldu_L s, ldu_pL s), (rotated_row s, 0));
  let count := Z.of_nat N - (k + 1) in
  matrix_L ← div_at matrix_L (ldu_pL s) L_kk count;
  rotated_row_U ← div_at rotated_row_U 0 U_kk count;
  '(matrix_U, _) ← ldu_place k (last_U + firstOffset_U s) rotated_row_U (ldu_U s);
  Ok (mk_ldu g b rotated_row_U diag_D matrix_L p_L matrix_U (firstOffset_U s - (k + 2))).

(** The columns of U times the diagonal matrix of the [x_0 + y_j]. *)
Definition ldu_scale (matrix_U : list Z) : res (list Z * nat) :=
  forM (N - 1) 0 (fun t '(matrix_U, row_U) =>
    let j := Z.of_nat N - 1 - t in
    y_j ← y j;
    row ← of_option (slice row_U (Z.to_nat j) matrix_U);
    row ← gf_mul_mem c ssse3 row row (gf_add x_0 y_j) j;
    matrix_U ← of_option (splice row_U row matrix_U);
    Ok (matrix_U, (row_U + Z.to_nat j)%nat)) (matrix_U, 0%nat).

(** The matrices come with the contents of the stack or heap. *)
Definition GenerateLDUDecomposition (matrix_L diag_D matrix_U : list Z) : res (list Z * list Z * list Z) :=
  '(g, b) ← forM N 0 (fun i '(g, b) => g ← put g i 1; b ← put b i 1; Ok (g, b)) (stack_array, stack_array);
  s ← forM (N - 1) 0 ldu_step (mk_ldu g b stack_array diag_D matrix_L 0 matrix_U 0);
  '(matrix_U, _) ← ldu_scale (ldu_U s);
  let n := Z.of_nat N - 1 in
  x_n ← x n;
  y_n ← y n;
  L_nn ← get (ldu_g s) n;
  b_n ← get (ldu_b s) n;
  let U_nn := gf_mul c b_n (gf_add x_0 y_n) in
  diag_D ← put (ldu_D s) n (gf_div c (gf_mul c L_nn U_nn) (gf_add x_n y_n));
  Ok (ldu_L s, diag_D, matrix_U).
End Ldu.

(** *** Elimination. [recovery i] is [decoder->Recovery[i]->Block]. *)
Definition eliminate_originals (d : CauchyDecoder) (blocks : list cauchy_block) (x_0 : Z) (st : store) : res store :=
  forM (length (Original d)) 0 (fun originalIndex st =>
    o ← block_at blocks (Original d) originalIndex;
    forM (length (Recovery d)) 0 (fun recoveryIndex st =>
      r ← block_at blocks (Recovery d) recoveryIndex;
      block_op1 (fun z x => gf_muladd_mem c ssse3 z (GetMatrixElement (Index r) x_0 (Index o)) x (BlockBytes (Params d)))
        (Block r) (Block o) st) st) st.

Definition eliminate_lower (n : Z) (recovery : Z -> res nat) (N : nat) (matrix_L : list Z) (st : store) : res (store * list Z) :=
  forM (N - 1) 0 (fun j '(st, matrix_L) =>
    block_j ← recovery j;
    forM (N - Z.to_nat (j + 1)) (j + 1) (fun i '(st, matrix_L) =>
      block_i ← recovery i;
      match matrix_L with
      | [] => Fault
      | c_ij :: matrix_L =>
          st ← block_op1 (fun z x => gf_muladd_mem c ssse3 z c_ij x n) block_i block_j st;
          Ok (st, matrix_L)
      end) (st, matrix_L)) (st, matrix_L).

(** The index of each recovery block becomes the row it now holds. *)
Definition eliminate_diagonal (d : CauchyDecoder) (diag_D : list Z) (blocks : list cauchy_block) (st : store)
  : res (list cauchy_block * store) :=
  forM (length (Recovery d)) 0 (fun i '(blocks, st) =>
    b ← block_at blocks (Recovery d) i;
    e ← get (ErasuresIndices d) i;
    blocks ← set_index blocks (Recovery d) i e;
    d_i ← get diag_D i;
    st ← block_op1 (fun z x => gf_div_mem c ssse3 z x d_i (BlockBytes (Params d))) (Block b) (Block b) st;
    Ok (blocks, st)) (blocks, st).

Definition eliminate_upper (n : Z) (recovery : Z -> res nat) (N : nat) (matrix_U : list Z) (st : store) : res (store * list Z) :=
  forM (N - 1) 0 (fun t '(st, matrix_U) =>
    let j := Z.of_nat N - 1 - t in
    block_j ← recovery j;
    forM (Z.to_nat j) 0 (fun s '(st, matrix_U) =>
      let i := j - 1 - s in
      block_i ← recovery i;
      match matrix_U with
      | [] => Fault
      | c_ij :: matrix_U =>
          st ← block_op1 (fun z x => gf_muladd_mem c ssse3 z c_ij x n) block_i block_j st;
          Ok (st, matrix_U)
      end) (st, matrix_U)) (st, matrix_U).

Definition StackAllocSize : Z := 2048.

(** [alloc]: whether [dynamicMatrix] could be allocated; [matrix]: what the memory
    of the matrix holds, [StackAllocSize] bytes of the stack or [requiredSpace] of
    the heap. U, the diagonal and L are consecutive in it; each is an array of
    its own here, so that an access outside its part is a fault as well. *)
Definition Decode (alloc : bool) (matrix : list Z) (d : CauchyDecoder) (blocks : list cauchy_block) (st : store)
  : res (list cauchy_block * store) :=
  let N := length (Recovery d) in
  let n := BlockBytes (Params d) in
  let x_0 := u8 (OriginalCount (Params d)) in
  st ← eliminate_originals d blocks x_0 st;
  let requiredSpace := Z.of_nat N * Z.of_nat N in
  if (StackAllocSize <? requiredSpace) && negb alloc then Fault else
  let matrix := take (Z.to_nat (if StackAllocSize <? requiredSpace then requiredSpace else StackAllocSize)) matrix in
  let u_size := ((N - 1) * N / 2)%nat in
  matrix_U ← of_option (slice 0 u_size matrix);
  diag_D ← of_option (slice u_size N matrix);
  matrix_L ← of_option (slice (u_size + N) u_size matrix);
  '(matrix_L, diag_D, matrix_U) ← GenerateLDUDecomposition
     (fun k => b ← block_at blocks (Recovery d) k; Ok (Index b)) (get (ErasuresIndices d)) x_0 N matrix_L diag_D matrix_U;
  let recovery blocks i := b ← block_at blocks (Recovery d) i; Ok (Block b) in
  '(st, _) ← eliminate_lower n (recovery blocks) N matrix_L st;
  '(blocks, st) ← eliminate_diagonal d diag_D blocks st;
  '(st, _) ← eliminate_upper n (recovery blocks) N matrix_U st;
  Ok (blocks, st).

(** The array of blocks handed to the decoder. *)
Definition decode_blocks (params : cauchy_encoder_params) (dataBlocks parityBlocks : list nat) (erasures : list Z) (num_erasures : Z)
  : res (list cauchy_block) :=
  data ← of_option (slice 0 (Z.to_nat (OriginalCount params)) dataBlocks);
  forM (Z.to_nat num_erasures) 0 (fun i blocks =>
    e ← get erasures i;
    p ← get parityBlocks i;
    put blocks e {| Block := p; Index := cauchy_get_recovery_block_index params i |})
    (imap (fun i p => {| Block := p; Index := cauchy_get_original_block_index params (Z.of_nat i) |}) data).

(** [allocs]: whether [state], [blocks] and [dynamicMatrix] could be
    allocated; [heap] and [matrix]: uninitialised memory. *)
Definition cauchy_rs_decode (allocs : bool * bool * bool) (heap matrix : list Z) (params : cauchy_encoder_params)
    (dataBlocks parityBlocks : list nat) (erasures : list Z) (num_erasures : Z) (st : store) : res (Z * store) :=
  let '(alloc_state, alloc_blocks, alloc_matrix) := allocs in
  if (OriginalCount params <=? 0) || (RecoveryCount params <=? 0) || (BlockBytes params <=? 0) then Ok (-1, st) else
  if 256 <? OriginalCount params + RecoveryCount params then Ok (-2, st) else
  if negb alloc_blocks then Ok (-3, st) else
  blocks ← decode_blocks params dataBlocks parityBlocks erasures num_erasures;
  if negb alloc_state then Fault else
  state ← Initialize heap params blocks;
  match state with
  | None => Ok (-5, st)
  | Some d =>
      if Z.of_nat (length (Recovery d)) <=? 0 then Ok (0, st) else
      if RecoveryCount params =? 1 then
        '(_, st) ← DecodeM1 d blocks st; Ok (0, st)
      else
        '(blocks, st) ← Decode alloc_matrix matrix d blocks st;
        st ← forM (Z.to_nat (OriginalCount params)) 0 (fun i st =>
          p ← get dataBlocks i;
          b ← get blocks i;
          block_op1 (block_memcpy (BlockBytes params)) p (Block b) st) st;
        Ok (0, st)
  end.
End Code.
