(* ===== verification/CauchyLdu.v ===== *)
(** * CauchyLdu: the decomposition computed by the decoder (src/lib/cauchy_rs.c)

    [GenerateLDUDecomposition] writes the factors of CauchyMatrix to its
    packed arrays: L column by column, the diagonal, and U in the rotated
    order that the elimination reads, with every access in range. *)
From stdpp Require Import base tactics option list numbers gmap.
From Stdlib Require Import ZArith Lia Ring Field.
From S2P Require Import Prelude Galois CauchyGf CauchyMem CauchyMatrix CauchyRs.

Local Open Scope Z_scope.
Local Open Scope afs_scope.

(** ** The field of the code *)
Abbreviation fval := (@proj1_sig Z (fun a => bool_decide (is_byte a) = true)).
Abbreviation fmul := (gfmul cauchy_poly cpoly_range cpoly_top clog).
Abbreviation fdiv := (gfdiv cauchy_poly cpoly_range cpoly_top clog).
Abbreviation finv := (gfinv cauchy_poly cpoly_range cpoly_top clog).

Lemma cauchy_field : field_theory gf0 gf1 gfadd fmul gfsub gfopp fdiv finv eq.
Proof. apply gf_field. apply _. Qed.

Lemma fval_nonzero (a : gf) : a <> gf0 -> fval a <> 0.
Proof. intros H E. apply H. by apply gf_eq. Qed.

Lemma code_add (a b : gf) : gf_add (fval a) (fval b) = fval (gfsub a b).
Proof. done. Qed.

Lemma code_mul (a b : gf) : gf_mul ready_ctx (fval a) (fval b) = fval (fmul a b).
Proof. apply gf_mul_spec; apply gf_byte. Qed.

Lemma code_div (a b : gf) : b <> gf0 -> gf_div ready_ctx (fval a) (fval b) = fval (fdiv a b).
Proof. intros Hb. apply gf_div_spec; [apply gf_byte|apply gf_byte|by apply fval_nonzero]. Qed.

Lemma fvals_bytes (f : nat -> gf) l : bytes (map (fun i => fval (f i)) l).
Proof. apply Forall_map, Forall_forall. intros. apply gf_byte. Qed.

Lemma gfsub_comm (a b : gf) : gfsub a b = gfsub b a.
Proof. apply gf_eq. cbn. apply Z.lxor_comm. Qed.

(** Whole rows of field elements. *)
Lemma div_row_mem ssse3 (f : nat -> gf) l (d : gf) n :
  n = length l -> d <> gf0 ->
  gf_div_mem ready_ctx ssse3 (map (fun i => fval (f i)) l) (map (fun i => fval (f i)) l) (fval d) (Z.of_nat n)
  = Ok (map (fun i => fval (fdiv (f i) d)) l).
Proof.
  intros -> Hd. pose proof (fvals_bytes f l). rewrite gf_div_mem_spec; try (done || apply gf_byte || by apply fval_nonzero);
    try (rewrite length_map; lia).
  rewrite take_ge, drop_ge, app_nil_r, map_map by (rewrite length_map; lia). done.
Qed.

Lemma mul_row_mem ssse3 (f : nat -> gf) l (d : gf) n :
  n = length l ->
  gf_mul_mem ready_ctx ssse3 (map (fun i => fval (f i)) l) (map (fun i => fval (f i)) l) (fval d) (Z.of_nat n)
  = Ok (map (fun i => fval (fmul (f i) d)) l).
Proof.
  intros ->. pose proof (fvals_bytes f l). rewrite gf_mul_mem_spec; try (done || apply gf_byte);
    try (rewrite length_map; lia).
  rewrite take_ge, drop_ge, app_nil_r, map_map by (rewrite length_map; lia). done.
Qed.

(** ** Arrays filled by a pointer

    [l'] is [l] with [xs] written from position [p] on. *)
Definition filled {A} (l : list A) (p : nat) (xs l' : list A) : Prop :=
  length l' = length l /\ take (p + length xs) l' = take p l ++ xs.

Lemma filled_nil {A} (l : list A) p : filled l p [] l.
Proof. split; [done|]. cbn [length]. by rewrite Nat.add_0_r, app_nil_r. Qed.

Lemma filled_put {A} (l l' : list A) p xs v : (p + length xs < length l)%nat -> filled l p xs l' ->
  filled l p (xs ++ [v]) (<[(p + length xs)%nat := v]> l').
Proof.
  intros Hb [Hl Ht]. split; [by rewrite length_insert|]. rewrite length_app. cbn [length].
  replace (p + (length xs + 1))%nat with (S (p + length xs)) by lia.
  rewrite (take_S_r _ _ v) by (apply list_lookup_insert_eq; lia). rewrite take_insert_ge, Ht by lia. by rewrite app_assoc.
Qed.

Lemma filled_slice {A} (l l' : list A) p xs : (p + length xs <= length l)%nat -> filled l p xs l' -> slice p (length xs) l' = Some xs.
Proof.
  intros Hb [Hl Ht]. rewrite slice_Some by lia. f_equal.
  rewrite <- (take_drop (p + length xs) l'), Ht, <- app_assoc, drop_app_length' by (rewrite length_take; lia). by rewrite take_app_length.
Qed.

Lemma filled_lookup {A} (l l' : list A) p xs i v : (p + length xs <= length l)%nat -> filled l p xs l' -> xs !! i = Some v -> l' !! (p + i)%nat = Some v.
Proof.
  intros Hb [Hl Ht] Hi. assert (i < length xs)%nat by by apply lookup_lt_Some in Hi.
  rewrite <- (lookup_take_lt l' (p + length xs)), Ht, lookup_app_r by (rewrite ?length_take; lia).
  rewrite length_take. by replace (p + i - Nat.min p (length l))%nat with i by lia.
Qed.

Lemma filled_splice {A} (l l' : list A) p xs ys : (p + length xs <= length l)%nat -> filled l p xs l' -> length ys = length xs ->
  exists l2, splice p ys l' = Some l2 /\ filled l p ys l2.
Proof.
  intros Hb [Hl Ht] Hy. rewrite splice_Some by lia. eexists. split; [done|]. split.
  - rewrite !length_app, length_take, length_drop. lia.
  - rewrite app_assoc, take_app_length' by (rewrite length_app, length_take; lia). f_equal.
    rewrite <- (take_app_length' (take p l) xs p), <- Ht, take_take by (rewrite length_take; lia). f_equal. lia.
Qed.

(** ** Triangular numbering *)
Fixpoint tri (n : nat) : nat := match n with O => O | S n' => (tri n' + n)%nat end.

Lemma tri_mono a b : (a <= b)%nat -> (tri a <= tri b)%nat.
Proof. induction 1; cbn [tri]; lia. Qed.

Lemma tri_half n : (Z.of_nat (S n) - 1) * Z.of_nat (S n) / 2 = Z.of_nat (tri n).
Proof.
  assert (H : Z.of_nat n * Z.of_nat (S n) = Z.of_nat (tri n) * 2) by (induction n; cbn [tri] in *; lia).
  replace (Z.of_nat (S n) - 1) with (Z.of_nat n) by lia. rewrite H. apply Z.div_mul. lia.
Qed.

Lemma tri_half_nat n : ((S n - 1) * S n / 2)%nat = tri n.
Proof. 
  assert (H : (n * S n = tri n * 2)%nat) by (induction n; cbn [tri] in *; lia).
  replace (S n - 1)%nat with n by lia. rewrite H. by apply Nat.div_mul.
Qed.

Lemma tri_inj i j i' j' :
  (i < j)%nat -> (i' < j')%nat -> (tri (j - 1) + i = tri (j' - 1) + i')%nat -> i = i' /\ j = j'.
Proof.
  intros Hi Hi' E. assert (H : forall a, (0 < a)%nat -> tri a = (tri (a - 1) + a)%nat).
  { intros [|a] Ha; [lia|]. cbn [tri]. by replace (S a - 1)%nat with a by lia. }
  pose proof (H j ltac:(lia)). pose proof (H j' ltac:(lia)).
  destruct (Nat.lt_trichotomy j j') as [Hlt|[->|Hlt]]; [|lia|].
  - pose proof (tri_mono j (j' - 1) ltac:(lia)). lia.
  - pose proof (tri_mono j' (j - 1) ltac:(lia)). lia.
Qed.

(** ** The decomposition *)
Section Decomposition.
Context (ssse3 : bool) (x y : Z -> res Z) (X Y : nat -> gf) (x0 : gf) (M : nat).
Let N := S M.
Context (HN : (N <= 256)%nat)
  (Ex : forall i, (i < N)%nat -> x (Z.of_nat i) = Ok (fval (X i)))
  (Ey : forall i, (i < N)%nat -> y (Z.of_nat i) = Ok (fval (Y i))).
Let D (j : nat) : gf := gfsub x0 (Y j).
Context (Hxy : forall i j, (i < N)%nat -> (j < N)%nat -> gfsub (X i) (Y j) <> gf0)
  (Hx : forall i j, (i < N)%nat -> (j < N)%nat -> i <> j -> gfsub (X i) (X j) <> gf0)
  (Hy : forall i j, (i < N)%nat -> (j < N)%nat -> i <> j -> gfsub (Y i) (Y j) <> gf0)
  (Hd : forall j, (j < N)%nat -> D j <> gf0).

Local Notation G := (gen_g gf1 fmul gfsub fdiv X Y).
Local Notation B := (gen_b gf1 fmul gfsub fdiv X Y).
Local Notation Sch := (schur gf1 fmul gfsub fdiv X Y D).
Local Notation Lf := (factor_L gf1 fmul gfsub fdiv X Y D).
Local Notation Uf := (factor_U gf1 fmul gfsub fdiv X Y D).

(** The generators when rows [k < i < j] have been updated. *)
Definition gens (gen : nat -> nat -> gf) (k j : nat) (l : list Z) : Prop :=
  length l = 256%nat /\ forall i, (k <= i < N)%nat ->
    l !! i = Some (fval (gen (if decide (k < i < j)%nat then S k else k) i)).

Lemma gens_start : exists g,
  forM N 0 (fun i '(g, b) => g ← put g i 1; b ← put b i 1; Ok (g, b)) (stack_array, stack_array) = Ok (g, g) /\
  forall gen, (forall i, gen 0%nat i = gf1) -> gens gen 0 0 g.
Proof.
  forM_induction (fun (k : nat) (s : list Z * list Z) => length (fst s) = 256%nat /\ snd s = fst s /\ forall i, (i < k)%nat -> fst s !! i = Some 1).
  - split; [apply length_replicate|]. split; [done|]. intros. lia.
  - intros k [g b] Hk (Hl & E & Hg). cbn [fst snd] in *. subst b. rewrite put_nat by lia. rewrite !bind_Ok. eexists. split; [done|].
    cbn [fst snd]. split; [by rewrite length_insert|]. split; [done|].
    intros i Hi. destruct (decide (i = k)) as [->|Hne]; [by rewrite list_lookup_insert_eq by lia|].
    rewrite list_lookup_insert_ne by done. apply Hg. lia.
  - destruct Hloop as ([g b] & -> & Hl & E & Hg). cbn [fst snd] in *. subst b. exists g. split; [done|].
    intros gen H. split; [done|]. intros i Hi. rewrite Hg by lia. rewrite decide_False by lia. by rewrite H.
Qed.

Lemma gens_put gen k j l :
  (k < j < N)%nat -> gens gen k j l -> gens gen k (S j) (<[j := fval (gen (S k) j)]> l).
Proof.
  intros Hj [Hl H]. split; [by rewrite length_insert|]. intros i Hi. destruct (decide (i = j)) as [->|Hne].
  - rewrite list_lookup_insert_eq by lia. by rewrite decide_True by lia.
  - rewrite list_lookup_insert_ne by done. rewrite H by done. f_equal. f_equal. f_equal.
    by case_decide; case_decide; try lia.
Qed.

Lemma gens_next gen k l : (k < N)%nat -> gens gen k N l -> gens gen (S k) (S k) l.
Proof.
  intros Hk [Hl H]. split; [done|]. intros i Hi. rewrite H by lia. rewrite decide_True by lia.
  by rewrite decide_False by lia.
Qed.

Lemma gens_restart gen k l j : gens gen k k l -> (j <= S k)%nat -> gens gen k j l.
Proof.
  intros [Hl H] Hj. split; [done|]. intros i Hi. rewrite H by lia. by rewrite !decide_False by lia.
Qed.

(** Entries before the division by the pivot. *)
Let rawL (k i : nat) : gf := fdiv (G k i) (gfsub (X i) (Y k)).
Let rawU (k j : nat) : gf := fdiv (B k j) (gfsub (X k) (Y j)).

(** Column [k] of L and row [k] of U before the division, up to column [j]. *)
Let rowL (k j : nat) : list Z := map (fun i => fval (rawL k i)) (seq (S k) (j - S k)).
Let rowU (k j : nat) : list Z := map (fun i => fval (rawU k i)) (seq (S k) (j - S k)).

Lemma row_map_length (f : nat -> Z) k j : length (map f (seq (S k) (j - S k))) = (j - S k)%nat.
Proof. by rewrite length_map, length_seq. Qed.

Lemma row_next (f : nat -> Z) k j : (k < j)%nat -> map f (seq (S k) (S j - S k)) = map f (seq (S k) (j - S k)) ++ [f j].
Proof.
  intros H. replace (S j - S k)%nat with (S (j - S k)) by lia. rewrite seq_S, map_app. cbn [map].
  by replace (S k + (j - S k))%nat with j by lia.
Qed.

Definition row_inv (k o : nat) (l rot : list Z) (j : nat) (s : ldu_cursor) : Prop :=
  let '(g, b, (l', pL), (rot', pU)) := s in
  gens G k j g /\ gens B k j b /\ filled l o (rowL k j) l' /\ filled rot 0 (rowU k j) rot' /\
  pL = Z.of_nat (o + (j - S k)) /\ pU = Z.of_nat (j - S k).

Lemma ldu_row_spec k g b o l rot : (k < M)%nat -> gens G k k g -> gens B k k b -> (o + (M - k) <= length l)%nat -> length rot = 256%nat ->
  exists g' b' l' rot' pU, ldu_row ready_ctx x y N (Z.of_nat k) (fval (X k)) (fval (Y k)) (g, b, (l, Z.of_nat o), (rot, 0))
    = Ok (g', b', (l', Z.of_nat (o + (M - k))), (rot', pU)) /\
    gens G (S k) (S k) g' /\ gens B (S k) (S k) b' /\ filled l o (rowL k N) l' /\ filled rot 0 (rowU k N) rot'.
Proof.
  intros Hk Hg Hb Ho Hrot. unfold ldu_row. replace (Z.of_nat k + 1) with (Z.of_nat (S k)) by lia.
  rewrite Nat2Z.id. replace (N - S k)%nat with (M - k)%nat by (unfold N; lia).
  forM_induction (row_inv k o l rot).
  - unfold row_inv, rowL, rowU. rewrite Nat.sub_diag, Nat.add_0_r. cbn [seq map].
    split_and!; done || (by apply gens_restart) || apply filled_nil.
  - intros j [[[g1 b1] [l1 pL]] [rot1 pU]] Hj (Hg1 & Hb1 & HL & HU & -> & ->).
    assert (HjN : (j < N)%nat) by (unfold N; lia).
    rewrite Ex, Ey by done. cbn [mbind res_bind].
    assert (Egj : g1 !! j = Some (fval (G k j))) by (rewrite (proj2 Hg1) by lia; by rewrite decide_False by lia).
    assert (Ebj : b1 !! j = Some (fval (B k j))) by (rewrite (proj2 Hb1) by lia; by rewrite decide_False by lia).
    rewrite (get_nat _ _ _ Egj), (get_nat _ _ _ Ebj). cbn [mbind res_bind].
    rewrite !code_add. pose proof (Hxy j k ltac:(lia) ltac:(unfold N; lia)) as Hjk.
    pose proof (Hxy k j ltac:(unfold N; lia) ltac:(lia)) as Hkj.
    pose proof Hkj as Hkj'. rewrite gfsub_comm in Hkj'. rewrite !code_div, !code_mul by done.
    rewrite (put_nat l1), (put_nat rot1) by (rewrite ?(proj1 HL), ?(proj1 HU); lia). cbn [mbind res_bind].
    rewrite !put_nat by (rewrite ?(proj1 Hg1), ?(proj1 Hb1); lia). cbn [mbind res_bind].
    eexists. split; [done|]. unfold row_inv, rowL, rowU in *. rewrite !row_next by lia. split_and!.
    + apply (gens_put G k j g1); [lia|done].
    + apply (gens_put B k j b1); [lia|done].
    + replace (o + (j - S k))%nat with (o + length (map (fun i => fval (rawL k i)) (seq (S k) (j - S k))))%nat by (by rewrite row_map_length).
      apply filled_put; [rewrite row_map_length; lia|done].
    + replace (j - S k)%nat with (0 + length (map (fun i => fval (rawU k i)) (seq (S k) (j - S k))))%nat at 2 by (by rewrite row_map_length).
      apply filled_put; [rewrite row_map_length; lia|done].
    + lia.
    + lia.
  - destruct Hloop as ([[[g' b'] [l' pL]] [rot' pU]] & -> & Hg' & Hb' & HL & HU & -> & _). replace (S k + (M - k))%nat with N in * by (unfold N; lia).
    exists g', b', l', rot', pU. split; [|split_and!; done || (by apply gens_next; [unfold N; lia|])].
    by replace (N - S k)%nat with (M - k)%nat by (unfold N; lia).
Qed.

(** The division of a row in place. *)
Lemma div_at_spec (f : nat -> gf) l l' p sq (d : gf) : d <> gf0 -> (p + length sq <= length l)%nat -> filled l p (map (fun i => fval (f i)) sq) l' ->
  exists l2, div_at ready_ctx ssse3 l' (Z.of_nat p) (fval d) (Z.of_nat (length sq)) = Ok l2 /\ filled l p (map (fun i => fval (fdiv (f i) d)) sq) l2.
Proof.
  intros Hd0 Hp Hf. unfold div_at. rewrite !Nat2Z.id.
  assert (E : slice p (length sq) l' = Some (map (fun i => fval (f i)) sq)).
  { rewrite <- (length_map (fun i => fval (f i)) sq). apply (filled_slice l); [by rewrite length_map|done]. }
  rewrite E. cbn [of_option]. rewrite bind_Ok, (div_row_mem ssse3 f), bind_Ok by done.
  destruct (filled_splice l l' p _ (map (fun i => fval (fdiv (f i) d)) sq) ltac:(by rewrite length_map) Hf ltac:(by rewrite !length_map)) as (l2 & -> & H2).
  by exists l2.
Qed.

(** The position of U(t, j) in the packed array, and its value before the
    columns are scaled. *)
Let pos (t j : nat) : nat := (tri M - 1 - (tri (j - 1) + t))%nat.
Let colU (k j : nat) : gf := fdiv (rawU k j) (fmul (fdiv (B k k) (gfsub (X k) (Y k))) (D k)).

Lemma tri_pred j : (0 < j)%nat -> tri j = (tri (j - 1) + j)%nat.
Proof. destruct j as [|j]; [lia|]. cbn [tri]. by replace (S j - 1)%nat with j by lia. Qed.

Lemma pos_bound t j : (t < j <= M)%nat -> (tri (j - 1) + t < tri j)%nat /\ (tri j <= tri M)%nat.
Proof. intros H. pose proof (tri_pred j ltac:(lia)). pose proof (tri_mono j M ltac:(lia)). lia. Qed.

Lemma pos_inj t j t' j' :
  (t < j <= M)%nat -> (t' < j' <= M)%nat -> pos t j = pos t' j' -> t = t' /\ j = j'.
Proof.
  intros H H' E. pose proof (pos_bound t j H). pose proof (pos_bound t' j' H'). unfold pos in E.
  apply tri_inj; lia.
Qed.

(** Rows before [k] of U, and row [k] up to column [j], are in place. *)
Definition placed (k j : nat) (u : list Z) : Prop :=
  length u = tri M /\ forall t j', (t < j' <= M)%nat -> (t < k \/ t = k /\ j' < j)%nat ->
    u !! pos t j' = Some (fval (colU t j')).

Lemma placed_put k j u :
  (k < j <= M)%nat -> placed k j u -> placed k (S j) (<[pos k j := fval (colU k j)]> u).
Proof.
  intros Hk [Hl H]. split; [by rewrite length_insert|]. intros t j' Ht Hc.
  destruct (decide (pos t j' = pos k j)) as [E|E].
  - apply pos_inj in E as [-> ->]; try done. apply list_lookup_insert_eq.
    pose proof (pos_bound k j Hk). unfold pos. lia.
  - rewrite list_lookup_insert_ne by done. apply H; [done|].
    destruct Hc as [Hc|[-> Hc]]; [by left|]. right. split; [done|]. destruct (decide (j' = j)) as [->|]; [done|lia].
Qed.

Lemma lookup_map_seq {A} (f : nat -> A) a n i : (i < n)%nat -> map f (seq a n) !! i = Some (f (a + i)%nat).
Proof. intros Hi. rewrite list_lookup_fmap. by rewrite lookup_seq_lt. Qed.

Lemma ldu_place_spec k first row u : (k < M)%nat -> placed k 0 u -> first = Z.of_nat (tri M) - 1 - Z.of_nat (tri k + k) ->
  (forall j, (k < j <= M)%nat -> row !! (j - S k)%nat = Some (fval (colU k j))) ->
  exists u' o, ldu_place N (Z.of_nat k) first row u = Ok (u', o) /\ placed (S k) 0 u'.
Proof.
  intros Hk Hu -> Hrow. unfold ldu_place. replace (Z.of_nat k + 1) with (Z.of_nat (S k)) by lia.
  rewrite Nat2Z.id. replace (N - S k)%nat with (M - k)%nat by (unfold N; lia).
  forM_induction (fun j '(u, o) => placed k j u /\ o = Z.of_nat (tri M) - 1 - Z.of_nat (tri (j - 1) + k)).
  - split; [|do 4 f_equal; lia]. split; [apply Hu|]. intros t j' Ht Hc. apply Hu; [done|]. lia.
  - intros j [u1 o] Hj [Hu1 ->]. pose proof (pos_bound k j ltac:(lia)) as [Hp1 Hp2].
    replace (Z.of_nat j - Z.of_nat (S k)) with (Z.of_nat (j - S k)) by lia.
    rewrite (get_nat _ _ _ (Hrow j ltac:(lia))). cbn [mbind res_bind].
    replace (Z.of_nat (tri M) - 1 - Z.of_nat (tri (j - 1) + k)) with (Z.of_nat (pos k j)) by (unfold pos; lia).
    rewrite put_nat by (rewrite (proj1 Hu1); unfold pos; lia). cbn [mbind res_bind].
    eexists. split; [done|]. split; [apply placed_put; [lia|done]|].
    pose proof (tri_pred j ltac:(lia)). replace (S j - 1)%nat with j by lia. unfold pos. lia.
  - destruct Hloop as ([u' o] & -> & [Hl H] & _). exists u', o. split; [done|]. split; [done|].
    intros t j' Ht [Hc|[_ Hc]]; [|lia]. apply H; [done|]. lia.
Qed.

(** The columns of L before column [k], and where they end. *)
Definition columns_L (k : nat) : list Z := concat (map (fun t => map (fun i => fval (Lf i t)) (seq (S t) (M - t))) (seq 0 k)).
Let end_L (k : nat) : nat := (tri M - tri (M - k))%nat.

Lemma end_L_step k : (k < M)%nat -> (end_L k + (M - k) = end_L (S k))%nat /\ (end_L (S k) <= tri M)%nat.
Proof.
  intros Hk. unfold end_L. pose proof (tri_pred (M - k) ltac:(lia)) as E. replace (M - k - 1)%nat with (M - S k)%nat in E by lia.
  pose proof (tri_mono (M - k) M ltac:(lia)). lia.
Qed.

(** The state of the outer loop before step [k]. *)
Record ldu_inv (k : nat) (s : ldu_state) : Prop := {
  li_g : gens G k k (ldu_g s);
  li_b : gens B k k (ldu_b s);
  li_rot : length (rotated_row s) = 256%nat;
  li_D : length (ldu_D s) = N /\ forall i, (i < k)%nat -> ldu_D s !! i = Some (fval (Sch i i i));
  li_L : length (ldu_L s) = tri M /\ take (end_L k) (ldu_L s) = columns_L k;
  li_pL : ldu_pL s = Z.of_nat (end_L k);
  li_U : placed k 0 (ldu_U s);
  li_off : firstOffset_U s = - Z.of_nat (tri (S k) - 1)
}.

Lemma pivot_nonzero k : (k < N)%nat ->
  fdiv (G k k) (gfsub (X k) (Y k)) <> gf0 /\ fmul (fdiv (B k k) (gfsub (X k) (Y k))) (D k) <> gf0.
Proof.
  intros Hk. pose proof cauchy_field as FT. split.
  - eapply fdiv_nonzero; [exact FT| |by apply Hxy]. eapply (gen_g_nonzero _ _ _ _ _ _ _ _ FT N); eauto.
  - eapply fmul_nonzero; [exact FT| |by apply Hd]. eapply fdiv_nonzero; [exact FT| |by apply Hxy].
    eapply (gen_b_nonzero _ _ _ _ _ _ _ _ FT N); eauto.
Qed.

Lemma ldu_step_spec k s : (k < M)%nat -> ldu_inv k s ->
  exists s', ldu_step ready_ctx ssse3 x y (fval x0) N (Z.of_nat k) s = Ok s' /\ ldu_inv (S k) s'.
Proof.
  destruct s as [g b rot diag l pL u off]. intros Hk [Hg Hb Hrot [Hdl Hdiag] [Hll Hl] HpL Hu Hoff]. cbn [ldu_g ldu_b ldu_D ldu_L ldu_pL ldu_U rotated_row firstOffset_U] in * |-. subst pL off.
  assert (HkN : (k < N)%nat) by (unfold N; lia). destruct (pivot_nonzero k HkN) as [HL HU]. destruct (end_L_step k Hk) as [Hend Hmax].
  assert (Eg : g !! k = Some (fval (G k k))) by (rewrite (proj2 Hg) by lia; by rewrite decide_False by lia).
  assert (Eb : b !! k = Some (fval (B k k))) by (rewrite (proj2 Hb) by lia; by rewrite decide_False by lia).
  unfold ldu_step. cbn [ldu_g ldu_b ldu_D ldu_L ldu_pL ldu_U rotated_row firstOffset_U]. rewrite Ex, Ey by done. cbn [mbind res_bind].
  rewrite (get_nat _ _ _ Eg), (get_nat _ _ _ Eb). cbn [mbind res_bind].
  rewrite !code_add. pose proof (Hxy k k HkN HkN). rewrite !code_div by done. rewrite !code_mul.
  rewrite put_nat by (rewrite Hdl; done). cbn [mbind res_bind].
  destruct (ldu_row_spec k g b (end_L k) l rot Hk Hg Hb ltac:(lia) Hrot) as (g' & b' & l' & rot' & pU & -> & Hg' & Hb' & HfL & HfU). cbn [mbind res_bind].
  replace (Z.of_nat N - (Z.of_nat k + 1)) with (Z.of_nat (length (seq (S k) (N - S k)))) by (rewrite length_seq; unfold N; lia).
  assert (Hcols : (length (seq (S k) (N - S k)) = M - k)%nat) by (rewrite length_seq; unfold N; lia).
  destruct (div_at_spec (rawL k) l l' (end_L k) (seq (S k) (N - S k)) _ HL ltac:(rewrite Hcols; lia) HfL) as (l2 & -> & HfL2). cbn [mbind res_bind].
  destruct (div_at_spec (rawU k) rot rot' 0 (seq (S k) (N - S k)) _ HU ltac:(rewrite Hcols; unfold N in HN; lia) HfU) as (rot2 & E2 & HfU2).
  change (Z.of_nat 0) with 0 in E2. unfold D in E2. rewrite E2. cbn [mbind res_bind].
  rewrite (tri_half M : (Z.of_nat N - 1) * Z.of_nat N / 2 = Z.of_nat (tri M)).
  destruct (ldu_place_spec k (Z.of_nat (tri M) - 1 + - Z.of_nat (tri (S k) - 1)) rot2 u Hk Hu) as (u' & o & E & Hu');
    [cbn [tri]; lia| |].
  { intros j Hj. change (j - S k)%nat with (0 + (j - S k))%nat. eapply filled_lookup; [|exact HfU2|].
    - rewrite length_map. unfold N in HN. lia.
    - rewrite lookup_map_seq by (unfold N; lia). by replace (S k + (j - S k))%nat with j by lia. }
  rewrite E. cbn [mbind res_bind]. eexists. split; [done|].
  split; cbn [ldu_g ldu_b ldu_D ldu_L ldu_pL ldu_U rotated_row firstOffset_U]; try done.
  - by rewrite (proj1 HfU2).
  - split; [by rewrite length_insert|]. intros i Hi. destruct (decide (i = k)) as [->|Hne].
    + rewrite list_lookup_insert_eq by lia. do 2 f_equal. symmetry.
      eapply (diag_code _ _ _ _ _ _ _ _ cauchy_field N); eauto.
    + rewrite list_lookup_insert_ne by done. apply Hdiag. lia.
  - destruct HfL2 as [Hl2 Ht2]. split; [by rewrite Hl2|]. rewrite length_map, Hcols, Hend, Hl in Ht2. rewrite Ht2.
    unfold columns_L. rewrite seq_S, map_app, concat_app. cbn [map concat Nat.add]. rewrite app_nil_r. f_equal.
    replace (N - S k)%nat with (M - k)%nat by (unfold N; lia).
    apply map_ext_in. intros i Hi. apply in_seq in Hi. f_equal. symmetry. unfold rawL.
    eapply (factor_L_code _ _ _ _ _ _ _ _ cauchy_field N); eauto; unfold N; lia.
  - by rewrite <- Hend.
  - change (tri (S (S k))) with (tri (S k) + S (S k))%nat. pose proof (tri_mono 1 (S k) ltac:(lia)). cbn [tri] in *. lia.
Qed.

(** Column [j] of U as it is read back: from row [j - 1] up. *)
Definition column_U (j : nat) : list Z := map (fun s => fval (Uf (j - 1 - s) j)) (seq 0 j).

Definition scale_inv (t : nat) (s : list Z * nat) : Prop :=
  let '(u, off) := s in
  length u = tri M /\ off = (tri M - tri (M - t))%nat /\
  take off u = concat (map (fun t => column_U (M - t)) (seq 0 t)) /\
  forall t' j', (t' < j' <= M - t)%nat -> u !! pos t' j' = Some (fval (colU t' j')).

Lemma column_slice j u :
  (0 < j <= M)%nat -> length u = tri M -> (forall t', (t' < j)%nat -> u !! pos t' j = Some (fval (colU t' j))) ->
  slice (tri M - tri j) j u = Some (map (fun s => fval (colU (j - 1 - s) j)) (seq 0 j)).
Proof.
  intros Hj Hl H. pose proof (tri_pred j ltac:(lia)) as Ej. pose proof (tri_mono j M ltac:(lia)).
  rewrite slice_Some by lia. f_equal. apply list_eq. intros s. destruct (decide (s < j)%nat) as [Hs|Hs].
  - rewrite lookup_take, decide_True by done. rewrite lookup_drop, lookup_map_seq by done.
    replace (tri M - tri j + s)%nat with (pos (j - 1 - s) j) by (unfold pos; lia). apply H. lia.
  - rewrite !lookup_ge_None_2; [done|rewrite length_map, length_seq; lia|rewrite length_take; lia].
Qed.

Lemma scale_step t s : (t < M)%nat -> scale_inv t s ->
  exists s', (let '(u, off) := s in
      let j := Z.of_nat N - 1 - Z.of_nat t in
      y_j ← y j;
      row ← of_option (slice off (Z.to_nat j) u);
      row ← gf_mul_mem ready_ctx ssse3 row row (gf_add (fval x0) y_j) j;
      u ← of_option (splice off row u);
      Ok (u, (off + Z.to_nat j)%nat)) = Ok s' /\ scale_inv (S t) s'.
Proof.
  destruct s as [u off]. intros Ht (Hl & -> & Htake & Hpos).
  set (j := (M - t)%nat) in *. assert (Hj : (0 < j <= M)%nat) by (unfold j; lia).
  pose proof (tri_pred j ltac:(lia)) as Ej. pose proof (tri_mono j M ltac:(lia)) as Hm.
  replace (Z.of_nat N - 1 - Z.of_nat t) with (Z.of_nat j) by (unfold N, j; lia).
  cbv zeta. rewrite Nat2Z.id, Ey by (unfold N; lia). cbn [mbind res_bind].
  rewrite (column_slice j u Hj Hl) by (intros; apply Hpos; lia). cbn [of_option mbind res_bind].
  rewrite code_add, (mul_row_mem ssse3 (fun s => colU (j - 1 - s) j)) by (by rewrite length_seq). cbn [mbind res_bind].
  assert (Ecol : map (fun i => fval (fmul (colU (j - 1 - i) j) (gfsub x0 (Y j)))) (seq 0 j) = column_U j).
  { apply map_ext_in. intros i Hi. apply in_seq in Hi. f_equal. symmetry. unfold colU, rawU.
    eapply (factor_U_code _ _ _ _ _ _ _ _ cauchy_field N); eauto; unfold N; lia. }
  rewrite Ecol. assert (Hlc : length (column_U j) = j) by (unfold column_U; by rewrite length_map, length_seq).
  rewrite splice_Some by lia. cbn [of_option mbind res_bind]. eexists. split; [done|].
  replace (M - S t)%nat with (j - 1)%nat by (unfold j; lia). rewrite Hlc. unfold scale_inv. split_and!.
  - rewrite !length_app, length_take, length_drop. lia.
  - replace (M - S t)%nat with (j - 1)%nat by (unfold j; lia). lia.
  - rewrite app_assoc, take_app_length' by (rewrite length_app, length_take; lia).
    rewrite seq_S, map_app, concat_app, Htake. cbn [map concat]. by rewrite app_nil_r.
  - replace (M - S t)%nat with (j - 1)%nat by (unfold j; lia). intros t' j' Ht'.
    pose proof (tri_pred j' ltac:(lia)). pose proof (tri_mono j' (j - 1) ltac:(lia)).
    rewrite app_assoc, lookup_app_r by (rewrite length_app, length_take; unfold pos; lia).
    rewrite length_app, length_take, Hlc, lookup_drop.
    rewrite <- Hpos by lia. f_equal. unfold pos. lia.
Qed.

(** The decomposition: the factors in the order the elimination reads them. *)
Lemma ldu_spec l diag u : length l = tri M -> length diag = N -> length u = tri M ->
  GenerateLDUDecomposition ready_ctx ssse3 x y (fval x0) N l diag u
  = Ok (columns_L M, map (fun i => fval (Sch i i i)) (seq 0 N), concat (map (fun t => column_U (M - t)) (seq 0 M))).
Proof.
  intros Hll Hdl Hul. unfold GenerateLDUDecomposition. replace (N - 1)%nat with M by (unfold N; lia).
  destruct gens_start as (g0 & -> & Hg0). cbn [mbind res_bind].
  forM_induction ldu_inv.
  { split; cbn [ldu_g ldu_b ldu_D ldu_L ldu_pL ldu_U rotated_row firstOffset_U]; try done.
    - by apply Hg0.
    - by apply Hg0.
    - split; [done|]. intros. lia.
    - split; [done|]. unfold end_L. by rewrite Nat.sub_0_r, Nat.sub_diag, take_0.
    - unfold end_L. by rewrite Nat.sub_0_r, Nat.sub_diag.
    - split; [done|]. intros. lia. }
  { intros k s Hk. apply ldu_step_spec. lia. }
  destruct Hloop as ([g b rot diag' l' pL u' off] & -> & [Hg Hb _ [Hdl' Hdiag] [Hll' Hl'] _ Hu _]).
  cbn [mbind res_bind Nat.add ldu_g ldu_b ldu_D ldu_L ldu_pL ldu_U rotated_row firstOffset_U] in *.
  assert (HlM : l' = columns_L M).
  { rewrite <- Hl', take_ge; [done|]. unfold end_L. rewrite Nat.sub_diag. cbn [tri]. lia. }
  unfold ldu_scale. replace (N - 1)%nat with M by (unfold N; lia).
  forM_induction scale_inv.
  { replace (M - 0)%nat with M by lia. destruct Hu as [Hu1 Hu2]. split_and!; [done|rewrite Nat.sub_0_r; lia|by rewrite take_0|].
    intros t' j' Ht. apply Hu2; [lia|]. lia. }
  { intros k [u1 off1] Hk Hi. by apply (scale_step k (u1, off1)); [lia|]. }
  destruct Hloop as ([u'' off'] & -> & Hl'' & -> & Htake & _). cbn [mbind res_bind Nat.add] in *.
  rewrite Nat.sub_diag in Htake. cbn [tri] in Htake. rewrite Nat.sub_0_r, take_ge in Htake by lia.
  replace (Z.of_nat N - 1) with (Z.of_nat M) by (unfold N; lia). rewrite Ex, Ey by (unfold N; lia). cbn [mbind res_bind].
  assert (Eg : g !! M = Some (fval (G M M))) by (rewrite (proj2 Hg) by (unfold N; lia); by rewrite decide_False by lia).
  assert (Eb : b !! M = Some (fval (B M M))) by (rewrite (proj2 Hb) by (unfold N; lia); by rewrite decide_False by lia).
  rewrite (get_nat _ _ _ Eg), (get_nat _ _ _ Eb). cbn [mbind res_bind].
  rewrite !code_add, !code_mul, code_div by (apply Hxy; unfold N; lia).
  rewrite put_nat by (rewrite Hdl'; unfold N; lia). cbn [mbind res_bind]. rewrite Htake, HlM. f_equal. f_equal. f_equal.
  apply list_eq. intros i. destruct (decide (i < N)%nat) as [Hi|Hi].
  - rewrite lookup_map_seq by done. cbn [Nat.add]. destruct (decide (i = M)) as [->|Hne].
    + rewrite list_lookup_insert_eq by lia. do 2 f_equal. symmetry.
      eapply (diag_last_code _ _ _ _ _ _ _ _ cauchy_field N); eauto.
    + rewrite list_lookup_insert_ne by done. apply Hdiag. unfold N in *. lia.
  - rewrite !lookup_ge_None_2; [done|rewrite length_map, length_seq; lia|rewrite length_insert; lia].
Qed.
End Decomposition.
