(* ===== verification/CauchyElim.v ===== *)
(** * CauchyElim: elimination on blocks (src/lib/cauchy_rs.c)

    The three elimination loops of the decoder, run on the blocks of the
    store, take the right-hand sides of a Cauchy system to its solution at
    every byte position, and touch no other buffer. *)
From stdpp Require Import base tactics option list numbers gmap.
From Stdlib Require Import ZArith Lia Ring Field.
From S2P Require Import Prelude Galois CauchyGf CauchyMem CauchyMatrix CauchyRs CauchyLdu.

Local Open Scope Z_scope.
Local Open Scope afs_scope.

(** ** Blocks of field elements

    The first [n] bytes of a buffer are the values of [f]; [tl] follows. *)
Definition blk (n : nat) (f : nat -> gf) (tl : list Z) : list Z := map (fun p => fval (f p)) (seq 0 n) ++ tl.

Lemma blk_ext n f g tl : (forall p, (p < n)%nat -> f p = g p) -> blk n f tl = blk n g tl.
Proof.
  intros H. unfold blk. f_equal. apply map_ext_in. intros p Hp. apply in_seq in Hp. by rewrite H by lia.
Qed.

Lemma blk_bytes n f tl : bytes tl -> bytes (blk n f tl).
Proof. intros. apply Forall_app. split; [apply fvals_bytes|done]. Qed.

Lemma blk_length n f tl : length (blk n f tl) = (n + length tl)%nat.
Proof. unfold blk. by rewrite length_app, length_map, length_seq. Qed.

Lemma blk_take n f tl : take n (blk n f tl) = map (fun p => fval (f p)) (seq 0 n).
Proof. unfold blk. apply take_app_length'. by rewrite length_map, length_seq. Qed.

Lemma blk_drop n f tl : drop n (blk n f tl) = tl.
Proof. unfold blk. apply drop_app_length'. by rewrite length_map, length_seq. Qed.

(** Every buffer of [n] bytes and more is such a block. *)
Lemma blk_of_bytes n b : bytes b -> (n <= length b)%nat -> exists f tl, b = blk n f tl /\ bytes tl.
Proof.
  intros Hb Hn. exists (fun p => match decide (is_byte (nth p b 0)) with left H => gfz _ H | right _ => gf0 end), (drop n b).
  split; [|by apply Forall_drop]. rewrite <- (take_drop n b) at 1. unfold blk. f_equal.
  apply list_eq. intros p. destruct (decide (p < n)%nat) as [Hp|Hp].
  - rewrite lookup_take, decide_True, lookup_map_seq by done. cbn [Nat.add].
    destruct (lookup_lt_is_Some_2 b p ltac:(lia)) as [v Hv].
    assert (E : nth p b 0 = v) by (by rewrite nth_lookup, Hv). rewrite Hv. f_equal.
    destruct (decide (is_byte (nth p b 0))) as [H|H]; cbn; [done|].
    exfalso. apply H. rewrite E. by apply (Forall_lookup_1 _ _ _ _ Hb Hv).
  - rewrite !lookup_ge_None_2; [done|rewrite length_map, length_seq; lia|rewrite length_take; lia].
Qed.

Lemma zip_map_map {A} (h : Z -> Z -> Z) (f g : A -> Z) l : zip_with h (map f l) (map g l) = map (fun p => h (f p) (g p)) l.
Proof. induction l as [|a l IH]; [done|]. cbn. by rewrite IH. Qed.

Lemma fmul_comm a b : fmul a b = fmul b a.
Proof. apply gf_eq. cbn. apply gmul_comm; apply gf_byte || apply _. Qed.

Section Blocks.
Context (ssse3 : bool) (n : nat).

Lemma muladd_block st z x f g tz tx (a : gf) :
  st !! z = Some (blk n f tz) -> st !! x = Some (blk n g tx) -> bytes tz -> bytes tx ->
  block_op1 (fun z x => gf_muladd_mem ready_ctx ssse3 z (fval a) x (Z.of_nat n)) z x st
  = Ok (<[z := blk n (fun p => gfsub (f p) (fmul a (g p))) tz]> st).
Proof.
  intros Hz Hx Bz Bx. unfold block_op1. rewrite Hz, Hx. cbn [of_option mbind res_bind].
  rewrite gf_muladd_mem_spec; try (apply gf_byte || by apply blk_bytes); try (rewrite blk_length; lia).
  cbn [mbind res_bind]. rewrite !blk_take, blk_drop, map_map, zip_map_map. do 2 f_equal.
  apply (blk_ext n (fun p => gfadd (f p) (fmul (g p) a))). intros p _. by rewrite fmul_comm.
Qed.

Lemma add_block st z x f g tz tx :
  st !! z = Some (blk n f tz) -> st !! x = Some (blk n g tx) -> bytes tz -> bytes tx ->
  block_op1 (fun z x => gf_add_mem z x (Z.of_nat n)) z x st = Ok (<[z := blk n (fun p => gfadd (f p) (g p)) tz]> st).
Proof.
  intros Hz Hx Bz Bx. unfold block_op1. rewrite Hz, Hx. cbn [of_option mbind res_bind].
  rewrite gf_add_mem_spec; try (by apply blk_bytes); try (rewrite blk_length; lia).
  cbn [mbind res_bind]. by rewrite !blk_take, blk_drop, zip_map_map.
Qed.

Lemma addset_block st z x y b f g tx ty :
  st !! z = Some b -> st !! x = Some (blk n f tx) -> st !! y = Some (blk n g ty) ->
  bytes b -> (n <= length b)%nat -> bytes tx -> bytes ty ->
  block_op2 (fun z x y => gf_addset_mem z x y (Z.of_nat n)) z x y st
  = Ok (<[z := blk n (fun p => gfadd (f p) (g p)) (drop n b)]> st).
Proof.
  intros Hz Hx Hy Bz Lz Bx By. unfold block_op2. rewrite Hz, Hx, Hy. cbn [of_option mbind res_bind].
  rewrite gf_addset_mem_spec; try (done || by apply blk_bytes); try (rewrite blk_length; lia).
  cbn [mbind res_bind]. by rewrite !blk_take, zip_map_map.
Qed.

Lemma mul_block st z x b f tx (a : gf) :
  st !! z = Some b -> st !! x = Some (blk n f tx) -> bytes b -> (n <= length b)%nat -> bytes tx ->
  block_op1 (fun z x => gf_mul_mem ready_ctx ssse3 z x (fval a) (Z.of_nat n)) z x st
  = Ok (<[z := blk n (fun p => fmul a (f p)) (drop n b)]> st).
Proof.
  intros Hz Hx Bz Lz Bx. unfold block_op1. rewrite Hz, Hx. cbn [of_option mbind res_bind].
  rewrite gf_mul_mem_spec; try (done || apply gf_byte || by apply blk_bytes); try (rewrite blk_length; lia).
  cbn [mbind res_bind]. rewrite !blk_take, map_map. do 2 f_equal.
  apply (blk_ext n (fun p => fmul (f p) a)). intros p _. by rewrite fmul_comm.
Qed.

Lemma div_block st z f tz (a : gf) :
  st !! z = Some (blk n f tz) -> bytes tz -> a <> gf0 ->
  block_op1 (fun z x => gf_div_mem ready_ctx ssse3 z x (fval a) (Z.of_nat n)) z z st
  = Ok (<[z := blk n (fun p => fdiv (f p) a) tz]> st).
Proof.
  intros Hz Bz Ha. unfold block_op1. rewrite Hz. cbn [of_option mbind res_bind].
  rewrite gf_div_mem_spec; try (done || apply gf_byte || by apply fval_nonzero || by apply blk_bytes); try (rewrite blk_length; lia).
  cbn [mbind res_bind]. by rewrite !blk_take, blk_drop, map_map.
Qed.

Lemma memcpy_block st z x b f tx :
  st !! z = Some b -> st !! x = Some (blk n f tx) -> (n <= length b)%nat ->
  block_op1 (block_memcpy (Z.of_nat n)) z x st = Ok (<[z := blk n f (drop n b)]> st).
Proof.
  intros Hz Hx Lz. unfold block_op1, block_memcpy. rewrite Hz, Hx. cbn [of_option mbind res_bind].
  rewrite Nat2Z.id, slice_Some by (rewrite blk_length; lia). cbn [of_option mbind res_bind]. rewrite drop_0, blk_take.
  rewrite splice_Some by (rewrite length_map, length_seq; lia). cbn [of_option mbind res_bind].
  by rewrite take_0, length_map, length_seq.
Qed.
End Blocks.

(** ** Solving on the blocks *)
Section Solve.
Context (ssse3 : bool) (n M : nat) (X Y : nat -> gf) (x0 : gf).
Let N := S M.
Let D (j : nat) : gf := gfsub x0 (Y j).
Context (Hxy : forall i j, (i < N)%nat -> (j < N)%nat -> gfsub (X i) (Y j) <> gf0)
  (Hx : forall i j, (i < N)%nat -> (j < N)%nat -> i <> j -> gfsub (X i) (X j) <> gf0)
  (Hy : forall i j, (i < N)%nat -> (j < N)%nat -> i <> j -> gfsub (Y i) (Y j) <> gf0)
  (Hd : forall j, (j < N)%nat -> D j <> gf0).

(** The solution, the buffers of the right-hand sides and what follows them. *)
Context (E : nat -> nat -> gf) (R : nat -> nat) (tl : nat -> list Z)
  (HR : forall i j, (i < N)%nat -> (j < N)%nat -> R i = R j -> i = j)
  (Htl : forall i, (i < N)%nat -> bytes (tl i)).

Local Notation Lf := (factor_L gf1 fmul gfsub fdiv X Y D).
Local Notation Uf := (factor_U gf1 fmul gfsub fdiv X Y D).
Local Notation Sch := (schur gf1 fmul gfsub fdiv X Y D).
Local Notation low p := (lower gf0 gf1 gfadd fmul gfsub fdiv N X Y D (fun t => E t p)).
Local Notation up p := (upper gf0 gf1 gfadd fmul gfsub fdiv X Y D (fun t => E t p)).

(** Block [i] holds [v i]; buffers outside the right-hand sides are as in [st0]. *)
Definition rows (st0 st : store) (v : nat -> nat -> gf) : Prop :=
  (forall i, (i < N)%nat -> st !! R i = Some (blk n (v i) (tl i))) /\
  length st = length st0 /\ forall q, (forall i, (i < N)%nat -> q <> R i) -> st !! q = st0 !! q.

Lemma rows_ext st0 st v w : (forall i p, (i < N)%nat -> (p < n)%nat -> v i p = w i p) -> rows st0 st v -> rows st0 st w.
Proof.
  intros H (Hr & Hl & Hf). split_and!; [|done|done]. intros i Hi. rewrite (Hr i Hi). f_equal. apply blk_ext. auto.
Qed.

Lemma rows_update st0 st v i f w : (i < N)%nat -> rows st0 st v ->
  (forall p, (p < n)%nat -> f p = w i p) -> (forall i' p, (i' < N)%nat -> i' <> i -> v i' p = w i' p) ->
  rows st0 (<[R i := blk n f (tl i)]> st) w.
Proof.
  intros Hi (Hr & Hl & Hf) Hi1 Hi2. split_and!.
  - intros i' Hi'. destruct (decide (i' = i)) as [->|Hne].
    + rewrite list_lookup_insert_eq by exact (lookup_lt_Some _ _ _ (Hr i Hi)). f_equal. by apply blk_ext.
    + rewrite list_lookup_insert_ne by (intros Heq; apply Hne; by apply HR). rewrite Hr by done. f_equal. apply blk_ext. auto.
  - by rewrite length_insert.
  - intros q Hq. rewrite list_lookup_insert_ne by (intros Heq; apply (Hq i Hi); by symmetry). auto.
Qed.

Lemma rows_self st0 st v : rows st0 st v -> rows st st v.
Proof. intros (Hr & _ & _). by split_and!. Qed.

Lemma rows_trans a b c v w : rows a b v -> rows b c w -> rows a c w.
Proof.
  intros (_ & Hl & Hf) (Hr & Hl' & Hf'). split_and!; [done|congruence|]. intros q Hq. rewrite Hf' by done. by apply Hf.
Qed.

(** *** Lower triangle: row [i] is at level [min i j], or one more when the
    inner loop has passed it. *)
Let lev (j i i' : nat) : nat := if decide (j < i' < i)%nat then S j else Nat.min i' j.
Let col_L (j : nat) (i : nat) : list Z := map (fun i => fval (Lf i j)) (seq i (N - i)).
Let rest_L (j : nat) : list Z := concat (map (fun t => map (fun i => fval (Lf i t)) (seq (S t) (M - t))) (seq j (M - j))).

Context (recovery : Z -> res nat) (Hrec : forall i, (i < N)%nat -> recovery (Z.of_nat i) = Ok (R i)).

Lemma lower_inner st0 j i st : (j < i < N)%nat -> rows st0 st (fun i' p => low p (lev j i i') i') ->
  exists st', block_op1 (fun z x => gf_muladd_mem ready_ctx ssse3 z (fval (Lf i j)) x (Z.of_nat n)) (R i) (R j) st = Ok st' /\
    rows st0 st' (fun i' p => low p (lev j (S i) i') i').
Proof.
  intros Hi Hr. eexists. split.
  - eapply muladd_block; [apply Hr; lia|apply Hr; lia|apply Htl; lia|apply Htl; lia].
  - eapply (rows_update st0 st); [lia|exact Hr| |].
    + intros p _. cbn beta. unfold lev. rewrite !decide_False, decide_True by lia. rewrite Nat.min_r, Nat.min_l by lia.
      symmetry. apply (lower_step _ _ _ _ _ _ _ _ cauchy_field N X Y D Hxy Hx Hy Hd); lia.
    + intros i' p Hi' Hne. cbn beta. unfold lev. by case_decide; case_decide; try lia.
Qed.

Lemma lower_outer st0 j st l : (j < M)%nat -> rows st0 st (fun i p => low p (Nat.min i j) i) -> l = rest_L j ->
  exists s', (block_j ← recovery (Z.of_nat j);
    forM (N - Z.to_nat (Z.of_nat j + 1)) (Z.of_nat j + 1) (fun i '(st, matrix_L) =>
      block_i ← recovery i;
      match matrix_L with
      | [] => Fault
      | c_ij :: matrix_L =>
          st ← block_op1 (fun z x => gf_muladd_mem ready_ctx ssse3 z c_ij x (Z.of_nat n)) block_i block_j st;
          Ok (st, matrix_L)
      end) (st, l)) = Ok s' /\
    rows st0 (fst s') (fun i p => low p (Nat.min i (S j)) i) /\ snd s' = rest_L (S j).
Proof.
  intros Hj Hr ->. rewrite Hrec by (unfold N; lia). cbn [mbind res_bind].
  replace (Z.of_nat j + 1) with (Z.of_nat (S j)) by lia. rewrite Nat2Z.id.
  forM_induction (fun i '(st, l) => rows st0 st (fun i' p => low p (lev j i i') i') /\ l = col_L j i ++ rest_L (S j)).
  - split.
    + eapply rows_ext; [|exact Hr]. intros i p _ _. cbn beta. unfold lev. by rewrite decide_False by lia.
    + unfold rest_L, col_L. replace (M - j)%nat with (S (M - S j)) by lia. cbn [seq map concat].
      by replace (S (M - S j)) with (N - S j)%nat by (unfold N; lia).
  - intros i [st1 l1] Hi [Hr1 ->]. rewrite Hrec by lia. cbn [mbind res_bind].
    unfold col_L at 1. replace (N - i)%nat with (S (N - S i)) by lia. cbn [seq map app].
    destruct (lower_inner st0 j i st1 ltac:(lia) Hr1) as (st' & -> & Hr'). cbn [mbind res_bind].
    eexists. split; [done|]. by split.
  - destruct Hloop as ([st' l'] & -> & Hr' & ->). eexists. split; [done|]. cbn [fst snd]. split.
    + eapply rows_ext; [|exact Hr']. intros i p Hi _. cbn beta. unfold lev. f_equal. case_decide; lia.
    + unfold col_L. replace (N - (S j + (N - S j)))%nat with 0%nat by lia. done.
Qed.

Lemma eliminate_lower_spec st : rows st st (fun i p => low p 0 i) ->
  exists st' l, eliminate_lower ready_ctx ssse3 (Z.of_nat n) recovery N (rest_L 0) st = Ok (st', l) /\
    rows st st' (fun i p => low p i i).
Proof.
  intros Hr. unfold eliminate_lower. replace (N - 1)%nat with M by (unfold N; lia).
  forM_induction (fun j '(st', l) => rows st st' (fun i p => low p (Nat.min i j) i) /\ l = rest_L j).
  - split; [|done]. eapply rows_ext; [|exact Hr]. intros. cbn beta. by rewrite Nat.min_0_r.
  - intros j [st1 l1] Hj [Hr1 E1]. destruct (lower_outer st j st1 l1 ltac:(lia) Hr1 E1) as ([st2 l2] & E2 & H2 & H3).
    exists (st2, l2). split; [exact E2|]. by split.
  - destruct Hloop as ([st' l'] & -> & Hr' & ->). do 2 eexists. split; [done|].
    eapply rows_ext; [|exact Hr']. intros i p Hi _. cbn beta. f_equal. unfold N in *. lia.
Qed.

(** *** Upper triangle: row [i] has lost the columns from its level on. *)
Let ulev (j i i' : nat) : nat := if decide (i <= i' < j)%nat then Nat.max (S i') j else Nat.max (S i') (S j).
Let rest_U (t : nat) : list Z := concat (map (fun t => column_U X Y x0 (M - t)) (seq t (M - t))).

Lemma upper_inner st0 j i st : (i < j < N)%nat -> rows st0 st (fun i' p => up p (ulev j (S i) i') i') ->
  exists st', block_op1 (fun z x => gf_muladd_mem ready_ctx ssse3 z (fval (Uf i j)) x (Z.of_nat n)) (R i) (R j) st = Ok st' /\
    rows st0 st' (fun i' p => up p (ulev j i i') i').
Proof.
  intros Hi Hr. eexists. split.
  - eapply muladd_block; [apply Hr; lia|apply Hr; lia|apply Htl; lia|apply Htl; lia].
  - eapply (rows_update st0 st); [lia|exact Hr| |].
    + intros p _. cbn beta. unfold ulev. rewrite !decide_False, decide_True by lia.
      rewrite (Nat.max_r (S i) (S j)), (Nat.max_l (S j) (S j)), Nat.max_r by lia.
      rewrite (upper_done _ _ _ _ _ _ _ _ cauchy_field N X Y D Hxy Hx Hy Hd) by lia.
      symmetry. exact (upper_step _ _ _ _ _ _ _ _ cauchy_field X Y D (fun t => E t p) j i).
    + intros i' p Hi' Hne. cbn beta. unfold ulev. by case_decide; case_decide; try lia.
Qed.

Lemma upper_outer st0 t st u : (t < M)%nat -> rows st0 st (fun i p => up p (Nat.max (S i) (S (M - t))) i) -> u = rest_U t ->
  exists s', (let j := Z.of_nat N - 1 - Z.of_nat t in
    block_j ← recovery j;
    forM (Z.to_nat j) 0 (fun s '(st, matrix_U) =>
      let i := j - 1 - s in
      block_i ← recovery i;
      match matrix_U with
      | [] => Fault
      | c_ij :: matrix_U =>
          st ← block_op1 (fun z x => gf_muladd_mem ready_ctx ssse3 z c_ij x (Z.of_nat n)) block_i block_j st;
          Ok (st, matrix_U)
      end) (st, u)) = Ok s' /\
    rows st0 (fst s') (fun i p => up p (Nat.max (S i) (S (M - S t))) i) /\ snd s' = rest_U (S t).
Proof.
  intros Ht Hr ->. set (j := (M - t)%nat) in *. cbv zeta.
  replace (Z.of_nat N - 1 - Z.of_nat t) with (Z.of_nat j) by (unfold N, j; lia).
  rewrite Hrec by (unfold N, j; lia). cbn [mbind res_bind]. rewrite Nat2Z.id.
  forM_induction (fun s '(st, u) => rows st0 st (fun i' p => up p (ulev j (j - s) i') i') /\
    u = map (fun s => fval (Uf (j - 1 - s) j)) (seq s (j - s)) ++ rest_U (S t)).
  - split.
    + eapply rows_ext; [|exact Hr]. intros i p _ _. cbn beta. unfold ulev. by rewrite decide_False by lia.
    + unfold rest_U. replace (M - t)%nat with (S (M - S t)) by lia. cbn [seq map concat].
      rewrite Nat.sub_0_r. done.
  - intros s [st1 u1] Hs [Hr1 ->]. replace (Z.of_nat j - 1 - Z.of_nat s) with (Z.of_nat (j - 1 - s)) by lia.
    rewrite Hrec by (unfold N, j in *; lia). cbn [mbind res_bind].
    replace (j - s)%nat with (S (j - S s)) by lia. cbn [seq map app].
    replace (j - s)%nat with (S (j - 1 - s)) in Hr1 by lia.
    destruct (upper_inner st0 j (j - 1 - s) st1 ltac:(unfold N, j in *; lia) Hr1) as (st' & -> & Hr'). cbn [mbind res_bind].
    eexists. split; [done|]. split; [|done]. by replace (j - S s)%nat with (j - 1 - s)%nat by lia.
  - destruct Hloop as ([st' u'] & -> & Hr' & ->). eexists. split; [done|]. cbn [fst snd]. split.
    + eapply rows_ext; [|exact Hr']. intros i p Hi _. cbn beta. unfold ulev. f_equal. unfold j in *. case_decide; lia.
    + cbn [Nat.add]. rewrite Nat.sub_diag. done.
Qed.

Lemma eliminate_upper_spec st : rows st st (fun i p => up p N i) ->
  exists st' u, eliminate_upper ready_ctx ssse3 (Z.of_nat n) recovery N (rest_U 0) st = Ok (st', u) /\ rows st st' E.
Proof.
  intros Hr. unfold eliminate_upper. replace (N - 1)%nat with M by (unfold N; lia).
  forM_induction (fun t '(st', u) => rows st st' (fun i p => up p (Nat.max (S i) (S (M - t))) i) /\ u = rest_U t).
  - split; [|done]. eapply rows_ext; [|exact Hr]. intros i p Hi _. cbn beta. f_equal. unfold N in *. lia.
  - intros t [st1 u1] Ht [Hr1 E1]. destruct (upper_outer st t st1 u1 ltac:(lia) Hr1 E1) as ([st2 u2] & E2 & H2 & H3).
    exists (st2, u2). split; [exact E2|]. by split.
  - destruct Hloop as ([st' u'] & -> & Hr' & ->). do 2 eexists. split; [done|].
    eapply rows_ext; [|exact Hr']. intros i p Hi _. cbn beta. replace (Nat.max (S i) (S (M - (0 + M)))) with (S i) by lia.
    exact (upper_done _ _ _ _ _ _ _ _ cauchy_field N X Y D Hxy Hx Hy Hd (fun t => E t p) i Hi).
Qed.

(** *** The decoder's view of the blocks. *)
Context (d : CauchyDecoder) (rf : nat -> nat).
Context (Hn : BlockBytes (Params d) = Z.of_nat n) (HN : length (Recovery d) = N)
  (Hrf : forall i, (i < N)%nat -> Recovery d !! i = Some (rf i))
  (Her : forall i, (i < N)%nat -> is_Some (ErasuresIndices d !! i)).

(** The blocks the recovery references point to use the buffers [R]. *)
Definition refs_ok (blocks : list cauchy_block) : Prop :=
  forall i, (i < N)%nat -> exists b, blocks !! rf i = Some b /\ Block b = R i.

Lemma refs_block_at blocks i : refs_ok blocks -> (i < N)%nat ->
  exists b, block_at blocks (Recovery d) (Z.of_nat i) = Ok b /\ blocks !! rf i = Some b /\ Block b = R i.
Proof.
  intros Hb Hi. destruct (Hb i Hi) as (b & E1 & E2). exists b. unfold block_at.
  rewrite (get_nat _ _ _ (Hrf i Hi)). cbn [mbind res_bind]. rewrite E1. done.
Qed.

Lemma map_Block_refs blocks blocks' : map Block blocks' = map Block blocks -> refs_ok blocks -> refs_ok blocks'.
Proof.
  intros HE Hb i Hi. destruct (Hb i Hi) as (b & E1 & E2).
  assert (H : map Block blocks' !! rf i = Some (R i)) by (by rewrite HE, list_lookup_fmap, E1, <- E2).
  rewrite list_lookup_fmap in H. destruct (blocks' !! rf i) as [b'|] eqn:E'; [|done]. exists b'. split; [done|]. by injection H.
Qed.

Lemma eliminate_diagonal_spec st blocks : refs_ok blocks -> rows st st (fun i p => low p i i) ->
  exists blocks' st', eliminate_diagonal ready_ctx ssse3 d (map (fun i => fval (Sch i i i)) (seq 0 N)) blocks st = Ok (blocks', st') /\
    map Block blocks' = map Block blocks /\ rows st st' (fun i p => up p N i).
Proof.
  intros Hb Hr. unfold eliminate_diagonal. rewrite HN.
  forM_induction (fun j '(bl, st') => map Block bl = map Block blocks /\
    rows st st' (fun i p => if decide (i < j)%nat then up p N i else low p i i)).
  - split; [done|]. done.
  - intros i [bl st1] Hi [Hbl Hr1]. assert (HiN : (i < N)%nat) by lia.
    destruct (refs_block_at bl i (map_Block_refs _ _ Hbl Hb) HiN) as (b & -> & E1 & E2). cbn [mbind res_bind].
    destruct (Her i HiN) as [v Ev]. rewrite (get_nat _ _ _ Ev). cbn [mbind res_bind].
    unfold set_index. rewrite (get_nat _ _ _ (Hrf i HiN)). cbn [mbind res_bind]. rewrite E1. cbn [of_option mbind res_bind].
    rewrite (get_nat _ i (fval (Sch i i i))) by (by rewrite lookup_map_seq). cbn [mbind res_bind]. rewrite Hn, E2.
    pose proof (schur_diag_nonzero _ _ _ _ _ _ _ _ cauchy_field N X Y D Hxy Hx Hy Hd i HiN) as HS.
    rewrite (div_block ssse3 n st1 (R i) _ (tl i) _ (proj1 Hr1 i HiN) (Htl i HiN) HS). cbn [mbind res_bind].
    eexists. split; [done|]. split.
    + rewrite <- Hbl, list_fmap_insert. cbn [Block]. apply list_insert_id. by rewrite list_lookup_fmap, E1, <- E2.
    + eapply (rows_update st st1); [done|exact Hr1| |].
      * intros p _. cbn beta. rewrite decide_False, decide_True by lia. symmetry.
        exact (diagonal_step _ _ _ _ _ _ _ _ cauchy_field N X Y D Hxy Hx Hy Hd (fun t => E t p) i HiN).
      * intros i' p Hi' Hne. cbn beta. by case_decide; case_decide; try lia.
  - destruct Hloop as ([bl st'] & -> & Hbl & Hr'). exists bl, st'. split_and!; [done|done|].
    eapply rows_ext; [|exact Hr']. intros i p Hi' _. cbn beta. by rewrite decide_True by lia.
Qed.
End Solve.
