(* ===== verification/CauchyDecode.v ===== *)
(** * CauchyDecode: the erasure code restores lost blocks (src/lib/cauchy_rs.c)

    The encoder writes the product of the Cauchy matrix and the data to the
    parity blocks; [Initialize] sorts out which rows were erased; [Decode]
    solves for them. Together: any loss of at most [RecoveryCount] data blocks
    is repaired. *)
From stdpp Require Import base tactics option list numbers gmap.
From Stdlib Require Import ZArith Lia Ring Field.
From S2P Require Import Prelude Galois CauchyGf CauchyMem CauchyMatrix CauchyRs CauchyLdu CauchyElim.

Local Open Scope Z_scope.
Local Open Scope afs_scope.

Add Field cauchy_gf_field : cauchy_field.

(** ** Bytes as field elements *)
Definition emb (i : nat) : gf :=
  match decide (is_byte (Z.of_nat i)) with left H => gfz _ H | right _ => gf0 end.

Lemma fval_emb i : (i < 256)%nat -> fval (emb i) = Z.of_nat i.
Proof.
  intros Hi. unfold emb. destruct (decide (is_byte (Z.of_nat i))) as [H|H]; [done|].
  exfalso. apply H. unfold is_byte, in_range. lia.
Qed.

Lemma emb_sub_nonzero i j : (i < 256)%nat -> (j < 256)%nat -> i <> j -> gfsub (emb i) (emb j) <> gf0.
Proof.
  intros Hi Hj Hne E. assert (H : fval (gfsub (emb i) (emb j)) = 0) by (by rewrite E).
  cbn in H. rewrite !fval_emb in H by done. apply Z.lxor_eq in H. lia.
Qed.

(** The matrix: row [i] of the parity, column [j] of the data, [k] columns. *)
Definition elem (k i j : nat) : gf := fdiv (gfsub (emb j) (emb k)) (gfsub (emb (k + i)) (emb j)).

Lemma elem_code k i j : (j < k)%nat -> (k + i < 256)%nat ->
  GetMatrixElement ready_ctx (Z.of_nat (k + i)) (Z.of_nat k) (Z.of_nat j) = fval (elem k i j).
Proof.
  intros Hj Hk. unfold GetMatrixElement, elem. rewrite <- !fval_emb by lia. rewrite !code_add.
  apply code_div. apply emb_sub_nonzero; lia.
Qed.

Lemma elem_first k j : (j < k)%nat -> (k < 256)%nat -> elem k 0 j = gf1.
Proof.
  intros Hj Hk. unfold elem. rewrite Nat.add_0_r, (gfsub_comm (emb j)). field. apply emb_sub_nonzero; lia.
Qed.

Local Notation sum := (fsum gf0 gfadd).

(** ** Encoding *)
Section Encode.
Context (ssse3 : bool) (n k m : nat) (data parity : list nat) (st0 : store) (V : nat -> nat -> gf) (tl : nat -> list Z).
Let params := {| OriginalCount := Z.of_nat k; RecoveryCount := Z.of_nat m; BlockBytes := Z.of_nat n |}.
Context (Hn : (0 < n)%nat) (Hk : (0 < k)%nat) (Hm : (0 < m)%nat) (Hkm : (k + m <= 256)%nat)
  (Hdata : length data = k) (Hparity : length parity = m) (Hnd : NoDup (data ++ parity))
  (Hdat : forall j q, data !! j = Some q -> st0 !! q = Some (blk n (V j) (tl j)) /\ bytes (tl j))
  (Hpar : forall i q, parity !! i = Some q -> exists b, st0 !! q = Some b /\ bytes b /\ (n <= length b)%nat).

Lemma data_parity j i q : data !! j = Some q -> parity !! i = Some q -> False.
Proof.
  intros Hj Hi. apply NoDup_app in Hnd as (_ & H & _). apply (H q); by eapply list_elem_of_lookup_2.
Qed.

(** [st] agrees with [st0] on the data; parity block [i] holds [f]. *)
Definition with_parity (st : store) (q : nat) (f : nat -> gf) : Prop :=
  exists tp, st !! q = Some (blk n f tp) /\ bytes tp.

Lemma with_parity_ext st q f g : (forall p, f p = g p) -> with_parity st q f -> with_parity st q g.
Proof. intros H (tp & E & B). exists tp. split; [|done]. rewrite E. f_equal. by apply blk_ext. Qed.

Definition same_but (q : nat) (st st' : store) : Prop :=
  length st' = length st /\ forall r, r <> q -> st' !! r = st !! r.

Lemma same_but_insert q st b : same_but q st (<[q := b]> st).
Proof. split; [apply length_insert|]. intros r Hr. by rewrite list_lookup_insert_ne. Qed.

Lemma same_but_trans q a b c : same_but q a b -> same_but q b c -> same_but q a c.
Proof. intros [H1 H2] [H3 H4]. split; [congruence|]. intros r Hr. rewrite H4, H2; done. Qed.

(** Accumulating [c * data_j] into the parity block, whatever the operation. *)
Lemma accumulate (op : nat -> list Z -> list Z -> res (list Z)) (co : nat -> gf) q st j0 cnt :
  (forall j q', data !! j = Some q' -> st !! q' = Some (blk n (V j) (tl j))) ->
  (forall j, data !! j <> Some q) ->
  (forall st j q' f tp, data !! j = Some q' -> st !! q' = Some (blk n (V j) (tl j)) -> st !! q = Some (blk n f tp) -> bytes tp ->
     block_op1 (op j) q q' st = Ok (<[q := blk n (fun p => gfadd (f p) (fmul (co j) (V j p))) tp]> st)) ->
  (j0 + cnt <= k)%nat ->
  with_parity st q (fun p => sum j0 (fun t => fmul (co t) (V t p))) ->
  exists st', forM cnt (Z.of_nat j0) (fun j st => oj ← get data j; block_op1 (op (Z.to_nat j)) q oj st) st = Ok st' /\
    with_parity st' q (fun p => sum (j0 + cnt) (fun t => fmul (co t) (V t p))) /\ same_but q st st'.
Proof.
  intros Hd Hq Hop Hle Hw.
  forM_induction (fun j st' => with_parity st' q (fun p => sum j (fun t => fmul (co t) (V t p))) /\ same_but q st st').
  - split; [done|]. by split.
  - intros j st1 Hj [(tp & Ep & Bp) Hs].
    destruct (lookup_lt_is_Some_2 data j ltac:(lia)) as [q' Eq']. rewrite (get_nat _ _ _ Eq'). cbn [mbind res_bind].
    rewrite Nat2Z.id. rewrite (Hop st1 j q' _ tp Eq') by (done || (rewrite (proj2 Hs); [by apply Hd|intros ->; by apply (Hq j)])).
    eexists. split; [done|]. split.
    + exists tp. split; [|done]. by rewrite list_lookup_insert_eq by exact (lookup_lt_Some _ _ _ Ep).
    + eapply same_but_trans; [exact Hs|]. apply same_but_insert.
  - done.
Qed.

Lemma data_agree st q j q' :
  same_but q st0 st -> (forall j, data !! j <> Some q) -> data !! j = Some q' -> st !! q' = Some (blk n (V j) (tl j)).
Proof. intros [_ H] Hq Hj. rewrite H by (intros ->; by apply (Hq j)). by apply Hdat. Qed.

(** One parity block: row [i] of the matrix times the data. With a single data
    block every parity block is a copy of it. *)
Definition parity_row (i p : nat) : gf :=
  if decide (k = 1%nat) then V 0 p else sum k (fun t => fmul (elem k i t) (V t p)).

Lemma encode_block_spec i q st :
  (i < m)%nat -> parity !! i = Some q ->
  (forall j q', data !! j = Some q' -> st !! q' = Some (blk n (V j) (tl j))) ->
  (exists b, st !! q = Some b /\ bytes b /\ (n <= length b)%nat) ->
  exists st', cauchy_rs_encode_block ready_ctx ssse3 params data (Z.of_nat k + Z.of_nat i) q st = Ok st' /\
    with_parity st' q (parity_row i) /\ same_but q st st'.
Proof.
  intros Hi Hq Hst (b & Eb & Bb & Lb). unfold cauchy_rs_encode_block. cbn [OriginalCount BlockBytes params].
  assert (Hqd : forall j, data !! j <> Some q) by (intros j Ej; by eapply data_parity).
  destruct (lookup_lt_is_Some_2 data 0 ltac:(lia)) as [q0 E0]. change 0 with (Z.of_nat 0). rewrite (get_nat _ _ _ E0).
  assert (Hins : forall f, with_parity (<[q := blk n f (drop n b)]> st) q f).
  { intros f. exists (drop n b). split; [|by apply Forall_drop]. by rewrite list_lookup_insert_eq by exact (lookup_lt_Some _ _ _ Eb). }
  assert (Hag : forall f j q', data !! j = Some q' -> <[q := blk n f (drop n b)]> st !! q' = Some (blk n (V j) (tl j))).
  { intros f j q' Ej. rewrite list_lookup_insert_ne by (intros ->; by apply (Hqd j)). by apply Hst. }
  destruct (Z.eqb_spec (Z.of_nat k) 1) as [E1|E1]; cbn [mbind res_bind].
  { rewrite (memcpy_block n st q q0 b (V 0%nat) (tl 0%nat)) by (done || by apply Hst). eexists. split; [done|]. split.
    - eapply with_parity_ext; [|apply Hins]. intros p. unfold parity_row. by rewrite decide_True by lia.
    - apply same_but_insert. }
  assert (Hrow : forall st', with_parity st' q (fun p => sum k (fun t => fmul (elem k i t) (V t p))) -> with_parity st' q (parity_row i)).
  { intros st'. apply with_parity_ext. intros p. unfold parity_row. by rewrite decide_False by lia. }
  destruct (Z.eqb_spec (Z.of_nat k + Z.of_nat i) (Z.of_nat k)) as [E2|E2].
  - assert (i = 0%nat) as -> by lia.
    destruct (lookup_lt_is_Some_2 data 1 ltac:(lia)) as [q1 E1']. change 1 with (Z.of_nat 1). rewrite (get_nat _ _ _ E1'). cbn [mbind res_bind].
    rewrite (addset_block n st q q0 q1 b _ _ (tl 0%nat) (tl 1%nat) Eb (Hst _ _ E0) (Hst _ _ E1')) by
      (done || (apply Hdat in E0; apply E0) || (apply Hdat in E1'; apply E1')). cbn [mbind res_bind].
    replace (Z.to_nat (Z.of_nat k - 2)) with (k - 2)%nat by lia. change 2 with (Z.of_nat 2).
    destruct (accumulate (fun _ z x => gf_add_mem z x (Z.of_nat n)) (elem k 0) q (<[q := blk n (fun p => gfadd (V 0%nat p) (V 1%nat p)) (drop n b)]> st) 2 (k - 2))
      as (st' & -> & Hw & Hs); [apply Hag|done| |lia| |].
    + intros st1 j q' f tp Ej Eq' Eq Btp. rewrite (add_block n st1 q q' f (V j) tp (tl j)) by (done || (apply Hdat in Ej; apply Ej)).
      do 2 f_equal. apply blk_ext. intros p _. rewrite elem_first by (apply lookup_lt_Some in Ej; lia). f_equal. ring.
    + eapply with_parity_ext; [|apply Hins]. intros p. cbn [fsum]. rewrite !elem_first by lia. ring.
    + exists st'. split; [done|]. split; [apply Hrow; by replace (2 + (k - 2))%nat with k in Hw by lia|].
      eapply same_but_trans; [apply same_but_insert|exact Hs].
  - rewrite !(wrap_id 8) by (unfold in_range; lia).
    replace (Z.of_nat k + Z.of_nat i) with (Z.of_nat (k + i)) by lia. rewrite elem_code by lia.
    rewrite (mul_block ssse3 n st q q0 b _ (tl 0%nat) (elem k i 0) Eb (Hst _ _ E0)) by (done || (apply Hdat in E0; apply E0)).
    cbn [mbind res_bind]. replace (Z.to_nat (Z.of_nat k - 1)) with (k - 1)%nat by lia.
    set (op := fun j z x => gf_muladd_mem ready_ctx ssse3 z (fval (elem k i j)) x (Z.of_nat n)).
    rewrite (forM_ext _ 1 _ (fun j st => oj ← get data j; block_op1 (op (Z.to_nat j)) q oj st)).
    2: { intros j s Hj. destruct (get data j); cbn [mbind res_bind]; try done. unfold op.
         rewrite (wrap_id 8) by (unfold in_range; lia). rewrite <- elem_code by lia. by rewrite Z2Nat.id by lia. }
    change 1 with (Z.of_nat 1).
    destruct (accumulate op (elem k i) q (<[q := blk n (fun p => fmul (elem k i 0) (V 0%nat p)) (drop n b)]> st) 1 (k - 1))
      as (st' & -> & Hw & Hs); [apply Hag|done| |lia| |].
    + intros st1 j q' f tp Ej Eq' Eq Btp. unfold op. apply (muladd_block ssse3 n st1 q q' f (V j) tp (tl j)); try done.
      exact (proj2 (Hdat _ _ Ej)).
    + eapply with_parity_ext; [|apply Hins]. intros p. cbn [fsum]. ring.
    + exists st'. split; [done|]. split; [apply Hrow; by replace (1 + (k - 1))%nat with k in Hw by lia|].
      eapply same_but_trans; [apply same_but_insert|exact Hs].
Qed.

(** The encoder. *)
Lemma encode_spec : exists st1, cauchy_rs_encode ready_ctx ssse3 true params data parity st0 = Ok (0, st1) /\
  length st1 = length st0 /\ (forall q, q ∉ parity -> st1 !! q = st0 !! q) /\
  forall i q, parity !! i = Some q -> with_parity st1 q (parity_row i).
Proof.
  unfold cauchy_rs_encode. cbn [OriginalCount RecoveryCount BlockBytes params].
  destruct (Z.leb_spec (Z.of_nat k) 0), (Z.leb_spec (Z.of_nat m) 0), (Z.leb_spec (Z.of_nat n) 0); try lia. cbn [orb].
  destruct (Z.ltb_spec 256 (Z.of_nat k + Z.of_nat m)); [lia|]. cbn [negb].
  rewrite !Nat2Z.id, slice_Some, drop_0, take_ge by lia. cbn [of_option mbind res_bind]. 
  forM_induction (fun i st => length st = length st0 /\ (forall q, q ∉ take i parity -> st !! q = st0 !! q) /\
    forall i' q, (i' < i)%nat -> parity !! i' = Some q -> with_parity st q (parity_row i')).
  - split_and!; [done|done|]. intros. lia.
  - intros i st Hi (Hl & Hf & Hw). destruct (lookup_lt_is_Some_2 parity i ltac:(lia)) as [q Eq].
    rewrite (get_nat _ _ _ Eq). cbn [mbind res_bind].
    assert (HndP : NoDup parity) by by apply NoDup_app in Hnd as (_ & _ & ?).
    assert (Hnt : forall i' q', parity !! i' = Some q' -> q' ∈ take i parity -> (i' < i)%nat).
    { intros i' q' E' Hin. apply list_elem_of_lookup in Hin as [t Et]. apply lookup_take_Some in Et as [Et Hlt].
      by rewrite (NoDup_lookup _ _ _ _ HndP E' Et). }
    destruct (encode_block_spec i q st ltac:(lia) Eq) as (st' & -> & Hw' & Hs1 & Hs2).
    + intros j q' Ej. rewrite Hf; [by apply Hdat|]. intros Hin. apply list_elem_of_lookup in Hin as [t Et].
      apply lookup_take_Some in Et as [Et _]. by eapply data_parity.
    + rewrite Hf; [by apply (Hpar i)|]. intros Hin. apply (Hnt i q Eq) in Hin. lia.
    + exists st'. split; [done|]. split_and!; [congruence| |].
      * intros r Hr. rewrite (take_S_r _ _ _ Eq) in Hr. rewrite not_elem_of_app, list_elem_of_singleton in Hr.
        rewrite Hs2 by tauto. apply Hf. tauto.
      * intros i' q' Hi' Eq'. destruct (decide (i' = i)) as [->|Hne]; [by simplify_eq|].
        destruct (Hw i' q' ltac:(lia) Eq') as (tp & E & B). exists tp. split; [|done]. rewrite Hs2; [done|].
        intros ->. apply Hne. by eapply NoDup_lookup.
  - destruct Hloop as (st1 & -> & Hl & Hf & Hw). cbn [mbind res_bind Nat.add] in *. exists st1. split_and!; [done|done| |].
    + intros q Hq. apply Hf. intros Hin. apply Hq. by eapply elem_of_take in Hin as (?&?&?); eapply list_elem_of_lookup_2.
    + intros i q Eq. apply (Hw i q); [|done]. apply lookup_lt_Some in Eq. lia.
Qed.
End Encode.

(** ** Which rows were erased *)
Section Rows.
Context (k : nat) (er0 : list Z).  (* the erasures, as given *)
Definition erased (i : nat) : bool := bool_decide (Z.of_nat i ∈ er0).
Definition erased_rows : list nat := filter (fun i => erased i = true) (seq 0 k).
Definition kept_rows : list nat := filter (fun i => erased i = false) (seq 0 k).

Lemma scan_spec bs : forall ii o r er,
  (ii + length bs <= k)%nat -> (k <= length er)%nat ->
  (forall i b, bs !! i = Some b ->
     if erased (ii + i) then Z.of_nat k <= Index b else Index b = Z.of_nat (ii + i)) ->
  (forall i, (ii <= i < k)%nat -> er !! i = Some 0) ->
  exists er', scan_blocks (Z.of_nat k) bs ii o r er
    = Ok (Some (o ++ filter (fun i => erased i = false) (seq ii (length bs)),
                r ++ filter (fun i => erased i = true) (seq ii (length bs)), er')) /\
    length er' = length er /\
    forall i, er' !! i = if decide (ii <= i < ii + length bs /\ erased i = false)%nat then Some 1 else er !! i.
Proof.
  induction bs as [|b bs IH]; intros ii o r er Hle Hlen Hb Her; cbn [scan_blocks length seq] in *.
  - exists er. cbn [filter list_filter]. rewrite !app_nil_r. split_and!; try done. intros i. by rewrite decide_False by lia.
  - pose proof (Hb 0%nat b eq_refl) as H0. rewrite Nat.add_0_r in H0.
    assert (Hb' : forall i b0, bs !! i = Some b0 ->
      if erased (S ii + i) then Z.of_nat k <= Index b0 else Index b0 = Z.of_nat (S ii + i)).
    { intros i b0 Ei. replace (S ii + i)%nat with (ii + S i)%nat by lia. by apply (Hb (S i)). }
    destruct (erased ii) eqn:Ee.
    + destruct (Z.ltb_spec (Index b) (Z.of_nat k)); [lia|].
      destruct (IH (S ii) o (r ++ [ii]) er ltac:(lia) ltac:(lia) Hb') as (er' & -> & Hl & Hr); [intros; apply Her; lia|].
      exists er'. rewrite (filter_cons_False _ ii), (filter_cons_True _ ii) by congruence. rewrite <- app_assoc. cbn [app].
      split_and!; [done|done|]. intros i. rewrite Hr. destruct (decide (i = ii)) as [->|].
      * rewrite !decide_False; [done| |lia]. intros [_ ?]; congruence.
      * by repeat case_decide; first [done|exfalso; match goal with H : ~ (_ /\ _) |- _ => apply H; split; [lia|tauto] end].
    + rewrite H0. destruct (Z.ltb_spec (Z.of_nat ii) (Z.of_nat k)); [|lia].
      rewrite (get_nat _ _ 0) by (apply Her; lia). cbn [mbind res_bind Z.eqb negb]. rewrite put_nat by lia. cbn [mbind res_bind].
      destruct (IH (S ii) (o ++ [ii]) r (<[ii := 1]> er) ltac:(lia)) as (er' & -> & Hl & Hr).
      { by rewrite length_insert. } { exact Hb'. }
      { intros i Hi. rewrite list_lookup_insert_ne by lia. apply Her. lia. }
      exists er'. rewrite length_insert in Hl. rewrite (filter_cons_True _ ii), (filter_cons_False _ ii) by congruence.
      rewrite <- app_assoc. cbn [app]. split_and!; [done|done|]. intros i. rewrite Hr. destruct (decide (i = ii)) as [->|].
      * rewrite decide_False by lia. rewrite decide_True by (split; [lia|done]). by rewrite list_lookup_insert_eq by lia.
      * rewrite list_lookup_insert_ne by done. by repeat case_decide; first [done|exfalso; match goal with H : ~ (_ /\ _) |- _ => apply H; split; [lia|tauto] end].
Qed.

Lemma filter_seq_S (P : nat -> Prop) `{forall x, Decision (P x)} i :
  filter P (seq 0 (S i)) = filter P (seq 0 i) ++ (if decide (P i) then [i] else []).
Proof.
  by rewrite seq_S, filter_app.
Qed.

Lemma filter_seq_length (P : nat -> Prop) `{forall x, Decision (P x)} i j :
  (i <= j)%nat -> (length (filter P (seq 0 i)) <= length (filter P (seq 0 j)))%nat.
Proof. intros Hij. replace j with (i + (j - i))%nat by lia. rewrite seq_app, filter_app, length_app. lia. Qed.

Lemma filter_seq_bound (P : nat -> Prop) `{forall x, Decision (P x)} i : (length (filter P (seq 0 i)) <= i)%nat.
Proof. etransitivity; [apply length_filter|]. by rewrite length_seq. Qed.

Local Abbreviation found j := (filter (fun i => erased i = true) (seq 0 j)).

Lemma identify_spec n : forall ii er,
  (n + ii = 256)%nat -> (k <= 256)%nat -> (k <= length er)%nat ->
  (length (found ii) < length (found k))%nat ->
  (forall i, (ii <= i < k)%nat -> er !! i = Some (if erased i then 0 else 1)) ->
  (forall t r, found ii !! t = Some r -> er !! t = Some (Z.of_nat r)) ->
  exists er', identify_erasures n (Z.of_nat ii) (Z.of_nat (length (found ii))) (Z.of_nat (length (found k))) er = Ok er' /\
    forall t r, found k !! t = Some r -> er' !! t = Some (Z.of_nat r).
Proof.
  induction n as [|n IH]; intros ii er Hn Hk Hl Hc Her Hf; cbn [identify_erasures];
    (assert (Hii : (ii < k)%nat) by (destruct (decide (ii < k)%nat); [done|];
       pose proof (filter_seq_length (fun i => erased i = true) k ii ltac:(lia)); lia)); [lia|].
  rewrite (get_nat _ _ _ (Her ii ltac:(lia))). cbn [mbind res_bind].
  pose proof (filter_seq_bound (fun i => erased i = true) ii) as Hfb.
  pose proof (filter_seq_S (fun i => erased i = true) ii) as HS.
  destruct (erased ii) eqn:Ee; cbn [Z.eqb].
  - rewrite put_nat by lia. cbn [mbind res_bind]. rewrite (wrap_id 8) by (unfold in_range; lia).
    rewrite decide_True in HS by done.
    assert (HlS : length (found (S ii)) = S (length (found ii))) by (rewrite HS, length_app; cbn [length]; lia).
    assert (Hf' : forall t r, found (S ii) !! t = Some r -> <[length (found ii) := Z.of_nat ii]> er !! t = Some (Z.of_nat r)).
    { intros t r. rewrite HS. intros Ht. destruct (decide (t < length (found ii))%nat).
      - rewrite lookup_app_l in Ht by done. rewrite list_lookup_insert_ne by lia. by apply Hf.
      - rewrite lookup_app_r in Ht by lia. destruct (t - length (found ii))%nat eqn:Et; [|done]. injection Ht as <-.
        replace t with (length (found ii)) by lia. rewrite list_lookup_insert_eq by lia. done. }
    replace (Z.of_nat (length (found ii)) + 1) with (Z.of_nat (length (found (S ii)))) by lia.
    rewrite Z.geb_leb. destruct (Z.leb_spec (Z.of_nat (length (found k))) (Z.of_nat (length (found (S ii))))) as [Hd|Hd].
    + eexists. split; [done|]. intros t r Ht. apply Hf'.
      assert (E : found k = found (S ii) ++ filter (fun i => erased i = true) (seq (S ii) (k - S ii))).
      { rewrite <- filter_app. f_equal. replace k with (S ii + (k - S ii))%nat at 1 by lia. by rewrite seq_app. }
      rewrite E in Ht. rewrite lookup_app_l in Ht; [done|]. apply lookup_lt_Some in Ht.
      rewrite E, length_app in Hd. rewrite length_app in Ht. lia.
    + replace (Z.of_nat ii + 1) with (Z.of_nat (S ii)) by lia. apply IH; try lia.
      * by rewrite length_insert.
      * intros i Hi. rewrite list_lookup_insert_ne by lia. apply Her. lia.
      * done.
  - rewrite decide_False, app_nil_r in HS by congruence. rewrite <- HS.
    replace (Z.of_nat ii + 1) with (Z.of_nat (S ii)) by lia. apply IH; rewrite ?HS; try lia; try done.
    intros i Hi. apply Her. lia.
Qed.

Lemma identify_none n : forall ii er, (n + ii <= length er)%nat ->
  exists er', identify_erasures n (Z.of_nat ii) 0 0 er = Ok er'.
Proof.
  induction n as [|n IH]; intros ii er Hl; cbn [identify_erasures]; [eauto|].
  destruct (lookup_lt_is_Some_2 er ii ltac:(lia)) as [e Ee]. rewrite (get_nat _ _ _ Ee). cbn [mbind res_bind].
  destruct (e =? 0).
  - assert (E : put er 0 (u8 (Z.of_nat ii)) = Ok (<[0%nat := u8 (Z.of_nat ii)]> er)) by (apply (put_nat er 0); lia).
    rewrite E. cbn [mbind res_bind]. eauto.
  - replace (Z.of_nat ii + 1) with (Z.of_nat (S ii)) by lia. apply IH. lia.
Qed.

(** [Initialize] separates the rows and lists the erased ones in order. *)
Lemma Initialize_spec heap m n blocks :
  length heap = 256%nat -> (k <= 256)%nat -> length blocks = k ->
  (forall i b, blocks !! i = Some b -> if erased i then Z.of_nat k <= Index b else Index b = Z.of_nat i) ->
  exists d, Initialize heap {| OriginalCount := Z.of_nat k; RecoveryCount := m; BlockBytes := n |} blocks = Ok (Some d) /\
    Params d = {| OriginalCount := Z.of_nat k; RecoveryCount := m; BlockBytes := n |} /\
    Recovery d = erased_rows /\ Original d = kept_rows /\
    (erased_rows <> [] -> forall t r, erased_rows !! t = Some r -> ErasuresIndices d !! t = Some (Z.of_nat r)).
Proof.
  intros Hh Hk Hl Hb. unfold Initialize. remember (identify_erasures 256) as identify eqn:Hid. cbn [OriginalCount]. rewrite Nat2Z.id.
  forM_induction (fun i er => length er = 256%nat /\ forall j, (j < i)%nat -> er !! j = Some 0).
  { split; [done|]. intros. lia. }
  { intros i er Hi [Hle H0]. rewrite put_nat by lia. eexists. split; [done|]. split; [by rewrite length_insert|].
    intros j Hj. destruct (decide (j = i)) as [->|]; [by rewrite list_lookup_insert_eq by lia|].
    rewrite list_lookup_insert_ne by done. apply H0. lia. }
  destruct Hloop as (er & -> & Hle & H0). cbn [mbind res_bind Nat.add] in *.
  rewrite slice_Some, drop_0, take_ge by lia. cbn [of_option mbind res_bind].
  destruct (scan_spec blocks 0 [] [] er ltac:(lia) ltac:(lia)) as (er' & E0 & Hl' & Hr').
  { intros i b. apply Hb. } { intros i Hi. apply H0. lia. }
  rewrite Hl in E0, Hr'. rewrite !app_nil_l in E0.
  assert (E1 : scan_blocks (Z.of_nat k) blocks 0 [] [] er = Ok (Some (kept_rows, erased_rows, er'))) by exact E0.
  rewrite E1, bind_Ok.
  assert (Hflag : forall i, (0 <= i < k)%nat -> er' !! i = Some (if erased i then 0 else 1)).
  { intros i Hi. rewrite Hr'. destruct (erased i) eqn:Ee; [rewrite decide_False by (intros [_ ?]; done); apply H0; lia|].
    by rewrite decide_True by (split; [lia|done]). }
  destruct (decide (erased_rows = [])) as [En|En].
  - rewrite En. cbn [length].
    destruct (identify_none 256 0 er' ltac:(lia)) as (er'' & E). change (Z.of_nat 0) with 0 in E |- *. rewrite Hid, E. cbn [mbind res_bind].
    eexists. split; [done|]. cbn [Params Recovery Original]. split_and!; done.
  - destruct (identify_spec 256 0 er' ltac:(lia) Hk ltac:(lia)) as (er'' & E & H).
    { fold erased_rows. cbn [seq filter list_filter length]. destruct erased_rows; [done|]. cbn [length]. lia. }
    { done. } { intros t r Ht. by destruct t. }
    fold erased_rows in E, H. change (Z.of_nat (length (found 0))) with 0 in E. change (Z.of_nat 0) with 0 in E.
    rewrite Hid, E. cbn [mbind res_bind].
    eexists. split; [done|]. cbn [Params Recovery Original ErasuresIndices]. split_and!; done.
Qed.
End Rows.

(** ** Sums over rows *)
Fixpoint lsum (l : list nat) (f : nat -> gf) : gf :=
  match l with [] => gf0 | i :: l' => gfadd (f i) (lsum l' f) end.

Lemma lsum_app l l' f : lsum (l ++ l') f = gfadd (lsum l f) (lsum l' f).
Proof. induction l as [|i l IH]; cbn [lsum app]; [ring|]. rewrite IH. ring. Qed.

Lemma lsum_perm l l' f : l ≡ₚ l' -> lsum l f = lsum l' f.
Proof. induction 1; cbn [lsum]; try congruence. ring. Qed.

Lemma lsum_fsum l (f : nat -> gf) (r : nat -> nat) :
  (forall t i, l !! t = Some i -> r t = i) -> lsum l f = sum (length l) (fun t => f (r t)).
Proof.
  induction l as [|i l IH] using rev_ind; intros Hr; [done|]. rewrite lsum_app, length_app. cbn [lsum length].
  rewrite Nat.add_1_r. cbn [fsum]. rewrite IH.
  - rewrite (Hr (length l) i); [ring|]. by rewrite lookup_app_r, Nat.sub_diag by lia.
  - intros t j Ht. apply Hr. by rewrite lookup_app_l by exact (lookup_lt_Some _ _ _ Ht).
Qed.

Lemma sum_rows k er0 f : sum k f = gfadd (lsum (erased_rows k er0) f) (lsum (kept_rows k er0) f).
Proof.
  rewrite <- lsum_app. transitivity (lsum (seq 0 k) f).
  - rewrite (lsum_fsum _ _ (fun t => t)), length_seq; [done|]. intros t i Ht. apply lookup_seq in Ht as [-> _]. done.
  - apply lsum_perm. unfold erased_rows, kept_rows. induction (seq 0 k) as [|i l IH]; [done|].
    destruct (erased er0 i) eqn:E.
    + rewrite filter_cons_True, (filter_cons_False _ i) by congruence. cbn [app]. by f_equiv.
    + rewrite filter_cons_False, (filter_cons_True _ i) by congruence. rewrite IH at 1. apply Permutation_middle.
Qed.

(** ** Decoding *)
Section Decode.
Context (ssse3 : bool) (n k m : nat) (data parity : list nat) (er0 : list Z) (V : nat -> nat -> gf) (tl : nat -> list Z).
Let params := {| OriginalCount := Z.of_nat k; RecoveryCount := Z.of_nat m; BlockBytes := Z.of_nat n |}.
Context (Hn : (0 < n)%nat) (Hk : (0 < k)%nat) (Hm : (1 < m)%nat) (Hkm : (k + m <= 256)%nat)
  (Hdata : length data = k) (Hparity : length parity = m) (Hnd : NoDup (data ++ parity))
  (Hle : (length er0 <= m)%nat) (Hnde : NoDup er0) (Hrange : forall e, e ∈ er0 -> 0 <= e < Z.of_nat k).

Lemma erased_spec i : erased er0 i = true <-> exists a, er0 !! a = Some (Z.of_nat i).
Proof. unfold erased. rewrite bool_decide_eq_true, list_elem_of_lookup. done. Qed.

(** The blocks: erased rows use the parity blocks in the order of the erasures. *)
Definition blocks_ok (done : nat) (blocks : list cauchy_block) : Prop :=
  length blocks = k /\ forall i q, data !! i = Some q ->
    (forall a, (a < done)%nat -> er0 !! a <> Some (Z.of_nat i)) /\
      blocks !! i = Some {| Block := q; Index := Z.of_nat i |} \/
    exists a p, (a < done)%nat /\ er0 !! a = Some (Z.of_nat i) /\ parity !! a = Some p /\
      blocks !! i = Some {| Block := p; Index := Z.of_nat (k + a) |}.

Lemma decode_blocks_spec :
  exists blocks, decode_blocks params data parity er0 (Z.of_nat (length er0)) = Ok blocks /\ blocks_ok (length er0) blocks.
Proof.
  unfold decode_blocks. cbn [OriginalCount params]. rewrite !Nat2Z.id, slice_Some, drop_0, take_ge by lia.
  cbn [of_option mbind res_bind].
  forM_induction (fun a blocks => blocks_ok a blocks).
  - split; [by rewrite length_imap|]. intros i q Ei. left. split; [intros; lia|]. rewrite list_lookup_imap, Ei. cbn.
    unfold cauchy_get_original_block_index. apply lookup_lt_Some in Ei. rewrite (wrap_id 8) by (unfold in_range; lia). done.
  - intros a bl Ha [Hl Hb]. destruct (lookup_lt_is_Some_2 er0 a ltac:(lia)) as [e Ee].
    destruct (lookup_lt_is_Some_2 parity a ltac:(lia)) as [p Ep].
    pose proof (Hrange e ltac:(by eapply list_elem_of_lookup_2)) as He. rewrite <- (Z2Nat.id e) in Ee by lia.
    rewrite (get_nat _ _ _ Ee), bind_Ok, (get_nat _ _ _ Ep), bind_Ok, put_nat by lia. eexists. split; [done|].
    unfold cauchy_get_recovery_block_index, params. cbn [OriginalCount]. rewrite (wrap_id 8) by (unfold in_range; lia).
    split; [by rewrite length_insert|]. intros i q Ei. destruct (decide (i = Z.to_nat e)) as [->|Hne].
    + right. exists a, p. split_and!; [lia|done|done|]. rewrite list_lookup_insert_eq by lia. by rewrite Nat2Z.inj_add.
    + rewrite list_lookup_insert_ne by done. destruct (Hb i q Ei) as [[H1 H2]|(a' & p' & H1 & H2 & H3 & H4)].
      * left. split; [|done]. intros a' Ha'. destruct (decide (a' = a)) as [->|]; [|apply H1; lia].
        rewrite Ee. intros [= E]. lia.
      * right. exists a', p'. split_and!; [lia|done..].
  - done.
Qed.

Lemma blocks_index blocks i b : blocks_ok (length er0) blocks -> blocks !! i = Some b ->
  if erased er0 i then Z.of_nat k <= Index b else Index b = Z.of_nat i.
Proof.
  intros [Hl Hb] Ei. destruct (lookup_lt_is_Some_2 data i) as [q Eq]; [apply lookup_lt_Some in Ei; lia|].
  destruct (Hb i q Eq) as [[H1 H2]|(a & p & H1 & H2 & H3 & H4)]; simplify_eq; cbn [Index].
  - destruct (erased er0 i) eqn:Ee; [|done]. apply erased_spec in Ee as [a Ea]. exfalso. apply (H1 a); [|done].
    by apply lookup_lt_Some in Ea.
  - rewrite (proj2 (erased_spec i)) by eauto. lia.
Qed.

(** The rows of the linear system. *)
Let ys := erased_rows k er0.
Let os := kept_rows k er0.
Definition row_of_erased (j : nat) : nat := nth j ys 0%nat.
Definition rank (j : nat) : nat :=
  match list_find (fun e => e = Z.of_nat (row_of_erased j)) er0 with Some (a, _) => a | None => 0%nat end.

Lemma ys_few : (length ys <= 256)%nat.
Proof. unfold ys, erased_rows. etransitivity; [apply length_filter|]. rewrite length_seq. lia. Qed.

Lemma ys_NoDup : NoDup ys.
Proof. apply NoDup_filter, NoDup_seq. Qed.

Lemma ys_lookup j : (j < length ys)%nat -> ys !! j = Some (row_of_erased j) /\ (row_of_erased j < k)%nat /\
  er0 !! rank j = Some (Z.of_nat (row_of_erased j)).
Proof.
  intros Hj. destruct (lookup_lt_is_Some_2 ys j Hj) as [r Er].
  assert (E : row_of_erased j = r) by (unfold row_of_erased; by rewrite nth_lookup, Er).
  pose proof (list_elem_of_lookup_2 _ _ _ Er) as Hin. unfold ys, erased_rows in Hin.
  apply list_elem_of_filter in Hin as [He Hs]. apply elem_of_seq in Hs. rewrite E. split_and!; [done|lia|].
  unfold rank. rewrite E. destruct (list_find (fun e => e = Z.of_nat r) er0) as [[a e]|] eqn:Ef.
  - by apply list_find_Some in Ef as (Ha & -> & _).
  - exfalso. apply list_find_None in Ef. apply erased_spec in He as [a Ea].
    apply (Forall_lookup_1 _ _ _ _ Ef Ea). done.
Qed.

Lemma rank_lt j : (j < length ys)%nat -> (rank j < length er0)%nat.
Proof. intros Hj. destruct (ys_lookup j Hj) as (_ & _ & E). by apply lookup_lt_Some in E. Qed.

Lemma row_inj i j : (i < length ys)%nat -> (j < length ys)%nat -> row_of_erased i = row_of_erased j -> i = j.
Proof.
  intros Hi Hj E. destruct (ys_lookup i Hi) as (E1 & _). destruct (ys_lookup j Hj) as (E2 & _). rewrite <- E in E2.
  by eapply NoDup_lookup; [apply ys_NoDup| |].
Qed.

Lemma rank_inj i j : (i < length ys)%nat -> (j < length ys)%nat -> rank i = rank j -> i = j.
Proof.
  intros Hi Hj E. destruct (ys_lookup i Hi) as (_ & _ & E1). destruct (ys_lookup j Hj) as (_ & _ & E2).
  rewrite <- E in E2. apply row_inj; [done|done|]. simplify_eq. lia.
Qed.

Let X (j : nat) : gf := emb (k + rank j).
Let Y (j : nat) : gf := emb (row_of_erased j).
Let R (j : nat) : nat := nth (rank j) parity 0%nat.

Lemma R_lookup j : (j < length ys)%nat -> parity !! rank j = Some (R j).
Proof. intros Hj. pose proof (rank_lt j Hj). destruct (lookup_lt_is_Some_2 parity (rank j) ltac:(lia)) as [p Ep]. unfold R. by rewrite nth_lookup, Ep. Qed.

Lemma R_inj i j : (i < length ys)%nat -> (j < length ys)%nat -> R i = R j -> i = j.
Proof.
  intros Hi Hj E. apply rank_inj; [done|done|]. pose proof (R_lookup i Hi) as H1. pose proof (R_lookup j Hj) as H2.
  rewrite <- E in H2. eapply NoDup_lookup; [|exact H1|exact H2]. by apply NoDup_app in Hnd as (_ & _ & ?).
Qed.

Lemma system_ok :
  (forall i j, (i < length ys)%nat -> (j < length ys)%nat -> gfsub (X i) (Y j) <> gf0) /\
  (forall i j, (i < length ys)%nat -> (j < length ys)%nat -> i <> j -> gfsub (X i) (X j) <> gf0) /\
  (forall i j, (i < length ys)%nat -> (j < length ys)%nat -> i <> j -> gfsub (Y i) (Y j) <> gf0) /\
  (forall j, (j < length ys)%nat -> gfsub (emb k) (Y j) <> gf0).
Proof.
  split_and!; intros i; [intros j Hi Hj|intros j Hi Hj Hne|intros j Hi Hj Hne|intros Hi];
    destruct (ys_lookup i Hi) as (_ & Hri & _); pose proof (rank_lt i Hi).
  - destruct (ys_lookup j Hj) as (_ & Hrj & _). apply emb_sub_nonzero; lia.
  - pose proof (rank_lt j Hj). apply emb_sub_nonzero; [lia|lia|]. intros E. apply Hne; apply rank_inj; [done|done|lia].
  - destruct (ys_lookup j Hj) as (_ & Hrj & _). apply emb_sub_nonzero; [lia|lia|]. intros E. by apply Hne; apply row_inj.
  - apply emb_sub_nonzero; lia.
Qed.

(** *** The store after the loss *)
Context (st2 : store)
  (Hkept : forall i q, data !! i = Some q -> erased er0 i = false -> st2 !! q = Some (blk n (V i) (tl i)) /\ bytes (tl i))
  (Hpar : forall a q, (a < length er0)%nat -> parity !! a = Some q -> with_parity n st2 q (parity_row k V a))
  (Hbuf : forall i q, data !! i = Some q -> exists b, st2 !! q = Some b /\ (n <= length b)%nat).
Context (M : nat) (HM : length ys = S M).
Let tlr (j : nat) : list Z := drop n (default [] (st2 !! R j)).
Let co (j o : nat) : gf := elem k (rank j) o.

Lemma parity_row_sum j p : (j < length ys)%nat -> parity_row k V (rank j) p = sum k (fun t => fmul (co j t) (V t p)).
Proof.
  intros Hj. unfold parity_row, co. case_decide as E1; [|done].
  transitivity (sum 1 (fun t => fmul (elem k (rank j) t) (V t p))); [|by rewrite E1]. cbn [fsum].
  destruct (ys_lookup j Hj) as (_ & Hr & Ee). assert (row_of_erased j = 0%nat) as Er by lia. rewrite Er in Ee.
  destruct (lookup_lt_is_Some_2 er0 0) as [e E0]; [apply lookup_lt_Some in Ee; lia|].
  pose proof (Hrange e ltac:(by eapply list_elem_of_lookup_2)) as He. assert (e = 0) as -> by lia.
  rewrite (NoDup_lookup _ _ _ _ Hnde Ee E0), elem_first by lia. ring.
Qed.

Lemma start_rows : rows n M R tlr st2 st2 (fun j p => sum k (fun t => fmul (co j t) (V t p))) /\
  forall j, (j < S M)%nat -> bytes (tlr j).
Proof.
  assert (H : forall j, (j < S M)%nat -> st2 !! R j = Some (blk n (parity_row k V (rank j)) (tlr j)) /\ bytes (tlr j)).
  { intros j Hj. destruct (Hpar (rank j) (R j)) as (tp & E & B); [apply rank_lt; lia|apply R_lookup; lia|].
    unfold tlr. rewrite E. cbn [default]. unfold id. by rewrite blk_drop. }
  split; [|intros j Hj; by apply H]. split_and!; [|done|done]. intros j Hj. rewrite (proj1 (H j Hj)). f_equal. apply blk_ext.
  intros p _. apply parity_row_sum. lia.
Qed.

Lemma data_not_R i q j : data !! i = Some q -> (j < S M)%nat -> q <> R j.
Proof. intros Ei Hj ->. eapply data_parity; [exact Hnd|exact Ei|]. apply R_lookup. lia. Qed.

Context (d : CauchyDecoder) (blocks : list cauchy_block) (Hblocks : blocks_ok (length er0) blocks)
  (HdP : Params d = params) (HdR : Recovery d = ys) (HdO : Original d = os)
  (HdE : forall t r, ys !! t = Some r -> ErasuresIndices d !! t = Some (Z.of_nat r)).

Lemma recovery_block j : (j < S M)%nat ->
  blocks !! row_of_erased j = Some {| Block := R j; Index := Z.of_nat (k + rank j) |} /\
  block_at blocks (Recovery d) (Z.of_nat j) = Ok {| Block := R j; Index := Z.of_nat (k + rank j) |}.
Proof.
  intros Hj. destruct (ys_lookup j ltac:(lia)) as (E1 & Hr & E2).
  assert (H : blocks !! row_of_erased j = Some {| Block := R j; Index := Z.of_nat (k + rank j) |}).
  { destruct (lookup_lt_is_Some_2 data (row_of_erased j) ltac:(lia)) as [q Eq].
    destruct (proj2 Hblocks _ _ Eq) as [[H1 _]|(a & p & H1 & H2 & H3 & H4)].
    - exfalso. by apply (H1 (rank j)); [apply rank_lt; lia|].
    - rewrite (NoDup_lookup _ _ _ _ Hnde H2 E2) in *. pose proof (R_lookup j ltac:(lia)) as H5. by simplify_eq. }
  split; [done|]. unfold block_at. rewrite HdR, (get_nat _ _ _ E1), bind_Ok, H. done.
Qed.

Lemma original_block c o : os !! c = Some o ->
  exists q, data !! o = Some q /\ erased er0 o = false /\ (o < k)%nat /\
    block_at blocks (Original d) (Z.of_nat c) = Ok {| Block := q; Index := Z.of_nat o |}.
Proof.
  intros Eo. pose proof (list_elem_of_lookup_2 _ _ _ Eo) as Hin. unfold os, kept_rows in Hin.
  apply list_elem_of_filter in Hin as [Hf Hs]. apply elem_of_seq in Hs.
  destruct (lookup_lt_is_Some_2 data o ltac:(lia)) as [q Eq]. exists q. split_and!; [done|done|lia|].
  unfold block_at. rewrite HdO, (get_nat _ _ _ Eo), bind_Ok.
  destruct (proj2 Hblocks _ _ Eq) as [[_ ->]|(a & p & _ & H2 & _)]; [done|].
  exfalso. assert (erased er0 o = true) by (apply erased_spec; eauto). congruence.
Qed.

Lemma eliminate_one o q st v : data !! o = Some q -> erased er0 o = false -> (o < k)%nat -> rows n M R tlr st2 st v ->
  exists st', forM (S M) 0 (fun recoveryIndex st =>
      r ← block_at blocks (Recovery d) recoveryIndex;
      block_op1 (fun z x => gf_muladd_mem ready_ctx ssse3 z
          (GetMatrixElement ready_ctx (Index r) (Z.of_nat k) (Z.of_nat o)) x (Z.of_nat n)) (Block r) q st) st = Ok st' /\
    rows n M R tlr st2 st' (fun j p => gfsub (v j p) (fmul (co j o) (V o p))).
Proof.
  intros Eo Ho Hok Hr. destruct start_rows as [_ Btl].
  forM_induction (fun c st' => rows n M R tlr st2 st' (fun j p => if decide (j < c)%nat then gfsub (v j p) (fmul (co j o) (V o p)) else v j p)).
  - done.
  - intros j st1 Hj Hr1. destruct (recovery_block j ltac:(lia)) as [_ ->]. rewrite bind_Ok. cbn [Index Block].
    pose proof (rank_lt j ltac:(lia)). rewrite elem_code by lia. destruct (Hkept o q Eo Ho) as [Eq Bq].
    erewrite muladd_block; [|apply Hr1; lia| |apply Btl; lia|exact Bq].
    2: { rewrite (proj2 (proj2 Hr1)); [exact Eq|]. intros j' Hj'. eapply data_not_R; [exact Eo|done]. }
    eexists. split; [done|]. eapply rows_update; [intros; apply R_inj; try done; lia|lia|exact Hr1| |].
    + intros p _. cbn beta. rewrite decide_False, decide_True by lia. done.
    + intros j' p Hj' Hne. cbn beta. by case_decide; case_decide; try lia.
  - destruct Hloop as (st' & -> & Hr'). exists st'. split; [done|]. eapply rows_ext; [|exact Hr'].
    intros j p Hj _. cbn beta. by rewrite decide_True by lia.
Qed.

Lemma eliminate_originals_spec :
  exists st', eliminate_originals ready_ctx ssse3 d blocks (Z.of_nat k) st2 = Ok st' /\
    rows n M R tlr st2 st' (fun j p => lsum ys (fun t => fmul (co j t) (V t p))).
Proof.
  unfold eliminate_originals. rewrite HdO, HdR, HM, HdP. cbn [BlockBytes params]. destruct start_rows as [Hr0 _].
  forM_induction (fun c st' => rows n M R tlr st2 st'
    (fun j p => gfsub (sum k (fun t => fmul (co j t) (V t p))) (lsum (take c os) (fun t => fmul (co j t) (V t p))))).
  - eapply rows_ext; [|exact Hr0]. intros j p _ _. cbn beta. rewrite take_0. cbn [lsum]. ring.
  - intros c st1 Hc Hr1. destruct (lookup_lt_is_Some_2 os c ltac:(lia)) as [o Eo].
    destruct (original_block c o Eo) as (q & Eq & Ho & Hok & E). rewrite <- HdO, E, bind_Ok. cbn [Index Block].
    destruct (eliminate_one o q st1 _ Eq Ho Hok Hr1) as (st' & E' & Hr'). exists st'. rewrite HdR in E'. split; [exact E'|].
    eapply rows_ext; [|exact Hr']. intros j p _ _. cbn beta. rewrite HdO, (take_S_r _ _ _ Eo), lsum_app. cbn [lsum]. ring.
  - destruct Hloop as (st' & -> & Hr'). exists st'. split; [done|]. eapply rows_ext; [|exact Hr'].
    intros j p _ _. cbn beta. cbn [Nat.add]. rewrite take_ge by lia. rewrite (sum_rows k er0). unfold os, ys. ring.
Qed.

(** *** Solving for the erased rows *)
Let E (t p : nat) : gf := V (row_of_erased t) p.

Lemma eliminated_lower j p : (j < S M)%nat ->
  lsum ys (fun t => fmul (co j t) (V t p))
  = lower gf0 gf1 gfadd fmul gfsub fdiv (S M) X Y (fun j => gfsub (emb k) (Y j)) (fun t => E t p) 0 j.
Proof.
  intros Hj. destruct system_ok as (Hxy & _). unfold lower, schur. cbn [gen_g gen_b].
  rewrite (lsum_fsum ys _ row_of_erased), HM.
  - apply fsum_ext. intros t Ht. unfold co, elem, E. fold (X j) (Y t). rewrite (gfsub_comm (Y t)). field. apply Hxy; lia.
  - intros t i Ei. destruct (ys_lookup t) as (E1 & _); [by apply lookup_lt_Some in Ei|]. congruence.
Qed.

Lemma tri_square a : (tri a + S a + tri a = S a * S a)%nat.
Proof. induction a; cbn [tri]; lia. Qed.

(** The memory of the matrix has the bytes it needs, wherever it is. *)
Lemma matrix_holds N (matrix : list Z) : (N * N <= length matrix)%nat ->
  (N * N <= length (take (Z.to_nat (if StackAllocSize <? Z.of_nat N * Z.of_nat N then Z.of_nat N * Z.of_nat N else StackAllocSize)%Z) matrix))%nat.
Proof. intros H. rewrite length_take. destruct (Z.ltb_spec StackAllocSize (Z.of_nat N * Z.of_nat N)); lia. Qed.

Lemma Decode_spec matrix :
  (S M * S M <= length matrix)%nat ->
  exists blocks' st', Decode ready_ctx ssse3 true matrix d blocks st2 = Ok (blocks', st') /\
    map Block blocks' = map Block blocks /\ rows n M R tlr st2 st' E.
Proof.
  intros Hmat. unfold Decode. rewrite HdP. cbn [OriginalCount BlockBytes params]. rewrite (wrap_id 8) by (unfold in_range; lia).
  destruct eliminate_originals_spec as (st3 & -> & Hr3). rewrite bind_Ok, andb_false_r.
  rewrite HdR, HM, tri_half_nat. pose proof (tri_square M) as Htri. cbv zeta.
  set (mem := take _ matrix). assert (Hmem : (S M * S M <= length mem)%nat) by by apply matrix_holds.
  rewrite !slice_Some by lia. cbn [of_option]. rewrite !bind_Ok.
  pose proof ys_few as HM256. rewrite HM in HM256.
  destruct system_ok as (Hxy & Hx & Hy & Hd). rewrite HM in Hxy, Hx, Hy, Hd.
  assert (Hrf : forall i, (i < S M)%nat -> Recovery d !! i = Some (row_of_erased i)).
  { intros i Hi. rewrite HdR. by apply ys_lookup; lia. }
  assert (Hrefs : forall bl, map Block bl = map Block blocks -> refs_ok M R row_of_erased bl).
  { intros bl Hbl. eapply map_Block_refs; [exact Hbl|]. intros i Hi. destruct (recovery_block i Hi) as [-> _]. eauto. }
  assert (HR : forall i j, (i < S M)%nat -> (j < S M)%nat -> R i = R j -> i = j) by (intros; apply R_inj; done || lia).
  assert (Hrec : forall bl, map Block bl = map Block blocks -> forall i, (i < S M)%nat ->
    (b ← block_at bl ys (Z.of_nat i); Ok (Block b)) = Ok (R i)).
  { intros bl Hbl i Hi. destruct (refs_block_at M R d row_of_erased Hrf bl i (Hrefs bl Hbl) Hi) as (b & E1 & _ & E2).
    rewrite <- HdR, E1, bind_Ok. by rewrite E2. }
  rewrite <- (fval_emb k) by lia.
  rewrite (ldu_spec ssse3 _ _ X Y (emb k) M) ;
    [|lia|intros i Hi; destruct (recovery_block i Hi) as [_ E1]; rewrite HdR in E1; rewrite E1, bind_Ok; unfold X;
       rewrite fval_emb by (pose proof (rank_lt i ltac:(lia)); lia); done
     |intros i Hi; destruct (ys_lookup i ltac:(lia)) as (E1 & E2 & _); rewrite (get_nat _ _ _ (HdE _ _ E1)); unfold Y;
       by rewrite fval_emb by lia
     |done..|rewrite length_take, length_drop; lia|rewrite length_take, length_drop; lia|rewrite length_take, length_drop; lia]. rewrite bind_Ok.
  destruct start_rows as [_ Btl].
  destruct (eliminate_lower_spec ssse3 n M X Y (emb k) Hxy Hx Hy Hd E R tlr HR Btl
    (fun i => b ← block_at blocks ys i; Ok (Block b)) (Hrec blocks eq_refl) st3) as (st4 & l4 & E4 & H4).
  { eapply rows_ext; [|eapply rows_self; exact Hr3]. intros j p Hj _. by apply eliminated_lower. }
  rewrite Nat.sub_0_r in E4. unfold columns_L. rewrite E4, bind_Ok.
  destruct (eliminate_diagonal_spec ssse3 n M X Y (emb k) Hxy Hx Hy Hd E R tlr HR Btl d row_of_erased) with (st := st4) (blocks := blocks)
    as (bl & st5 & E5 & Hbl & H5).
  { by rewrite HdP. } { by rewrite HdR. } { done. }
  { intros i Hi. destruct (ys_lookup i ltac:(lia)) as (E1 & _). rewrite (HdE _ _ E1). eauto. }
  { by apply Hrefs. } { by eapply rows_self. }
  rewrite E5, bind_Ok.
  destruct (eliminate_upper_spec ssse3 n M X Y (emb k) Hxy Hx Hy Hd E R tlr HR Btl
    (fun i => b ← block_at bl ys i; Ok (Block b)) (Hrec bl Hbl) st5) as (st6 & l6 & E6 & H6).
  { by eapply rows_self. }
  rewrite Nat.sub_0_r in E6. rewrite E6, bind_Ok. exists bl, st6. split_and!; [done|done|].
  eapply rows_trans; [exact Hr3|]. eapply rows_trans; [exact H4|]. by eapply rows_trans; [exact H5|].
Qed.

(** The buffers the rows are copied from. *)
Lemma source_self i j q : map Block blocks !! i = Some q -> data !! j = Some q -> i = j.
Proof.
  intros Ei Ej. rewrite list_lookup_fmap in Ei. destruct (blocks !! i) as [b|] eqn:Eb; [|done]. injection Ei as Eq.
  destruct (lookup_lt_is_Some_2 data i) as [q' Eq']; [apply lookup_lt_Some in Eb; pose proof (proj1 Hblocks); lia|].
  destruct (proj2 Hblocks _ _ Eq') as [[_ H]|(a & p & _ & _ & H3 & H4)].
  - rewrite Eb in H. injection H as ->. cbn in Eq. subst q'. eapply NoDup_lookup; [|exact Eq'|exact Ej].
    by apply NoDup_app in Hnd as (? & _).
  - rewrite Eb in H4. injection H4 as ->. cbn in Eq. subst p. exfalso. eapply data_parity; [exact Hnd|exact Ej|exact H3].
Qed.

Lemma source_values st' : rows n M R tlr st2 st' E ->
  forall i q, map Block blocks !! i = Some q -> exists t, st' !! q = Some (blk n (V i) t).
Proof.
  intros (Hr & _ & Hf) i q Ei. rewrite list_lookup_fmap in Ei. destruct (blocks !! i) as [b|] eqn:Eb; [|done]. injection Ei as Eq.
  destruct (lookup_lt_is_Some_2 data i) as [q' Eq']; [apply lookup_lt_Some in Eb; pose proof (proj1 Hblocks); lia|].
  destruct (erased er0 i) eqn:He.
  - assert (Hin : i ∈ ys) by (apply list_elem_of_filter; split; [done|]; apply elem_of_seq; apply lookup_lt_Some in Eq'; lia).
    apply list_elem_of_lookup in Hin as [j Ej]. pose proof (lookup_lt_Some _ _ _ Ej) as Hj.
    destruct (ys_lookup j Hj) as (Ej' & _). assert (i = row_of_erased j) as -> by congruence.
    destruct (recovery_block j ltac:(lia)) as [E1 _]. rewrite Eb in E1. injection E1 as ->. cbn in Eq. subst q.
    exists (tlr j). rewrite Hr by lia. done.
  - destruct (proj2 Hblocks _ _ Eq') as [[_ H]|(a & p & _ & H2 & _)].
    + rewrite Eb in H. injection H as ->. cbn in Eq. subst q'. exists (tl i). rewrite Hf; [by apply Hkept|].
      intros j Hj. by eapply data_not_R.
    + exfalso. assert (erased er0 i = true) by (apply erased_spec; eauto). congruence.
Qed.
End Decode.

(** ** Copying the recovered rows back *)
Section CopyBack.
Context (n k : nat) (data : list nat) (V : nat -> nat -> gf) (src : list nat) (st0 : store).
Context (Hdata : length data = k) (Hnd : NoDup data) (Hsrc : length src = k)
  (Hself : forall i j q, src !! i = Some q -> data !! j = Some q -> i = j)
  (Hval : forall i q, src !! i = Some q -> exists t, st0 !! q = Some (blk n (V i) t))
  (Hbuf : forall i q, data !! i = Some q -> exists b, st0 !! q = Some b /\ (n <= length b)%nat).

Lemma copy_back blocks : map Block blocks = src ->
  exists st', forM k 0 (fun i st =>
      p ← get data i; b ← get blocks i; block_op1 (block_memcpy (Z.of_nat n)) p (Block b) st) st0 = Ok st' /\
    forall i q, data !! i = Some q -> exists t, st' !! q = Some (blk n (V i) t).
Proof.
  intros Hb.
  forM_induction (fun c (st : store) => (forall i q, src !! i = Some q -> exists t, st !! q = Some (blk n (V i) t)) /\
    (forall i q, data !! i = Some q -> exists b, st !! q = Some b /\ (n <= length b)%nat) /\
    (forall i q, (i < c)%nat -> data !! i = Some q -> exists t, st !! q = Some (blk n (V i) t))).
  - split_and!; [done|done|]. intros; lia.
  - intros i st Hi (H1 & H2 & H3). destruct (lookup_lt_is_Some_2 data i ltac:(lia)) as [q Eq].
    destruct (lookup_lt_is_Some_2 src i ltac:(lia)) as [s Es].
    assert (Eb : exists b, blocks !! i = Some b /\ Block b = s).
    { rewrite <- Hb, list_lookup_fmap in Es. destruct (blocks !! i) as [b|]; [|done]. injection Es as <-. eauto. }
    destruct Eb as (b & Eb & <-). rewrite (get_nat _ _ _ Eq), bind_Ok, (get_nat _ _ _ Eb), bind_Ok.
    destruct (H1 i _ Es) as [t Et]. destruct (H2 i q Eq) as (bq & Ebq & Lbq).
    rewrite (memcpy_block n st q (Block b) bq (V i) t Ebq Et Lbq). eexists. split; [done|]. split_and!.
    + intros i' q' Es'. destruct (decide (q' = q)) as [->|Hne].
      * rewrite (Hself _ _ _ Es' Eq). rewrite list_lookup_insert_eq by exact (lookup_lt_Some _ _ _ Ebq). eauto.
      * rewrite list_lookup_insert_ne by congruence. by apply H1.
    + intros i' q' Eq'. destruct (decide (q' = q)) as [->|Hne].
      * rewrite list_lookup_insert_eq by exact (lookup_lt_Some _ _ _ Ebq). eexists. split; [done|]. rewrite blk_length. lia.
      * rewrite list_lookup_insert_ne by congruence. by apply (H2 i').
    + intros i' q' Hi' Eq'. destruct (decide (q' = q)) as [->|Hne].
      * rewrite (NoDup_lookup _ _ _ _ Hnd Eq' Eq). rewrite list_lookup_insert_eq by exact (lookup_lt_Some _ _ _ Ebq). eauto.
      * rewrite list_lookup_insert_ne by congruence. apply H3; [|done].
        destruct (decide (i' = i)) as [->|]; [|lia]. congruence.
  - destruct Hloop as (st' & -> & _ & _ & H3). exists st'. split; [done|]. intros i q Eq. apply H3; [|done].
    apply lookup_lt_Some in Eq. lia.
Qed.
End CopyBack.

(** ** The theorem *)

(** The pointers [ptrs] point to buffers of at least [n] bytes. *)
Definition buffers_ok (n : nat) (st : store) (ptrs : list nat) : Prop :=
  forall q, q ∈ ptrs -> exists b, st !! q = Some b /\ bytes b /\ (n <= length b)%nat.

(** [st2] is [st1] after losing the data blocks listed in [erasures]. *)
Definition lost (n : nat) (data parity : list nat) (erasures : list Z) (st1 st2 : store) : Prop :=
  (forall i q, data !! i = Some q -> Z.of_nat i ∉ erasures -> st2 !! q = st1 !! q) /\
  (forall q, q ∈ parity -> st2 !! q = st1 !! q) /\ buffers_ok n st2 data.

Lemma block_values n st data : buffers_ok n st data ->
  exists (V : nat -> nat -> gf) (tl : nat -> list Z),
    forall j q, data !! j = Some q -> st !! q = Some (blk n (V j) (tl j)) /\ bytes (tl j).
Proof.
  induction data as [|q0 data IH] using rev_ind; intros Hb.
  - exists (fun _ _ => gf0), (fun _ => []). intros j q Hj. by rewrite lookup_nil in Hj.
  - destruct IH as (V & tl & H); [intros q Hq; apply Hb; set_solver|].
    destruct (Hb q0 ltac:(set_solver)) as (b & E & B & L). destruct (blk_of_bytes n b B L) as (f & t & -> & Bt).
    exists (fun j => if decide (j = length data) then f else V j), (fun j => if decide (j = length data) then t else tl j).
    intros j q Hj. destruct (decide (j = length data)) as [->|Hne].
    + rewrite lookup_app_r, Nat.sub_diag in Hj by lia. injection Hj as <-. done.
    + apply H. rewrite lookup_app_l in Hj; [done|]. apply lookup_lt_Some in Hj. rewrite length_app in Hj. cbn in Hj. lia.
Qed.

Lemma no_erased_rows k er0 (data : list nat) i q :
  (length (erased_rows k er0) <= 0)%nat -> length data = k -> data !! i = Some q -> erased er0 i = false.
Proof.
  intros H0 Hd Ei. destruct (erased er0 i) eqn:He; [|done]. exfalso.
  assert (Hin : i ∈ erased_rows k er0).
  { apply list_elem_of_filter. split; [done|]. apply elem_of_seq. apply lookup_lt_Some in Ei. lia. }
  destruct (erased_rows k er0); [by apply elem_of_nil in Hin|]. cbn in H0. lia.
Qed.

Lemma erased_rows_length k er0 : NoDup er0 -> (length (erased_rows k er0) <= length er0)%nat.
Proof.
  intros Hnd. rewrite <- (length_map Z.of_nat (erased_rows k er0)). apply submseteq_length, NoDup_submseteq.
  - apply NoDup_fmap_2; [apply _|]. apply NoDup_filter, NoDup_seq.
  - intros e He. apply list_elem_of_fmap in He as (i & -> & Hi). apply list_elem_of_filter in Hi as [He _].
    unfold erased in He. by apply bool_decide_eq_true in He.
Qed.

(** The decoder on a store where the kept data and the parity are intact. *)
Lemma decode_restores ssse3 n k m data parity (st0 st2 : store) er heap matrix V tl :
  (0 < n)%nat -> (0 < k)%nat -> (1 < m)%nat -> (k + m <= 256)%nat ->
  length data = k -> length parity = m -> NoDup (data ++ parity) ->
  (forall j q, data !! j = Some q -> st0 !! q = Some (blk n (V j) (tl j)) /\ bytes (tl j)) ->
  NoDup er -> (forall e, e ∈ er -> 0 <= e < Z.of_nat k) -> (length er <= m)%nat ->
  length heap = 256%nat -> (length er * length er <= length matrix)%nat ->
  (forall i q, data !! i = Some q -> erased er i = false -> st2 !! q = Some (blk n (V i) (tl i)) /\ bytes (tl i)) ->
  (forall a q, (a < length er)%nat -> parity !! a = Some q -> with_parity n st2 q (parity_row k V a)) ->
  buffers_ok n st2 data ->
  exists st3, cauchy_rs_decode ready_ctx ssse3 (true, true, true) heap matrix
      {| OriginalCount := Z.of_nat k; RecoveryCount := Z.of_nat m; BlockBytes := Z.of_nat n |} data parity
      er (Z.of_nat (length er)) st2 = Ok (0, st3) /\
    forall q, q ∈ data -> take n <$> st3 !! q = take n <$> st0 !! q.
Proof.
  intros Hn Hk Hm Hkm Hd Hp Hnd HV Hnde Hrange Hle Hheap Hmat Hkept Hpar Hbuf.
  unfold cauchy_rs_decode. cbn [OriginalCount RecoveryCount BlockBytes].
  destruct (Z.leb_spec (Z.of_nat k) 0), (Z.leb_spec (Z.of_nat m) 0), (Z.leb_spec (Z.of_nat n) 0); try lia. cbn [orb].
  destruct (Z.ltb_spec 256 (Z.of_nat k + Z.of_nat m)); [lia|]. cbn [negb].
  destruct (decode_blocks_spec n k m data parity er) as (blocks & -> & Hbl); try done. rewrite bind_Ok.
  destruct (Initialize_spec k er heap (Z.of_nat m) (Z.of_nat n) blocks Hheap ltac:(lia) (proj1 Hbl)) as (d & -> & HdP & HdR & HdO & HdE).
  { intros i b Ei. eapply blocks_index; eauto. }
  rewrite bind_Ok, HdR. destruct (Z.leb_spec (Z.of_nat (length (erased_rows k er))) 0) as [Hz|Hz].
  { exists st2. split; [done|]. intros q Hq. apply list_elem_of_lookup in Hq as [i Ei].
    rewrite (proj1 (HV _ _ Ei)), (proj1 (Hkept i q Ei ltac:(by eapply no_erased_rows; [|exact Hd|exact Ei]; lia))). done. }
  destruct (Z.eqb_spec (Z.of_nat m) 1); [lia|].
  destruct (length (erased_rows k er)) as [|M] eqn:HM; [lia|].
  pose proof (erased_rows_length k er Hnde) as Hlen. rewrite HM in Hlen.
  destruct (Decode_spec ssse3 n k m data parity er V tl) with (M := M) (st2 := st2) (d := d) (blocks := blocks) (matrix := matrix)
    as (bl & st' & -> & Emap & Hrows); try done.
  { apply HdE. intros E. by rewrite E in HM. } { nia. }
  rewrite bind_Ok, Nat2Z.id.
  destruct (copy_back n k data V (map Block blocks) st') with (blocks := bl) as (st3 & -> & H3); try done.
  { by apply NoDup_app in Hnd as (? & _). }
  { rewrite length_map. apply Hbl. }
  { eapply source_self; eauto. }
  { eapply source_values; eauto. }
  { intros i q Eq. destruct (Hbuf q ltac:(by eapply list_elem_of_lookup_2)) as (b & Eb & _ & Lb). exists b. split; [|done].
    rewrite <- Eb. apply Hrows. intros j Hj. eapply data_not_R; eauto. }
  rewrite bind_Ok. exists st3. split; [done|]. intros q Hq. apply list_elem_of_lookup in Hq as [i Ei].
  destruct (H3 i q Ei) as [t ->]. rewrite (proj1 (HV _ _ Ei)). cbn [fmap option_fmap option_map]. f_equal. by rewrite !blk_take.
Qed.

(** Encoding, then any loss that the code covers, then decoding. *)
Lemma repair ssse3 n k m data parity (st0 : store) :
  (0 < n)%nat -> (0 < k)%nat -> (1 < m)%nat -> (k + m <= 256)%nat ->
  length data = k -> length parity = m -> NoDup (data ++ parity) -> buffers_ok n st0 (data ++ parity) ->
  let params := {| OriginalCount := Z.of_nat k; RecoveryCount := Z.of_nat m; BlockBytes := Z.of_nat n |} in
  exists st1, cauchy_rs_encode ready_ctx ssse3 true params data parity st0 = Ok (0, st1) /\
    (forall q, q ∉ parity -> st1 !! q = st0 !! q) /\
    forall erasures heap matrix st2,
      NoDup erasures -> (forall e, e ∈ erasures -> 0 <= e < Z.of_nat k) -> (length erasures <= m)%nat ->
      length heap = 256%nat -> (length erasures * length erasures <= length matrix)%nat ->
      lost n data parity erasures st1 st2 ->
      exists st3, cauchy_rs_decode ready_ctx ssse3 (true, true, true) heap matrix params data parity
          erasures (Z.of_nat (length erasures)) st2 = Ok (0, st3) /\
        forall q, q ∈ data -> take n <$> st3 !! q = take n <$> st0 !! q.
Proof.
  intros Hn Hk Hm Hkm Hd Hp Hnd Hbufs params.
  destruct (block_values n st0 data) as (V & tl & HV); [intros q Hq; apply Hbufs; set_solver|].
  assert (Hpar0 : forall i q, parity !! i = Some q -> exists b, st0 !! q = Some b /\ bytes b /\ (n <= length b)%nat).
  { intros i q Hq. eapply Hbufs, elem_of_app. right. by eapply list_elem_of_lookup_2. }
  destruct (encode_spec ssse3 n k m data parity st0 V tl) as (st1 & E1 & Hl1 & Hf1 & Hw1); try done; [lia|].
  exists st1. split_and!; [exact E1|exact Hf1|]. intros er heap matrix st2 Hnde Hrange Hle Hheap Hmat (Hkept & Hpar & Hbuf2).
  assert (Hdp : forall q, q ∈ data -> q ∉ parity) by (apply NoDup_app in Hnd as (_ & H & _); exact H).
  eapply decode_restores; eauto.
  - intros i q Eq He. rewrite (Hkept i q Eq) by (intros Hin; unfold erased in He; by apply bool_decide_eq_false in He).
    rewrite Hf1; [by eapply HV|]. apply Hdp. by eapply list_elem_of_lookup_2.
  - intros a q Ha Eq. unfold with_parity. rewrite Hpar by (by eapply list_elem_of_lookup_2). by eapply Hw1.
Qed.

(** C10: erasure coding repairs losses. For every number [k >= 1] of data
    blocks and [m >= 2] of parity blocks the code accepts ([k + m <= 256]),
    every block size and every content, with or without SSSE3, encoding
    returns 0 and changes only parity blocks; and after any data blocks listed
    in [erasures], at most [m] of them, have been overwritten arbitrarily,
    decoding returns 0 with every data block as it was before the loss, for
    every content of uninitialised memory and in any order of the erasures. *)
Theorem erasure_code_restores ssse3 n k m data parity (st0 : store) :
  (0 < n)%nat -> (0 < k)%nat -> (1 < m)%nat -> (k + m <= 256)%nat ->
  length data = k -> length parity = m -> NoDup (data ++ parity) -> buffers_ok n st0 (data ++ parity) ->
  let params := {| OriginalCount := Z.of_nat k; RecoveryCount := Z.of_nat m; BlockBytes := Z.of_nat n |} in
  exists st1, cauchy_rs_encode ready_ctx ssse3 true params data parity st0 = Ok (0, st1) /\
    (forall q, q ∉ parity -> st1 !! q = st0 !! q) /\
    forall erasures heap matrix st2,
      NoDup erasures -> (forall e, e ∈ erasures -> 0 <= e < Z.of_nat k) -> (length erasures <= m)%nat ->
      length heap = 256%nat -> (length erasures * length erasures <= length matrix)%nat ->
      lost n data parity erasures st1 st2 ->
      exists st3, cauchy_rs_decode ready_ctx ssse3 (true, true, true) heap matrix params data parity
          erasures (Z.of_nat (length erasures)) st2 = Ok (0, st3) /\
        forall q, q ∈ data -> take n <$> st3 !! q = take n <$> st0 !! q.
Proof. apply repair. Qed.

Lemma erasure_code_restores_witness :
  let params := {| OriginalCount := 2; RecoveryCount := 2; BlockBytes := 1 |} in
  exists st1 st3, cauchy_rs_encode ready_ctx true true params [0; 1]%nat [2; 3]%nat [[5]; [7]; [0]; [0]] = Ok (0, st1) /\
    cauchy_rs_decode ready_ctx true (true, true, true) (replicate 256 77) (replicate 4 88) params [0; 1]%nat [2; 3]%nat
      [1; 0] 2 (<[0%nat := [9]]> (<[1%nat := [9]]> st1)) = Ok (0, st3) /\
    take 1 <$> st3 !! 0%nat = Some [5] /\ take 1 <$> st3 !! 1%nat = Some [7].
Proof.
  assert (Hnd : NoDup ([0; 1] ++ [2; 3])%nat) by (apply (bool_decide_unpack _); vm_compute; exact I).
  assert (Hb : buffers_ok 1 [[5]; [7]; [0]; [0]] ([0; 1] ++ [2; 3])%nat).
  { intros q Hq. repeat (apply elem_of_cons in Hq as [->|Hq]; [eexists; split; [done|]; split; [by apply (bool_decide_unpack _)|done]|]).
    by apply elem_of_nil in Hq. }
  assert (N0 : 0%nat ∉ [2; 3]%nat) by set_solver. assert (N1 : 1%nat ∉ [2; 3]%nat) by set_solver.
  assert (I0 : 0 ∈ [1; 0]) by set_solver. assert (I1 : 1 ∈ [1; 0]) by set_solver.
  assert (D0 : 0%nat ∈ [0; 1]%nat) by set_solver. assert (D1 : 1%nat ∈ [0; 1]%nat) by set_solver.
  assert (Hnde : NoDup [1; 0]) by (apply (bool_decide_unpack _); vm_compute; exact I).
  assert (Hrange : forall e, e ∈ [1; 0] -> 0 <= e < Z.of_nat 2).
  { intros e He. repeat (apply elem_of_cons in He as [->|He]; [lia|]). by apply elem_of_nil in He. }
  intros params.
  destruct (erasure_code_restores true 1 2 2 [0; 1]%nat [2; 3]%nat [[5]; [7]; [0]; [0]] ltac:(lia) ltac:(lia) ltac:(lia) ltac:(lia)
    eq_refl eq_refl Hnd Hb) as (st1 & E1 & Hf & Hdec).
  assert (H0 : st1 !! 0%nat = Some [5]) by (rewrite (Hf _ N0); reflexivity).
  assert (H1 : st1 !! 1%nat = Some [7]) by (rewrite (Hf _ N1); reflexivity).
  pose proof (lookup_lt_Some _ _ _ H0) as L0. pose proof (lookup_lt_Some _ _ _ H1) as L1.
  set (st2 := <[0%nat := [9]]> (<[1%nat := [9]]> st1)).
  assert (Hlost : lost 1 [0; 1]%nat [2; 3]%nat [1; 0] st1 st2).
  { clear E1 Hdec. split_and!.
    - intros [|[|i]] q Ei Hn; [by destruct (Hn I0)|by destruct (Hn I1)|done].
    - intros q Hq. unfold st2. rewrite !list_lookup_insert_ne by (intros <-; done). done.
    - intros q Hq. exists [9]. split; [|split; [by apply (bool_decide_unpack _)|done]].
      apply elem_of_cons in Hq as [->|Hq]; [unfold st2; rewrite list_lookup_insert_eq; [done|by rewrite length_insert]|].
      apply elem_of_cons in Hq as [->|Hq]; [|by apply elem_of_nil in Hq].
      unfold st2. rewrite list_lookup_insert_ne by done. by rewrite list_lookup_insert_eq. }
  destruct (Hdec [1; 0] (replicate 256 77) (replicate 4 88) st2 Hnde Hrange ltac:(reflexivity || (cbn; lia))
    (length_replicate _ _) ltac:(rewrite length_replicate; cbn; lia) Hlost) as (st3 & E3 & Hr).
  exists st1, st3. split; [exact E1|]. split; [exact E3|]. split.
  - exact (Hr 0%nat D0).
  - exact (Hr 1%nat D1).
Defined.

(** With a single parity block the decoder works in the parity buffer and
    returns 0 without writing the data block it was asked to recover. *)
Example single_parity_not_copied_back (c : gf_ctx) :
  let params := {| OriginalCount := 2; RecoveryCount := 1; BlockBytes := 1 |} in
  cauchy_rs_encode c true true params [0; 1]%nat [2]%nat [[5]; [7]; [0]] = Ok (0, [[5]; [7]; [2]]) /\
  cauchy_rs_decode c true (true, true, true) (replicate 256 0) (replicate 4 0) params [0; 1]%nat [2]%nat
    [0] 1 [[9]; [7]; [2]] = Ok (0, [[9]; [7]; [5]]).
Proof. split; vm_compute; reflexivity. Qed.
