(* ===== verification/CauchyUninit.v ===== *)
(** * CauchyUninit: the code as the module runs it (src/lib/cauchy_rs.c)

    No function of the module calls [cauchy_init] or [gf_init], so the
    tables the encoder reads are the zeros of static storage. The theorem
    computes what the encoder writes then: the first parity block is the
    exclusive or of the data, and every further one is zero. What clients
    rely on, that encoding succeeds and leaves the data alone, is the class
    [SystematicCoder]; it holds with and without initialised tables. *)
From stdpp Require Import base tactics option list numbers gmap.
From Stdlib Require Import ZArith Lia.
From S2P Require Import Prelude Galois CauchyGf CauchyMem CauchyRs CauchyElim CauchyDecode.

Local Open Scope Z_scope.
Local Open Scope afs_scope.

(** Encoding succeeds and changes only parity blocks. *)
Class SystematicCoder (c : gf_ctx) (ssse3 : bool) : Prop := encode_systematic :
  forall n k m data parity (st0 : store),
    (0 < n)%nat -> (0 < k)%nat -> (1 < m)%nat -> (k + m <= 256)%nat ->
    length data = k -> length parity = m -> NoDup (data ++ parity) -> buffers_ok n st0 (data ++ parity) ->
    exists st1, cauchy_rs_encode c ssse3 true
        {| OriginalCount := Z.of_nat k; RecoveryCount := Z.of_nat m; BlockBytes := Z.of_nat n |} data parity st0 = Ok (0, st1) /\
      (forall q, q ∉ parity -> st1 !! q = st0 !! q).

#[export] Instance ready_systematic ssse3 : SystematicCoder ready_ctx ssse3.
Proof.
  intros n k m data parity st0 Hn Hk Hm Hkm Hd Hp Hnd Hb.
  destruct (repair ssse3 n k m data parity st0 Hn Hk Hm Hkm Hd Hp Hnd Hb) as (st1 & E & Hf & _). by exists st1.
Qed.

(** ** Zero tables *)
Lemma tab_zeros n i : tab (replicate n 0) i = 0.
Proof.
  unfold tab. destruct (replicate n 0 !! Z.to_nat i) as [v|] eqn:E; [|done]. by apply lookup_replicate in E as [-> _].
Qed.

Lemma zero_element x_i x_0 y_j : GetMatrixElement zero_ctx x_i x_0 y_j = 0.
Proof. apply tab_zeros. Qed.

(** The exclusive or of the first [n] bytes of some blocks. *)
Definition xor_blocks (n : nat) (bs : list (list Z)) : list Z :=
  match bs with [] => [] | b :: bs' => foldl (fun acc b => zip_with Z.lxor acc (take n b)) (take n b) bs' end.

Lemma xor_blocks_snoc n bs b : bs <> [] -> xor_blocks n (bs ++ [b]) = zip_with Z.lxor (xor_blocks n bs) (take n b).
Proof. destruct bs as [|b0 bs]; [done|]. intros _. cbn [xor_blocks app]. by rewrite foldl_snoc. Qed.

Lemma xor_blocks_ok n bs : bs <> [] -> Forall (fun b => bytes b /\ (n <= length b)%nat) bs ->
  length (xor_blocks n bs) = n /\ bytes (xor_blocks n bs).
Proof.
  induction bs as [|b bs IH] using rev_ind; [done|]. intros _ [Hbs [[Bb Lb] _]%Forall_cons]%Forall_app.
  destruct (decide (bs = [])) as [->|Hne].
  - cbn. rewrite length_take. split; [lia|by apply Forall_take].
  - destruct (IH Hne Hbs) as [L B]. rewrite xor_blocks_snoc by done. split.
    + rewrite length_zip_with, length_take. lia.
    + apply zip_lxor_bytes; [done|by apply Forall_take].
Qed.

Section Zero.
Context (ssse3 : bool) (n k m : nat) (data parity : list nat) (bs : list (list Z)) (st0 : store).
Context (Hn : (0 < n)%nat) (Hk : (0 < k)%nat) (Hm : (0 < m)%nat) (Hkm : (k + m <= 256)%nat)
  (Hd : length data = k) (Hp : length parity = m) (Hnd : NoDup (data ++ parity))
  (Hlen : length bs = k) (Hbs : Forall (fun b => bytes b /\ (n <= length b)%nat) bs).
Let params := {| OriginalCount := Z.of_nat k; RecoveryCount := Z.of_nat m; BlockBytes := Z.of_nat n |}.

(** Parity block [i] as the uninitialised encoder computes it. *)
Definition zero_row (i : nat) : list Z :=
  if decide (k = 1 \/ i = 0)%nat then xor_blocks n bs else replicate n 0.

Definition holds (st : store) : Prop := forall j q b, data !! j = Some q -> bs !! j = Some b -> st !! q = Some b.

Lemma block_op1_Ok op z x (st : store) bz bx r :
  st !! z = Some bz -> st !! x = Some bx -> op bz bx = Ok r -> block_op1 op z x st = Ok (<[z := r]> st).
Proof. intros Ez Ex Er. unfold block_op1. rewrite Ez, Ex. cbn [of_option]. by rewrite !bind_Ok, Er. Qed.

Lemma data_block_at j : (j < k)%nat -> exists q b, data !! j = Some q /\ bs !! j = Some b /\ bytes b /\ (n <= length b)%nat.
Proof.
  intros Hj. destruct (lookup_lt_is_Some_2 data j ltac:(lia)) as [q Eq]. destruct (lookup_lt_is_Some_2 bs j ltac:(lia)) as [b Eb].
  exists q, b. split_and!; [done|done|..]; by apply (Forall_lookup_1 _ _ _ _ Hbs Eb).
Qed.

Lemma holds_insert st q b : holds st -> q ∉ data -> holds (<[q := b]> st).
Proof.
  intros Hs Hq j q' b' Ej Eb. rewrite list_lookup_insert_ne; [by eapply Hs|]. intros ->. apply Hq. by eapply list_elem_of_lookup_2.
Qed.

Lemma take_bs_ne j : (0 < j)%nat -> take j bs <> [].
Proof. destruct bs; [cbn in *; lia|]. by destruct j; [lia|]. Qed.

Lemma take_bs_ok j : (0 < j)%nat -> length (xor_blocks n (take j bs)) = n /\ bytes (xor_blocks n (take j bs)).
Proof.
  intros Hj. apply xor_blocks_ok; [by apply take_bs_ne|by apply Forall_take].
Qed.

(** The loop of additions, from block [j0]. *)
Lemma add_loop st q old j0 : holds st -> q ∉ data -> (q < length st)%nat -> bytes old -> (n <= length old)%nat -> (0 < j0 <= k)%nat ->
  forM (k - j0) (Z.of_nat j0) (fun j st => oj ← get data j; block_op1 (fun z x => gf_add_mem z x (Z.of_nat n)) q oj st)
    (<[q := xor_blocks n (take j0 bs) ++ drop n old]> st) = Ok (<[q := xor_blocks n bs ++ drop n old]> st).
Proof.
  intros Hs Hq Hlt Bo Lo Hj0.
  forM_induction (fun j (st' : store) => st' = <[q := xor_blocks n (take j bs) ++ drop n old]> st).
  - done.
  - intros j st' Hj ->. destruct (data_block_at j ltac:(lia)) as (q' & b & Eq & Eb & Bb & Lb).
    destruct (take_bs_ok j ltac:(lia)) as [Lx Bx]. rewrite (get_nat _ _ _ Eq), bind_Ok.
    assert (Ha : gf_add_mem (xor_blocks n (take j bs) ++ drop n old) b (Z.of_nat n)
      = Ok (xor_blocks n (take (S j) bs) ++ drop n old)).
    { rewrite gf_add_mem_spec; [|apply Forall_app; split; [done|by apply Forall_drop]|done|rewrite length_app; lia|done].
      rewrite take_app_length', drop_app_length' by done. rewrite (take_S_r _ _ _ Eb), xor_blocks_snoc by (apply take_bs_ne; lia). done. }
    erewrite block_op1_Ok; [|by apply list_lookup_insert_eq| |exact Ha].
    + eexists. split; [done|]. by rewrite list_insert_insert_eq.
    + by apply (holds_insert st q _ Hs Hq j).
  - destruct Hloop as (st' & -> & ->). by rewrite take_ge by lia.
Qed.

Lemma encode_block_zero i q st old :
  (i < m)%nat -> holds st -> q ∉ data -> st !! q = Some old -> bytes old -> (n <= length old)%nat ->
  cauchy_rs_encode_block zero_ctx ssse3 params data (Z.of_nat k + Z.of_nat i) q st
  = Ok (<[q := zero_row i ++ drop n old]> st).
Proof.
  intros Hi Hs Hq Eq Bo Lo. pose proof (lookup_lt_Some _ _ _ Eq) as Hlt.
  unfold cauchy_rs_encode_block. cbn [OriginalCount BlockBytes params].
  destruct (data_block_at 0 Hk) as (q0 & b0 & E0 & Eb0 & B0 & L0). change (get data 0) with (get data (Z.of_nat 0)).
  rewrite (get_nat _ _ _ E0), !bind_Ok. pose proof (Hs _ _ _ E0 Eb0) as Es0.
  assert (Hx1 : xor_blocks n (take 1 bs) = take n b0) by (destruct bs; [done|by injection Eb0 as ->]).
  destruct (Z.eqb_spec (Z.of_nat k) 1) as [E1|E1].
  { erewrite block_op1_Ok; [|exact Eq|exact Es0|].
    2: { unfold block_memcpy. rewrite Nat2Z.id, slice_Some by done. cbn [of_option]. rewrite bind_Ok, drop_0.
         rewrite splice_Some by (rewrite length_take; lia). cbn [of_option]. reflexivity. }
    rewrite take_0, app_nil_l, length_take_le by done. unfold zero_row. rewrite decide_True by lia.
    rewrite <- Hx1, take_ge by lia. done. }
  destruct (Z.eqb_spec (Z.of_nat k + Z.of_nat i) (Z.of_nat k)) as [E2|E2].
  - destruct (data_block_at 1 ltac:(lia)) as (q1 & b1 & E1' & Eb1 & B1 & L1). change (get data 1) with (get data (Z.of_nat 1)).
    rewrite (get_nat _ _ _ E1'), bind_Ok. unfold block_op2. rewrite Eq, Es0, (Hs _ _ _ E1' Eb1). cbn [of_option].
    rewrite !bind_Ok, gf_addset_mem_spec, !bind_Ok by done.
    replace (Z.to_nat (Z.of_nat k - 2)) with (k - 2)%nat by lia. change 2 with (Z.of_nat 2).
    assert (Hx2 : zip_with Z.lxor (take n b0) (take n b1) = xor_blocks n (take 2 bs)).
    { rewrite (take_S_r _ _ _ Eb1), xor_blocks_snoc, Hx1 by (apply take_bs_ne; lia). done. }
    rewrite Hx2, add_loop by (done || lia). unfold zero_row. by rewrite decide_True by lia.
  - rewrite zero_element. erewrite block_op1_Ok; [|exact Eq|exact Es0|].
    2: { unfold gf_mul_mem. cbn -[Z.of_nat]. rewrite Nat2Z.id, splice_Some by (rewrite length_replicate; lia). cbn [of_option]. reflexivity. }
    rewrite bind_Ok, take_0, app_nil_l, length_replicate. unfold zero_row. rewrite decide_False by lia.
    match goal with |- context [forM ?n 1 ?b ?s] => change (forM n 1 b s) with (forM n (Z.of_nat 1) b s) end.
    forM_induction (fun (_ : nat) (st' : store) => st' = <[q := replicate n 0 ++ drop n old]> st).
    + done.
    + intros j st' Hj ->. destruct (data_block_at j ltac:(lia)) as (q' & b & Eq' & Eb & Bb & Lb). rewrite (get_nat _ _ _ Eq'), bind_Ok, zero_element.
      erewrite block_op1_Ok; [|by apply list_lookup_insert_eq|by apply (holds_insert st q _ Hs Hq j)|reflexivity].
      eexists. split; [done|]. by rewrite list_insert_insert_eq.
    + by destruct Hloop as (st' & -> & ->).
Qed.

Lemma encode_zero : holds st0 -> (forall q, q ∈ parity -> exists b, st0 !! q = Some b /\ bytes b /\ (n <= length b)%nat) ->
  exists st1, cauchy_rs_encode zero_ctx ssse3 true params data parity st0 = Ok (0, st1) /\
    (forall q, q ∉ parity -> st1 !! q = st0 !! q) /\
    forall i q old, parity !! i = Some q -> st0 !! q = Some old -> st1 !! q = Some (zero_row i ++ drop n old).
Proof.
  intros Hs0 Hpar. apply NoDup_app in Hnd as (_ & Hdis & HndP).
  unfold cauchy_rs_encode. cbn [OriginalCount RecoveryCount BlockBytes params].
  destruct (Z.leb_spec (Z.of_nat k) 0), (Z.leb_spec (Z.of_nat m) 0), (Z.leb_spec (Z.of_nat n) 0); try lia. cbn [orb].
  destruct (Z.ltb_spec 256 (Z.of_nat k + Z.of_nat m)); [lia|]. cbn [negb].
  rewrite !Nat2Z.id, slice_Some, drop_0, take_ge by lia. cbn [of_option]. rewrite bind_Ok.
  forM_induction (fun i (st : store) => (forall q, q ∉ take i parity -> st !! q = st0 !! q) /\
    forall i' q old, (i' < i)%nat -> parity !! i' = Some q -> st0 !! q = Some old -> st !! q = Some (zero_row i' ++ drop n old)).
  - split; [done|]. intros. lia.
  - intros i st Hi (Hf & Hw). destruct (lookup_lt_is_Some_2 parity i ltac:(lia)) as [q Eq]. rewrite (get_nat _ _ _ Eq), bind_Ok.
    pose proof (list_elem_of_lookup_2 _ _ _ Eq) as Hin.
    assert (Hnot : q ∉ take i parity).
    { intros Ht. apply list_elem_of_lookup in Ht as [t Et]. apply lookup_take_Some in Et as [Et Hlt].
      pose proof (NoDup_lookup _ _ _ _ HndP Et Eq). lia. }
    destruct (Hpar q Hin) as (old & Eo & Bo & Lo).
    rewrite (encode_block_zero i q st old); [|lia| |intros Hq; by apply (Hdis q)|by rewrite Hf|done|done].
    2: { intros j q' b Ej Eb. rewrite Hf; [by eapply Hs0|]. intros Ht. apply (Hdis q'); [by eapply list_elem_of_lookup_2|].
         by apply (subseteq_take i parity). }
    eexists. split; [done|]. split.
    + intros r Hr. rewrite (take_S_r _ _ _ Eq), not_elem_of_app, list_elem_of_singleton in Hr.
      rewrite list_lookup_insert_ne by (intros ->; tauto). apply Hf. tauto.
    + intros i' q' old' Hi' Eq' Eo'. destruct (decide (q' = q)) as [->|Hne].
      * rewrite (NoDup_lookup _ _ _ _ HndP Eq' Eq). rewrite list_lookup_insert_eq by (eapply lookup_lt_Some; by rewrite Hf). congruence.
      * rewrite list_lookup_insert_ne by done. apply Hw; [|done..]. destruct (decide (i' = i)) as [->|]; [congruence|lia].
  - destruct Hloop as (st1 & -> & Hf & Hw). rewrite bind_Ok. exists st1. split; [done|]. split.
    + intros q Hq. apply Hf. intros Ht. apply Hq. by apply (subseteq_take m parity).
    + intros i q old Eq. apply (Hw i); [|done]. apply lookup_lt_Some in Eq. lia.
Qed.
End Zero.

(** The contents of some buffers. *)
Definition contents (st : store) (qs : list nat) : list (list Z) := map (fun q => default [] (st !! q)) qs.

Lemma contents_ok n st qs : buffers_ok n st qs -> Forall (fun b => bytes b /\ (n <= length b)%nat) (contents st qs).
Proof.
  intros H. apply Forall_forall. intros b Hb. apply list_elem_of_In, in_map_iff in Hb as (q & <- & Hq).
  destruct (H q) as (b & E & ? & ?); [by apply list_elem_of_In|]. by rewrite E.
Qed.

Lemma contents_holds n st data : buffers_ok n st data -> holds data (contents st data) st.
Proof.
  intros H j q b Ej Eb. unfold contents in Eb. apply list_lookup_fmap_Some in Eb as (q' & -> & Ej'). assert (q' = q) as -> by congruence.
  destruct (H q) as (b & E & _); [by eapply list_elem_of_lookup_2|]. by rewrite E.
Qed.

Lemma uninitialised_encode ssse3 n k m data parity (st0 : store) :
  (0 < n)%nat -> (0 < k)%nat -> (0 < m)%nat -> (k + m <= 256)%nat ->
  length data = k -> length parity = m -> NoDup (data ++ parity) -> buffers_ok n st0 (data ++ parity) ->
  exists st1, cauchy_rs_encode zero_ctx ssse3 true
      {| OriginalCount := Z.of_nat k; RecoveryCount := Z.of_nat m; BlockBytes := Z.of_nat n |} data parity st0 = Ok (0, st1) /\
    (forall q, q ∉ parity -> st1 !! q = st0 !! q) /\
    forall i q old, parity !! i = Some q -> st0 !! q = Some old -> st1 !! q = Some (zero_row n k (contents st0 data) i ++ drop n old).
Proof.
  intros Hn Hk Hm Hkm Hd Hp Hnd Hb.
  assert (Hbd : buffers_ok n st0 data) by (intros q Hq; apply Hb, elem_of_app; by left).
  apply encode_zero; try done.
  - unfold contents. by rewrite length_map.
  - by apply contents_ok.
  - by eapply contents_holds.
  - intros q Hq. apply Hb, elem_of_app. by right.
Qed.

#[export] Instance zero_systematic ssse3 : SystematicCoder zero_ctx ssse3.
Proof.
  intros n k m data parity st0 Hn Hk Hm Hkm Hd Hp Hnd Hb.
  destruct (uninitialised_encode ssse3 n k m data parity st0) as (st1 & E & Hf & _); try done; [lia|]. by exists st1.
Qed.

(** C39: what the module's encoder writes. With the tables never initialised,
    as in the module, encoding returns 0, leaves the data alone and makes the
    first parity block the exclusive or of the data blocks, but every further
    parity block zero: one lost block is all that the stored parity can ever
    repair, however many parity blocks are configured. *)
Theorem uninitialised_single_parity ssse3 n k m data parity (st0 : store) :
  (0 < n)%nat -> (1 < k)%nat -> (0 < m)%nat -> (k + m <= 256)%nat ->
  length data = k -> length parity = m -> NoDup (data ++ parity) -> buffers_ok n st0 (data ++ parity) ->
  exists st1, cauchy_rs_encode zero_ctx ssse3 true
      {| OriginalCount := Z.of_nat k; RecoveryCount := Z.of_nat m; BlockBytes := Z.of_nat n |} data parity st0 = Ok (0, st1) /\
    (forall q, q ∉ parity -> st1 !! q = st0 !! q) /\
    (forall q, head parity = Some q -> take n <$> st1 !! q = Some (xor_blocks n (contents st0 data))) /\
    (forall q, q ∈ tail parity -> take n <$> st1 !! q = Some (replicate n 0)).
Proof.
  intros Hn Hk Hm Hkm Hd Hp Hnd Hb.
  destruct (uninitialised_encode ssse3 n k m data parity st0) as (st1 & E & Hf & Hw); try done; [lia|].
  exists st1. split; [exact E|]. split; [exact Hf|].
  assert (Hrow : forall i q, parity !! i = Some q -> exists tl, st1 !! q = Some (zero_row n k (contents st0 data) i ++ tl)).
  { intros i q Eq. destruct (Hb q) as (old & Eo & _); [apply elem_of_app; right; by eapply list_elem_of_lookup_2|]. eauto. }
  assert (Hlx : length (xor_blocks n (contents st0 data)) = n).
  { apply xor_blocks_ok; [intros E'%(f_equal length); unfold contents in E'; rewrite length_map in E'; cbn in E'; lia|].
    apply contents_ok. intros q Hq. apply Hb, elem_of_app. by left. }
  split.
  - intros q Hq. destruct (Hrow 0%nat q) as [tl ->]; [by destruct parity|]. unfold zero_row. rewrite decide_True by lia.
    cbn [fmap option_fmap option_map]. by rewrite take_app_length'.
  - intros q Hq. apply list_elem_of_lookup in Hq as [i Ei]. destruct (Hrow (S i) q) as [tl ->]; [by destruct parity|].
    unfold zero_row. rewrite decide_False by lia. cbn [fmap option_fmap option_map].
    by rewrite take_app_length' by (by rewrite length_replicate).
Qed.

Lemma uninitialised_single_parity_witness :
  exists st1, cauchy_rs_encode zero_ctx true true {| OriginalCount := 2; RecoveryCount := 2; BlockBytes := 1 |} [0; 1]%nat [2; 3]%nat [[5]; [7]; [9]; [9]]
      = Ok (0, st1) /\ take 1 <$> st1 !! 2%nat = Some [2] /\ take 1 <$> st1 !! 3%nat = Some [0].
Proof.
  assert (Hnd : NoDup ([0; 1] ++ [2; 3])%nat) by (apply (bool_decide_unpack _); vm_compute; exact I).
  assert (Hb : buffers_ok 1 [[5]; [7]; [9]; [9]] ([0; 1] ++ [2; 3])%nat).
  { intros q Hq. repeat (apply elem_of_cons in Hq as [->|Hq]; [eexists; split; [done|]; split; [by apply (bool_decide_unpack _)|done]|]).
    by apply elem_of_nil in Hq. }
  destruct (uninitialised_single_parity true 1 2 2 [0; 1]%nat [2; 3]%nat [[5]; [7]; [9]; [9]] ltac:(lia) ltac:(lia) ltac:(lia) ltac:(lia)
    eq_refl eq_refl Hnd Hb) as (st1 & E & _ & H2 & H3).
  exists st1. split; [exact E|]. split; [exact (H2 2%nat eq_refl)|]. refine (H3 3%nat _). apply list_elem_of_here.
Defined.

(** Decoding without erasures leaves the store alone, whatever the tables. *)
Lemma decode_nothing c ssse3 n k m heap matrix data parity er st :
  (0 < n)%nat -> (0 < k)%nat -> (1 < m)%nat -> (k + m <= 256)%nat ->
  length data = k -> length parity = m -> NoDup (data ++ parity) -> length heap = 256%nat ->
  cauchy_rs_decode c ssse3 (true, true, true) heap matrix
    {| OriginalCount := Z.of_nat k; RecoveryCount := Z.of_nat m; BlockBytes := Z.of_nat n |} data parity er 0 st = Ok (0, st).
Proof.
  intros Hn Hk Hm Hkm Hd Hp Hnd Hheap. unfold cauchy_rs_decode. cbn [OriginalCount RecoveryCount BlockBytes].
  destruct (Z.leb_spec (Z.of_nat k) 0), (Z.leb_spec (Z.of_nat m) 0), (Z.leb_spec (Z.of_nat n) 0); try lia. cbn [orb].
  destruct (Z.ltb_spec 256 (Z.of_nat k + Z.of_nat m)); [lia|]. cbn [negb].
  match goal with |- context [decode_blocks ?p data parity er 0] => change (decode_blocks p data parity er 0) with (decode_blocks p data parity [] 0) end.
  destruct (decode_blocks_spec n k m data parity []) as (blocks & E & Hbl); try done; try (cbn; lia).
  { intros e He. by apply elem_of_nil in He. }
  change (Z.of_nat (length [])) with 0 in E. rewrite E, bind_Ok.
  destruct (Initialize_spec k [] heap (Z.of_nat m) (Z.of_nat n) blocks Hheap ltac:(lia) (proj1 Hbl)) as (d & -> & _ & HdR & _).
  { intros i b Ei. eapply (blocks_index n k m data parity []); eauto; [cbn; lia|]. intros ? Hin. by apply elem_of_nil in Hin. }
  rewrite bind_Ok, HdR. assert (Hz : erased_rows k [] = []).
  { unfold erased_rows. induction (seq 0 k) as [|i l IH]; [done|]. by rewrite filter_cons_False. }
  by rewrite Hz.
Qed.
