(* ===== verification/ReedSolomon.v ===== *)
(** * ReedSolomon: the older Reed-Solomon code (src/lib/rs.c)

    The 255-symbol code that the Cauchy code replaced: its field tables, its
    generator polynomial, the shift-register encoder and the division of
    4096-byte blocks into codewords. Theorems: what the encoder makes is a
    codeword, what becomes of the blocks of a tuple, and what is left out. The
    decoder is in ReedDecoder. *)
From stdpp Require Import base tactics option list numbers.
From Stdlib Require Import ZArith Lia Field.
From S2P Require Import Prelude Galois GfShare.

Local Open Scope Z_scope.
Local Open Scope afs_scope.

Definition MM : Z := 8.
Definition NN : Z := 255.
Definition A0 : Z := NN.
Definition B0 : Z := 1.
Definition Pp : list Z := [1; 0; 1; 1; 1; 0; 0; 0; 1].

(** The global variables; [Gg] is the allocated generator polynomial. *)
Record rs := mk_rs { Alpha_to : list Z; Index_of : list Z; Gg : list Z }.

Definition rs0 : rs := mk_rs (replicate 256 0) (replicate 256 0) [].

(** ** Field arithmetic *)
Fixpoint modnn_loop (fuel : nat) (x : Z) : Z :=
  match fuel with
  | O => x
  | S fuel => if NN <=? x then modnn_loop fuel (let x := x - NN in Z.shiftr x MM + Z.land x NN) else x
  end.
Definition modnn (x : Z) : Z := modnn_loop (Z.to_nat x) x.

Definition generate_gf (alpha index : list Z) : res (list Z * list Z) :=
  alpha ← put alpha MM 0;
  '(alpha, index, mask) ← forM (Z.to_nat MM) 0 (fun i '(alpha, index, mask) =>
    alpha ← put alpha i mask;
    index ← put index mask i;
    p ← get Pp i;
    alpha ← (if p =? 0 then Ok alpha else a ← get alpha MM; put alpha MM (a xor mask));
    Ok (alpha, index, Z.shiftl mask 1)) (alpha, index, 1);
  a ← get alpha MM;
  index ← put index a MM;
  let mask := Z.shiftr mask 1 in
  '(alpha, index) ← forM (Z.to_nat (NN - (MM + 1))) (MM + 1) (fun i '(alpha, index) =>
    a ← get alpha (i - 1);
    top ← get alpha MM;
    let v := if mask <=? a then top xor Z.shiftl (a xor mask) 1 else Z.shiftl a 1 in
    alpha ← put alpha i v;
    index ← put index v i;
    Ok (alpha, index)) (alpha, index);
  index ← put index 0 A0;
  alpha ← put alpha NN 0;
  Ok (alpha, index).

(** ** The generator polynomial *)
Definition gen_step (t : rs) (i : Z) (gg : list Z) : res (list Z) :=
  gg ← put gg i 1;
  gg ← forM (Z.to_nat (i - 1)) 0 (fun u gg =>
    let j := i - 1 - u in
    g ← get gg j;
    g' ← get gg (j - 1);
    if negb (g =? 0) then x ← get (Index_of t) g; a ← get (Alpha_to t) (modnn (x + B0 + i - 1)); put gg j (g' xor a)
    else put gg j g') gg;
  g ← get gg 0;
  x ← get (Index_of t) g;
  a ← get (Alpha_to t) (modnn (x + B0 + i - 1));
  put gg 0 a.

Definition gen_poly (t : rs) (kk : Z) : res rs :=
  a ← get (Alpha_to t) B0;
  gg ← put (Gg t) 0 a;
  gg ← put gg 1 1;
  gg ← forM (Z.to_nat (NN - kk - 1)) 2 (gen_step t) gg;
  gg ← forM (Z.to_nat (NN - kk + 1)) 0 (fun i gg => g ← get gg i; x ← get (Index_of t) g; put gg i x) gg;
  Ok (mk_rs (Alpha_to t) (Index_of t) gg).

(** [kmalloc n]: the contents of [n] allocated words, if there are any. *)
Definition init_rs (kmalloc : Z -> option (list Z)) (kk : Z) (t : rs) : res rs :=
  '(alpha, index) ← generate_gf (Alpha_to t) (Index_of t);
  gg ← of_option (kmalloc (NN -32 kk +32 1));
  gen_poly (mk_rs alpha index gg) kk.

(** ** Encoding *)
Definition shift_step (t : rs) (m feedback : Z) (bb : list Z) : res (list Z) :=
  if negb (feedback =? A0) then
    bb ← forM (Z.to_nat (m - 1)) 0 (fun u bb =>
      let j := m - 1 - u in
      g ← get (Gg t) j;
      b ← get bb (j - 1);
      if negb (g =? A0) then a ← get (Alpha_to t) (modnn (g + feedback)); put bb j (u8 (b xor a)) else put bb j b) bb;
    g ← get (Gg t) 0;
    a ← get (Alpha_to t) (modnn (g + feedback));
    put bb 0 (u8 a)
  else
    bb ← forM (Z.to_nat (m - 1)) 0 (fun u bb => let j := m - 1 - u in b ← get bb (j - 1); put bb j b) bb;
    put bb 0 0.

Definition encode_rs (t : rs) (data : list Z) (kk : Z) (bb : list Z) : res (list Z) :=
  bb ← forM (Z.to_nat (NN - kk)) 0 (fun u bb => put bb (NN - kk - 1 - u) 0) bb;
  forM (Z.to_nat kk) 0 (fun u bb =>
    d ← get data (kk - 1 - u);
    top ← get bb (NN - kk - 1);
    feedback ← get (Index_of t) (d xor top);
    shift_step t (NN - kk) feedback bb) bb.

(** The syndrome of a received word at [@**(B0+i-1)], as the decoder computes it. *)
Definition syndrome (t : rs) (data : list Z) (i : Z) : res Z :=
  forM (Z.to_nat NN) 0 (fun j tmp =>
    d ← get data j;
    r ← get (Index_of t) d;
    if negb (r =? A0) then a ← get (Alpha_to t) (modnn (r + (B0 + i - 1) * j)); Ok (tmp xor a) else Ok tmp) 0.

(** ** Blocks *)
Record config := mk_config {
  num_data : Z; num_entropy : Z; num_carrier : Z; k : Z; n : Z; total_blocks : Z;
  encode_blocks : Z; block_portion : Z; padding : Z; block_size : Z; final_padding : Z;
}.

Definition initialize (kmalloc : Z -> option (list Z)) (num_data num_entropy num_carrier : Z) (t : rs) : res (config * rs) :=
  let total_blocks := num_data +32 num_entropy +32 num_carrier in
  if total_blocks =? 0 then Fault else
  let padding := 255 mod total_blocks in
  let block_portion := 255 / total_blocks in
  let n := total_blocks *32 block_portion in
  let k := block_portion *32 (num_data +32 num_entropy) in
  let block_size := 4096 in
  if block_portion =? 0 then Fault else
  let encode_blocks := block_size / block_portion in
  let final_padding := block_size mod block_portion in
  let encode_blocks := if negb (block_size mod block_portion =? 0) then encode_blocks +32 1 else encode_blocks in
  t ← init_rs kmalloc k t;
  Ok (mk_config num_data num_entropy num_carrier k n total_blocks encode_blocks block_portion padding block_size final_padding, t).

(** The loops that copy [len] bytes at [off] of each block to the buffer, and back. *)
Definition gather (n : Z) (rows : list (list Z)) (off len : Z) (s : list Z * Z) : res (list Z * Z) :=
  forM (Z.to_nat n) 0 (fun j '(buffer, count) =>
    row ← get rows j;
    src ← of_option (slice (Z.to_nat off) (Z.to_nat len) row);
    buffer ← of_option (splice (Z.to_nat count) src buffer);
    Ok (buffer, count +32 len)) s.

Definition scatter (n : Z) (buffer : list Z) (off len : Z) (s : list (list Z) * Z) : res (list (list Z) * Z) :=
  forM (Z.to_nat n) 0 (fun j '(rows, count) =>
    row ← get rows j;
    src ← of_option (slice (Z.to_nat count) (Z.to_nat len) buffer);
    row ← of_option (splice (Z.to_nat off) src row);
    rows ← put rows j row;
    Ok (rows, count +32 len)) s.

(** One codeword. [data_count], [entropy_count] and [carrier_count] are equal
    throughout: [off]. [last]: the carriers are filled from [k] on. *)
Definition encode_block (t : rs) (info : config) (data entropy : list (list Z)) (off len : Z) (last : bool) (carrier : list (list Z)) : res (list (list Z)) :=
  s ← gather (num_data info) data off len (replicate 255 0, 0);
  '(buffer, count) ← gather (num_entropy info) entropy off len s;
  parity ← encode_rs t (take (Z.to_nat (k info)) buffer) (k info) (drop (Z.to_nat (k info)) buffer);
  let buffer := take (Z.to_nat (k info)) buffer ++ parity in
  '(carrier, _) ← scatter (num_carrier info) buffer off len (carrier, if last then k info else count);
  Ok carrier.

Definition encode (ok : bool) (t : rs) (info : config) (data entropy carrier : list (list Z)) : res (list (list Z)) :=
  if negb ok then Fault else
  '(carrier, off) ← forM (Z.to_nat (encode_blocks info -32 1)) 0 (fun _ '(carrier, off) =>
    carrier ← encode_block t info data entropy off (block_portion info) false carrier;
    Ok (carrier, off +32 block_portion info)) (carrier, 0);
  encode_block t info data entropy off (final_padding info) true carrier.

(** ** The tables *)
Definition the_alpha : list Z := map (fun i => xpow gfshare_poly i 1) (seq 0 255) ++ [0].
Definition the_index : list Z := 255 :: map (fun a => Z.of_nat (glog (Z.of_nat a))) (seq 1 255).

Lemma generate_gf_tables : generate_gf (replicate 256 0) (replicate 256 0) = Ok (the_alpha, the_index).
Proof. vm_compute. reflexivity. Qed.

Lemma generate_gf_again : generate_gf the_alpha the_index = Ok (the_alpha, the_index).
Proof. vm_compute. reflexivity. Qed.

(** ** Arithmetic of the field *)
Lemma modnn_loop_spec fuel x : 0 <= x <= Z.of_nat fuel -> modnn_loop fuel x = x mod 255.
Proof.
  revert x. induction fuel as [|fuel IH]; intros x Hx; cbn [modnn_loop].
  - by replace x with 0 by lia.
  - unfold NN, MM. destruct (Z.leb_spec 255 x) as [H|H]; [|by rewrite Z.mod_small by lia].
    change 255 with (Z.ones 8) at 3. rewrite Z.land_ones, Z.shiftr_div_pow2 by lia. change (2 ^ 8) with 256.
    set (y := x - 255) in *. assert (Hd : y = 256 * (y / 256) + y mod 256) by (apply Z.div_mod; lia).
    pose proof (Z.mod_pos_bound y 256 ltac:(lia)). pose proof (Z.div_pos y 256 ltac:(lia) ltac:(lia)).
    rewrite IH by lia. replace x with (y / 256 + y mod 256 + (y / 256 + 1) * 255) by lia. by rewrite Z.mod_add by lia.
Qed.

Lemma modnn_spec x : 0 <= x -> modnn x = x mod 255.
Proof. intros H. apply modnn_loop_spec. lia. Qed.

Definition alph (k : Z) : Z := xpow gfshare_poly (Z.to_nat (k mod 255)) 1.
Definition ixv (a : Z) : Z := if a =? 0 then A0 else Z.of_nat (glog a).
(** The product of [a] and the power [k] of the primitive element. *)
Definition term (a k : Z) : Z := if a =? 0 then 0 else alph (ixv a + k).

Lemma alph_byte k : is_byte (alph k).
Proof. apply xpow1_byte. Qed.
Lemma toG_alph k : 0 <= k -> toG (alph k) = e (Z.to_nat k).
Proof. intros H. unfold alph. rewrite Z2Nat.inj_mod by lia. apply e_mod. Qed.

Lemma glog_lt a : (glog a < 255)%nat.
Proof. unfold glog. pose proof (logs_at_range a). lia. Qed.

Lemma alpha_get k : 0 <= k -> get the_alpha (modnn k) = Ok (alph k).
Proof.
  intros H. rewrite modnn_spec by done. pose proof (Z.mod_pos_bound k 255 ltac:(lia)). rewrite <- (Z2Nat.id (k mod 255)) by lia.
  apply get_nat, lookup_app_l_Some. apply (list_lookup_fmap_Some_2 (fun i => xpow gfshare_poly i 1)), lookup_seq. lia.
Qed.

Lemma index_get a : is_byte a -> get the_index a = Ok (ixv a).
Proof.
  intros [H0 H1]. unfold ixv. destruct (Z.eqb_spec a 0) as [->|Hn]; [done|]. rewrite <- (Z2Nat.id a) at 1 by lia. apply get_nat. unfold the_index.
  destruct (Z.to_nat a) as [|n] eqn:E; [lia|]. cbn [lookup list_lookup]. replace a with (Z.of_nat (S n)) at 1 by lia.
  apply (list_lookup_fmap_Some_2 (fun a => Z.of_nat (glog (Z.of_nat a))) (seq 1 255) n), lookup_seq. lia.
Qed.

Lemma term_byte a k : is_byte (term a k).
Proof. unfold term. destruct (a =? 0); [done|apply alph_byte]. Qed.

Lemma toG_0 : toG 0 = gf0.
Proof. by apply gf_eq. Qed.

Lemma toG_term a k : is_byte a -> 0 <= k -> toG (term a k) = gm (toG a) (e (Z.to_nat k)).
Proof.
  intros Ha Hk. unfold term, ixv. destruct (Z.eqb_spec a 0) as [->|Hn]; [rewrite toG_0; ring|].
  rewrite toG_alph by lia. rewrite Z2Nat.inj_add, Nat2Z.id, e_add, e_log by (done || lia). done.
Qed.

Lemma term_nonzero a k : a <> 0 -> term a k <> 0.
Proof. intros H. unfold term. destruct (Z.eqb_spec a 0); [done|]. apply (xpow_one_nonzero gfshare_poly glog). Qed.

Lemma ixv_A0 a : (ixv a =? A0) = (a =? 0).
Proof. unfold ixv, A0, NN. destruct (Z.eqb_spec a 0); [done|]. pose proof (glog_lt a). apply Z.eqb_neq. lia. Qed.

Lemma ixv_pos a : 0 <= ixv a.
Proof. unfold ixv, A0, NN. destruct (a =? 0); lia. Qed.

(** ** Polynomials at the powers of the primitive element *)
Fixpoint gsum (n : nat) (c : nat -> G) (r : nat) : G :=
  match n with O => gf0 | S n => add (gsum n c r) (gm (c n) (e (r * n))) end.
Definition co (l : list Z) (j : nat) : G := toG (l !!! j).

Lemma gsum_ext n c d r : (forall j, (j < n)%nat -> c j = d j) -> gsum n c r = gsum n d r.
Proof. intros H. induction n as [|n IH]; cbn; [done|]. f_equal; [apply IH; intros; apply H; lia|]. by rewrite H by lia. Qed.

Lemma gsum_add n c d r : gsum n (fun j => add (c j) (d j)) r = add (gsum n c r) (gsum n d r).
Proof. induction n as [|n IH]; cbn; [ring|]. rewrite IH. ring. Qed.

Lemma gsum_scale n c a r : gsum n (fun j => gm (c j) a) r = gm (gsum n c r) a.
Proof. induction n as [|n IH]; cbn; [ring|]. rewrite IH. ring. Qed.

Lemma gsum_first n c r : gsum (S n) c r = add (c 0%nat) (gm (e r) (gsum n (fun j => c (S j)) r)).
Proof.
  induction n as [|n IH].
  - cbn. rewrite Nat.mul_0_r. replace (e 0) with gf1 by by apply gf_eq. ring.
  - cbn [gsum] in *. rewrite IH. replace (r * S n)%nat with (r + r * n)%nat by lia. rewrite e_add. ring.
Qed.

Lemma gsum_app n m c r : gsum (n + m) c r = add (gsum n c r) (gm (e (r * n)) (gsum m (fun j => c (n + j)%nat) r)).
Proof.
  induction m as [|m IH]; [rewrite Nat.add_0_r; cbn; ring|]. rewrite Nat.add_succ_r. cbn [gsum]. rewrite IH.
  rewrite Nat.mul_add_distr_l, e_add. ring.
Qed.

(** In characteristic 2 everything is its own opposite. *)
Lemma add_self a : add a a = gf0.
Proof. apply gf_eq. cbn. apply Z.lxor_nilpotent. Qed.

Lemma add_cancel a b : add a b = gf0 -> a = b.
Proof. intros H. replace a with (add (add a b) b); [rewrite H; ring|]. replace (add (add a b) b) with (add a (add b b)) by ring. rewrite add_self. ring. Qed.

(** ** A loop that runs down an array *)
Lemma total_get (l : list Z) j : (j < List.length l)%nat -> get l (Z.of_nat j) = Ok (l !!! j).
Proof. intros H. by apply get_nat, list_lookup_lookup_total_lt. Qed.

Lemma down_loop (f : nat -> Z) (body : Z -> list Z -> res (list Z)) m l : (m < List.length l)%nat ->
  (forall j l', (1 <= j <= m)%nat -> List.length l' = List.length l -> l' !!! (j - 1)%nat = l !!! (j - 1)%nat -> l' !!! j = l !!! j ->
    body (Z.of_nat (m - j)) l' = put l' (Z.of_nat j) (f j)) ->
  exists l', forM m 0 body l = Ok l' /\ List.length l' = List.length l /\ forall j, l' !!! j = if decide (1 <= j <= m)%nat then f j else l !!! j.
Proof.
  intros Hm Hbody.
  forM_induction (fun u l' => List.length l' = List.length l /\ forall j, l' !!! j = if decide (m - u < j <= m)%nat then f j else l !!! j).
  - split; [done|]. intros j. by rewrite decide_False by lia.
  - intros u l' Hu (Hl & H). replace (Z.of_nat u) with (Z.of_nat (m - (m - u))) by lia.
    rewrite (Hbody (m - u)%nat l'), put_nat; [|lia|lia|done|rewrite H, decide_False by lia; done|rewrite H, decide_False by lia; done].
    eexists. split; [reflexivity|]. split; [by rewrite length_insert|]. intros j. destruct (decide (j = (m - u)%nat)) as [->|Hne].
    + rewrite list_lookup_total_insert_eq by lia. by rewrite decide_True by lia.
    + rewrite list_lookup_total_insert_ne by done. rewrite H. destruct (decide (m - u < j <= m)%nat); [by rewrite decide_True by lia|by rewrite decide_False by lia].
  - destruct Hloop as (l' & -> & Hl & H). exists l'. split; [done|]. split; [done|]. intros j. rewrite H. replace (m - (0 + m))%nat with 0%nat by lia.
    destruct (decide (1 <= j <= m)%nat); [by rewrite decide_True by lia|by rewrite decide_False by lia].
Qed.

Ltac down_induction f :=
  match goal with
  | |- context [forM ?m 0 ?body ?l] =>
      let H := fresh "Hdown" in
      assert (H : exists l', forM m 0 body l = Ok l' /\ List.length l' = List.length l /\ forall j, l' !!! j = if decide (1 <= j <= m)%nat then f j else l !!! j);
      [apply down_loop|]
  end.

(** ** The generator polynomial *)
Section Tables.
Context (t : rs) (Halpha : Alpha_to t = the_alpha) (Hindex : Index_of t = the_index).

(** After the factors of the roots 1 to [i]. *)
Record generates (i : nat) (gg : list Z) : Prop := mk_generates {
  gn_len : (i < List.length gg)%nat;
  gn_bytes : forall j, (j <= i)%nat -> is_byte (gg !!! j);
  gn_monic : gg !!! i = 1;
  gn_first : gg !!! 0%nat <> 0;
  gn_roots : forall r, (1 <= r <= i)%nat -> gsum (S i) (co gg) r = gf0;
}.

Lemma gen_step_pointwise i gg : generates i gg -> (S i < List.length gg)%nat -> exists gg', gen_step t (Z.of_nat (S i)) gg = Ok gg' /\
  List.length gg' = List.length gg /\ gg' !!! 0%nat = term (gg !!! 0%nat) (Z.of_nat (S i)) /\
  (forall j, (1 <= j <= i)%nat -> gg' !!! j = gg !!! (j - 1)%nat xor term (gg !!! j) (Z.of_nat (S i))) /\ gg' !!! S i = 1.
Proof.
  intros [Hlen Hb Hm Hf _] Hi. unfold gen_step. rewrite put_nat by done. rewrite bind_Ok. set (g1 := <[S i := 1]> gg).
  assert (H1 : forall j, (j <= i)%nat -> g1 !!! j = gg !!! j) by (intros; apply list_lookup_total_insert_ne; lia).
  assert (L1 : List.length g1 = List.length gg) by apply length_insert.
  replace (Z.to_nat (Z.of_nat (S i) - 1)) with i by lia. unfold B0.
  down_induction (fun j => g1 !!! (j - 1)%nat xor term (g1 !!! j) (Z.of_nat (S i)));
    [lia| |destruct Hdown as (g2 & -> & L2 & H2)].
  - intros j l' Hj Hl Hp Hc. replace (Z.of_nat (S i) - 1 - Z.of_nat (i - j)) with (Z.of_nat j) by lia. rewrite total_get by lia. rewrite bind_Ok.
    replace (Z.of_nat j - 1) with (Z.of_nat (j - 1)) by lia. rewrite total_get by lia. rewrite bind_Ok, Hp, Hc. unfold term. rewrite H1 by lia.
    destruct (gg !!! j =? 0); cbn [negb]; [by rewrite Z.lxor_0_r|]. rewrite Hindex, index_get by (apply Hb; lia). rewrite bind_Ok, Halpha.
    replace (ixv (gg !!! j) + 1 + Z.of_nat (S i) - 1) with (ixv (gg !!! j) + Z.of_nat (S i)) by lia.
    rewrite alpha_get by (pose proof (ixv_pos (gg !!! j)); lia). by rewrite bind_Ok.
  - rewrite bind_Ok. assert (E0 : g2 !!! 0%nat = gg !!! 0%nat) by (rewrite H2, decide_False, H1 by lia; done).
    change 0 with (Z.of_nat 0). rewrite total_get by lia. rewrite bind_Ok, Hindex, E0, index_get by (apply Hb; lia). rewrite bind_Ok, Halpha.
    replace (ixv (gg !!! 0%nat) + 1 + Z.of_nat (S i) - 1) with (ixv (gg !!! 0%nat) + Z.of_nat (S i)) by lia.
    rewrite alpha_get by (pose proof (ixv_pos (gg !!! 0%nat)); lia). rewrite bind_Ok, put_nat by lia. eexists. split; [reflexivity|].
    split; [rewrite length_insert; lia|]. split; [rewrite list_lookup_total_insert_eq by lia; unfold term; by destruct (Z.eqb_spec (gg !!! 0%nat) 0)|].
    split; [intros j Hj|]; rewrite list_lookup_total_insert_ne by lia.
    + rewrite H2, decide_True by lia. by rewrite !H1 by lia.
    + rewrite H2, decide_False by lia. apply list_lookup_total_insert_eq. lia.
Qed.

Lemma toG_xor_term a b k : is_byte a -> is_byte b -> 0 <= k -> toG (a xor term b k) = add (toG a) (gm (toG b) (e (Z.to_nat k))).
Proof. intros Ha Hb Hk. rewrite toG_xor by (done || apply term_byte). by rewrite toG_term. Qed.

Lemma xor_term_byte a b k : is_byte a -> is_byte (a xor term b k).
Proof. intros Ha. apply lxor_range; [lia|done|apply term_byte]. Qed.

(** A factor more. *)
Lemma gsum_factor i g g' r k : g i = gf1 -> g' 0%nat = gm (g 0%nat) k -> (forall j, (1 <= j <= i)%nat -> g' j = add (g (j - 1)%nat) (gm (g j) k)) -> g' (S i) = gf1 ->
  gsum (S (S i)) g' r = gm (gsum (S i) g r) (add (e r) k).
Proof.
  intros Hm H0 Hj H1. rewrite gsum_first, H0.
  rewrite (gsum_ext (S i) _ (fun j => add (g j) (if decide (j < i)%nat then gm (g (S j)) k else gf0))).
  - rewrite gsum_add. cbn [gsum]. destruct (decide (i < i)%nat); [lia|].
    rewrite (gsum_ext i (fun j => if decide _ then _ else _) (fun j => gm (g (S j)) k)) by (intros j Hlt; by destruct (decide (j < i)%nat)).
    rewrite gsum_scale.
    pose proof (gsum_first i g r) as Hf. cbn [gsum] in Hf. set (hi := gsum i (fun j => g (S j)) r) in *. set (lo := add (gsum i g r) (gm (g i) (e (r * i)))) in *.
    transitivity (add (gm (e r) lo) (gm (add (g 0%nat) (gm (e r) hi)) k)); [ring|]. rewrite <- Hf. ring.
  - intros j Hlt. destruct (decide (j < i)%nat) as [Hi|Hi].
    + rewrite Hj by lia. by replace (S j - 1)%nat with j by lia.
    + replace j with i by lia. rewrite H1, Hm. ring.
Qed.

Lemma gen_step_generates i gg : generates i gg -> (S i < List.length gg)%nat ->
  exists gg', gen_step t (Z.of_nat (S i)) gg = Ok gg' /\ List.length gg' = List.length gg /\ generates (S i) gg'.
Proof.
  intros Hg Hi. destruct (gen_step_pointwise i gg Hg Hi) as (gg' & E & Hl & H0 & Hj & Hm). exists gg'. split; [done|]. split; [done|].
  destruct Hg as [Hlen Hb Hmon Hf Hr]. constructor; [lia| |done|rewrite H0; by apply term_nonzero|].
  - intros j Hle. destruct (decide (j = 0%nat)) as [->|]; [rewrite H0; apply term_byte|]. destruct (decide (j = S i)) as [->|]; [by rewrite Hm|].
    rewrite Hj by lia. apply xor_term_byte, Hb. lia.
  - intros r Hle. rewrite (gsum_factor i (co gg) (co gg') r (e (S i))).
    + destruct (decide (r = S i)) as [->|]; [rewrite add_self; ring|]. rewrite Hr by lia. ring.
    + unfold co. rewrite Hmon. by apply gf_eq.
    + unfold co. rewrite H0, toG_term, Nat2Z.id by (lia || apply Hb; lia). done.
    + intros j Hle'. unfold co. rewrite Hj, toG_xor_term, Nat2Z.id by (lia || apply Hb; lia). done.
    + unfold co. rewrite Hm. by apply gf_eq.
Qed.

(** The polynomial [g] of degree [m], kept as the indices of its coefficients. *)
Record generator (m : nat) (g gg : list Z) : Prop := mk_generator {
  gt_len : List.length gg = S m;
  gt_poly : generates m g;
  gt_index : forall j, (j <= m)%nat -> gg !!! j = ixv (g !!! j);
}.

Lemma generates_1 gg : (2 <= List.length gg)%nat -> generates 1 (<[1%nat := 1]> (<[0%nat := alph 1]> gg)).
Proof.
  intros Hl. assert (E0 : <[1%nat := 1]> (<[0%nat := alph 1]> gg) !!! 0%nat = alph 1).
  { rewrite list_lookup_total_insert_ne, list_lookup_total_insert_eq by lia. done. }
  assert (E1 : <[1%nat := 1]> (<[0%nat := alph 1]> gg) !!! 1%nat = 1) by (apply list_lookup_total_insert_eq; rewrite length_insert; lia).
  constructor; [rewrite !length_insert; lia| |done|rewrite E0; apply (xpow_one_nonzero gfshare_poly glog)|].
  - intros j Hj. destruct j as [|[|j]]; [rewrite E0; apply alph_byte|by rewrite E1|lia].
  - intros r Hr. replace r with 1%nat by lia. cbn [gsum]. unfold co. rewrite E0, E1, toG_alph by lia. change (Z.to_nat 1) with 1%nat.
    replace (toG 1) with gf1 by by apply gf_eq. replace (e (1 * 0)) with gf1 by by apply gf_eq. change (1 * 1)%nat with 1%nat.
    transitivity (add (e 1) (e 1)); [ring|apply add_self].
Qed.
End Tables.

Lemma gen_poly_generates t kk m : Alpha_to t = the_alpha -> Index_of t = the_index -> kk = 255 - Z.of_nat m -> (1 <= m <= 255)%nat -> List.length (Gg t) = S m ->
  exists g gg, gen_poly t kk = Ok (mk_rs the_alpha the_index gg) /\ generator m g gg.
Proof.
  intros Ha Hx -> Hm Hl. unfold gen_poly, B0, NN. rewrite Ha. 
  assert (E1 : get the_alpha 1 = Ok (alph 1)) by apply (alpha_get 1 ltac:(lia)). rewrite E1, bind_Ok.
  change (put ?l 0 ?v) with (put l (Z.of_nat 0) v). rewrite put_nat by lia. rewrite bind_Ok. change (put ?l 1 1) with (put l (Z.of_nat 1) 1). rewrite put_nat by (rewrite length_insert; lia). rewrite bind_Ok.
  set (g1 := <[1%nat := 1]> (<[0%nat := alph 1]> (Gg t))). assert (L1 : List.length g1 = S m) by (unfold g1; rewrite !length_insert; done).
  replace (Z.to_nat (255 - (255 - Z.of_nat m) - 1)) with (m - 1)%nat by lia. change 2 with (Z.of_nat 2).
  destruct (forM_nat (fun i gg => List.length gg = S m /\ generates (i - 1) gg) (m - 1) 2 (gen_step t) g1) as (g & Eg & Lg & Hg).
  - split; [done|]. apply generates_1. lia.
  - intros i gg Hi (Lgg & Hgg). destruct i as [|i]; [lia|]. destruct (gen_step_generates t Ha Hx i gg) as (gg' & E' & L' & Hg').
    { by replace i with (S i - 1)%nat by lia. } { lia. }
    exists gg'. split; [done|]. split; [lia|]. by replace (S (S i) - 1)%nat with (S i) by lia.
  - rewrite Eg, bind_Ok. replace (2 + (m - 1) - 1)%nat with m in Hg by lia. replace (Z.to_nat (255 - (255 - Z.of_nat m) + 1)) with (S m) by lia.
    forM_induction (fun i gg => List.length gg = S m /\ forall j, gg !!! j = if decide (j < i)%nat then ixv (g !!! j) else g !!! j).
    + done.
    + intros i gg Hi (Lgg & Hgg). rewrite total_get by lia. rewrite bind_Ok, Hgg, decide_False, Hx, index_get by (lia || apply (gn_bytes _ _ Hg); lia).
      rewrite bind_Ok, put_nat by lia. eexists. split; [reflexivity|]. split; [by rewrite length_insert|]. intros j. destruct (decide (j = i)) as [->|Hne].
      * rewrite list_lookup_total_insert_eq, decide_True by lia. done.
      * rewrite list_lookup_total_insert_ne, Hgg by done. destruct (decide (j < i)%nat); [by rewrite decide_True by lia|by rewrite decide_False by lia].
    + destruct Hloop as (gg & -> & Lgg & Hgg). rewrite bind_Ok, Hx. exists g, gg. split; [done|]. constructor; [done|done|].
      intros j Hj. by rewrite Hgg, decide_True by lia.
Qed.

(** ** Bytes of lists, and syndromes *)
Lemma total_bytes (l : list Z) : (forall j, (j < List.length l)%nat -> is_byte (l !!! j)) -> bytes l.
Proof. intros H. apply Forall_lookup. intros j x Hx. rewrite <- (list_lookup_total_correct _ _ _ Hx). apply H. by eapply lookup_lt_Some. Qed.

Lemma bytes_total (l : list Z) j : bytes l -> (j < List.length l)%nat -> is_byte (l !!! j).
Proof. intros H Hj. apply (proj1 (Forall_lookup _ _) H j). by apply list_lookup_lookup_total_lt. Qed.

Lemma syndrome_value t word i : Alpha_to t = the_alpha -> Index_of t = the_index -> (1 <= i)%nat -> List.length word = 255%nat -> bytes word ->
  exists s, syndrome t word (Z.of_nat i) = Ok s /\ is_byte s /\ toG s = gsum 255 (co word) i.
Proof.
  intros Halpha Hindex Hi Hl Hb. unfold syndrome, NN, B0. change (Z.to_nat 255) with 255%nat. forM_induction (fun j s => is_byte s /\ toG s = gsum j (co word) i).
  - split; [done|]. apply toG_0.
  - intros j s Hj (Hs & Es). rewrite total_get, bind_Ok by lia. assert (Hw : is_byte (word !!! j)) by (apply bytes_total; [done|lia]).
    rewrite Hindex, index_get, bind_Ok, ixv_A0 by done. replace (1 + Z.of_nat i - 1) with (Z.of_nat i) by lia. cbn [gsum]. rewrite <- Es.
    replace (gm (co word j) (e (i * j))) with (toG (term (word !!! j) (Z.of_nat i * Z.of_nat j))) by (rewrite toG_term by (done || lia); unfold co; do 2 f_equal; lia).
    unfold term. destruct (Z.eqb_spec (word !!! j) 0) as [Hz|Hz]; cbn [negb].
    + exists s. split; [done|]. split; [done|]. rewrite toG_0. ring.
    + rewrite Halpha, alpha_get, bind_Ok by (pose proof (ixv_pos (word !!! j)); lia). eexists. split; [reflexivity|].
      split; [apply lxor_range; [lia|done|apply alph_byte]|apply toG_xor; [done|apply alph_byte]].
  - destruct Hloop as (s & -> & Hs & Es). by exists s.
Qed.

(** ** The shift register *)
Section Encoder.
Context (m : nat) (g : list Z) (t : rs) (Halpha : Alpha_to t = the_alpha) (Hindex : Index_of t = the_index) (Hm : (1 <= m)%nat) (Hgen : generator m g (Gg t)).

(** The product with [f]. *)
Definition prod (f b : Z) : Z := if f =? 0 then 0 else term b (ixv f).

Lemma prod_byte f b : is_byte (prod f b).
Proof. unfold prod. destruct (f =? 0); [done|apply term_byte]. Qed.

Lemma toG_prod f b : is_byte f -> is_byte b -> toG (prod f b) = gm (toG b) (toG f).
Proof.
  intros Hf Hb. unfold prod. destruct (Z.eqb_spec f 0) as [->|Hn]; [rewrite toG_0; ring|]. rewrite toG_term by (done || apply ixv_pos).
  unfold ixv. destruct (Z.eqb_spec f 0); [done|]. by rewrite Nat2Z.id, e_log.
Qed.

Lemma put_byte_xor l j a b : is_byte a -> is_byte b -> put l j (u8 (a xor b)) = put l j (a xor b).
Proof. intros Ha Hb. by rewrite wrap_id by (apply lxor_range; done || lia). Qed.

Lemma gg_get j : (j <= m)%nat -> get (Gg t) (Z.of_nat j) = Ok (ixv (g !!! j)).
Proof. intros H. rewrite total_get by (rewrite (gt_len _ _ _ Hgen); lia). by rewrite (gt_index _ _ _ Hgen). Qed.

Lemma g_byte j : (j <= m)%nat -> is_byte (g !!! j).
Proof. apply (gn_bytes _ _ (gt_poly _ _ _ Hgen)). Qed.

Lemma shift_step_pointwise f bb : is_byte f -> List.length bb = m -> bytes bb -> exists bb', shift_step t (Z.of_nat m) (ixv f) bb = Ok bb' /\
  List.length bb' = m /\ bb' !!! 0%nat = prod f (g !!! 0%nat) /\ forall j, (1 <= j < m)%nat -> bb' !!! j = bb !!! (j - 1)%nat xor prod f (g !!! j).
Proof.
  intros Hf Hl Hb. assert (Hbj : forall j, (j < m)%nat -> is_byte (bb !!! j)).
  { intros j Hj. rewrite <- Hl in Hj. apply (proj1 (Forall_lookup _ _) Hb j). by apply list_lookup_lookup_total_lt. }
  unfold shift_step. rewrite ixv_A0. replace (Z.to_nat (Z.of_nat m - 1)) with (m - 1)%nat by lia. unfold prod.
  destruct (Z.eqb_spec f 0) as [->|Hn]; cbn [negb].
  - down_induction (fun j => bb !!! (j - 1)%nat); [lia| |destruct Hdown as (b1 & -> & L1 & H1)].
    + intros j l' Hj Hll Hp _. replace (Z.of_nat m - 1 - Z.of_nat (m - 1 - j)) with (Z.of_nat j) by lia. replace (Z.of_nat j - 1) with (Z.of_nat (j - 1)) by lia.
      rewrite total_get by lia. by rewrite bind_Ok, Hp.
    + rewrite bind_Ok. change (put ?l 0 ?v) with (put l (Z.of_nat 0) v). rewrite put_nat by lia. eexists. split; [reflexivity|]. split; [rewrite length_insert; lia|].
      split; [by rewrite list_lookup_total_insert_eq by lia|]. intros j Hj. rewrite list_lookup_total_insert_ne, H1, decide_True, Z.lxor_0_r by lia. done.
  - down_induction (fun j => bb !!! (j - 1)%nat xor term (g !!! j) (ixv f)); [lia| |destruct Hdown as (b1 & -> & L1 & H1)].
    + intros j l' Hj Hll Hp _. replace (Z.of_nat m - 1 - Z.of_nat (m - 1 - j)) with (Z.of_nat j) by lia. replace (Z.of_nat j - 1) with (Z.of_nat (j - 1)) by lia.
      rewrite gg_get, bind_Ok, total_get, bind_Ok, Hp, ixv_A0 by lia. unfold term. destruct (Z.eqb_spec (g !!! j) 0) as [Hz|Hz]; cbn [negb]; [by rewrite Z.lxor_0_r|].
      rewrite Halpha, alpha_get by (pose proof (ixv_pos (g !!! j)); pose proof (ixv_pos f); lia). rewrite bind_Ok. apply put_byte_xor; [apply Hbj; lia|apply alph_byte].
    + rewrite bind_Ok. change (get ?l 0) with (get l (Z.of_nat 0)). change (put ?l 0 ?v) with (put l (Z.of_nat 0) v). rewrite gg_get by lia.
      rewrite bind_Ok, Halpha, alpha_get by (pose proof (ixv_pos (g !!! 0%nat)); pose proof (ixv_pos f); lia). rewrite bind_Ok, (wrap_id 8) by apply alph_byte. rewrite put_nat by lia.
      eexists. split; [reflexivity|]. split; [rewrite length_insert; lia|]. split; [|intros j Hj; by rewrite list_lookup_total_insert_ne, H1, decide_True by lia].
      rewrite list_lookup_total_insert_eq by lia. unfold term. pose proof (gn_first _ _ (gt_poly _ _ _ Hgen)). by destruct (Z.eqb_spec (g !!! 0%nat) 0).
Qed.

(** At a root of the generator the register is multiplied and a symbol added. *)
Lemma shift_step_value d bb : is_byte d -> List.length bb = m -> bytes bb -> exists bb', shift_step t (Z.of_nat m) (ixv (d xor bb !!! (m - 1)%nat)) bb = Ok bb' /\
  List.length bb' = m /\ bytes bb' /\
  forall r, (1 <= r <= m)%nat -> gsum m (co bb') r = add (gm (e r) (gsum m (co bb) r)) (gm (e (r * m)) (toG d)).
Proof.
  intros Hd Hl Hb. assert (Htop : is_byte (bb !!! (m - 1)%nat)) by (apply bytes_total; [done|lia]).
  assert (Hf : is_byte (d xor bb !!! (m - 1)%nat)) by (apply lxor_range; done || lia). set (f := d xor bb !!! (m - 1)%nat) in *.
  destruct (shift_step_pointwise f bb Hf Hl Hb) as (bb' & E & Hl' & H0 & Hj). exists bb'. split; [done|]. split; [done|]. split.
  - apply total_bytes. intros j Hlt. rewrite Hl' in Hlt. destruct (decide (j = 0%nat)) as [->|]; [rewrite H0; apply prod_byte|].
    rewrite Hj by lia. apply lxor_range; [lia|apply bytes_total; [done|lia]|apply prod_byte].
  - intros r Hr. rewrite (gsum_ext m (co bb') (fun j => add (match j with O => gf0 | S j => co bb j end) (gm (co g j) (toG f)))).
    + rewrite gsum_add, gsum_scale. pose proof (gn_roots _ _ (gt_poly _ _ _ Hgen) r Hr) as Hroot. cbn [gsum] in Hroot. apply add_cancel in Hroot. rewrite Hroot.
      replace (co g m) with gf1 by (unfold co; rewrite (gn_monic _ _ (gt_poly _ _ _ Hgen)); by apply gf_eq). destruct m as [|m']; [lia|].
      rewrite gsum_first. cbn [gsum]. unfold f. rewrite toG_xor by done. replace (S m' - 1)%nat with m' by lia. fold (co bb m').
      replace (r * S m')%nat with (r + r * m')%nat by lia. rewrite e_add. change (fun j => co bb j) with (co bb). ring.
    + intros j Hlt. unfold co at 1. destruct j as [|j]; [rewrite H0, toG_prod by (done || apply g_byte; lia); unfold co; ring|].
      rewrite Hj, toG_xor, toG_prod by (lia || done || (apply g_byte; lia) || apply prod_byte || (apply bytes_total; [done|lia])). by replace (S j - 1)%nat with j by lia.
Qed.

Lemma clear_spec bb : List.length bb = m -> exists bb', forM m 0 (fun u bb => put bb (Z.of_nat m - 1 - u) 0) bb = Ok bb' /\ List.length bb' = m /\ forall j, (j < m)%nat -> bb' !!! j = 0.
Proof.
  intros Hl. forM_induction (fun u b => List.length b = m /\ forall j, (m - u <= j < m)%nat -> b !!! j = 0).
  - split; [done|lia].
  - intros u b Hu (Hlb & H). replace (Z.of_nat m - 1 - Z.of_nat u) with (Z.of_nat (m - 1 - u)) by lia. rewrite put_nat by lia. eexists. split; [reflexivity|].
    split; [by rewrite length_insert|]. intros j Hj. destruct (decide (j = m - 1 - u)%nat) as [->|]; [by rewrite list_lookup_total_insert_eq by lia|].
    rewrite list_lookup_total_insert_ne by done. apply H. lia.
  - destruct Hloop as (b & -> & Hlb & H). exists b. split; [done|]. split; [done|]. intros j Hj. apply H. lia.
Qed.

Lemma encode_rs_value (kk : nat) data bb : (kk + m = 255)%nat -> List.length data = kk -> bytes data -> List.length bb = m ->
  exists bb', encode_rs t data (Z.of_nat kk) bb = Ok bb' /\ List.length bb' = m /\ bytes bb' /\
    forall r, (1 <= r <= m)%nat -> gsum 255 (co (data ++ bb')) r = gf0.
Proof.
  intros Hkm Hld Hd Hlb. unfold encode_rs, NN. replace (255 - Z.of_nat kk) with (Z.of_nat m) by lia. rewrite !Nat2Z.id.
  destruct (clear_spec bb Hlb) as (b0 & -> & L0 & H0). rewrite bind_Ok.
  forM_induction (fun u b => List.length b = m /\ bytes b /\ forall r, (1 <= r <= m)%nat -> gsum m (co b) r = gm (e (r * m)) (gsum u (fun j => co data (kk - u + j)%nat) r)).
  - split; [done|]. split; [apply total_bytes; intros j Hj; by rewrite H0 by lia|]. intros r _. cbn [gsum].
    rewrite (gsum_ext m _ (fun j => gm gf0 gf0)); [rewrite gsum_scale; ring|]. intros j Hj. unfold co. rewrite H0, toG_0 by done. ring.
  - intros u b Hu (Lb & Hb & Hv). replace (Z.of_nat kk - 1 - Z.of_nat u) with (Z.of_nat (kk - S u)) by lia. rewrite total_get, bind_Ok by lia.
    replace (Z.of_nat m - 1) with (Z.of_nat (m - 1)) by lia. rewrite total_get, bind_Ok by lia.
    assert (Hdu : is_byte (data !!! (kk - S u)%nat)) by (apply bytes_total; [done|lia]).
    rewrite Hindex, index_get by (apply lxor_range; [lia|done|apply bytes_total; [done|lia]]). rewrite bind_Ok.
    destruct (shift_step_value (data !!! (kk - S u)%nat) b Hdu Lb Hb) as (b' & E & Lb' & Hb' & Hv'). rewrite E. exists b'. split; [done|]. split; [done|]. split; [done|].
    intros r Hr. rewrite Hv', Hv, gsum_first, Nat.add_0_r by done. rewrite (gsum_ext u (fun j => co data (kk - S u + S j)%nat) (fun j => co data (kk - u + j)%nat)) by (intros; f_equal; lia).
    fold (co data (kk - S u)). ring.
  - destruct Hloop as (b & -> & Lb & Hb & Hv). exists b. split; [done|]. split; [done|]. split; [done|]. intros r Hr. rewrite <- Hkm, gsum_app.
    rewrite (gsum_ext kk _ (co data)) by (intros j Hj; unfold co; by rewrite lookup_total_app_l by lia).
    rewrite (gsum_ext m _ (co b)) by (intros j Hj; unfold co; rewrite lookup_total_app_r by lia; do 2 f_equal; lia).
    rewrite Hv by done. cbn [Nat.add]. rewrite Nat.sub_diag. cbn [Nat.add].
    change (fun j => co data j) with (co data). replace (gm (e (r * kk)) (gm (e (r * m)) (gsum kk (co data) r))) with (gm (gm (e (r * kk)) (e (r * m))) (gsum kk (co data) r)) by ring.
    rewrite <- e_add, <- Nat.mul_add_distr_l, Hkm, <- e_mod, Nat.Div0.mod_mul. replace (e 0) with gf1 by by apply gf_eq.
    transitivity (add (gsum kk (co data) r) (gsum kk (co data) r)); [ring|apply add_self].
Qed.

End Encoder.

(** ** Copies *)
Definition piece (off len : nat) (row : list Z) : list Z := take len (drop off row).
Definition rows_ok (n len : nat) (rows : list (list Z)) : Prop := List.length rows = n /\ Forall (fun row => List.length row = len /\ bytes row) rows.

Lemma rows_lookup n len rows j : rows_ok n len rows -> (j < n)%nat -> exists row, rows !! j = Some row /\ List.length row = len /\ bytes row.
Proof.
  intros [Hn Hf] Hj. destruct (lookup_lt_is_Some_2 rows j) as [row Hr]; [lia|]. exists row. split; [done|]. by apply (proj1 (Forall_lookup _ _) Hf j).
Qed.

Lemma piece_len off len row : (off + len <= List.length row)%nat -> List.length (piece off len row) = len.
Proof. intros H. unfold piece. rewrite length_take, length_drop. lia. Qed.

Lemma pieces_length off len n L rows : rows_ok n L rows -> (off + len <= L)%nat -> List.length (concat (map (piece off len) rows)) = (n * len)%nat.
Proof.
  intros [<- Hf] Hl. induction Hf as [|row rows [Hrow _] _ IH]; [done|]. cbn [map concat List.length]. rewrite length_app, IH, piece_len by lia. lia.
Qed.

Lemma pieces_bytes off len n L rows : rows_ok n L rows -> bytes (concat (map (piece off len) rows)).
Proof.
  intros [_ Hf]. induction Hf as [|row rows [_ Hb] _ IH]; [constructor|]. cbn [map concat]. apply Forall_app_2; [|done]. by apply Forall_take, Forall_drop.
Qed.

Lemma pieces_S off len rows j row : rows !! j = Some row -> concat (map (piece off len) (take (S j) rows)) = concat (map (piece off len) (take j rows)) ++ piece off len row.
Proof. intros H. rewrite (take_S_r _ _ _ H), map_app, concat_app. cbn [map concat]. by rewrite app_nil_r. Qed.

Lemma gather_spec n L rows (off len count : nat) buffer : rows_ok n L rows -> (off + len <= L)%nat -> (count + n * len <= List.length buffer)%nat -> Z.of_nat (List.length buffer) < 2 ^ 32 ->
  gather (Z.of_nat n) rows (Z.of_nat off) (Z.of_nat len) (buffer, Z.of_nat count) =
  Ok (take count buffer ++ concat (map (piece off len) rows) ++ drop (count + n * len) buffer, Z.of_nat (count + n * len)).
Proof.
  intros Hrows Hl Hc H32. unfold gather. rewrite Nat2Z.id.
  forM_induction (fun j (s : list Z * Z) => s = (take count buffer ++ concat (map (piece off len) (take j rows)) ++ drop (count + j * len) buffer, Z.of_nat (count + j * len))).
  - rewrite take_0. cbn [map concat]. rewrite Nat.mul_0_l, Nat.add_0_r, app_nil_l, take_drop. done.
  - intros j ? Hj ->. destruct (rows_lookup n L rows j Hrows ltac:(lia)) as (row & Hr & Hlen & _). rewrite (get_nat _ _ _ Hr), bind_Ok, !Nat2Z.id, slice_Some by lia.
    cbn [of_option]. rewrite bind_Ok. fold (piece off len row).
    assert (Lp : List.length (concat (map (piece off len) (take j rows))) = (j * len)%nat).
    { apply (pieces_length off len j L); [|lia]. destruct Hrows as [Hn Hf]. split; [rewrite length_take; lia|by apply Forall_take]. }
    set (p := concat (map (piece off len) (take j rows))) in *. assert (HS : (count + S j * len <= List.length buffer)%nat) by (destruct Hj; nia).
    pose proof (splice_app_r (take count buffer ++ p) 0 (piece off len row) (drop (count + j * len) buffer)) as E.
    replace (List.length (take count buffer ++ p) + 0)%nat with (count + j * len)%nat in E by (rewrite length_app, length_take; nia).
    rewrite <- app_assoc in E. rewrite E, splice_Some by (rewrite piece_len, length_drop by lia; nia).
    cbn [fmap option_fmap option_map of_option]. rewrite take_0, app_nil_l, bind_Ok. eexists. split; [reflexivity|].
    rewrite (pieces_S _ _ _ _ _ Hr). f_equal.
    + rewrite drop_drop, piece_len by lia. replace (count + j * len + (0 + len))%nat with (count + S j * len)%nat by (cbn; nia). fold p. by rewrite <- !app_assoc.
    + rewrite wrap_id by (unfold in_range; nia). nia.
  - destruct Hloop as (s & -> & ->). rewrite (take_ge rows) by (destruct Hrows; lia). done.
Qed.

(** What [scatter] leaves: the rows outside [off .. off+len) as they were, and in
    it the bytes of the buffer, in order. *)
Record scattered (off len : nat) (src : list Z) (rows rows' : list (list Z)) : Prop := mk_scattered {
  sc_before : map (take off) rows' = map (take off) rows;
  sc_after : map (drop (off + len)) rows' = map (drop (off + len)) rows;
  sc_pieces : concat (map (piece off len) rows') = src;
}.

Lemma map_insert_same {A B} (f : A -> B) (l : list A) j x y : l !! j = Some x -> f y = f x -> map f (<[j := y]> l) = map f l.
Proof.
  intros H E. change (map f) with (fmap (M := list) f). rewrite list_fmap_insert, E. apply list_insert_id. by apply list_lookup_fmap_Some_2.
Qed.

Lemma scatter_spec n L rows (off len count : nat) buffer : rows_ok n L rows -> (off + len <= L)%nat -> (count + n * len <= List.length buffer)%nat -> Z.of_nat (List.length buffer) < 2 ^ 32 ->
  bytes buffer ->
  exists rows' c, scatter (Z.of_nat n) buffer (Z.of_nat off) (Z.of_nat len) (rows, Z.of_nat count) = Ok (rows', c) /\
    rows_ok n L rows' /\ scattered off len (piece count (n * len) buffer) rows rows'.
Proof.
  intros Hrows Hl Hc H32 Hb. unfold scatter. rewrite Nat2Z.id.
  forM_induction (fun j (s : list (list Z) * Z) => snd s = Z.of_nat (count + j * len) /\ rows_ok n L (fst s) /\
    map (take off) (fst s) = map (take off) rows /\ map (drop (off + len)) (fst s) = map (drop (off + len)) rows /\
    concat (map (piece off len) (take j (fst s))) = piece count (j * len) buffer).
  - cbn. by rewrite Nat.add_0_r.
  - intros j [rs ?] Hj (Hs & Hok & Hbef & Haft & Hp). cbn [fst snd] in *. subst.
    destruct (rows_lookup n L rs j Hok ltac:(lia)) as (row & Hr & Hlen & Hrb). rewrite (get_nat _ _ _ Hr), bind_Ok, !Nat2Z.id.
    assert (HS : (count + S j * len <= List.length buffer)%nat) by (destruct Hj; nia). rewrite slice_Some by nia. cbn [of_option]. rewrite bind_Ok.
    fold (piece (count + j * len) len buffer). assert (Lp : List.length (piece (count + j * len) len buffer) = len) by (apply piece_len; nia).
    set (p := piece (count + j * len) len buffer) in *. rewrite splice_Some by lia. cbn [of_option]. rewrite bind_Ok, put_nat by (destruct Hok; lia). rewrite bind_Ok.
    set (new := take off row ++ p ++ drop (off + List.length p) row). eexists. split; [reflexivity|]. cbn [fst snd].
    assert (Lt : List.length (take off row) = off) by (rewrite length_take; lia).
    assert (Eb : take off new = take off row) by (unfold new; rewrite take_app_le, take_ge by lia; done).
    assert (Ea : drop (off + len) new = drop (off + len) row).
    { unfold new. rewrite drop_app_ge, drop_app_ge by lia. rewrite Lp, drop_drop, Lt. f_equal. lia. }
    assert (Ep : piece off len new = p) by (unfold piece, new; rewrite drop_app_length', take_app_length' by lia; done).
    split; [rewrite wrap_id by (unfold in_range; nia); nia|]. split; [|split; [|split]].
    + destruct Hok as [Hn Hf]. split; [by rewrite length_insert|]. apply Forall_insert; [done|]. unfold new. split; [rewrite !length_app, length_drop; lia|].
      repeat apply Forall_app_2; [by apply Forall_take|by apply Forall_take, Forall_drop|by apply Forall_drop].
    + rewrite <- Hbef. by apply (map_insert_same _ _ _ row).
    + rewrite <- Haft. by apply (map_insert_same _ _ _ row).
    + rewrite (pieces_S _ _ _ j new) by (apply list_lookup_insert_eq; destruct Hok; lia). rewrite take_insert_ge by lia. rewrite Hp, Ep. unfold p, piece.
      rewrite <- (drop_drop buffer). replace (S j * len)%nat with (j * len + len)%nat by lia. by rewrite take_take_drop.
  - destruct Hloop as ([rows' c] & E & Hs & Hok & Hbef & Haft & Hp). cbn [fst snd] in *. exists rows', c. split; [done|]. split; [done|]. constructor; [done|done|].
    rewrite take_ge in Hp by (destruct Hok; lia). done.
Qed.

(** ** The codewords of a tuple of blocks *)
Definition codeword (t : rs) (m : nat) (word : list Z) : Prop :=
  List.length word = 255%nat /\ bytes word /\ forall i, (1 <= i <= m)%nat -> syndrome t word (Z.of_nat i) = Ok 0.

Lemma encode_rs_codeword m g t kk data bb : Alpha_to t = the_alpha -> Index_of t = the_index -> (1 <= m)%nat -> generator m g (Gg t) ->
  (kk + m = 255)%nat -> List.length data = kk -> bytes data -> List.length bb = m ->
  exists bb', encode_rs t data (Z.of_nat kk) bb = Ok bb' /\ List.length bb' = m /\ codeword t m (data ++ bb').
Proof.
  intros Ha Hx Hm Hg Hkm Hl Hd Hlb. destruct (encode_rs_value m g t Ha Hx Hm Hg kk data bb Hkm Hl Hd Hlb) as (bb' & E & Hl' & Hb' & Hv).
  assert (Hw : List.length (data ++ bb') = 255%nat) by (rewrite length_app; lia). assert (Hwb : bytes (data ++ bb')) by by apply Forall_app_2.
  exists bb'. split; [done|]. split; [done|]. split; [done|]. split; [done|]. intros i Hi.
  destruct (syndrome_value t (data ++ bb') i Ha Hx ltac:(lia) Hw Hwb) as (s & Es & Hs & Hv'). rewrite Es. f_equal.
  apply toG_inj; [done|done|]. by rewrite Hv', Hv, toG_0.
Qed.

(** The bytes [off .. off+len) of the blocks of a tuple in a codeword: data,
    entropy, zeros up to symbol [kk], carriers, and parity that is not kept. *)
Definition tuple_word (kk off len : nat) (data entropy carrier : list (list Z)) (pad : list Z) : list Z :=
  (concat (map (piece off len) (data ++ entropy)) ++ replicate (kk - List.length (data ++ entropy) * len) 0) ++ concat (map (piece off len) carrier) ++ pad.

Section Tuples.
Context (nd ne nc p m bs : nat) (g : list Z) (t : rs) (info : config) (data entropy : list (list Z)).
Context (Halpha : Alpha_to t = the_alpha) (Hindex : Index_of t = the_index) (Hm : (1 <= m)%nat) (Hgen : generator m g (Gg t)).
Let kk : nat := ((nd + ne) * p)%nat.
Context (Hbs : (255 <= bs)%nat /\ Z.of_nat bs < 2 ^ 31) (Hkm : (kk + m = 255)%nat) (Hn : ((nd + ne + nc) * p <= 255)%nat).
Context (Hnd : num_data info = Z.of_nat nd) (Hne : num_entropy info = Z.of_nat ne) (Hnc : num_carrier info = Z.of_nat nc) (Hk : k info = Z.of_nat kk).
Context (Hdata : rows_ok nd bs data) (Hentropy : rows_ok ne bs entropy).

(** What one codeword does to the carriers. *)
Record encoded (off len : nat) (car car' : list (list Z)) : Prop := mk_encoded {
  en_rows : rows_ok nc bs car';
  en_before : map (take off) car' = map (take off) car;
  en_after : map (drop (off + len)) car' = map (drop (off + len)) car;
  en_word : exists pad, codeword t m (tuple_word kk off len data entropy car' pad);
}.

Lemma gathered (off len : nat) : (off + len <= bs)%nat -> (len <= p)%nat ->
  (s ← gather (num_data info) data (Z.of_nat off) (Z.of_nat len) (replicate 255 0, 0); gather (num_entropy info) entropy (Z.of_nat off) (Z.of_nat len) s) =
  Ok (concat (map (piece off len) (data ++ entropy)) ++ replicate (255 - (nd + ne) * len) 0, Z.of_nat ((nd + ne) * len)).
Proof.
  intros Ho Hl. assert (Hlen : ((nd + ne) * len <= kk)%nat) by (unfold kk; nia). assert (Hnl : (nd * len <= (nd + ne) * len)%nat) by nia.
  rewrite Hnd, Hne. change 0 with (Z.of_nat 0) at 2. rewrite (gather_spec nd bs) by (rewrite ?length_replicate; done || lia). rewrite bind_Ok.
  pose proof (pieces_length off len nd bs data Hdata Ho) as Ld. set (D := concat (map (piece off len) data)) in *.
  rewrite take_0, app_nil_l, drop_replicate. cbn [Nat.add].
  rewrite (gather_spec ne bs) by (rewrite ?length_app, ?length_replicate, ?Ld; done || nia). f_equal. f_equal; [|f_equal; nia].
  rewrite take_app_le, take_ge, drop_app_ge, drop_replicate, map_app, concat_app, <- app_assoc by (rewrite ?Ld; nia). do 3 f_equal. nia.
Qed.

Lemma tuple_block_spec (off len : nat) (last : bool) car : rows_ok nc bs car -> (off + len <= bs)%nat -> (len <= p)%nat -> (last = false -> len = p) ->
  exists car', encode_block t info data entropy (Z.of_nat off) (Z.of_nat len) last car = Ok car' /\ encoded off len car car'.
Proof.
  intros Hcar Ho Hl Hlast. assert (Hlen : ((nd + ne) * len <= kk)%nat) by (unfold kk; nia). unfold encode_block.
  pose proof (gathered off len Ho Hl) as Hg. revert Hg. destruct (gather (num_data info) data _ _ _) as [s| |]; intros Hg; [|done|done]. rewrite bind_Ok in Hg. rewrite bind_Ok, Hg, bind_Ok.
  assert (Lrows : List.length (data ++ entropy) = (nd + ne)%nat) by (destruct Hdata, Hentropy; rewrite length_app; lia).
  assert (Hrows : rows_ok (nd + ne) bs (data ++ entropy)) by (split; [done|destruct Hdata, Hentropy; by apply Forall_app_2]).
  pose proof (pieces_length off len _ _ _ Hrows Ho) as LD. pose proof (pieces_bytes off len _ _ _ Hrows) as BD.
  set (D := concat (map (piece off len) (data ++ entropy))) in *. rewrite Hk, Nat2Z.id.
  rewrite take_app_ge, drop_app_ge, take_replicate, drop_replicate, LD by lia. replace ((kk - (nd + ne) * len) `min` (255 - (nd + ne) * len))%nat with (kk - (nd + ne) * len)%nat by lia.
  set (sym := D ++ replicate (kk - (nd + ne) * len) 0). assert (Ls : List.length sym = kk) by (unfold sym; rewrite length_app, length_replicate; lia).
  assert (Bs : bytes sym) by (apply Forall_app_2; [done|by apply Forall_replicate]).
  destruct (encode_rs_codeword m g t kk sym (replicate (255 - (nd + ne) * len - (kk - (nd + ne) * len)) 0)) as (parity & -> & Lp & Hw);
    [done|done|done|done|done|done|done|rewrite length_replicate; lia|]. rewrite bind_Ok.
  assert (Hc : (if last then Z.of_nat kk else Z.of_nat ((nd + ne) * len)) = Z.of_nat kk) by (destruct last; [done|rewrite Hlast by done; done]). rewrite Hc.
  destruct (scatter_spec nc bs car off len kk (sym ++ parity) Hcar Ho) as (car' & c & E & Hok & [Hb Ha Hp]); [rewrite length_app; nia|rewrite length_app; lia|apply Hw|].
  rewrite Hnc, E, bind_Ok. exists car'. split; [done|]. constructor; [done|done|done|]. exists (drop (nc * len) parity). unfold tuple_word. rewrite Lrows, Hp. fold D. fold sym.
  unfold piece. rewrite drop_app_length' by done. by rewrite take_drop.
Qed.

Lemma piece_before (off off' len' : nat) (rows rows' : list (list Z)) : (off' + len' <= off)%nat -> map (take off) rows' = map (take off) rows ->
  map (piece off' len') rows' = map (piece off' len') rows.
Proof.
  intros Hle E. assert (H : forall l, map (piece off' len') l = map (piece off' len') (map (take off) l)).
  { intros l. rewrite map_map. apply map_ext. intros row. unfold piece. rewrite skipn_firstn_comm, firstn_firstn. by replace (len' `min` (off - off'))%nat with len' by lia. }
  by rewrite H, E, <- H.
Qed.

Lemma encoded_keeps off len car car' off' len' : encoded off len car car' -> (off' + len' <= off)%nat ->
  (exists pad, codeword t m (tuple_word kk off' len' data entropy car pad)) -> exists pad, codeword t m (tuple_word kk off' len' data entropy car' pad).
Proof. intros [_ Hb _ _] Hle [pad H]. exists pad. unfold tuple_word in *. by rewrite (piece_before off _ _ car car'). Qed.

Context (Hp : (1 <= p)%nat) (Hnc1 : (1 <= nc)%nat) (Hportion : block_portion info = Z.of_nat p) (Hfinal : final_padding info = Z.of_nat (bs mod p)).
Let blocks : nat := (bs / p + if decide (bs mod p = 0)%nat then 0 else 1)%nat.
Context (Hblocks : encode_blocks info = Z.of_nat blocks).

Lemma blocks_fit : (1 <= blocks)%nat /\ ((blocks - 1) * p <= bs)%nat /\ ((blocks - 1) * p + bs mod p <= bs)%nat /\ (bs mod p < p)%nat /\
  ((bs mod p)%nat = 0%nat -> ((blocks - 1) * p = bs - p)%nat).
Proof.
  pose proof (Nat.div_mod_eq bs p). pose proof (Nat.mod_upper_bound bs p ltac:(lia)). assert (H1 : (p <= bs)%nat) by nia. set (q := (bs / p)%nat) in *. set (f := (bs mod p)%nat) in *. unfold blocks. change (bs mod p)%nat with f. change (bs / p)%nat with q. clearbody q f.
  destruct (decide (f = 0)%nat) as [Hz|Hz]; [|replace (q + 1 - 1)%nat with q by lia; split; [lia|]; split; [lia|]; split; [lia|]; split; lia].
  destruct q as [|q']; [nia|]. replace (S q' + 0 - 1)%nat with q' by lia. split; [lia|]. split; [nia|]. split; [nia|]. split; [lia|]. nia.
Qed.

Lemma tuple_spec carrier : rows_ok nc bs carrier -> exists carrier', encode true t info data entropy carrier = Ok carrier' /\ rows_ok nc bs carrier' /\
  (forall i, (i < blocks)%nat -> exists pad, codeword t m (tuple_word kk (i * p) (if decide (i = blocks - 1)%nat then bs mod p else p)%nat data entropy carrier' pad)) /\
  ((bs mod p)%nat = 0%nat -> map (drop (bs - p)) carrier' = map (drop (bs - p)) carrier).
Proof.
  intros Hcar. destruct blocks_fit as (Hb1 & Hb2 & Hb3 & Hb4 & Hb5). unfold encode. cbn [negb]. rewrite Hblocks, Hportion, Hfinal, wrap_id by (unfold in_range; nia).
  replace (Z.to_nat (Z.of_nat blocks - 1)) with (blocks - 1)%nat by lia.
  forM_induction (fun u (s : list (list Z) * Z) => snd s = Z.of_nat (u * p) /\ rows_ok nc bs (fst s) /\ map (drop (u * p)) (fst s) = map (drop (u * p)) carrier /\
    forall i, (i < u)%nat -> exists pad, codeword t m (tuple_word kk (i * p) p data entropy (fst s) pad)).
  - cbn [fst snd]. split; [done|]. split; [done|]. split; [done|lia].
  - intros u [car ?] Hu (Hs & Hok & Hd & Hw). cbn [fst snd] in *. subst. assert (Hfit : (u * p + p <= (blocks - 1) * p)%nat) by nia.
    destruct (tuple_block_spec (u * p) p false car Hok ltac:(lia) ltac:(lia) ltac:(done)) as (car' & -> & He). rewrite bind_Ok. eexists. split; [reflexivity|]. cbn [fst snd].
    split; [rewrite wrap_id by (unfold in_range; lia); lia|]. split; [apply He|]. replace (S u * p)%nat with (u * p + p)%nat by lia. split.
    + rewrite (en_after _ _ _ _ He). assert (Hdd : forall l : list (list Z), map (drop (u * p + p)) l = map (drop p) (map (drop (u * p)) l)) by (intros l; rewrite map_map; apply map_ext; intros; by rewrite drop_drop).
      by rewrite !Hdd, Hd.
    + intros i Hi. destruct (decide (i = u)) as [->|Hne']; [apply He|]. apply (encoded_keeps _ _ _ _ _ _ He); [nia|]. apply Hw. lia.
  - destruct Hloop as ([car ?] & -> & Hs & Hok & Hd & Hw). cbn [fst snd Nat.add] in *. subst. rewrite bind_Ok.
    destruct (tuple_block_spec ((blocks - 1) * p) (bs mod p) true car Hok ltac:(lia) ltac:(lia) ltac:(done)) as (car' & -> & He). exists car'. split; [done|]. split; [apply He|]. split.
    + intros i Hi. destruct (decide (i = blocks - 1)%nat) as [->|Hne']; [apply He|]. apply (encoded_keeps _ _ _ _ _ _ He); [nia|]. apply Hw. lia.
    + intros Hz. pose proof (en_after _ _ _ _ He) as Ha. rewrite Hz, Nat.add_0_r, Hb5 in Ha by done. rewrite Hb5 in Hd by done. by rewrite Ha, Hd.
Qed.
End Tuples.

(** The bytes of a block. *)
Definition BLOCK : nat := Z.to_nat 4096.
Lemma BLOCK_eq : Z.of_nat BLOCK = 4096.
Proof. done. Qed.

(** The tables before the first or after a later initialisation; any request for
    the generator polynomial's memory is met. *)
Definition tables_ready (t : rs) : Prop :=
  (Alpha_to t = replicate 256 0 /\ Index_of t = replicate 256 0) \/ (Alpha_to t = the_alpha /\ Index_of t = the_index).
Definition allocates (kmalloc : Z -> option (list Z)) : Prop := forall n, 1 <= n <= 256 -> exists mem, kmalloc n = Some mem /\ List.length mem = Z.to_nat n.

Lemma init_rs_generates kmalloc (kk m : nat) t : tables_ready t -> allocates kmalloc -> (kk + m = 255)%nat -> (1 <= m)%nat ->
  exists g gg, init_rs kmalloc (Z.of_nat kk) t = Ok (mk_rs the_alpha the_index gg) /\ generator m g gg.
Proof.
  intros Ht Hmem Hkm Hm. unfold init_rs. assert (E : generate_gf (Alpha_to t) (Index_of t) = Ok (the_alpha, the_index)).
  { destruct Ht as [[-> ->]|[-> ->]]; [apply generate_gf_tables|apply generate_gf_again]. }
  rewrite E, bind_Ok. unfold NN. rewrite !wrap_id by (unfold in_range; rewrite ?wrap_id by (unfold in_range; lia); lia).
  destruct (Hmem (255 - Z.of_nat kk + 1)) as (mem & -> & Hl); [lia|]. cbn [of_option]. rewrite bind_Ok.
  apply gen_poly_generates; [done|done|lia|lia|]. cbn [Gg]. lia.
Qed.

Lemma initialize_spec kmalloc (nd ne nc : nat) t : tables_ready t -> allocates kmalloc -> (1 <= nc)%nat -> (nd + ne + nc <= 255)%nat ->
  let p := (255 / (nd + ne + nc))%nat in let kk := ((nd + ne) * p)%nat in
  (1 <= p)%nat /\ ((nd + ne + nc) * p <= 255)%nat /\
  exists info g gg, initialize kmalloc (Z.of_nat nd) (Z.of_nat ne) (Z.of_nat nc) t = Ok (info, mk_rs the_alpha the_index gg) /\ generator (255 - kk) g gg /\
    num_data info = Z.of_nat nd /\ num_entropy info = Z.of_nat ne /\ num_carrier info = Z.of_nat nc /\ k info = Z.of_nat kk /\
    block_portion info = Z.of_nat p /\ final_padding info = Z.of_nat (BLOCK mod p) /\
    encode_blocks info = Z.of_nat (BLOCK / p + if decide (BLOCK mod p = 0)%nat then 0 else 1).
Proof.
  intros Ht Hmem Hnc Hn p kk. set (T := (nd + ne + nc)%nat) in *. pose proof (Nat.div_mod_eq 255 T) as Hdm. pose proof (Nat.mod_upper_bound 255 T ltac:(lia)) as Hmod.
  fold p in Hdm. assert (Hp : (1 <= p)%nat) by nia. assert (Hnp : (T * p <= 255)%nat) by lia. split; [done|]. split; [done|].
  assert (Hkk : (kk + nc * p <= 255)%nat) by (unfold kk, T in *; nia).
  destruct (init_rs_generates kmalloc kk (255 - kk) t Ht Hmem) as (g & gg & E & Hg); [nia|nia|]. unfold initialize.
  rewrite (wrap_id 32 (Z.of_nat nd + Z.of_nat ne)), (wrap_id 32 (Z.of_nat nd + Z.of_nat ne + Z.of_nat nc)) by (unfold in_range; lia).
  replace (Z.of_nat nd + Z.of_nat ne + Z.of_nat nc) with (Z.of_nat T) by lia. destruct (Z.eqb_spec (Z.of_nat T) 0); [lia|].
  change 255 with (Z.of_nat 255). rewrite <- Nat2Z.inj_div. fold p. destruct (Z.eqb_spec (Z.of_nat p) 0); [lia|].
  rewrite (wrap_id 32 (Z.of_nat p * (Z.of_nat nd + Z.of_nat ne))) by (unfold in_range, T in *; nia).
  replace (Z.of_nat p * (Z.of_nat nd + Z.of_nat ne)) with (Z.of_nat kk) by (unfold kk; lia). rewrite E, bind_Ok.
  rewrite <- BLOCK_eq, <- Nat2Z.inj_div, <- Nat2Z.inj_mod. eexists _, g, gg. split; [reflexivity|]. cbn [num_data num_entropy num_carrier k block_portion final_padding encode_blocks].
  do 7 (split; [done|]). pose proof (Nat.Div0.div_le_upper_bound BLOCK p BLOCK) as Hle. pose proof BLOCK_eq.
  destruct (decide (BLOCK mod p = 0)%nat) as [Hz|Hz]; [by rewrite Hz, Nat.add_0_r|]. destruct (Z.eqb_spec (Z.of_nat (BLOCK mod p)) 0); [lia|]. cbn [negb].
  rewrite wrap_id; [lia|]. unfold in_range. assert (BLOCK / p <= BLOCK)%nat by (apply Hle; nia). lia.
Qed.

(** What [encode] leaves, after [initialize]. *)
Lemma encode_total kmalloc (nd ne nc : nat) t info t' data entropy carrier :
  tables_ready t -> allocates kmalloc -> (1 <= nc)%nat -> (nd + ne + nc <= 255)%nat ->
  rows_ok nd BLOCK data -> rows_ok ne BLOCK entropy -> rows_ok nc BLOCK carrier ->
  initialize kmalloc (Z.of_nat nd) (Z.of_nat ne) (Z.of_nat nc) t = Ok (info, t') ->
  let p := (255 / (nd + ne + nc))%nat in let kk := ((nd + ne) * p)%nat in
  let blocks := (BLOCK / p + if decide (BLOCK mod p = 0)%nat then 0 else 1)%nat in
  Alpha_to t' = the_alpha /\ Index_of t' = the_index /\
  exists carrier', encode true t' info data entropy carrier = Ok carrier' /\ rows_ok nc BLOCK carrier' /\
    (forall i, (i < blocks)%nat -> exists pad, codeword t' (255 - kk)
       (tuple_word kk (i * p) (if decide (i = blocks - 1)%nat then BLOCK mod p else p)%nat data entropy carrier' pad)) /\
    ((BLOCK mod p)%nat = 0%nat -> map (drop (BLOCK - p)) carrier' = map (drop (BLOCK - p)) carrier).
Proof.
  intros Ht Hmem Hnc Hn Hd He Hc Hinit p kk blocks. destruct (initialize_spec kmalloc nd ne nc t Ht Hmem Hnc Hn) as (Hp & Hnp & info' & g & gg & E & Hg & H1 & H2 & H3 & H4 & H5 & H6 & H7).
  fold p kk in Hp, Hnp, Hg, H4, H5, H6, H7 |- *. fold blocks in H7. rewrite Hinit in E. injection E as -> ->. split; [done|]. split; [done|].
  pose proof BLOCK_eq. assert (Hkk : (kk + nc * p <= 255)%nat) by (unfold kk; nia).
  destruct (tuple_spec nd ne nc p (255 - kk) BLOCK g (mk_rs the_alpha the_index gg) info' data entropy) with (carrier := carrier) as (carrier' & E' & Hr & Hw & Ht');
    [done|done|nia|done|lia|fold kk; lia|done|done|done|done|done|done|done|done|done|done|done|done|done|].
  by exists carrier'.
Qed.

(** C30: for at most 255 blocks with at least one carrier, [initialize] and [encode]
    succeed, and each symbol group of the tuple is a codeword: data bytes,
    entropy bytes, zeros, carrier bytes and some parity that is dropped have
    syndromes 0 at every root the decoder evaluates. Where the group size divides 4096
    the groups end before the last bytes of the carriers, which are left as they
    were whatever the data. *)
Theorem encode_codewords kmalloc (nd ne nc : nat) t data entropy carrier :
  tables_ready t -> allocates kmalloc -> (1 <= nc)%nat -> (nd + ne + nc <= 255)%nat ->
  rows_ok nd BLOCK data -> rows_ok ne BLOCK entropy -> rows_ok nc BLOCK carrier ->
  let p := (255 / (nd + ne + nc))%nat in let kk := ((nd + ne) * p)%nat in
  let blocks := (BLOCK / p + if decide (BLOCK mod p = 0)%nat then 0 else 1)%nat in
  exists info t' carrier', initialize kmalloc (Z.of_nat nd) (Z.of_nat ne) (Z.of_nat nc) t = Ok (info, t') /\
    encode true t' info data entropy carrier = Ok carrier' /\ rows_ok nc BLOCK carrier' /\
    (forall i, (i < blocks)%nat -> exists pad, codeword t' (255 - kk)
       (tuple_word kk (i * p) (if decide (i = blocks - 1)%nat then BLOCK mod p else p)%nat data entropy carrier' pad)) /\
    ((BLOCK mod p)%nat = 0%nat -> map (drop (BLOCK - p)) carrier' = map (drop (BLOCK - p)) carrier).
Proof.
  intros Ht Hmem Hnc Hn Hd He Hc p kk blocks. destruct (initialize_spec kmalloc nd ne nc t Ht Hmem Hnc Hn) as (_ & _ & info & g & gg & E & _).
  destruct (encode_total kmalloc nd ne nc t info _ data entropy carrier Ht Hmem Hnc Hn Hd He Hc E) as (_ & _ & carrier' & E' & H).
  by exists info, (mk_rs the_alpha the_index gg), carrier'.
Qed.

(** ** Witness *)
Definition sample_words (n : Z) : option (list Z) := Some (replicate (Z.to_nat n) 0).

Lemma sample_block : rows_ok 1 BLOCK [replicate BLOCK 0].
Proof. split; [reflexivity|]. apply Forall_cons_2; [split; [apply length_replicate|apply Forall_replicate, byte_0]|apply Forall_nil_2]. Qed.

(** One block of data and one carrier: groups of 127 bytes. *)
Lemma encode_codewords_witness : exists info t carrier, initialize sample_words 1 0 1 rs0 = Ok (info, t) /\
  encode true t info [replicate BLOCK 0] [] [replicate BLOCK 0] = Ok carrier /\ rows_ok 1 BLOCK carrier.
Proof.
  destruct (encode_codewords sample_words 1 0 1 rs0 [replicate BLOCK 0] [] [replicate BLOCK 0]) as (info & t & carrier & E & E' & Hr & _).
  - left. split; reflexivity.
  - intros n Hn. exists (replicate (Z.to_nat n) 0). split; [reflexivity|apply length_replicate].
  - apply le_n.
  - apply Nat.leb_le. reflexivity.
  - exact sample_block.
  - split; [reflexivity|constructor].
  - exact sample_block.
  - exists info, t, carrier. split; [exact E|]. split; [exact E'|exact Hr].
Defined.
