(* ===== verification/ReedDecoder.v ===== *)
(** * ReedDecoder: the decoder of the older Reed-Solomon code (src/lib/rs.c)

    The errors-and-erasures decoder, in the order of the code: conversion of the
    received word, syndromes, erasure locator, Berlekamp-Massey, Chien search,
    evaluator polynomial and error values; and the decoding of the blocks of a
    tuple. Its loops that count down to 0 have an unsigned index, so the
    condition [i >= 0] always holds. Theorems: no call of the decoder returns,
    and past the first of these loops nothing would be corrected either. *)
From stdpp Require Import base tactics option list numbers.
From Stdlib Require Import ZArith Lia.
From S2P Require Import Prelude Galois GfShare ReedSolomon.

Local Open Scope Z_scope.
Local Open Scope afs_scope.

(** [for (; i >= 0; i -= step)] with a [uint32_t i]. *)
Fixpoint while_down {S} (fuel : nat) (step i : Z) (body : Z -> S -> res S) (s : S) : res S :=
  match fuel with
  | O => OutOfFuel
  | Datatypes.S fuel =>
      if 0 <=? i then s ← body i s; while_down fuel step (i -32 step) body s
      else Ok s
  end.

(** ** The decoder of a word

    Sums that stay below 2^31 for table entries are written without their
    wrap-around. *)
Definition convert (fuel : nat) (t : rs) (data recd : list Z) : res (list Z) :=
  while_down fuel 1 (NN - 1) (fun i recd =>
    d ← get data i;
    x ← get (Index_of t) d;
    put recd i x) recd.

Definition syndrome_of (t : rs) (recd : list Z) (i : Z) : res Z :=
  forM (Z.to_nat NN) 0 (fun j tmp =>
    r ← get recd j;
    if negb (r =? A0) then a ← get (Alpha_to t) (modnn (r + (B0 + i - 1) * j)); Ok (tmp xor a) else Ok tmp) 0.

Definition syndromes (t : rs) (recd : list Z) (kk : Z) (s : list Z) : res (list Z * Z) :=
  forM (Z.to_nat (NN -32 kk)) 1 (fun i '(s, syn_error) =>
    tmp ← syndrome_of t recd i;
    x ← get (Index_of t) tmp;
    s ← put s i x;
    Ok (s, Z.lor syn_error tmp)) (s, 0).

(** [CLEAR(&l[off], n)], [COPY(&dst[off], &src[off], n)] and the two statements
    [COPYDOWN(&b[1], b, n); b[0] = A0]. *)
Definition clear (off n : Z) (l : list Z) : res (list Z) :=
  forM (Z.to_nat n) 0 (fun u l => put l (off + (n - 1 - u)) 0) l.

Definition copy (off n : Z) (src dst : list Z) : res (list Z) :=
  forM (Z.to_nat n) 0 (fun u dst => x ← get src (off + (n - 1 - u)); put dst (off + (n - 1 - u)) x) dst.

Definition times_x (n : Z) (b : list Z) : res (list Z) :=
  b ← forM (Z.to_nat n) 0 (fun u b => x ← get b (n - 1 - u); put b (1 + (n - 1 - u)) x) b;
  put b 0 A0.

Definition erasure_locator (t : rs) (eras_pos : list Z) (no_eras : Z) (lambda : list Z) : res (list Z) :=
  p ← get eras_pos 0;
  a ← get (Alpha_to t) p;
  lambda ← put lambda 1 a;
  forM (Z.to_nat (no_eras - 1)) 1 (fun i lambda =>
    u ← get eras_pos i;
    forM (Z.to_nat (i + 1)) 0 (fun v lambda =>
      let j := i + 1 - v in
      l ← get lambda (j - 1);
      tmp ← get (Index_of t) l;
      if negb (tmp =? A0) then
        l ← get lambda j;
        a ← get (Alpha_to t) (modnn (u + tmp));
        put lambda j (l xor a)
      else Ok lambda) lambda) lambda.

(** The polynomials of the Berlekamp-Massey iteration and its length [el]. *)
Record massey := mk_massey { lambda : list Z; poly_b : list Z; poly_t : list Z; el : Z }.

Definition discrepancy (t : rs) (lambda s : list Z) (r : Z) : res Z :=
  forM (Z.to_nat r) 0 (fun i discr =>
    l ← get lambda i;
    if l =? 0 then Ok discr else
    x ← get s (r - i);
    if x =? A0 then Ok discr else
    y ← get (Index_of t) l;
    a ← get (Alpha_to t) (modnn (y + x));
    Ok (discr xor a)) 0.

Definition massey_step (t : rs) (s : list Z) (kk no_eras r : Z) (m : massey) : res massey :=
  d ← discrepancy t (lambda m) s r;
  discr_r ← get (Index_of t) d;
  if discr_r =? A0 then
    b ← times_x (NN -32 kk) (poly_b m);
    Ok (mk_massey (lambda m) b (poly_t m) (el m))
  else
    l0 ← get (lambda m) 0;
    pt ← put (poly_t m) 0 l0;
    pt ← forM (Z.to_nat (NN -32 kk)) 0 (fun i pt =>
      x ← get (poly_b m) i;
      l ← get (lambda m) (i + 1);
      if negb (x =? A0) then a ← get (Alpha_to t) (modnn (discr_r + x)); put pt (i + 1) (l xor a)
      else put pt (i + 1) l) pt;
    '(b, el) ←
      (if 2 *32 el m <=? r +32 no_eras -32 1 then
         b ← forM (Z.to_nat (NN -32 kk +32 1)) 0 (fun i b =>
           l ← get (lambda m) i;
           if l =? 0 then put b i A0 else x ← get (Index_of t) l; put b i (modnn (x - discr_r + NN))) (poly_b m);
         Ok (b, r +32 no_eras -32 el m)
       else b ← times_x (NN -32 kk) (poly_b m); Ok (b, el m));
    l ← copy 0 (NN -32 kk +32 1) pt (lambda m);
    Ok (mk_massey l b pt el).

(** [while (++r <= NN - kk)], from [r = no_eras]. *)
Definition berlekamp_massey (t : rs) (s : list Z) (kk no_eras : Z) (m : massey) : res massey :=
  let first := no_eras +32 1 in
  forM (Z.to_nat ((NN -32 kk) + 1 - first)) first (massey_step t s kk no_eras) m.

(** Conversion of [lambda] to index form, and its degree. *)
Definition locator_degree (t : rs) (kk : Z) (lambda : list Z) : res (list Z * Z) :=
  forM (Z.to_nat (NN -32 kk +32 1)) 0 (fun i '(lambda, deg) =>
    l ← get lambda i;
    x ← get (Index_of t) l;
    lambda ← put lambda i x;
    Ok (lambda, if negb (x =? A0) then i else deg)) (lambda, 0).

Definition chien_search (t : rs) (deg_lambda : Z) (reg root loc : list Z) : res (list Z * list Z * list Z * Z) :=
  forM (Z.to_nat NN) 1 (fun i '(reg, root, loc, count) =>
    '(reg, q) ← forM (Z.to_nat deg_lambda) 0 (fun v '(reg, q) =>
      let j := deg_lambda - v in
      x ← get reg j;
      if negb (x =? A0) then
        let x := modnn (x + j) in
        reg ← put reg j x;
        a ← get (Alpha_to t) x;
        Ok (reg, q xor a)
      else Ok (reg, q)) (reg, 1);
    if q =? 0 then
      root ← put root count i;
      loc ← put loc count (NN - i);
      Ok (reg, root, loc, count +32 1)
    else Ok (reg, root, loc, count)) (reg, root, loc, 0).

(** The evaluator polynomial in index form, and its degree. *)
Definition evaluator (fuel : nat) (t : rs) (s lambda : list Z) (kk deg_lambda : Z) (omega : list Z) : res (list Z * Z) :=
  '(omega, deg_omega) ← forM (Z.to_nat (NN -32 kk)) 0 (fun i '(omega, deg_omega) =>
    tmp ← while_down fuel 1 (if deg_lambda <? i then deg_lambda else i) (fun j tmp =>
      x ← get s (i +32 1 -32 j);
      if x =? A0 then Ok tmp else
      l ← get lambda j;
      if l =? A0 then Ok tmp else
      a ← get (Alpha_to t) (modnn (x + l));
      Ok (tmp xor a)) 0;
    x ← get (Index_of t) tmp;
    omega ← put omega i x;
    Ok (omega, if negb (tmp =? 0) then i else deg_omega)) (omega, 0);
  omega ← put omega (NN -32 kk) A0;
  Ok (omega, deg_omega).

(** The value of the error at [root[j]], applied to [data]; [None]: the
    denominator is 0. *)
Definition apply_error (fuel : nat) (t : rs) (lambda omega root loc : list Z) (kk deg_lambda deg_omega j : Z) (data : list Z) : res (option (list Z)) :=
  num1 ← while_down fuel 1 deg_omega (fun i num1 =>
    x ← get omega i;
    if negb (x =? A0) then r ← get root j; a ← get (Alpha_to t) (modnn (x + i * r)); Ok (num1 xor a) else Ok num1) 0;
  r ← get root j;
  num2 ← get (Alpha_to t) (modnn (r * (B0 - 1) + NN));
  den ← while_down fuel 2 (Z.land (Z.min deg_lambda (NN -32 kk -32 1)) (2 ^ 32 - 2)) (fun i den =>
    l ← get lambda (i +32 1);
    if negb (l =? A0) then r ← get root j; a ← get (Alpha_to t) (modnn (l + i * r)); Ok (den xor a) else Ok den) 0;
  if den =? 0 then Ok None else
  if negb (num1 =? 0) then
    at_ ← get loc j;
    d ← get data at_;
    x ← get (Index_of t) num1;
    y ← get (Index_of t) num2;
    z ← get (Index_of t) den;
    a ← get (Alpha_to t) (modnn (x + y + NN - z));
    data ← put data at_ (u8 (d xor a));
    Ok (Some data)
  else Ok (Some data).

(** The loop over the errors, [for (j = count - 1; j >= 0; j--)]; it is left by
    [return -1] ([true]) where a denominator is 0. *)
Fixpoint apply_errors (fuel : nat) (t : rs) (lambda omega root loc : list Z) (kk deg_lambda deg_omega j : Z) (data : list Z) : res (list Z * bool) :=
  match fuel with
  | O => OutOfFuel
  | S fuel' =>
      if 0 <=? j then
        o ← apply_error fuel t lambda omega root loc kk deg_lambda deg_omega j data;
        match o with
        | None => Ok (data, true)
        | Some data => apply_errors fuel' t lambda omega root loc kk deg_lambda deg_omega (j -32 1) data
        end
      else Ok (data, false)
  end.

(** [eras_dec_rs] after the conversion: the returned count and the word. [stack n]
    is what an array of [n] words on the stack holds. *)
Definition correct (fuel : nat) (stack : Z -> list Z) (t : rs) (data recd eras_pos : list Z) (kk no_eras : Z) : res (Z * list Z) :=
  let m := NN -32 kk in
  '(s, syn_error) ← syndromes t recd kk (stack (m +32 1));
  if syn_error =? 0 then Ok (0, data) else
  lambda ← clear 1 m (stack (m +32 1));
  lambda ← put lambda 0 1;
  lambda ← (if 0 <? no_eras then erasure_locator t eras_pos no_eras lambda else Ok lambda);
  b ← forM (Z.to_nat (m +32 1)) 0 (fun i b => l ← get lambda i; x ← get (Index_of t) l; put b i x) (stack (m +32 1));
  bm ← berlekamp_massey t s kk no_eras (mk_massey lambda b (stack (m +32 1)) no_eras);
  '(lambda, deg_lambda) ← locator_degree t kk (ReedDecoder.lambda bm);
  reg ← copy 1 m lambda (stack (m +32 1));
  '(_, root, loc, count) ← chien_search t deg_lambda reg (stack m) (stack m);
  if negb (deg_lambda =? count) then Ok (2 ^ 32 - 1, data) else
  '(omega, deg_omega) ← evaluator fuel t s lambda kk deg_lambda (stack (m +32 1));
  '(data, failed) ← apply_errors fuel t lambda omega root loc kk deg_lambda deg_omega (count -32 1) data;
  Ok (if (failed : bool) then 2 ^ 32 - 1 else count, data).

(** For [kk] above 255 the arrays have about 2^32 elements, more than any stack.
    The fuel of a loop that counts down: a word has 255 symbols, and an index
    that has wrapped around is in no array. *)
Definition DOWN : nat := 1024.

Definition eras_dec_rs (kmalloc : Z -> option (list Z)) (stack : Z -> list Z) (t : rs) (data eras_pos : list Z) (kk no_eras : Z) : res (Z * list Z) :=
  if NN <? kk then Fault else
  recd ← convert DOWN t data (default [] (kmalloc NN));
  correct DOWN stack t data recd eras_pos kk no_eras.

(** ** The decoder of a tuple of blocks *)
Record dm_afs_erasures := mk_erasures { codeword_size : Z; num_erasures : Z; erasures : list Z }.

Definition mark (loc : list Z) (i len base : Z) : res (list Z) :=
  forM (Z.to_nat len) 0 (fun j loc => put loc ((i *32 len) +32 j) ((i *32 len) +32 j +32 base)) loc.

Definition error_locations (info : config) (er : dm_afs_erasures) (err_loc : list Z) : res (list Z) :=
  forM (Z.to_nat (codeword_size er)) 0 (fun i err_loc =>
    erased ← (if i <? num_data info then Ok true else x ← get (erasures er) i; Ok (x =? 1));
    if (erased : bool) then mark err_loc i (block_portion info) 0 else Ok err_loc) err_loc.

Definition last_locations (info : config) (er : dm_afs_erasures) (final_eras : Z) (loc : list Z) : res (list Z) :=
  loc ← forM (Z.to_nat (codeword_size er)) 0 (fun i loc =>
    x ← get (erasures er) i;
    if x =? 1 then mark loc i (final_padding info) (if i <? num_data info +32 num_entropy info then 0 else k info) else Ok loc) loc;
  let start := num_erasures er *32 final_padding info in
  forM (Z.to_nat (final_eras - start)) 0 (fun j loc => put loc (start + j) (j +32 k info +32 (num_carrier info *32 final_padding info))) loc.

(** All but the last codeword. [data_count], [entropy_count] and [carrier_count]
    are equal throughout: [off]. The result is the blocks, [off], the last count
    [errs], and whether the loop was left by [return -1]. *)
Fixpoint decode_words (n : nat) (kmalloc : Z -> option (list Z)) (stack : Z -> list Z) (t : rs) (info : config) (err_loc : list Z) (eras : Z) (entropy carrier : list (list Z)) (off errs : Z) (data : list (list Z)) : res (list (list Z) * Z * Z * bool) :=
  match n with
  | O => Ok (data, off, errs, false)
  | S n =>
      s ← gather (num_entropy info) entropy off (block_portion info) (replicate 255 0, block_portion info *32 num_data info);
      '(buffer, _) ← gather (num_carrier info) carrier off (block_portion info) s;
      '(errs, buffer) ← eras_dec_rs kmalloc stack t buffer err_loc (k info) eras;
      if errs =? 2 ^ 32 - 1 then Ok (data, off, errs, true) else
      '(data, _) ← scatter (num_data info) buffer off (block_portion info) (data, 0);
      decode_words n kmalloc stack t info err_loc eras entropy carrier (off +32 block_portion info) errs data
  end.

(** [err_loc] is not read any more when its first [errs] bytes are set to 0: only
    that they are inside it matters. The status of the last codeword is only
    printed. *)
Definition decode (kmalloc : Z -> option (list Z)) (stack : Z -> list Z) (ok : bool) (t : rs) (info : config) (er : dm_afs_erasures) (data entropy carrier : list (list Z)) : res (Z * list (list Z)) :=
  let eras := num_erasures er *32 block_portion info in
  let final_eras := (num_erasures er *32 final_padding info) +32 (255 -32 k info -32 (num_carrier info *32 final_padding info)) in
  let err_loc := default [] (kmalloc eras) in
  let last_err_loc := default [] (kmalloc final_eras) in
  err_loc ← error_locations info er err_loc;
  if negb ok then Fault else
  '(data, off, errs, failed) ← decode_words (Z.to_nat (encode_blocks info -32 1)) kmalloc stack t info err_loc eras entropy carrier 0 0 data;
  if (failed : bool) then Ok (2 ^ 32 - 1, data) else
  if 4 * Z.of_nat (List.length err_loc) <? errs then Fault else
  last_err_loc ← last_locations info er final_eras last_err_loc;
  '(buffer, _) ← gather (num_entropy info) entropy off (final_padding info) (replicate 255 0, num_data info *32 final_padding info);
  '(buffer, _) ← gather (num_carrier info) carrier off (final_padding info) (buffer, k info);
  '(_, buffer) ← eras_dec_rs kmalloc stack t buffer last_err_loc (k info) final_eras;
  '(data, _) ← scatter (num_data info) buffer off (final_padding info) (data, 0);
  Ok (0, data).

(** ** Results that are never "out of fuel" *)
Lemma fault_bind {A B} (m : res A) (f : A -> res B) : m <> OutOfFuel -> (forall a, f a = Fault) -> (m ≫= f) = Fault.
Proof. intros Hm Hf. destruct m; cbn; [apply Hf|done|done]. Qed.

Lemma bind_fuel {A B} (m : res A) (f : A -> res B) : m <> OutOfFuel -> (forall a, f a <> OutOfFuel) -> (m ≫= f) <> OutOfFuel.
Proof. intros Hm Hf. destruct m; cbn; [apply Hf|done|done]. Qed.

Lemma forM_fuel {S} n i (body : Z -> S -> res S) s : (forall i s, body i s <> OutOfFuel) -> forM n i body s <> OutOfFuel.
Proof. intros H. revert i s. induction n as [|n IH]; intros i s; cbn [forM]; [done|]. apply bind_fuel; [apply H|intros; apply IH]. Qed.

Lemma of_option_fuel {A} (o : option A) : of_option o <> OutOfFuel.
Proof. by destruct o. Qed.
Lemma get_fuel {A} (l : list A) i : get l i <> OutOfFuel.
Proof. unfold get. destruct (i <? 0); [done|apply of_option_fuel]. Qed.
Lemma put_fuel {A} (l : list A) i v : put l i v <> OutOfFuel.
Proof. unfold put. by destruct (_ && _). Qed.
Lemma Ok_fuel {A} (a : A) : Ok a <> OutOfFuel.
Proof. done. Qed.

#[local] Hint Resolve of_option_fuel get_fuel put_fuel Ok_fuel : fuel.
#[local] Hint Extern 5 (forM _ _ _ _ <> OutOfFuel) => apply forM_fuel; intros : fuel.
#[local] Hint Extern 6 ((_ ≫= _) <> OutOfFuel) => apply bind_fuel; intros : fuel.

Lemma gather_fuel n rows off len s : gather n rows off len s <> OutOfFuel.
Proof. unfold gather. apply forM_fuel. intros j [buffer count]. eauto 12 with fuel. Qed.

Lemma mark_fuel loc i len base : mark loc i len base <> OutOfFuel.
Proof. unfold mark. eauto with fuel. Qed.

Lemma error_locations_fuel info er loc : error_locations info er loc <> OutOfFuel.
Proof.
  unfold error_locations. apply forM_fuel. intros i l. apply bind_fuel; [destruct (i <? num_data info); eauto with fuel|].
  intros []; [apply mark_fuel|done].
Qed.

Lemma last_locations_fuel info er final loc : last_locations info er final loc <> OutOfFuel.
Proof.
  unfold last_locations. apply bind_fuel; [apply forM_fuel; intros i l; apply bind_fuel; [apply get_fuel|]; intros x; destruct (x =? 1); [apply mark_fuel|done]|].
  intros l. eauto with fuel.
Qed.

(** ** Counting down with an unsigned index *)
Lemma while_down_enters {S} fuel step i (body : Z -> S -> res S) s : 0 <= i ->
  while_down (Datatypes.S fuel) step i body s = s ← body i s; while_down fuel step (i -32 step) body s.
Proof. intros Hi. cbn [while_down]. by destruct (Z.leb_spec 0 i); [|lia]. Qed.

(** The condition never fails, so the loop has no result. *)
Lemma while_down_no_exit {S} fuel step i (body : Z -> S -> res S) s s' : 0 <= i -> while_down fuel step i body s <> Ok s'.
Proof.
  revert i s. induction fuel as [|fuel IH]; intros i s Hi; [done|]. rewrite while_down_enters by done.
  intros (s1 & _ & E)%res_bind_Ok. revert E. apply IH. pose proof (Z.mod_pos_bound (i - step) (2 ^ 32) ltac:(lia)). unfold wrap. lia.
Qed.

(** Going down one by one from [i] it meets index 2^32 - 1, where [body] faults if
    it does not before. *)
Lemma while_down_faults {S} (body : Z -> S -> res S) fuel : forall (i : nat) s, (i + 1 < fuel)%nat -> Z.of_nat i < 2 ^ 32 ->
  (forall i s, body i s <> OutOfFuel) -> (forall s, body (2 ^ 32 - 1) s = Fault) -> while_down fuel 1 (Z.of_nat i) body s = Fault.
Proof.
  induction fuel as [|fuel IH]; intros i s Hf Hi Hb Hlast; [lia|]. rewrite while_down_enters by lia.
  apply fault_bind; [apply Hb|]. intros s1. destruct i as [|i].
  - destruct fuel as [|fuel]; [lia|]. change (Z.of_nat 0 -32 1) with (2 ^ 32 - 1). rewrite while_down_enters by lia. by rewrite Hlast.
  - replace (Z.of_nat (Datatypes.S i) -32 1) with (Z.of_nat i) by (rewrite wrap_id by (unfold in_range; lia); lia). apply IH; (done || lia).
Qed.

Lemma eras_dec_rs_faults kmalloc stack t data eras_pos kk no_eras : List.length data = 255%nat -> eras_dec_rs kmalloc stack t data eras_pos kk no_eras = Fault.
Proof.
  intros Hl. unfold eras_dec_rs. destruct (NN <? kk); [done|].
  assert (E : convert DOWN t data (default [] (kmalloc NN)) = Fault); [|by rewrite E].
  unfold convert, NN. change (255 - 1) with (Z.of_nat 254). apply while_down_faults; [unfold DOWN; lia|lia|eauto with fuel|].
  intros recd. assert (E : get data (2 ^ 32 - 1) = Fault); [|by rewrite E].
  unfold get. cbn [Z.ltb]. rewrite lookup_ge_None_2 by lia. done.
Qed.

Lemma forM_keeps {S} (P : S -> Prop) n i (body : Z -> S -> res S) s s' : (forall i s s', P s -> body i s = Ok s' -> P s') -> P s -> forM n i body s = Ok s' -> P s'.
Proof.
  intros H. revert i s. induction n as [|n IH]; intros i s Hs; cbn [forM]; [by intros [= <-]|].
  intros E. apply res_bind_Ok in E as (s1 & E1 & E). eapply IH, E. by eapply H.
Qed.

Lemma gather_length n rows off len s s' : gather n rows off len s = Ok s' -> List.length (fst s') = List.length (fst s).
Proof.
  intros H. refine (forM_keeps (fun s' => List.length (fst s') = List.length (fst s)) _ _ _ _ _ _ _ H); [|done].
  intros j [b c] [b' c'] Hl E. apply res_bind_Ok in E as (row & _ & E). apply res_bind_Ok in E as (src & _ & E).
  apply res_bind_Ok in E as (b1 & E1%of_option_Ok & [= <- <-]). cbn [fst] in *. by rewrite (splice_length _ _ _ _ E1).
Qed.

(** Whatever is gathered is a word, and whatever follows its decoding is not
    reached. *)
Lemma gathered_faults {A} n rows off len s (f : list Z * Z -> res A) : List.length (fst s) = 255%nat ->
  (forall buffer c, List.length buffer = 255%nat -> f (buffer, c) = Fault) -> (gather n rows off len s ≫= f) = Fault.
Proof.
  intros Hl Hf. destruct (gather n rows off len s) as [[b c]| |] eqn:E; [|done|by apply gather_fuel in E].
  rewrite bind_Ok. apply Hf. apply gather_length in E. cbn [fst] in E. by rewrite E.
Qed.

Lemma decode_words_faults n kmalloc stack t info err_loc eras entropy carrier off errs data :
  decode_words (S n) kmalloc stack t info err_loc eras entropy carrier off errs data = Fault.
Proof.
  cbn [decode_words]. apply gathered_faults; [done|]. intros buffer c Hl. apply gathered_faults; [done|]. intros b c' Hb.
  by rewrite eras_dec_rs_faults.
Qed.

Lemma decode_never_returns kmalloc stack ok t info er data entropy carrier : decode kmalloc stack ok t info er data entropy carrier = Fault.
Proof.
  unfold decode. apply fault_bind; [apply error_locations_fuel|]. intros loc. destruct ok; cbn [negb]; [|done].
  destruct (Z.to_nat (encode_blocks info -32 1)) as [|w]; [|by rewrite decode_words_faults].
  cbn [decode_words]. rewrite bind_Ok. destruct (_ <? 0); [done|].
  apply fault_bind; [apply last_locations_fuel|]. intros last. apply gathered_faults; [done|]. intros buffer c Hl.
  apply gathered_faults; [done|]. intros b c' Hb. by rewrite eras_dec_rs_faults.
Qed.

(** ** Past the conversion *)
Lemma evaluator_no_exit fuel t s lambda kk deg omega r : 0 < NN -32 kk -> 0 <= deg -> evaluator fuel t s lambda kk deg omega <> Ok r.
Proof.
  intros Hm Hd (o & E & _)%res_bind_Ok. destruct (Z.to_nat (NN -32 kk)) as [|m] eqn:Em; [lia|]. cbn [forM] in E.
  apply res_bind_Ok in E as (st & E & _). apply res_bind_Ok in E as (tmp & E & _). revert E. apply while_down_no_exit.
  destruct (deg <? 0); lia.
Qed.

Lemma locator_degree_nonneg t kk l l' deg : locator_degree t kk l = Ok (l', deg) -> 0 <= deg.
Proof.
  unfold locator_degree. set (n := Z.to_nat _). set (body := fun (i : Z) '(lambda, deg) => _).
  assert (H : forall n i s s', 0 <= i -> 0 <= snd s -> forM n i body s = Ok s' -> 0 <= snd s').
  { clear. induction n as [|n IH]; intros i s s' Hi Hs; cbn [forM]; [by intros [= <-]|].
    intros (s1 & E & E')%res_bind_Ok. eapply (IH (i + 1)), E'; [lia|]. destruct s as [l d].
    apply res_bind_Ok in E as (x & _ & E). apply res_bind_Ok in E as (y & _ & E). apply res_bind_Ok in E as (z & _ & [= <-]).
    cbn [snd] in *. by destruct (negb _). }
  intros E. by apply (H n 0 (l, 0) (l', deg) (Z.le_refl 0) (Z.le_refl 0) E).
Qed.

Lemma correct_corrects_nothing fuel stack t data recd eras_pos kk no_eras n data' :
  correct fuel stack t data recd eras_pos kk no_eras = Ok (n, data') -> data' = data /\ (n = 0 \/ n = 2 ^ 32 - 1).
Proof.
  unfold correct. intros ([s syn] & Es & E)%res_bind_Ok. destruct (Z.eqb_spec syn 0) as [->|Hsyn]; [injection E as <- <-; auto|].
  assert (Hm : 0 < NN -32 kk).
  { pose proof (Z.mod_pos_bound (NN - kk) (2 ^ 32) ltac:(lia)) as [Hm _]. apply Z.le_lteq in Hm as [Hm|Hm]; [done|].
    exfalso. apply Hsyn. unfold syndromes in Es. replace (NN -32 kk) with 0 in Es by done. by injection Es. }
  apply res_bind_Ok in E as (l1 & _ & E). apply res_bind_Ok in E as (l2 & _ & E). apply res_bind_Ok in E as (l3 & _ & E).
  apply res_bind_Ok in E as (b & _ & E). apply res_bind_Ok in E as (bm & _ & E). apply res_bind_Ok in E as ([l deg] & Ed & E).
  apply res_bind_Ok in E as (reg & _ & E). apply res_bind_Ok in E as ([[[? root] loc] count] & _ & E).
  destruct (negb _); [injection E as <- <-; auto|]. apply res_bind_Ok in E as (om & E & _). exfalso. revert E.
  apply evaluator_no_exit; [done|]. by eapply locator_degree_nonneg.
Qed.

(** [recd] is [data] in index form. *)
Definition converted (t : rs) (data recd : list Z) : Prop := Forall2 (fun d x => get (Index_of t) d = Ok x) data recd.

Lemma syndrome_of_converted t data recd i : List.length data = 255%nat -> converted t data recd -> syndrome_of t recd i = syndrome t data i.
Proof.
  intros Hl Hc. unfold syndrome_of, syndrome. apply forM_ext. intros j tmp Hj. change (Z.of_nat (Z.to_nat NN)) with 255 in Hj.
  destruct (lookup_lt_is_Some_2 data (Z.to_nat j)) as [d Hd]; [lia|]. destruct (Forall2_lookup_l _ _ _ _ _ Hc Hd) as (x & Hx & E).
  rewrite <- (Z2Nat.id j) by lia. by rewrite (get_nat _ _ _ Hd), (get_nat _ _ _ Hx), bind_Ok, bind_Ok, E, bind_Ok.
Qed.

Lemma correct_accepts fuel stack t data recd eras_pos (m : nat) no_eras : Index_of t = the_index -> (m <= 255)%nat -> codeword t m data -> converted t data recd ->
  List.length (stack (Z.of_nat m + 1)) = S m -> correct fuel stack t data recd eras_pos (255 - Z.of_nat m) no_eras = Ok (0, data).
Proof.
  intros Hx Hm (Hl & _ & Hw) Hc Hs. unfold correct, syndromes, NN. rewrite !wrap_id by (unfold in_range; rewrite ?wrap_id by (unfold in_range; lia); lia).
  replace (255 - (255 - Z.of_nat m)) with (Z.of_nat m) by lia. rewrite Nat2Z.id.
  change (forM m 1) with (@forM (list Z * Z) m (Z.of_nat 1)). forM_induction (fun (_ : nat) (st : list Z * Z) => List.length (fst st) = S m /\ snd st = 0).
  - done.
  - intros i [s syn] Hi [Hls Hsyn]. cbn [fst snd] in *. rewrite (syndrome_of_converted t data) by done. rewrite Hw by lia. rewrite bind_Ok, Hx.
    change (get the_index 0) with (Ok 255). rewrite bind_Ok, put_nat by lia. rewrite bind_Ok. eexists. split; [done|]. cbn [fst snd].
    by rewrite length_insert, Hsyn.
  - destruct Hloop as ([s syn] & E & _ & Hsyn). cbn [snd] in Hsyn. rewrite E, bind_Ok. by rewrite Hsyn.
Qed.

(** C34: no call of the decoder returns: every one runs into an access out of
    bounds, whatever the configuration, the erasures and the blocks, since the
    loop that converts the received word counts an unsigned index down past 0.
    Nor is that loop the only obstacle: from the converted word on, a codeword is
    accepted as it is, and any other word that the function returns at all it
    returns unchanged, with 0 or -1, because the loop of the evaluator
    polynomial does not end either. *)
Theorem decode_faults :
  (forall kmalloc stack ok t info er data entropy carrier, decode kmalloc stack ok t info er data entropy carrier = Fault) /\
  (forall fuel stack t data recd eras_pos kk no_eras n data',
     correct fuel stack t data recd eras_pos kk no_eras = Ok (n, data') -> data' = data /\ (n = 0 \/ n = 2 ^ 32 - 1)) /\
  (forall fuel stack t data recd eras_pos (m : nat) no_eras, Index_of t = the_index -> (m <= 255)%nat -> codeword t m data -> converted t data recd ->
     List.length (stack (Z.of_nat m + 1)) = S m -> correct fuel stack t data recd eras_pos (255 - Z.of_nat m) no_eras = Ok (0, data)).
Proof. split; [exact decode_never_returns|]. split; [exact correct_corrects_nothing|exact correct_accepts]. Qed.

(** The word of zeros, with one parity symbol. *)
Definition zero_word : list Z := replicate 255 0.

Lemma decode_faults_witness : correct DOWN (fun n => replicate (Z.to_nat n) 0) (mk_rs the_alpha the_index []) zero_word (replicate 255 255) [] 254 0 = Ok (0, zero_word).
Proof.
  apply (proj2 (proj2 decode_faults) DOWN (fun n => replicate (Z.to_nat n) 0) (mk_rs the_alpha the_index []) zero_word (replicate 255 255) [] 1%nat 0).
  - reflexivity.
  - apply Nat.leb_le. reflexivity.
  - split; [reflexivity|]. split; [apply Forall_replicate, byte_0|]. intros i Hi. assert (i = 1%nat) as -> by lia. vm_compute. reflexivity.
  - unfold converted, zero_word. generalize 255%nat. intros n. induction n as [|n IH]; constructor; [reflexivity|exact IH].
  - reflexivity.
Defined.
