(* ===== verification/ReedErasures.v ===== *)
(** * ReedErasures: what the older code can restore (src/lib/rs.c)

    The decoder of ReedSolomon never returns; this file shows that the encoder
    nevertheless stores enough. A word with vanishing syndromes that is 0 but in
    as many places as there are parity symbols is 0, so two tuples that
    agree but in as many blocks as there are carriers have the same data. *)
From stdpp Require Import base tactics option list numbers.
From Stdlib Require Import ZArith Lia Field.
From S2P Require Import Prelude Galois GfShare ReedSolomon.

Local Open Scope Z_scope.
Local Open Scope afs_scope.

(** ** Lost blocks are determined by the others *)
Fixpoint psum (n : nat) (f : nat -> G) : G := match n with O => gf0 | S n => add (psum n f) (f n) end.

Lemma psum_gsum n c r : psum n (fun j => gm (c j) (e (r * j))) = gsum n c r.
Proof. induction n as [|n IH]; cbn; [done|]. by rewrite IH. Qed.

Lemma psum_ext n f f' : (forall j, (j < n)%nat -> f j = f' j) -> psum n f = psum n f'.
Proof. intros H. induction n as [|n IH]; cbn; [done|]. f_equal; [apply IH; intros; apply H; lia|]. apply H. lia. Qed.

Lemma psum_add n f f' : psum n (fun j => add (f j) (f' j)) = add (psum n f) (psum n f').
Proof. induction n as [|n IH]; cbn; [ring|]. rewrite IH. ring. Qed.

Lemma psum_scale n f a : psum n (fun j => gm a (f j)) = gm a (psum n f).
Proof. induction n as [|n IH]; cbn; [ring|]. rewrite IH. ring. Qed.

Lemma psum_zero n f : (forall j, (j < n)%nat -> f j = gf0) -> psum n f = gf0.
Proof. intros H. induction n as [|n IH]; cbn; [done|]. rewrite IH, H by (lia || intros; apply H; lia). ring. Qed.

Lemma psum_single n f j0 : (j0 < n)%nat -> (forall j, (j < n)%nat -> j <> j0 -> f j = gf0) -> psum n f = f j0.
Proof.
  intros Hj H. induction n as [|n IH]; [lia|]. cbn. destruct (decide (j0 = n)) as [->|Hne].
  - rewrite psum_zero by (intros; apply H; lia). ring.
  - rewrite IH, (H n) by (lia || intros; apply H; lia). ring.
Qed.

Lemma gm_zero a b : gm a b = gf0 -> a <> gf0 -> b = gf0.
Proof. intros H Ha. transitivity (gm (gm (gi a) a) b); [field; done|]. transitivity (gm (gi a) (gm a b)); [ring|]. rewrite H. ring. Qed.

Lemma e_inj i j : (i < 255)%nat -> (j < 255)%nat -> e i = e j -> i = j.
Proof.
  intros Hi Hj H. rewrite <- (glog_xpow gfshare_poly (glog := glog) i Hi), <- (glog_xpow gfshare_poly (glog := glog) j Hj).
  f_equal. apply toG_inj; [apply xpow1_byte..|exact H].
Qed.

(** The value at position [j] of the polynomial with the roots [ps] and 0. *)
Definition vanishing (ps : list nat) (j : nat) : G := foldr (fun i acc => gm (add (e j) (e i)) acc) (e j) ps.

Lemma vanishing_root ps j : j ∈ ps -> vanishing ps j = gf0.
Proof.
  induction ps as [|i ps IH]; intros H; [by apply elem_of_nil in H|]. cbn. apply elem_of_cons in H as [->|H]; [rewrite add_self; ring|].
  fold (vanishing ps j). rewrite IH by done. ring.
Qed.

Lemma vanishing_nonzero ps j : (j < 255)%nat -> Forall (fun i => (i < 255)%nat) ps -> j ∉ ps -> vanishing ps j <> gf0.
Proof.
  intros Hj. induction 1 as [|i ps Hi _ IH]; intros Hin; [apply e_nonzero|]. cbn. fold (vanishing ps j). apply not_elem_of_cons in Hin as [Hne Hin].
  intros H. apply gm_zero in H; [by apply IH|]. intros E. apply Hne, e_inj; [done|done|by apply add_cancel].
Qed.

Lemma vanishing_sum m c ps : forall s, (forall r, (1 <= r <= m)%nat -> gsum 255 c r = gf0) -> (s + List.length ps < m)%nat ->
  psum 255 (fun j => gm (c j) (gm (e (s * j)) (vanishing ps j))) = gf0.
Proof.
  induction ps as [|i ps IH]; intros s H Hs; cbn [List.length] in Hs.
  - rewrite <- (H (S s)) by lia. rewrite <- psum_gsum. apply psum_ext. intros j _. cbn [vanishing foldr]. rewrite <- e_add. do 2 f_equal. lia.
  - rewrite (psum_ext 255 _ (fun j => add (gm (c j) (gm (e (S s * j)) (vanishing ps j))) (gm (e i) (gm (c j) (gm (e (s * j)) (vanishing ps j)))))).
    + rewrite psum_add, psum_scale, !IH by (done || lia). ring.
    + intros j _. cbn [vanishing foldr]. fold (vanishing ps j). replace (S s * j)%nat with (j + s * j)%nat by lia. rewrite e_add. ring.
Qed.

(** A word whose [m] syndromes vanish and that is 0 but at [m] places is 0. *)
Lemma light_word m c ps : (forall r, (1 <= r <= m)%nat -> gsum 255 c r = gf0) -> (List.length ps <= m)%nat -> Forall (fun i => (i < 255)%nat) ps ->
  (forall j, (j < 255)%nat -> j ∉ ps -> c j = gf0) -> forall j, (j < 255)%nat -> c j = gf0.
Proof.
  intros H Hl Hps Hout j Hj. destruct (decide (j ∈ ps)) as [Hin|Hin]; [|by apply Hout]. set (qs := filter (fun i => i <> j) ps).
  assert (Hq : j ∉ qs) by (intros Hq; by apply list_elem_of_filter in Hq as [? _]).
  assert (Lq : (List.length qs < List.length ps)%nat) by (apply (length_filter_lt _ _ j); [done|tauto]).
  pose proof (vanishing_sum m c qs 0 H ltac:(lia)) as Hs. rewrite (psum_single 255 _ j Hj) in Hs.
  - replace (gm (c j) (gm (e (0 * j)) (vanishing qs j))) with (gm (vanishing qs j) (c j)) in Hs.
    + apply gm_zero in Hs; [done|]. apply vanishing_nonzero; [done| |done].
      apply list.Forall_forall. intros i [_ Hi]%list_elem_of_filter. by apply (proj1 (list.Forall_forall _ _) Hps).
    + rewrite Nat.mul_0_l. replace (e 0) with gf1 by by apply gf_eq. ring.
  - intros i Hi Hne. destruct (decide (i ∈ qs)) as [Hiq|Hiq]; [rewrite vanishing_root by done; ring|]. rewrite (Hout i Hi); [ring|].
    intros Hx. by apply Hiq, list_elem_of_filter.
Qed.

Lemma codewords_determined t m w w' ps : Alpha_to t = the_alpha -> Index_of t = the_index -> codeword t m w -> codeword t m w' ->
  (List.length ps <= m)%nat -> Forall (fun i => (i < 255)%nat) ps -> (forall j, (j < 255)%nat -> j ∉ ps -> w !!! j = w' !!! j) -> w = w'.
Proof.
  intros Ha Hx (Lw & Bw & Sw) (Lw' & Bw' & Sw') Hl Hps Hag. apply list_eq_same_length with 255%nat; [done|done|]. intros j x y Hj Hxj Hyj.
  assert (Hz : forall w, List.length w = 255%nat -> bytes w -> (forall i, (1 <= i <= m)%nat -> syndrome t w (Z.of_nat i) = Ok 0) -> forall r, (1 <= r <= m)%nat -> gsum 255 (co w) r = gf0).
  { intros v Lv Bv Sv r Hr. destruct (syndrome_value t v r Ha Hx ltac:(lia) Lv Bv) as (s & Es & _ & Ev). rewrite Sv in Es by done. injection Es as <-. by rewrite <- Ev, toG_0. }
  rewrite <- (list_lookup_total_correct _ _ _ Hxj), <- (list_lookup_total_correct _ _ _ Hyj).
  apply toG_inj; [apply bytes_total; [done|lia]|apply bytes_total; [done|lia]|]. apply add_cancel.
  apply (light_word m (fun j => add (co w j) (co w' j)) ps); [|done|done| |done].
  - intros r Hr. rewrite <- psum_gsum, (psum_ext 255 _ (fun j => add (gm (co w j) (e (r * j))) (gm (co w' j) (e (r * j))))) by (intros; ring).
    rewrite psum_add, !psum_gsum, (Hz w), (Hz w') by done. ring.
  - intros i Hi Hin. unfold co. rewrite Hag by done. apply add_self.
Qed.

(** ** Lost blocks *)
Definition starts (kk ndata len b : nat) : nat := if decide (b < ndata)%nat then b * len else kk + (b - ndata) * len.
(** The symbols of the lost blocks, and the parity that is not kept. *)
Definition unknown (kk ndata len kept : nat) (lost : list nat) : list nat :=
  concat (map (fun b => seq (starts kk ndata len b) len) lost) ++ seq (kk + kept) (255 - (kk + kept)).

Lemma unknown_length kk ndata len kept lost : List.length (unknown kk ndata len kept lost) = (List.length lost * len + (255 - (kk + kept)))%nat.
Proof.
  unfold unknown. rewrite length_app, length_seq. f_equal. induction lost as [|b lost IH]; [done|]. cbn [map concat List.length]. rewrite length_app, length_seq, IH. lia.
Qed.

Lemma unknown_in kk ndata len kept lost j : j ∈ unknown kk ndata len kept lost <->
  (exists b, b ∈ lost /\ (starts kk ndata len b <= j < starts kk ndata len b + len)%nat) \/ (kk + kept <= j < kk + kept + (255 - (kk + kept)))%nat.
Proof.
  unfold unknown. rewrite elem_of_app, elem_of_seq. enough (H : j ∈ concat (map (fun b => seq (starts kk ndata len b) len) lost) <->
    exists b, b ∈ lost /\ (starts kk ndata len b <= j < starts kk ndata len b + len)%nat) by (rewrite H; done).
  induction lost as [|b lost IH]; cbn [map concat].
  - split; [by intros ?%elem_of_nil|]. by intros (b & ?%elem_of_nil & _).
  - rewrite elem_of_app, elem_of_seq, IH. split.
    + intros [H|(b' & Hb & H)]; [exists b|exists b']; (split; [|done]); [by left|by right].
    + intros (b' & [->|Hb]%elem_of_cons & H); [by left|right; by exists b'].
Qed.

Lemma pieces_lookup off len n L rows b row o : rows_ok n L rows -> (off + len <= L)%nat -> rows !! b = Some row -> (o < len)%nat ->
  concat (map (piece off len) rows) !! (b * len + o)%nat = piece off len row !! o.
Proof.
  intros [<- Hf] Hl. revert b. induction Hf as [|r rows [Hr _] _ IH]; intros b Hb Ho; [done|]. cbn [map concat]. destruct b as [|b]; cbn [lookup list_lookup] in Hb.
  - injection Hb as ->. rewrite lookup_app_l; [done|]. rewrite piece_len; lia.
  - rewrite lookup_app_r by (rewrite piece_len; lia). rewrite piece_len by lia. replace (S b * len + o - len)%nat with (b * len + o)%nat by lia. by apply IH.
Qed.

Lemma pieces_inj off len n L rows rows' : rows_ok n L rows -> rows_ok n L rows' -> (off + len <= L)%nat ->
  concat (map (piece off len) rows) = concat (map (piece off len) rows') -> map (piece off len) rows = map (piece off len) rows'.
Proof.
  intros [<- Hf] [Hn Hf'] Hl. revert rows' Hn Hf'. induction Hf as [|r rows [Hr _] _ IH]; intros rows' Hn Hf' E; destruct rows' as [|r' rows']; try done.
  apply list.Forall_cons in Hf' as [[Hr' _] Hf']. cbn [map concat] in *. apply app_inj_1 in E as [E1 E2]; [|rewrite !piece_len; lia]. rewrite E1. f_equal. apply IH; [by injection Hn|done|done].
Qed.

Section Lost.
Context (t : rs) (m kk off len nd nc L : nat) (lost : list nat).
Context (Halpha : Alpha_to t = the_alpha) (Hindex : Index_of t = the_index) (Hkm : (kk + m = 255)%nat).
Context (Hdata : (nd * len <= kk)%nat) (Hcar : (kk + nc * len <= 255)%nat) (Hl : (off + len <= L)%nat).
Context (Hlost : (List.length lost <= nc)%nat) (Hin : Forall (fun b => (b < nd + nc)%nat) lost).

(** The two words agree wherever the symbol is known. *)
Lemma known_symbols rows rows' car car' pad pad' j : rows_ok nd L rows -> rows_ok nd L rows' -> rows_ok nc L car -> rows_ok nc L car' ->
  (forall b, (b < nd + nc)%nat -> b ∉ lost -> (rows ++ car) !! b = (rows' ++ car') !! b) -> (j < 255)%nat -> j ∉ unknown kk nd len (nc * len) lost ->
  ((concat (map (piece off len) rows) ++ replicate (kk - nd * len) 0) ++ concat (map (piece off len) car) ++ pad) !! j =
  ((concat (map (piece off len) rows') ++ replicate (kk - nd * len) 0) ++ concat (map (piece off len) car') ++ pad') !! j.
Proof.
  intros R R' C C' Hag Hj Hu. rewrite unknown_in in Hu.
  pose proof (pieces_length off len nd L rows R Hl) as LR. pose proof (pieces_length off len nd L rows' R' Hl) as LR'.
  pose proof (pieces_length off len nc L car C Hl) as LC. pose proof (pieces_length off len nc L car' C' Hl) as LC'.
  destruct (decide (j < kk)%nat) as [Hk|Hk].
  - rewrite !(lookup_app_l (_ ++ replicate _ _)) by (rewrite length_app, length_replicate; lia). destruct (decide (j < nd * len)%nat) as [Hd|Hd].
    + rewrite !lookup_app_l by lia. assert (Hlen : (0 < len)%nat) by nia. pose proof (Nat.div_mod_eq j len) as E. pose proof (Nat.mod_upper_bound j len ltac:(lia)) as Ho.
      set (b := (j / len)%nat) in *. set (o := (j mod len)%nat) in *. assert (Hb : (b < nd)%nat) by nia.
      destruct (rows_lookup nd L rows b R Hb) as (row & Er & _). destruct (rows_lookup nd L rows' b R' Hb) as (row' & Er' & _).
      replace j with (b * len + o)%nat by lia. rewrite (pieces_lookup off len nd L rows b row o R Hl Er Ho), (pieces_lookup off len nd L rows' b row' o R' Hl Er' Ho).
      specialize (Hag b ltac:(lia)). rewrite !lookup_app_l, Er, Er' in Hag by (destruct R, R'; lia). injection Hag as ->; [done|].
      intros Hbl. apply Hu. left. exists b. split; [done|]. unfold starts. rewrite decide_True by done. lia.
    + by rewrite !lookup_app_r, LR, LR' by lia.
  - assert (Lz : forall l : list Z, List.length l = (nd * len)%nat -> List.length (l ++ replicate (kk - nd * len) 0) = kk) by (intros l Hll; rewrite length_app, length_replicate; lia).
    rewrite !(lookup_app_r (_ ++ replicate _ _)) by (rewrite Lz by done; lia). rewrite !Lz by done.
    destruct (decide (j < kk + nc * len)%nat) as [Hc|Hc]; [|exfalso; apply Hu; right; lia]. rewrite !lookup_app_l by lia.
    assert (Hlen : (0 < len)%nat) by nia. pose proof (Nat.div_mod_eq (j - kk) len) as E. pose proof (Nat.mod_upper_bound (j - kk) len ltac:(lia)) as Ho.
    set (b := ((j - kk) / len)%nat) in *. set (o := ((j - kk) mod len)%nat) in *. assert (Hb : (b < nc)%nat) by nia.
    destruct (rows_lookup nc L car b C Hb) as (row & Er & _). destruct (rows_lookup nc L car' b C' Hb) as (row' & Er' & _).
    replace (j - kk)%nat with (b * len + o)%nat by lia. rewrite (pieces_lookup off len nc L car b row o C Hl Er Ho), (pieces_lookup off len nc L car' b row' o C' Hl Er' Ho).
    specialize (Hag (nd + b)%nat ltac:(lia)). rewrite !lookup_app_r in Hag by (destruct R, R'; lia). destruct R as [Rn _], R' as [Rn' _].
    rewrite Rn, Rn' in Hag. replace (nd + b - nd)%nat with b in Hag by lia. rewrite Er, Er' in Hag. injection Hag as ->; [done|].
    intros Hbl. apply Hu. left. exists (nd + b)%nat. split; [done|]. unfold starts. rewrite decide_False by lia. replace (nd + b - nd)%nat with b by lia. lia.
Qed.

Lemma pieces_determined data entropy data' entropy' car car' pad pad' : rows_ok nd L (data ++ entropy) -> rows_ok nd L (data' ++ entropy') -> rows_ok nc L car -> rows_ok nc L car' ->
  codeword t m (tuple_word kk off len data entropy car pad) -> codeword t m (tuple_word kk off len data' entropy' car' pad') ->
  (forall b, (b < nd + nc)%nat -> b ∉ lost -> ((data ++ entropy) ++ car) !! b = ((data' ++ entropy') ++ car') !! b) ->
  map (piece off len) (data ++ entropy) = map (piece off len) (data' ++ entropy').
Proof.
  intros R R' C C' W W' Hag. unfold tuple_word in *. rewrite (proj1 R) in W. rewrite (proj1 R') in W'.
  pose proof (codewords_determined t m _ _ (unknown kk nd len (nc * len) lost) Halpha Hindex W W') as E.
  apply (pieces_inj off len nd L); [done|done|done|].
  assert (E' : (concat (map (piece off len) (data ++ entropy)) ++ replicate (kk - nd * len) 0) ++ concat (map (piece off len) car) ++ pad =
    (concat (map (piece off len) (data' ++ entropy')) ++ replicate (kk - nd * len) 0) ++ concat (map (piece off len) car') ++ pad').
  { apply E.
    - rewrite unknown_length. nia.
    - apply list.Forall_forall. intros j Hj. apply unknown_in in Hj as [(b & Hb & Hj)|Hj]; [|lia]. apply (proj1 (list.Forall_forall _ _) Hin) in Hb.
      unfold starts in Hj. destruct (decide (b < nd)%nat); nia.
    - intros j Hj Hu. by rewrite !list_lookup_total_alt, (known_symbols _ _ _ _ pad pad' j R R' C C' Hag Hj Hu). }
  pose proof (pieces_length off len nd L _ R Hl) as LR. pose proof (pieces_length off len nd L _ R' Hl) as LR'.
  apply app_inj_1 in E' as [E' _]; [|rewrite !length_app, LR, LR'; done]. by apply app_inj_2 in E' as [E' _].
Qed.
End Lost.

(** A block is its pieces, as far as they go. *)
Lemma pieces_prefix p n rest (row row' : list Z) : (forall i, (i < n)%nat -> piece (i * p) p row = piece (i * p) p row') -> piece (n * p) rest row = piece (n * p) rest row' ->
  take (n * p + rest) row = take (n * p + rest) row'.
Proof.
  intros H Hr. rewrite <- !take_take_drop. unfold piece in *. f_equal; [|done]. clear Hr. induction n as [|n IH]; [done|].
  replace (S n * p)%nat with (n * p + p)%nat by lia. rewrite <- !take_take_drop. f_equal; [apply IH; intros; apply H; lia|]. apply H. lia.
Qed.

Lemma map_pointwise {A B} (f : A -> B) l l' : List.length l = List.length l' -> (forall b x x', l !! b = Some x -> l' !! b = Some x' -> f x = f x') -> map f l = map f l'.
Proof.
  revert l'. induction l as [|x l IH]; intros [|x' l'] Hl H; try done. cbn [map]. rewrite (H 0%nat x x') by done. f_equal. apply IH; [by injection Hl|].
  intros b. apply (H (S b)).
Qed.

Lemma map_at {A B} (f : A -> B) l l' b x x' : map f l = map f l' -> l !! b = Some x -> l' !! b = Some x' -> f x = f x'.
Proof.
  intros E H H'. assert (Hx : map f l !! b = Some (f x)) by by apply list_lookup_fmap_Some_2. rewrite E in Hx.
  assert (Hx' : map f l' !! b = Some (f x')) by by apply list_lookup_fmap_Some_2. rewrite Hx' in Hx. by injection Hx.
Qed.

Lemma covered_eq (bs p : nat) : (1 <= p <= bs)%nat ->
  ((bs / p + (if decide (bs mod p = 0) then 0 else 1) - 1) * p + bs mod p = if decide (bs mod p = 0) then bs - p else bs)%nat.
Proof.
  intros Hp. pose proof (Nat.div_mod_eq bs p) as E. pose proof (Nat.mod_upper_bound bs p ltac:(lia)). set (q := (bs / p)%nat) in *. set (f := (bs mod p)%nat) in *.
  clearbody q f. destruct (decide (f = 0)%nat) as [->|Hf]; [|nia]. destruct q as [|q]; nia.
Qed.

Lemma rows_app n m L l l' : rows_ok n L l -> rows_ok m L l' -> rows_ok (n + m) L (l ++ l').
Proof. intros [Hn H] [Hm H']. split; [rewrite length_app; lia|by apply Forall_app_2]. Qed.

(** Blocks whose [n] pieces agree, the last of [f] bytes, agree as far as these go. *)
Lemma tuple_prefix p n f rows rows' : List.length rows = List.length rows' ->
  (forall i, (i <= n - 1)%nat -> let len := (if decide (i = n - 1)%nat then f else p)%nat in map (piece (i * p) len) rows = map (piece (i * p) len) rows') ->
  map (take ((n - 1) * p + f)) rows = map (take ((n - 1) * p + f)) rows'.
Proof.
  intros Hl H. apply map_pointwise; [done|]. intros b row row' Hr Hr'. apply pieces_prefix.
  - intros i Hi. specialize (H i ltac:(lia)). cbn zeta in H. rewrite decide_False in H by lia. by apply (map_at _ _ _ b _ _ H).
  - specialize (H (n - 1)%nat ltac:(lia)). cbn zeta in H. rewrite decide_True in H by done. by apply (map_at _ _ _ b _ _ H).
Qed.

(** C29: the carriers that [encode] makes determine the blocks: if two tuples, encoded with the
    same configuration, agree in all blocks (data, entropy and carriers) but at
    most as many as there are carriers, then their data and entropy blocks agree too,
    as far as the groups of symbols reach; so a decoder has all it needs to
    restore that many lost blocks. *)
Theorem lost_blocks_determined kmalloc (nd ne nc : nat) t info t' data entropy carrier c data' entropy' carrier' c' lost :
  tables_ready t -> allocates kmalloc -> (1 <= nc)%nat -> (nd + ne + nc <= 255)%nat ->
  rows_ok nd BLOCK data -> rows_ok ne BLOCK entropy -> rows_ok nc BLOCK carrier ->
  rows_ok nd BLOCK data' -> rows_ok ne BLOCK entropy' -> rows_ok nc BLOCK carrier' ->
  initialize kmalloc (Z.of_nat nd) (Z.of_nat ne) (Z.of_nat nc) t = Ok (info, t') ->
  encode true t' info data entropy carrier = Ok c -> encode true t' info data' entropy' carrier' = Ok c' ->
  (List.length lost <= nc)%nat ->
  (forall b, (b < nd + ne + nc)%nat -> b ∉ lost -> ((data ++ entropy) ++ c) !! b = ((data' ++ entropy') ++ c') !! b) ->
  let p := (255 / (nd + ne + nc))%nat in
  let covered := (if decide (BLOCK mod p = 0)%nat then BLOCK - p else BLOCK)%nat in
  map (take covered) (data ++ entropy) = map (take covered) (data' ++ entropy').
Proof.
  intros Ht Hmem Hnc Hn Hd He Hc Hd' He' Hc' Hinit Henc Henc' Hlost Hag p covered.
  destruct (initialize_spec kmalloc nd ne nc t Ht Hmem Hnc Hn) as (Hp & Hnp & _). fold p in Hp, Hnp.
  destruct (encode_total kmalloc nd ne nc t info t' data entropy carrier Ht Hmem Hnc Hn Hd He Hc Hinit) as (Ha & Hx & c1 & E1 & Rc & Wc & _).
  destruct (encode_total kmalloc nd ne nc t info t' data' entropy' carrier' Ht Hmem Hnc Hn Hd' He' Hc' Hinit) as (_ & _ & c2 & E2 & Rc' & Wc' & _).
  rewrite Henc in E1. injection E1 as <-. rewrite Henc' in E2. injection E2 as <-. fold p in Wc, Wc'.
  assert (R : rows_ok (nd + ne) BLOCK (data ++ entropy)) by by apply rows_app. assert (R' : rows_ok (nd + ne) BLOCK (data' ++ entropy')) by by apply rows_app.
  pose proof BLOCK_eq as HB. assert (Hple : (p <= BLOCK)%nat) by nia. pose proof (covered_eq BLOCK p ltac:(lia)) as Hcov. fold covered in Hcov.
  assert (Hcl : (covered <= BLOCK)%nat) by (unfold covered; destruct (decide _); lia). rewrite <- Hcov. rewrite <- Hcov in Hcl.
  pose proof (Nat.mod_upper_bound BLOCK p ltac:(lia)) as Hmod. pose proof (Nat.div_str_pos BLOCK p ltac:(lia)) as Hq. set (f := (BLOCK mod p)%nat) in *.
  set (blocks := (BLOCK / p + if decide (f = 0)%nat then 0 else 1)%nat) in *. assert (Hb1 : (1 <= blocks)%nat) by (unfold blocks; lia). clearbody blocks f covered.
  apply tuple_prefix; [destruct R, R'; lia|]. intros i Hi len. destruct (Wc i ltac:(lia)) as [pad W], (Wc' i ltac:(lia)) as [pad' W']. fold len in W, W'.
  assert (Hlen : (len <= p)%nat) by (unfold len; destruct (decide _); lia). set (kk := ((nd + ne) * p)%nat) in *. assert (Hkk : (kk + nc * p <= 255)%nat) by (unfold kk; nia).
  apply (pieces_determined t' (255 - kk) kk (i * p) len (nd + ne) nc BLOCK (filter (fun b => (b < nd + ne + nc)%nat) lost))
    with (car := c) (car' := c') (pad := pad) (pad' := pad'); try done.
  - lia.
  - unfold kk. nia.
  - nia.
  - unfold len. destruct (decide (i = blocks - 1)%nat) as [->|]; [lia|nia].
  - pose proof (length_filter (fun b => (b < nd + ne + nc)%nat) lost). lia.
  - apply list.Forall_forall. by intros b [? _]%list_elem_of_filter.
  - intros b Hb Hbl. apply Hag; [done|]. intros Hx'. by apply Hbl, list_elem_of_filter.
Qed.

Lemma sample_encoded : exists info t c, initialize sample_words (Z.of_nat 1) (Z.of_nat 0) (Z.of_nat 1) rs0 = Ok (info, t) /\
  encode true t info [replicate BLOCK 0] [] [replicate BLOCK 0] = Ok c.
Proof.
  assert (Ht : tables_ready rs0) by (left; done). assert (Hmem : allocates sample_words) by (intros n Hn; eexists; split; [reflexivity|apply length_replicate]).
  destruct (initialize_spec sample_words 1 0 1 rs0 Ht Hmem) as (_ & _ & info & g & gg & E & _); [lia|lia|].
  destruct (encode_total sample_words 1 0 1 rs0 info (mk_rs the_alpha the_index gg) [replicate BLOCK 0] [] [replicate BLOCK 0] Ht Hmem) as (_ & _ & c & Ec & _);
    [lia|lia|exact sample_block|split; [done|constructor]|exact sample_block|exact E|]. exists info, (mk_rs the_alpha the_index gg), c. split; [exact E|exact Ec].
Qed.

(** The only block of data is lost; the carrier is at hand. *)
Lemma lost_blocks_determined_witness : exists info t c, encode true t info [replicate BLOCK 0] [] [replicate BLOCK 0] = Ok c /\
  let p := (255 / (1 + 0 + 1))%nat in let covered := (if decide (BLOCK mod p = 0)%nat then BLOCK - p else BLOCK)%nat in
  map (take covered) ([replicate BLOCK 0] ++ []) = map (take covered) ([replicate BLOCK 0] ++ []).
Proof.
  destruct sample_encoded as (info & t & c & E & Ec). exists info, t, c. split; [exact Ec|].
  apply (lost_blocks_determined sample_words 1 0 1 rs0 info t [replicate BLOCK 0] [] [replicate BLOCK 0] c [replicate BLOCK 0] [] [replicate BLOCK 0] c [0%nat]).
  - left. split; reflexivity.
  - intros n Hn. exists (replicate (Z.to_nat n) 0). split; [reflexivity|apply length_replicate].
  - apply le_n.
  - apply Nat.leb_le. reflexivity.
  - exact sample_block.
  - split; [reflexivity|constructor].
  - exact sample_block.
  - exact sample_block.
  - split; [reflexivity|constructor].
  - exact sample_block.
  - exact E.
  - exact Ec.
  - exact Ec.
  - apply le_n.
  - intros b _ _. reflexivity.
Defined.
