(* ===== verification/Speck.v ===== *)
(** * Speck: the SPECK128/256 block cipher (src/lib/speck.c)

    Rounds, key schedule, encryption, decryption and counter mode on 64-bit
    words, and a reference definition of the published cipher. Theorems:
    counter mode is that of the published cipher, whose test vector the
    reference and the code reproduce; every block has its own counter value; a
    round and its inverse cancel; [speck_decrypt] does not invert
    [speck_encrypt], because it takes the round keys in the order of
    encryption. *)
From stdpp Require Import base tactics option list numbers.
From Stdlib Require Import ZArith Lia.
From S2P Require Import Prelude.

Local Open Scope Z_scope.
Local Open Scope afs_scope.

Definition MAX64 : Z := 2 ^ 64 - 1.
Definition ROUNDS : nat := 34.

(** Circular shift to the left by a positive [rotation], to the right by a
    negative one. No caller passes 0, where C leaves the shift by 64
    undefined. *)
Definition rotate (x rotation : Z) : Z :=
  if rotation >? 0 then Z.lor (Z.shiftr x (64 - rotation)) (u64 (Z.shiftl x rotation))
  else let r := - rotation in Z.lor (u64 (Z.shiftl x (64 - r))) (Z.shiftr x r).

(** Increment of a little-endian number of 64-bit words. *)
Fixpoint add1 (x : list Z) : list Z :=
  match x with
  | [] => []
  | w :: x' => if w =? MAX64 then 0 :: add1 x' else (w +64 1) :: x'
  end.

Definition key_schedule (key : list Z) : list Z :=
  let l := [tab key 1; tab key 2; tab key 3] in
  let ks := [tab key 0] in
  snd (for_ (ROUNDS - 1) 0 (fun i '(l, ks) =>
    let li := (tab ks i +64 rotate (tab l (i mod 3)) (-8)) xor i in
    (<[Z.to_nat (i mod 3) := li]> l, ks ++ [rotate (tab ks i) 3 xor li])) (l, ks)).

(** A block is [(in[0], in[1])]. *)
Definition enc_round (b : Z * Z) (key : Z) : Z * Z :=
  let left := snd b in
  let right := fst b in
  (rotate right 3 xor (rotate left (-8) +64 right) xor key,
   (rotate left (-8) +64 right) xor key).

Definition dec_round (b : Z * Z) (key : Z) : Z * Z :=
  let left := snd b in
  let right := fst b in
  (rotate (left xor right) (-3),
   rotate ((left xor key) -64 rotate (left xor right) (-3)) 8).

(** [alloc]: whether [keys] could be allocated; without it [out] is not
    written. *)
Definition speck_encrypt (alloc : bool) (inp out : Z * Z) (key : list Z) : Z * Z :=
  if negb alloc then out else fold_left enc_round (key_schedule key) inp.

Definition speck_decrypt (alloc : bool) (inp out : Z * Z) (key : list Z) : Z * Z :=
  if negb alloc then out else fold_left dec_round (key_schedule key) inp.

(** Counter mode on buffers of words. [pad0] is what the allocated pad holds,
    [alloc_keys i] whether the [i]-th round-key buffer could be allocated. *)
Definition speck_ctr (alloc_pad : bool) (alloc_keys : Z -> bool) (pad0 : Z * Z)
    (inp out : list Z) (pt_length : Z) (key nonce : list Z) : res (list Z) :=
  if negb alloc_pad then Ok out else
  '(out, _, _) ← forM (Z.to_nat ((pt_length / 8 + 1) / 2)) 0 (fun t '(out, local_nonce, pad) =>
      let i := 2 * t in
      let pad := speck_encrypt (alloc_keys t) (tab local_nonce 0, tab local_nonce 1) pad key in
      in_i ← get inp i;
      out ← put out i (in_i xor fst pad);
      in_i1 ← get inp (i + 1);
      out ← put out (i + 1) (in_i1 xor snd pad);
      Ok (out, add1 local_nonce, pad)) (out, [tab nonce 0; tab nonce 1], pad0);
  Ok out.

(** ** The cipher as published

    SPECK128/256 (Beaulieu et al., 2013) on words modulo 2^64, the left word
    first, with the key words [k0, l0, l1, l2] in this order; counter mode over
    a 128-bit counter. *)
Module Reference.

Definition W : Z := 2 ^ 64.
Definition ror8 (x : Z) : Z := x / 2 ^ 8 + (x mod 2 ^ 8) * 2 ^ 56.
Definition rol3 (x : Z) : Z := (x mod 2 ^ 61) * 2 ^ 3 + x / 2 ^ 61.

Definition round (k : Z) (b : Z * Z) : Z * Z :=
  let '(x, y) := b in
  let x := ((ror8 x + y) mod W) xor k in
  (x, rol3 y xor x).

(** The round key of round [i] and the three words the next ones come from: the
    schedule is the round function itself, with the number of the round as key. *)
Fixpoint key_state (k0 l0 l1 l2 : Z) (i : nat) : Z * Z * Z * Z :=
  match i with
  | O => (k0, l0, l1, l2)
  | S i =>
      let '(k, a, b, c) := key_state k0 l0 l1 l2 i in
      let '(l, k) := round (Z.of_nat i) (a, k) in
      (k, b, c, l)
  end.

Definition round_key (k0 l0 l1 l2 : Z) (i : nat) : Z := let '(k, _, _, _) := key_state k0 l0 l1 l2 i in k.

Fixpoint rounds (k0 l0 l1 l2 : Z) (n : nat) (b : Z * Z) : Z * Z :=
  match n with
  | O => b
  | S n => round (round_key k0 l0 l1 l2 n) (rounds k0 l0 l1 l2 n b)
  end.

Definition encrypt (k0 l0 l1 l2 : Z) (b : Z * Z) : Z * Z := rounds k0 l0 l1 l2 34 b.

(** Block [t] of the key stream, low word first: the encryption of the counter,
    whose low word is the right word of the cipher. *)
Definition stream_block (k0 l0 l1 l2 start : Z) (t : nat) : list Z :=
  let n := (start + Z.of_nat t) mod 2 ^ 128 in
  let '(x, y) := encrypt k0 l0 l1 l2 (n / W, n mod W) in [y; x].

Definition stream (k0 l0 l1 l2 start : Z) (blocks : nat) : list Z :=
  concat (map (stream_block k0 l0 l1 l2 start) (seq 0 blocks)).

End Reference.

(** ** Rotation *)
Lemma rotate_testbit x r i : in_range 64 x -> 0 < r < 64 -> 0 <= i ->
  Z.testbit (rotate x r) i = (i <? 64) && Z.testbit x ((i - r) mod 64).
Proof.
  intros Hx Hr Hi. unfold rotate. rewrite Z.gtb_ltb. destruct (Z.ltb_spec 0 r); [|lia].
  rewrite Z.lor_spec, Z.shiftr_spec, wrap_testbit by lia.
  pose proof (proj1 (in_range_bits 64 x ltac:(lia)) Hx) as Hb.
  destruct (Z.ltb_spec i 64); cbn [andb].
  - rewrite Z.shiftl_spec by lia. destruct (Z.ltb_spec i r).
    + rewrite (Z.testbit_neg_r x (i - r)), orb_false_r by lia. f_equal.
      apply (Z.mod_unique _ _ (-1)); lia.
    + rewrite (Hb (i + (64 - r))) by lia. cbn [orb]. f_equal. symmetry. apply Z.mod_small. lia.
  - rewrite Hb by lia. done.
Qed.

Lemma rotate_neg_testbit x r i : in_range 64 x -> 0 < r < 64 -> 0 <= i ->
  Z.testbit (rotate x (- r)) i = (i <? 64) && Z.testbit x ((i + r) mod 64).
Proof.
  intros Hx Hr Hi. unfold rotate. rewrite Z.gtb_ltb. destruct (Z.ltb_spec 0 (- r)); [lia|]. rewrite Z.opp_involutive.
  rewrite Z.lor_spec, Z.shiftr_spec, wrap_testbit by lia.
  pose proof (proj1 (in_range_bits 64 x ltac:(lia)) Hx) as Hb.
  destruct (Z.ltb_spec i 64); cbn [andb].
  - rewrite Z.shiftl_spec by lia. destruct (Z.ltb_spec (i + r) 64).
    + rewrite (Z.testbit_neg_r x (i - (64 - r))) by lia. cbn [orb]. f_equal. symmetry. apply Z.mod_small. lia.
    + rewrite (Hb (i + r)), orb_false_r by lia. f_equal. apply (Z.mod_unique _ _ 1); lia.
  - cbn [orb]. apply Hb. lia.
Qed.

Lemma rotate_range x r : in_range 64 x -> (0 < r < 64 \/ 0 < - r < 64) -> in_range 64 (rotate x r).
Proof.
  intros Hx Hr. apply in_range_bits; [lia|]. intros i Hi. destruct Hr.
  - rewrite rotate_testbit by (done || lia). by destruct (Z.ltb_spec i 64); [lia|].
  - rewrite <- (Z.opp_involutive r), rotate_neg_testbit by (done || lia). by destruct (Z.ltb_spec i 64); [lia|].
Qed.

Lemma rotate_back x r : in_range 64 x -> 0 < r < 64 -> rotate (rotate x r) (- r) = x /\ rotate (rotate x (- r)) r = x.
Proof.
  intros Hx Hr. pose proof (proj1 (in_range_bits 64 x ltac:(lia)) Hx) as Hb.
  assert (H1 : in_range 64 (rotate x r)) by (apply rotate_range; [done|lia]).
  assert (H2 : in_range 64 (rotate x (- r))) by (apply rotate_range; [done|lia]).
  assert (Hm : forall z, 0 <= z mod 64 < 64) by (intros; apply Z.mod_pos_bound; lia).
  split; apply Z.bits_inj'; intros i Hi.
  - rewrite rotate_neg_testbit, rotate_testbit by (done || lia || apply Hm).
    destruct (Z.ltb_spec i 64); cbn [andb]; [|by rewrite Hb by lia]. pose proof (Hm (i + r)).
    destruct (Z.ltb_spec ((i + r) mod 64) 64); [|lia]. cbn [andb]. f_equal. zlia.
  - rewrite rotate_testbit, rotate_neg_testbit by (done || lia || apply Hm).
    destruct (Z.ltb_spec i 64); cbn [andb]; [|by rewrite Hb by lia]. pose proof (Hm (i - r)).
    destruct (Z.ltb_spec ((i - r) mod 64) 64); [|lia]. cbn [andb]. f_equal. zlia.
Qed.

(** ** Rounds *)
Definition block_ok (b : Z * Z) : Prop := in_range 64 (fst b) /\ in_range 64 (snd b).

Lemma enc_round_ok b k : block_ok b -> in_range 64 k -> block_ok (enc_round b k).
Proof.
  intros [H1 H2] Hk. unfold block_ok, enc_round. cbn [fst snd].
  assert (in_range 64 (rotate (fst b) 3)) by (apply rotate_range; [done|lia]).
  pose proof (wrap_range 64 (rotate (snd b) (-8) + fst b) ltac:(lia)). split; eauto 8 with afs.
Qed.

(** The inverse round. *)
Lemma dec_enc_round b k : block_ok b -> in_range 64 k -> dec_round (enc_round b k) k = b.
Proof.
  destruct b as [r l]. intros [Hr Hl] Hk. cbn [fst snd] in *. unfold dec_round, enc_round. cbn [fst snd].
  set (s := rotate l (-8) +64 r).
  assert (E1 : Z.lxor (Z.lxor s k) (Z.lxor (Z.lxor (rotate r 3) s) k) = rotate r 3).
  { apply Z.bits_inj'. intros i _. rewrite !Z.lxor_spec.
    by destruct (Z.testbit s i), (Z.testbit k i), (Z.testbit (rotate r 3) i). }
  assert (E2 : Z.lxor (Z.lxor s k) k = s) by (by rewrite Z.lxor_assoc, Z.lxor_nilpotent, Z.lxor_0_r).
  pose proof (proj1 (rotate_back r 3 Hr ltac:(lia)) : rotate (rotate r 3) (-3) = r) as E3.
  pose proof (proj2 (rotate_back l 8 Hl ltac:(lia)) : rotate (rotate l (-8)) 8 = l) as E4.
  rewrite E1, E2, E3. f_equal.
  unfold s. rewrite wrap_sub_l. replace (rotate l (-8) + r - r) with (rotate l (-8)) by lia.
  rewrite wrap_id by (apply rotate_range; [done|lia]). exact E4.
Qed.

Lemma fold_dec_enc keys b : block_ok b -> Forall (in_range 64) keys ->
  fold_left dec_round (rev keys) (fold_left enc_round keys b) = b /\ block_ok (fold_left enc_round keys b).
Proof.
  intros Hb Hk. revert b Hb. induction Hk as [|k keys Hk _ IH]; intros b Hb; [done|]. cbn [fold_left rev].
  destruct (IH (enc_round b k) (enc_round_ok b k Hb Hk)) as [E Hok]. split; [|done].
  rewrite fold_left_app, E. cbn [fold_left]. by apply dec_enc_round.
Qed.

(** ** Key schedule *)
Lemma tab_range l i : Forall (in_range 64) l -> in_range 64 (tab l i).
Proof.
  intros H. unfold tab. destruct (l !! Z.to_nat i) as [x|] eqn:E; [|done]. by apply (Forall_lookup_1 _ _ _ _ H E).
Qed.

Lemma key_schedule_ok key : Forall (in_range 64) key ->
  length (key_schedule key) = ROUNDS /\ Forall (in_range 64) (key_schedule key).
Proof.
  intros Hk. unfold key_schedule.
  set (body := fun i (s : list Z * list Z) => let '(l, ks) := s in _).
  pose proof (for_invariant (fun i s => Z.of_nat (length (snd s)) = i + 1 /\ Forall (in_range 64) (fst s) /\ Forall (in_range 64) (snd s))
    (ROUNDS - 1) 0 body ([tab key 1; tab key 2; tab key 3], [tab key 0])) as H.
  destruct H as (H1 & _ & H3).
  - split_and!; [done|repeat constructor; by apply tab_range|repeat constructor; by apply tab_range].
  - intros i [l ks] Hi (H1 & H2 & H3). cbn [fst snd] in *. unfold body. cbn beta iota zeta. cbn [fst snd].
    assert (Hr : in_range 64 i) by (unfold in_range, ROUNDS in *; lia).
    assert (Hli : in_range 64 ((tab ks i +64 rotate (tab l (i mod 3)) (-8)) xor i)) by eauto with afs.
    split_and!; [rewrite length_app; cbn [length]; lia|by apply Forall_insert|].
    apply Forall_app. split; [done|]. apply Forall_singleton, lxor_range; [lia| |done].
    apply rotate_range; [by apply tab_range|lia].
  - split; [|exact H3]. unfold ROUNDS in *. lia.
Qed.

(** ** Counter mode *)

(** The counter as a number. *)
Definition counter (nonce : list Z) : Z := foldr (fun w acc => w + 2 ^ 64 * acc) 0 nonce.

Lemma add1_ok nonce : Forall (in_range 64) nonce ->
  Forall (in_range 64) (add1 nonce) /\ length (add1 nonce) = length nonce /\
  counter (add1 nonce) = (counter nonce + 1) mod 2 ^ (64 * Z.of_nat (length nonce)) /\
  0 <= counter nonce < 2 ^ (64 * Z.of_nat (length nonce)).
Proof.
  induction 1 as [|w nonce Hw Hn (IH1 & IH2 & IH3 & IH4)]; [done|]. cbn [add1 length counter foldr]. fold (counter nonce).
  assert (Ep : 2 ^ (64 * Z.of_nat (S (length nonce))) = 2 ^ 64 * 2 ^ (64 * Z.of_nat (length nonce))).
  { rewrite <- Z.pow_add_r by lia. f_equal. lia. }
  rewrite Ep. set (P := 2 ^ (64 * Z.of_nat (length nonce))) in *. unfold in_range in Hw.
  assert (0 <= w + 2 ^ 64 * counter nonce < 2 ^ 64 * P) by nia.
  destruct (Z.eqb_spec w MAX64) as [->|Hne].
  - cbn [foldr length]. fold (counter (add1 nonce)). unfold MAX64 in *. split_and!; [by constructor|lia| |lia|lia].
    rewrite IH3. replace (2 ^ 64 - 1 + 2 ^ 64 * counter nonce + 1) with (2 ^ 64 * (counter nonce + 1)) by lia.
    by rewrite Z.mul_mod_distr_l by lia.
  - cbn [foldr length]. fold (counter nonce). unfold MAX64 in *. rewrite wrap_id by (unfold in_range; lia).
    split_and!; [constructor; [unfold in_range; lia|done]|done| |lia|lia].
    rewrite Z.mod_small by nia. lia.
Qed.

(** The pad of the [t]-th block. *)
Definition pad_at (key nonce : list Z) (t : nat) : Z * Z :=
  let n := Nat.iter t add1 nonce in fold_left enc_round (key_schedule key) (tab n 0, tab n 1).

Lemma pad_at_unfold key nonce t : pad_at key nonce t
  = fold_left enc_round (key_schedule key) (tab (Nat.iter t add1 nonce) 0, tab (Nat.iter t add1 nonce) 1).
Proof. done. Qed.

(** The key stream, block after block. *)
Definition keystream (key nonce : list Z) (blocks : nat) : list Z :=
  concat (map (fun t => [fst (pad_at key nonce t); snd (pad_at key nonce t)]) (seq 0 blocks)).

Lemma keystream_S key nonce n :
  keystream key nonce (S n) = keystream key nonce n ++ [fst (pad_at key nonce n); snd (pad_at key nonce n)].
Proof. unfold keystream. rewrite seq_S, map_app, concat_app. cbn [map concat Nat.add]. by rewrite app_nil_r. Qed.

Lemma keystream_length key nonce n : length (keystream key nonce n) = (2 * n)%nat.
Proof. induction n; [done|]. rewrite keystream_S, length_app. cbn [length]. lia. Qed.

Lemma put_app {A} (a b : list A) i v x : (i = length a) -> put (a ++ x :: b) (Z.of_nat i) v = Ok (a ++ v :: b).
Proof. intros ->. rewrite put_nat by (rewrite length_app; cbn; lia). rewrite insert_app_r_alt by lia. by rewrite Nat.sub_diag. Qed.

Lemma get_app {A} (a b : list A) i x : (i = length a) -> get (a ++ x :: b) (Z.of_nat i) = Ok x.
Proof. intros ->. apply get_nat. by rewrite list_lookup_middle. Qed.

(** Counter mode adds the key stream; what follows the message is untouched. *)
Lemma speck_ctr_spec alloc_pad alloc_keys pad0 inp out blocks key n0 n1 :
  alloc_pad = true -> (forall t, alloc_keys t = true) ->
  (2 * blocks <= length inp)%nat -> (2 * blocks <= length out)%nat ->
  speck_ctr alloc_pad alloc_keys pad0 inp out (16 * Z.of_nat blocks) key [n0; n1]
  = Ok (zip_with Z.lxor (take (2 * blocks) inp) (keystream key [n0; n1] blocks) ++ drop (2 * blocks) out).
Proof.
  intros -> Ha Hi Ho. unfold speck_ctr. cbn [negb].
  replace (Z.to_nat ((16 * Z.of_nat blocks / 8 + 1) / 2)) with blocks by zlia.
  forM_induction (fun t (s : list Z * list Z * (Z * Z)) => let '(o, n, _) := s in
    o = zip_with Z.lxor (take (2 * t) inp) (keystream key [n0; n1] t) ++ drop (2 * t) out /\ n = Nat.iter t add1 [n0; n1]).
  - split; [|done]. rewrite !Nat.mul_0_r, take_0, drop_0. done.
  - intros t [[o n] p] Ht [-> ->].
    destruct (lookup_lt_is_Some_2 inp (2 * t) ltac:(lia)) as [a Ea].
    destruct (lookup_lt_is_Some_2 inp (2 * t + 1) ltac:(lia)) as [b Eb].
    destruct (lookup_lt_is_Some_2 out (2 * t) ltac:(lia)) as [x Ex].
    destruct (lookup_lt_is_Some_2 out (2 * t + 1) ltac:(lia)) as [y Ey].
    unfold speck_encrypt. rewrite Ha. cbn [negb]. rewrite <- pad_at_unfold.
    replace (2 * Z.of_nat t) with (Z.of_nat (2 * t)) by lia. replace (Z.of_nat (2 * t) + 1) with (Z.of_nat (2 * t + 1)) by lia.
    rewrite (get_nat _ _ _ Ea), bind_Ok.
    rewrite (drop_S _ _ _ Ex). replace (S (2 * t)) with (2 * t + 1)%nat by lia. rewrite (drop_S _ _ _ Ey).
    set (z := zip_with Z.lxor (take (2 * t) inp) (keystream key [n0; n1] t)).
    assert (Hz : length z = (2 * t)%nat) by (unfold z; rewrite length_zip_with, length_take, keystream_length; lia).
    rewrite put_app, bind_Ok by done. rewrite (get_nat _ _ _ Eb), bind_Ok.
    rewrite (cons_middle _ z), app_assoc, put_app, bind_Ok by (rewrite length_app, Hz; cbn; lia).
    eexists. split; [done|]. split; [|done].
    replace (2 * S t)%nat with (S (S (2 * t))) by lia.
    rewrite (take_S_r _ _ b) by (by replace (S (2 * t)) with (2 * t + 1)%nat by lia). rewrite (take_S_r _ _ a Ea).
    rewrite keystream_S, <- (app_assoc (take _ _)). cbn [app]. rewrite zip_with_app by (rewrite length_take, keystream_length; lia).
    fold z. rewrite <- !app_assoc. cbn [zip_with app]. replace (S (2 * t + 1)) with (S (S (2 * t))) by lia. done.
  - destruct Hloop as ([[o n] p] & -> & -> & _). rewrite bind_Ok. done.
Qed.

Lemma zip_lxor_twice (a s : list Z) : (length a <= length s)%nat -> zip_with Z.lxor (zip_with Z.lxor a s) s = a.
Proof.
  revert s; induction a as [|x a IH]; intros [|y s] H; cbn in *; try done; [lia|].
  rewrite IH by lia. by rewrite Z.lxor_assoc, Z.lxor_nilpotent, Z.lxor_0_r.
Qed.

Lemma counter_iter n0 n1 : in_range 64 n0 -> in_range 64 n1 -> forall t,
  Forall (in_range 64) (Nat.iter t add1 [n0; n1]) /\ length (Nat.iter t add1 [n0; n1]) = 2%nat /\
  counter (Nat.iter t add1 [n0; n1]) = (counter [n0; n1] + Z.of_nat t) mod 2 ^ 128.
Proof.
  intros H0 H1 t. assert (Hn : Forall (in_range 64) [n0; n1]) by (constructor; [exact H0|]; constructor; [exact H1|]; constructor).
  induction t as [|t (IH1 & IH2 & IH3)].
  - split_and!; [done|done|]. cbn [Nat.iter nat_rect]. rewrite Z.add_0_r. symmetry. apply Z.mod_small.
    by apply (add1_ok [n0; n1] Hn).
  - change (Nat.iter (S t) add1 [n0; n1]) with (add1 (Nat.iter t add1 [n0; n1])).
    destruct (add1_ok _ IH1) as (A1 & A2 & A3 & _). rewrite IH2 in *. split_and!; [done|congruence|].
    rewrite A3, IH3. change (64 * Z.of_nat 2) with 128. rewrite Zplus_mod_idemp_l. f_equal. lia.
Qed.

(** The counters of counter mode. The [t]-th block is encrypted under the
    nonce plus [t] modulo 2^128, so no two of any 2^128 blocks of a message
    share a counter value. *)
Theorem speck_ctr_counters n0 n1 t :
  in_range 64 n0 -> in_range 64 n1 ->
  counter (Nat.iter t add1 [n0; n1]) = (counter [n0; n1] + Z.of_nat t) mod 2 ^ 128 /\
  forall t', 0 < Z.of_nat t' - Z.of_nat t < 2 ^ 128 ->
    counter (Nat.iter t' add1 [n0; n1]) <> counter (Nat.iter t add1 [n0; n1]).
Proof.
  intros H0 H1. pose proof (counter_iter n0 n1) as H. specialize (H H0 H1).
  split; [apply H|]. intros t' Ht. destruct (H t) as (_ & _ & ->). destruct (H t') as (_ & _ & ->). intros E.
  assert (E0 : (Z.of_nat t' - Z.of_nat t) mod 2 ^ 128 = 0).
  { replace (Z.of_nat t' - Z.of_nat t) with ((counter [n0; n1] + Z.of_nat t') - (counter [n0; n1] + Z.of_nat t)) by lia.
    by rewrite Zminus_mod, E, Z.sub_diag. }
  rewrite Z.mod_small in E0 by lia. lia.
Qed.

Lemma speck_ctr_counters_witness :
  counter (Nat.iter 3 add1 [MAX64; 0]) = 2 ^ 64 + 2 /\
  counter (Nat.iter 4 add1 [MAX64; 0]) <> counter (Nat.iter 3 add1 [MAX64; 0]).
Proof.
  destruct (speck_ctr_counters MAX64 0 3 ltac:(done) ltac:(done)) as [H1 H2]. split; [exact H1|]. apply H2. lia.
Defined.

(** The rounds of the cipher can be undone. Taking the inverse rounds with
    the round keys in reverse order recovers every block that
    [speck_encrypt] produced, under every key. *)
Theorem speck_rounds_invertible inp out key :
  block_ok inp -> Forall (in_range 64) key ->
  fold_left dec_round (rev (key_schedule key)) (speck_encrypt true inp out key) = inp.
Proof.
  intros Hb Hk. unfold speck_encrypt. cbn [negb]. by apply fold_dec_enc; [|apply key_schedule_ok].
Qed.

(** The example of the cipher's specification. *)
Definition vector_key : list Z := [0x0706050403020100; 0x0f0e0d0c0b0a0908; 0x1716151413121110; 0x1f1e1d1c1b1a1918].
Definition vector_plain : Z * Z := (0x202e72656e6f6f70, 0x65736f6874206e49).

Lemma speck_rounds_invertible_witness :
  fold_left dec_round (rev (key_schedule vector_key)) (speck_encrypt true vector_plain (0, 0) vector_key) = vector_plain.
Proof.
  apply speck_rounds_invertible; [split; by apply (bool_decide_unpack _)|]. by apply (bool_decide_unpack _).
Defined.

(** Encryption agrees with the published SPECK128/256 test vector, and
    decryption does not invert it: [speck_decrypt] applies the round keys in
    the order of encryption instead of the reverse order. *)
Theorem speck_test_vector :
  speck_encrypt true vector_plain (0, 0) vector_key = (0x4eeeb48d9c188f43, 0x4109010405c0f53e) /\
  speck_decrypt true (speck_encrypt true vector_plain (0, 0) vector_key) (0, 0) vector_key <> vector_plain.
Proof. split; [vm_compute; reflexivity|]. vm_compute. discriminate. Qed.

(** ** Agreement with the published cipher *)
Lemma lor_disjoint a b n : 0 <= n -> 0 <= a < 2 ^ n -> Z.lor a (b * 2 ^ n) = a + b * 2 ^ n.
Proof.
  intros Hn Ha. assert (E : Z.land a (b * 2 ^ n) = 0).
  { apply Z.bits_inj'. intros i Hi. rewrite Z.land_spec, Z.bits_0, <- Z.shiftl_mul_pow2, Z.shiftl_spec by lia.
    destruct (Z.ltb_spec i n); [rewrite (Z.testbit_neg_r b) by lia; apply andb_false_r|].
    by rewrite (proj1 (in_range_bits n a Hn) Ha) by lia. }
  pose proof (Z.add_lor_land a (b * 2 ^ n)). lia.
Qed.

Lemma rotate_ror8 x : in_range 64 x -> rotate x (-8) = Reference.ror8 x.
Proof.
  intros Hx. unfold rotate, Reference.ror8. cbn [Z.gtb Z.compare Z.opp]. change (- (-8)) with 8. change (64 - 8) with 56. rewrite Z.shiftl_mul_pow2, Z.shiftr_div_pow2 by lia.
  replace (u64 (x * 2 ^ 56)) with (x mod 2 ^ 8 * 2 ^ 56).
  - rewrite Z.lor_comm, lor_disjoint; [done|lia|]. unfold in_range in Hx. zlia.
  - unfold wrap. change (2 ^ 64) with (2 ^ 8 * 2 ^ 56). by rewrite Z.mul_mod_distr_r by lia.
Qed.

Lemma rotate_rol3 x : in_range 64 x -> rotate x 3 = Reference.rol3 x.
Proof.
  intros Hx. unfold rotate, Reference.rol3. cbn [Z.gtb Z.compare Pos.compare Pos.compare_cont]. change (64 - 3) with 61. rewrite Z.shiftl_mul_pow2, Z.shiftr_div_pow2 by lia.
  replace (u64 (x * 2 ^ 3)) with (x mod 2 ^ 61 * 2 ^ 3).
  - rewrite lor_disjoint; [lia|lia|]. unfold in_range in Hx. zlia.
  - unfold wrap. change (2 ^ 64) with (2 ^ 61 * 2 ^ 3). by rewrite Z.mul_mod_distr_r by lia.
Qed.

Definition swap (b : Z * Z) : Z * Z := (snd b, fst b).

Lemma enc_round_reference b k : block_ok b -> swap (enc_round b k) = Reference.round k (swap b).
Proof.
  destruct b as [r l]. intros [Hr Hl]. cbn [fst snd] in *. unfold swap, enc_round, Reference.round. cbn [fst snd].
  rewrite rotate_ror8, rotate_rol3 by done. unfold wrap, Reference.W. f_equal. by rewrite Z.lxor_assoc.
Qed.

Lemma tab_insert l i j v : (0 <= i < Z.of_nat (length l)) -> 0 <= j -> tab (<[Z.to_nat i := v]> l) j = if i =? j then v else tab l j.
Proof.
  intros Hi Hj. unfold tab. destruct (Z.eqb_spec i j) as [->|Hne].
  - by rewrite list_lookup_insert_eq by lia.
  - by rewrite list_lookup_insert_ne by lia.
Qed.

Lemma tab_snoc l v i : i = Z.of_nat (length l) -> tab (l ++ [v]) i = v.
Proof. intros ->. unfold tab. by rewrite Nat2Z.id, lookup_app_r, Nat.sub_diag by lia. Qed.

Section Schedule.
Context (k0 l0 l1 l2 : Z) (Hkey : Forall (in_range 64) [k0; l0; l1; l2]).

Local Notation state := (Reference.key_state k0 l0 l1 l2).
Local Notation round_key := (Reference.round_key k0 l0 l1 l2).

(** The state of the loop: round keys so far, and the three words by the index
    modulo 3 at which the code keeps them. *)
Record schedule_at (i : Z) (s : list Z * list Z) : Prop := {
  sa_keys : snd s = map round_key (seq 0 (Z.to_nat i + 1));
  sa_length : length (fst s) = 3%nat;
  sa_words : state (Z.to_nat i) = (tab (snd s) i, tab (fst s) (i mod 3), tab (fst s) ((i + 1) mod 3), tab (fst s) ((i + 2) mod 3));
  sa_range : Forall (in_range 64) (fst s) /\ Forall (in_range 64) (snd s);
}.

Lemma round_key_state i : round_key i = (let '(k, _, _, _) := state i in k).
Proof. done. Qed.

Lemma schedule_step i l ks : 0 <= i < 33 -> schedule_at i (l, ks) ->
  let li := (tab ks i +64 rotate (tab l (i mod 3)) (-8)) xor i in
  schedule_at (i + 1) (<[Z.to_nat (i mod 3) := li]> l, ks ++ [rotate (tab ks i) 3 xor li]).
Proof.
  intros Hi [Hk Hl Hs [Hr Hrk]] li. cbn [fst snd] in *.
  assert (Hm : 0 <= i mod 3 < 3) by (apply Z.mod_pos_bound; lia).
  assert (Hli : in_range 64 li) by (unfold li; assert (in_range 64 i) by (unfold in_range; lia); eauto with afs).
  assert (Hkey' : in_range 64 (rotate (tab ks i) 3 xor li)) by (apply lxor_range; [lia|apply rotate_range; [by apply tab_range|lia]|done]).
  assert (Hlen : length ks = (Z.to_nat i + 1)%nat) by (by rewrite Hk, length_map, length_seq).
  assert (Es : state (Z.to_nat (i + 1)) = (rotate (tab ks i) 3 xor li, tab l ((i + 1) mod 3), tab l ((i + 2) mod 3), li)).
  { replace (Z.to_nat (i + 1)) with (S (Z.to_nat i)) by lia. cbn [Reference.key_state]. rewrite Hs. unfold Reference.round.
    rewrite <- rotate_ror8, <- rotate_rol3 by (by apply tab_range). rewrite Z2Nat.id by lia.
    unfold li, wrap, Reference.W. by rewrite (Z.add_comm (rotate _ _)). }
  split; cbn [fst snd].
  - replace (Z.to_nat (i + 1) + 1)%nat with (S (Z.to_nat i + 1)) by lia. rewrite seq_S, map_app, <- Hk. cbn [map Nat.add].
    rewrite round_key_state. replace (Z.to_nat i + 1)%nat with (Z.to_nat (i + 1)) by lia. by rewrite Es.
  - by rewrite length_insert.
  - rewrite Es, !tab_insert by (rewrite ?Hl; lia || apply Z.mod_pos_bound; lia).
    replace ((i + 1 + 1) mod 3) with ((i + 2) mod 3) by (f_equal; lia).
    replace ((i + 1 + 2) mod 3) with (i mod 3) by zlia.
    destruct (Z.eqb_spec (i mod 3) ((i + 1) mod 3)); [zlia|]. destruct (Z.eqb_spec (i mod 3) ((i + 2) mod 3)); [zlia|].
    rewrite Z.eqb_refl, tab_snoc by lia. done.
  - split; [by apply Forall_insert|by apply Forall_app; split; [|apply Forall_singleton]].
Qed.

Lemma key_schedule_reference : key_schedule [k0; l0; l1; l2] = map round_key (seq 0 34).
Proof.
  unfold key_schedule. set (body := fun i (s : list Z * list Z) => let '(l, ks) := s in _).
  apply (for_invariant schedule_at (ROUNDS - 1) 0 body ([l0; l1; l2], [k0])).
  - split; cbn [fst snd]; try done. inversion_clear Hkey. split; [done|by apply Forall_singleton].
  - intros i [l ks] Hi H. unfold body. cbn beta iota zeta. apply schedule_step; [unfold ROUNDS in *; lia|done].
Qed.

Lemma encrypt_reference b : block_ok b -> swap (fold_left enc_round (key_schedule [k0; l0; l1; l2]) b) = Reference.encrypt k0 l0 l1 l2 (swap b).
Proof.
  intros Hb. pose proof (proj2 (key_schedule_ok _ Hkey)) as Hk. rewrite key_schedule_reference in *. unfold Reference.encrypt.
  assert (H : forall n, Forall (in_range 64) (map round_key (seq 0 n)) ->
    block_ok (fold_left enc_round (map round_key (seq 0 n)) b) /\
    swap (fold_left enc_round (map round_key (seq 0 n)) b) = Reference.rounds k0 l0 l1 l2 n (swap b)).
  { induction n as [|n IH]; [done|]. rewrite seq_S, map_app, fold_left_app. intros [H1 H2]%Forall_app. cbn [map fold_left Nat.add] in *.
    destruct (IH H1) as [Hok E]. split; [apply enc_round_ok; [done|by inversion_clear H2]|]. rewrite enc_round_reference by done.
    cbn [Reference.rounds]. by rewrite E. }
  by apply H.
Qed.

(** The key stream of the code. *)
Lemma pad_at_reference n0 n1 t : in_range 64 n0 -> in_range 64 n1 ->
  [fst (pad_at [k0; l0; l1; l2] [n0; n1] t); snd (pad_at [k0; l0; l1; l2] [n0; n1] t)] = Reference.stream_block k0 l0 l1 l2 (n0 + 2 ^ 64 * n1) t.
Proof.
  intros H0 H1. destruct (counter_iter n0 n1 H0 H1 t) as (Hr & Hl & Hc). rewrite pad_at_unfold. unfold Reference.stream_block.
  destruct (Nat.iter t add1 [n0; n1]) as [|a [|b [|]]]; try done. unfold counter in Hc. cbn [foldr] in Hc.
  rewrite !Z.mul_0_r, !Z.add_0_r in Hc. rewrite <- Hc. inversion_clear Hr as [|? ? Ha Hr']. inversion_clear Hr' as [|? ? Hb _].
  unfold in_range in Ha, Hb. unfold Reference.W.
  replace ((a + 2 ^ 64 * b) / 2 ^ 64) with b by zlia. replace ((a + 2 ^ 64 * b) mod 2 ^ 64) with a by zlia.
  change (tab [a; b] 0) with a. change (tab [a; b] 1) with b.
  change (b, a) with (swap (a, b)). rewrite <- encrypt_reference by done. unfold swap. done.
Qed.

Lemma keystream_reference n0 n1 blocks : in_range 64 n0 -> in_range 64 n1 ->
  keystream [k0; l0; l1; l2] [n0; n1] blocks = Reference.stream k0 l0 l1 l2 (n0 + 2 ^ 64 * n1) blocks.
Proof.
  intros H0 H1. unfold keystream, Reference.stream. f_equal. apply map_ext. intros t. by apply pad_at_reference.
Qed.

End Schedule.

(** C38: [speck_ctr] is counter mode of the published SPECK128/256. For every key of
    four words, every nonce and every number of 16-byte blocks the buffers
    hold, the output is the input xor the encryptions of nonce, nonce + 1, ...
    modulo 2^128; what follows the message in the output buffer is untouched,
    and what output and pad held before does not matter. The reference is
    written with divisions and a recursive key schedule, and maps the published
    plaintext to the published ciphertext. So [speck_ctr] undoes itself. *)
Theorem speck_ctr_reference :
  (forall alloc_keys pad0 inp out blocks k0 l0 l1 l2 n0 n1,
     (forall t, alloc_keys t = true) -> (2 * blocks <= length inp)%nat -> (2 * blocks <= length out)%nat ->
     Forall (in_range 64) [k0; l0; l1; l2] -> in_range 64 n0 -> in_range 64 n1 ->
     let s := Reference.stream k0 l0 l1 l2 (n0 + 2 ^ 64 * n1) blocks in
     let c := zip_with Z.lxor (take (2 * blocks) inp) s in
     speck_ctr true alloc_keys pad0 inp out (16 * Z.of_nat blocks) [k0; l0; l1; l2] [n0; n1] = Ok (c ++ drop (2 * blocks) out) /\
     length c = (2 * blocks)%nat /\ zip_with Z.lxor c s = take (2 * blocks) inp) /\
  Reference.encrypt 0x0706050403020100 0x0f0e0d0c0b0a0908 0x1716151413121110 0x1f1e1d1c1b1a1918 (0x65736f6874206e49, 0x202e72656e6f6f70)
    = (0x4109010405c0f53e, 0x4eeeb48d9c188f43).
Proof.
  split; [|vm_compute; reflexivity]. intros alloc_keys pad0 inp out blocks k0 l0 l1 l2 n0 n1 Ha Hi Ho Hk H0 H1 s c.
  unfold c, s. rewrite <- (keystream_reference k0 l0 l1 l2 Hk n0 n1 blocks H0 H1). pose proof (keystream_length [k0; l0; l1; l2] [n0; n1] blocks) as Hs.
  split; [by apply speck_ctr_spec|]. split; [rewrite length_zip_with, length_take; lia|].
  apply zip_lxor_twice. rewrite length_take. lia.
Qed.

(** Two blocks under a counter that wraps around. *)
Lemma speck_ctr_reference_witness :
  speck_ctr true (fun _ => true) (0, 0) [1; 2; 3; 4] [0; 0; 0; 0; 7] (16 * Z.of_nat 2) [9; 8; 7; 6] [MAX64; MAX64]
  = Ok (zip_with Z.lxor (take (2 * 2) [1; 2; 3; 4]) (Reference.stream 9 8 7 6 (MAX64 + 2 ^ 64 * MAX64) 2) ++ drop (2 * 2) [0; 0; 0; 0; 7]).
Proof.
  destruct speck_ctr_reference as [H _].
  refine (proj1 (H (fun _ => true) (0, 0) [1; 2; 3; 4] [0; 0; 0; 0; 7] 2%nat 9 8 7 6 MAX64 MAX64 _ _ _ _ _ _)).
  - reflexivity.
  - cbn. lia.
  - cbn. lia.
  - by apply (bool_decide_unpack _).
  - by apply (bool_decide_unpack _).
  - by apply (bool_decide_unpack _).
Defined.
