(* ===== verification/Sha3.v ===== *)
(** * Sha3: SHA3-256 (src/lib/sha3.c)

    The Keccak permutation as the code computes it in place on 25 lanes, the
    padding and the sponge. Theorems: each round is the round of FIPS 202
    written with lane coordinates, with the offsets and round constants that
    the standard defines by recurrences; the padding is the byte form of
    the standard's; the digest is that of the sponge. *)
From stdpp Require Import base tactics option list numbers.
From Stdlib Require Import ZArith Lia.
From S2P Require Import Prelude.

Local Open Scope Z_scope.
Local Open Scope afs_scope.

Definition R : Z := 1088.
Definition ROUNDS : nat := 24.

Definition SHA3_ROTL64 (x y : Z) : Z := Z.lor (u64 (Z.shiftl x y)) (Z.shiftr x (64 - y)).

Definition keccakf_rndc : list Z := [
    0x0000000000000001; 0x0000000000008082; 0x800000000000808a;
    0x8000000080008000; 0x000000000000808b; 0x0000000080000001;
    0x8000000080008081; 0x8000000000008009; 0x000000000000008a;
    0x0000000000000088; 0x0000000080008009; 0x000000008000000a;
    0x000000008000808b; 0x800000000000008b; 0x8000000000008089;
    0x8000000000008003; 0x8000000000008002; 0x8000000000000080;
    0x000000000000800a; 0x800000008000000a; 0x8000000080008081;
    0x8000000000008080; 0x0000000080000001; 0x8000000080008008 ].

Definition keccakf_piln : list Z := [
    10; 7; 11; 17; 18; 3; 5; 16; 8; 21; 24; 4; 15; 23; 19; 13; 12; 2; 20; 14; 22; 9; 6; 1 ].

Definition keccakf_rotc : list Z := [
    1; 3; 6; 10; 15; 21; 28; 36; 45; 55; 2; 14; 27; 41; 56; 8; 25; 43; 62; 18; 39; 61; 20; 44 ].

(** The steps of a round, on the array of lanes [s]. *)
Definition theta (s : list Z) : list Z :=
  let bc := map (fun i => tab s i xor tab s (i + 5) xor tab s (i + 10) xor tab s (i + 15) xor tab s (i + 20)) (seqZ 0 5) in
  for_ 5 0 (fun i s =>
    let t := tab bc ((i + 4) mod 5) xor SHA3_ROTL64 (tab bc ((i + 1) mod 5)) 1 in
    for_ 5 0 (fun j5 s => let j := 5 * j5 in <[Z.to_nat (j + i) := tab s (j + i) xor t]> s) s) s.

Definition rho_pi (s : list Z) : list Z :=
  fst (for_ 24 0 (fun i '(s, t) =>
    let j := tab keccakf_piln i in
    let bc0 := tab s j in
    (<[Z.to_nat j := SHA3_ROTL64 t (tab keccakf_rotc i)]> s, bc0)) (s, tab s 1)).

Definition chi (s : list Z) : list Z :=
  for_ 5 0 (fun j5 s =>
    let j := 5 * j5 in
    let bc := map (fun i => tab s (j + i)) (seqZ 0 5) in
    for_ 5 0 (fun i s =>
      <[Z.to_nat (j + i) := tab s (j + i) xor Z.land (u64 (Z.lnot (tab bc ((i + 1) mod 5)))) (tab bc ((i + 2) mod 5))]> s) s) s.

Definition iota (round : Z) (s : list Z) : list Z := <[0%nat := tab s 0 xor tab keccakf_rndc round]> s.

Definition keccak_f (s : list Z) : list Z :=
  for_ ROUNDS 0 (fun round s => iota round (chi (rho_pi (theta s)))) s.

(** The buffer as 64-bit words. *)
Definition or_word (ws : list Z) (i v : Z) : res (list Z) := w ← get ws i; put ws i (Z.lor w (u64 v)).

(** The padded message; [memcpy] reads [length] bytes of the message. *)
Definition pad_message (message : list Z) (length : Z) : res (list Z * Z) :=
  let bit_len := length * 8 + 2 in
  let pad_len := Z.rem (Z.rem (- bit_len) R + R) R in
  let num_blocks := Z.quot (bit_len + pad_len) 64 in
  src ← of_option (slice 0 (Z.to_nat length) message);
  buf ← of_option (splice 0 src (replicate (Z.to_nat (8 * num_blocks)) 0));
  let padded_message := words (Z.to_nat num_blocks) buf in
  padded_message ← or_word padded_message (length / 8) (Z.shiftl 2 ((length mod 8) * 8));
  padded_message ← or_word padded_message (bit_len / 64) (Z.shiftl 1 (bit_len mod 64));
  padded_message ← or_word padded_message ((bit_len + pad_len - 1) / 64) (Z.shiftl 1 ((bit_len + pad_len - 1) mod 64));
  Ok (padded_message, num_blocks).

(** Block [i] of the array [P]: 17 words and 8 zero words. *)
Definition p_block (padded_message : list Z) (i : Z) : res (list Z) :=
  b ← of_option (slice (Z.to_nat (17 * i)) 17 padded_message); Ok (b ++ replicate 8 0).

(** [allocs]: whether the three [calloc]s succeed; their results are used
    without a check. *)
Definition sha3_256 (allocs : bool) (message : list Z) (length : Z) : res (list Z) :=
  if negb allocs then Fault else
  '(padded_message, num_blocks) ← pad_message message length;
  let num_p := Z.quot num_blocks 17 in
  d ← forM (Z.to_nat num_p) 0 (fun i d =>
    p ← p_block padded_message i;
    Ok (keccak_f (zip_with Z.lxor d p))) (replicate 25 0);
  Ok (take 32 (unwords d)).

(** ** The permutation of FIPS 202

    Lane [(x, y)] of the state is element [5 y + x]. *)
Definition state (f : Z -> Z -> Z) : list Z := concat (map (fun y => map (fun x => f x y) (seqZ 0 5)) (seqZ 0 5)).
Definition lane (s : list Z) (x y : Z) : Z := tab s (5 * (y mod 5) + x mod 5).

Definition fips_theta (s : list Z) : list Z :=
  let C x := lane s x 0 xor lane s x 1 xor lane s x 2 xor lane s x 3 xor lane s x 4 in
  let D x := C (x - 1) xor SHA3_ROTL64 (C (x + 1)) 1 in
  state (fun x y => lane s x y xor D x).

(** The offsets: [(t + 1) (t + 2) / 2] at the [t]-th lane of the walk
    [(x, y) -> (y, 2 x + 3 y)] from [(1, 0)]; 0 at the origin. *)
Fixpoint offset_walk (n : nat) (t x y : Z) (px py : Z) : Z :=
  match n with
  | O => 0
  | S n' => if (x =? px) && (y =? py) then ((t + 1) * (t + 2) / 2) mod 64
            else offset_walk n' (t + 1) y ((2 * x + 3 * y) mod 5) px py
  end.
Definition fips_offset (x y : Z) : Z := offset_walk 24 0 1 0 (x mod 5) (y mod 5).
Definition rot (x r : Z) : Z := if r =? 0 then x else SHA3_ROTL64 x r.

Definition fips_rho (s : list Z) : list Z := state (fun x y => rot (lane s x y) (fips_offset x y)).
Definition fips_pi (s : list Z) : list Z := state (fun x y => lane s (x + 3 * y) x).
Definition fips_chi (s : list Z) : list Z :=
  state (fun x y => lane s x y xor Z.land (u64 (Z.lnot (lane s (x + 1) y))) (lane s (x + 2) y)).

(** The round constants, from the linear feedback shift register of the
    standard: bit [2^j - 1] of constant [i] is [rc (j + 7 i)]. *)
Definition lfsr_step (r : list bool) : list bool :=
  match false :: r with
  | [r0; r1; r2; r3; r4; r5; r6; r7; r8] => [xorb r0 r8; r1; r2; r3; xorb r4 r8; xorb r5 r8; xorb r6 r8; r7]
  | l => l
  end.
Definition rc (t : nat) : bool := nth 0 (Nat.iter (t mod 255) lfsr_step [true; false; false; false; false; false; false; false]) false.
Definition fips_constant (i : Z) : Z :=
  foldr (fun j acc => acc + (if rc (j + 7 * Z.to_nat i) then 2 ^ (2 ^ Z.of_nat j - 1) else 0)) 0 (seq 0 7).

Definition fips_round (s : list Z) (i : Z) : list Z :=
  let s := fips_chi (fips_pi (fips_rho (fips_theta s))) in
  <[0%nat := tab s 0 xor fips_constant i]> s.
Definition fips_keccak_f (s : list Z) : list Z := fold_left fips_round (seqZ 0 (Z.of_nat ROUNDS)) s.

(** ** Rounds *)
Ltac lanes s :=
  do 25 (destruct s as [|? s]; [discriminate|]); destruct s; [|discriminate].

Lemma theta_fips s : length s = 25%nat -> theta s = fips_theta s.
Proof.
  intros Hl. lanes s. unfold theta, fips_theta, state, lane, tab.
  cbv -[Z.lxor SHA3_ROTL64]. reflexivity.
Qed.

Lemma rho_pi_fips s : length s = 25%nat -> rho_pi s = fips_pi (fips_rho s).
Proof.
  intros Hl. lanes s. unfold rho_pi, fips_pi, fips_rho, state, lane, tab. cbv -[SHA3_ROTL64]. reflexivity.
Qed.

Lemma chi_fips s : length s = 25%nat -> chi s = fips_chi s.
Proof.
  intros Hl. lanes s. unfold chi, fips_chi, state, lane, tab. cbv -[Z.lxor Z.land Z.lnot wrap]. reflexivity.
Qed.

Lemma state_length f : length (state f) = 25%nat.
Proof. reflexivity. Qed.

Lemma for_fold {S} n i (body : Z -> S -> S) s : for_ n i body s = fold_left (fun s i => body i s) (seqZ i (Z.of_nat n)) s.
Proof.
  revert i s; induction n as [|n IH]; intros i s; cbn [for_]; [done|].
  rewrite seqZ_cons by lia. cbn [fold_left]. rewrite IH. f_equal. f_equal; lia.
Qed.

Lemma rndc_fips i : 0 <= i < 24 -> tab keccakf_rndc i = fips_constant i.
Proof.
  assert (H : forallb (fun i => tab keccakf_rndc i =? fips_constant i) (seqZ 0 24) = true) by (vm_compute; reflexivity).
  intros Hi. rewrite forallb_forall in H. apply Z.eqb_eq, H, list_elem_of_In, elem_of_seqZ. lia.
Qed.

Lemma fips_round_length s i : length (fips_round s i) = 25%nat.
Proof. unfold fips_round. rewrite length_insert. apply state_length. Qed.

Lemma round_fips s i : length s = 25%nat -> 0 <= i < 24 -> iota i (chi (rho_pi (theta s))) = fips_round s i.
Proof.
  intros Hs Hi. rewrite theta_fips, rho_pi_fips, chi_fips by (done || apply state_length). unfold iota, fips_round.
  by rewrite rndc_fips.
Qed.

Lemma fold_left_agree {A B} (P : A -> Prop) (Q : B -> Prop) (f g : A -> B -> A) l :
  (forall a b, P a -> Q b -> f a b = g a b /\ P (g a b)) -> forall a, P a -> Forall Q l ->
  fold_left f l a = fold_left g l a /\ P (fold_left g l a).
Proof.
  intros H. induction l as [|b l IH]; intros a Ha Hl; [done|]. apply Forall_cons_1 in Hl as [Hb Hl]. cbn [fold_left].
  destruct (H a b Ha Hb) as [-> Hg]. by apply IH.
Qed.

Lemma keccak_f_fips s : length s = 25%nat -> keccak_f s = fips_keccak_f s /\ length (fips_keccak_f s) = 25%nat.
Proof.
  intros Hs. unfold keccak_f, fips_keccak_f. rewrite for_fold.
  apply (fold_left_agree (fun s => length s = 25%nat) (fun i => 0 <= i < 24)); [|exact Hs|].
  - intros a i Ha Hi. exact (conj (round_fips a i Ha Hi) (fips_round_length a i)).
  - apply Forall_forall. intros i Hi. apply list_elem_of_In, elem_of_seqZ in Hi. unfold ROUNDS in Hi. lia.
Qed.

(** ** Padding *)
Definition rate : nat := 136.

(** The byte form of the suffix 01 and the pattern 10*1. *)
Definition sponge_pad (m : list Z) : list Z :=
  let q := (rate - length m mod rate)%nat in
  m ++ (if decide (q = 1%nat) then [0x86] else 0x06 :: replicate (q - 2) 0 ++ [0x80]).

Lemma le_load_or l j b v : bytes l -> is_byte v -> l !! j = Some b ->
  le_load (<[j := Z.lor b v]> l) = Z.lor (le_load l) (Z.shiftl v (8 * Z.of_nat j)).
Proof.
  intros Hl Hv. revert j; induction Hl as [|x l Hx Hl IH]; intros [|j] Hj; try done.
  - injection Hj as ->. change (<[0%nat := Z.lor b v]> (b :: l)) with (Z.lor b v :: l). cbn [le_load]. rewrite Z.shiftl_0_r.
    apply Z.bits_inj'. intros i Hi. rewrite Z.lor_spec, !add256_testbit by (done || by apply lor_range).
    destruct (Z.ltb_spec i 8); [apply Z.lor_spec|]. rewrite (proj1 (in_range_bits 8 v ltac:(lia)) Hv i) by lia. by rewrite orb_false_r.
  - change (<[S j := Z.lor b v]> (x :: l)) with (x :: <[j := Z.lor b v]> l). cbn [le_load]. rewrite (IH j) by done.
    apply Z.bits_inj'. intros i Hi. rewrite Z.lor_spec, !add256_testbit by done. rewrite Z.shiftl_spec by lia.
    destruct (Z.ltb_spec i 8); [rewrite (Z.testbit_neg_r v) by lia; by rewrite orb_false_r|].
    rewrite Z.lor_spec, Z.shiftl_spec by lia. do 2 f_equal. lia.
Qed.

Lemma words_or n : forall buf i j b v, bytes buf -> length buf = (8 * n)%nat -> is_byte v -> (i < n)%nat -> (j < 8)%nat ->
  buf !! (8 * i + j)%nat = Some b ->
  exists w, words n buf !! i = Some w /\
    words n (<[(8 * i + j)%nat := Z.lor b v]> buf) = <[i := Z.lor w (Z.shiftl v (8 * Z.of_nat j))]> (words n buf).
Proof.
  induction n as [|n IH]; intros buf i j b v Hb Hl Hv Hi Hj Eb; [lia|]. cbn [words]. destruct i as [|i].
  - exists (le_load (take 8 buf)). split; [done|]. cbn [Nat.mul Nat.add] in *.
    rewrite take_insert_lt, drop_insert_lt by lia. cbn [insert list_insert]. f_equal.
    apply le_load_or; [by apply Forall_take|done|]. by rewrite lookup_take, decide_True.
  - destruct (IH (drop 8 buf) i j b v) as (w & Ew & E); [by apply Forall_drop|rewrite length_drop; lia|done|lia|done| |].
    { rewrite lookup_drop, <- Eb. f_equal. lia. }
    exists w. split; [done|]. rewrite take_insert_ge by lia. rewrite drop_insert_ge by lia.
    replace (8 * S i + j - 8)%nat with (8 * i + j)%nat by lia. rewrite E. done.
Qed.

Lemma or_word_spec n buf i j b v : bytes buf -> length buf = (8 * n)%nat -> is_byte v -> (i < n)%nat -> (j < 8)%nat ->
  buf !! (8 * i + j)%nat = Some b ->
  or_word (words n buf) (Z.of_nat i) (Z.shiftl v (8 * Z.of_nat j)) = Ok (words n (<[(8 * i + j)%nat := Z.lor b v]> buf)).
Proof.
  intros Hb Hl Hv Hi Hj Eb. destruct (words_or n buf i j b v) as (w & Ew & E); try done.
  unfold or_word. rewrite (get_nat _ _ _ Ew), bind_Ok, put_nat by (by rewrite words_length). rewrite E, wrap_id; [done|].
  unfold in_range, is_byte in *. rewrite Z.shiftl_mul_pow2 by lia. split; [apply Z.mul_nonneg_nonneg; [apply Hv|apply Z.pow_nonneg; lia]|].
  apply Z.lt_le_trans with (2 ^ 8 * 2 ^ (8 * Z.of_nat j)); [apply Z.mul_lt_mono_pos_r; [apply Z.pow_pos_nonneg; lia|apply Hv]|].
  rewrite <- Z.pow_add_r by lia. apply Z.pow_le_mono_r; lia.
Qed.

(** The sizes the code computes. *)
Lemma pad_sizes (n : nat) :
  let bit_len := Z.of_nat n * 8 + 2 in
  let pad_len := Z.rem (Z.rem (- bit_len) R + R) R in
  bit_len + pad_len = 1088 * Z.of_nat (S (n / rate)).
Proof.
  cbv zeta. unfold R, rate. rewrite Nat2Z.inj_succ, Nat2Z.inj_div. change (Z.of_nat 136) with 136.
  set (m := Z.of_nat n). assert (0 <= m) by lia.
  rewrite Z.rem_opp_l', (Z.rem_mod_nonneg (m * 8 + 2)) by lia.
  rewrite Z.rem_mod_nonneg by (pose proof (Z.mod_pos_bound (m * 8 + 2) 1088); lia). zlia.
Qed.

Definition padded_length (n : nat) : nat := (rate * S (n / rate))%nat.

Lemma padded_length_bound n : (n < padded_length n)%nat /\ padded_length n = (n + (rate - n mod rate))%nat.
Proof.
  unfold padded_length, rate. pose proof (Nat.div_mod_eq n 136). pose proof (Nat.mod_upper_bound n 136 ltac:(lia)). lia.
Qed.

Lemma sponge_pad_insert m n T b : n = length m -> T = padded_length n ->
  <[n := 6]> (m ++ replicate (T - n) 0) !! (T - 1)%nat = Some b ->
  <[(T - 1)%nat := Z.lor b 0x80]> (<[n := 6]> (m ++ replicate (T - n) 0)) = sponge_pad m.
Proof.
  intros En ET. destruct (padded_length_bound n) as [H1 H2]. rewrite <- ET in H1, H2. unfold sponge_pad. rewrite <- En.
  rewrite insert_app_r_alt by lia. replace (n - length m)%nat with 0%nat by lia.
  set (q := (rate - n mod rate)%nat) in *. replace (T - n)%nat with q by lia.
  destruct q as [|q]; [lia|]. cbn [replicate]. change (<[0%nat := 6]> (0 :: replicate q 0)) with (6 :: replicate q 0).
  rewrite lookup_app_r, insert_app_r_alt by lia. replace (T - 1 - length m)%nat with q by lia.
  destruct (decide (S q = 1%nat)) as [E|E].
  - assert (q = 0%nat) as -> by lia. intros [= <-]. done.
  - destruct q as [|q]; [done|]. cbn [lookup list_lookup]. intros Hb. apply lookup_replicate in Hb as [-> _].
    do 2 f_equal. change (<[S q := Z.lor 0 128]> (6 :: replicate (S q) 0)) with (6 :: <[q := 128]> (replicate (S q) 0)). f_equal.
    replace (S (S q) - 2)%nat with q by lia. rewrite replicate_S_end, insert_app_r_alt by (rewrite length_replicate; lia).
    by rewrite length_replicate, Nat.sub_diag.
Qed.

(** The padded message of the code, as words. *)
Lemma pad_message_spec message n : bytes message -> (n <= length message)%nat ->
  pad_message message (Z.of_nat n)
  = Ok (words (17 * S (n / rate)) (sponge_pad (take n message)), Z.of_nat (17 * S (n / rate))).
Proof.
  intros Hb Hn. unfold pad_message. pose proof (pad_sizes n) as Hp. cbv zeta in Hp. rewrite Hp.
  set (nb := (17 * S (n / rate))%nat). set (T := padded_length n).
  assert (HT : T = (8 * nb)%nat) by (unfold T, nb, padded_length, rate; lia).
  destruct (padded_length_bound n) as [HnT _]. fold T in HnT.
  replace (Z.quot (1088 * Z.of_nat (S (n / rate))) 64) with (Z.of_nat nb) by (rewrite Z.quot_div_nonneg by lia; unfold nb; zlia).
  rewrite Nat2Z.id, slice_Some, drop_0 by lia. cbn [of_option]. rewrite bind_Ok.
  replace (Z.to_nat (8 * Z.of_nat nb)) with T by lia.
  rewrite splice_Some by (rewrite length_take, length_replicate; lia). cbn [of_option]. rewrite bind_Ok, take_0, app_nil_l, Nat2Z.id.
  rewrite length_take_le by done. rewrite Nat.add_0_l, drop_replicate.
  set (m := take n message). assert (Hm : bytes m) by by apply Forall_take. assert (Lm : length m = n) by (unfold m; rewrite length_take; lia).
  set (buf := m ++ replicate (T - n) 0).
  assert (Bbuf : bytes buf) by (apply Forall_app; split; [done|by apply Forall_replicate]).
  assert (Lbuf : length buf = (8 * nb)%nat) by (unfold buf; rewrite length_app, length_replicate; lia).
  pose proof (Nat.div_mod_eq n 8) as Hdm. pose proof (Nat.mod_upper_bound n 8 ltac:(lia)) as Hmod.
  replace (Z.of_nat n / 8) with (Z.of_nat (n / 8)) by (rewrite Nat2Z.inj_div; done).
  replace (Z.of_nat n mod 8 * 8) with (8 * Z.of_nat (n mod 8)) by (rewrite Nat2Z.inj_mod; lia).
  assert (E0 : buf !! (8 * (n / 8) + n mod 8)%nat = Some 0).
  { rewrite <- Hdm. unfold buf. rewrite lookup_app_r, Lm, Nat.sub_diag by lia. apply lookup_replicate_2. lia. }
  rewrite (or_word_spec nb buf (n / 8) (n mod 8) 0 2) by (done || lia). rewrite bind_Ok, <- Hdm. change (Z.lor 0 2) with 2.
  set (buf1 := <[n := 2]> buf). assert (Bbuf1 : bytes buf1) by (by apply Forall_insert).
  assert (Lbuf1 : length buf1 = (8 * nb)%nat) by (unfold buf1; by rewrite length_insert).
  replace ((Z.of_nat n * 8 + 2) / 64) with (Z.of_nat (n / 8)) by (rewrite Nat2Z.inj_div; zlia).
  replace (Z.shiftl 1 ((Z.of_nat n * 8 + 2) mod 64)) with (Z.shiftl 4 (8 * Z.of_nat (n mod 8))).
  2: { change 4 with (Z.shiftl 1 2). rewrite Z.shiftl_shiftl by lia. f_equal. rewrite Nat2Z.inj_mod. zlia. }
  assert (E1 : buf1 !! (8 * (n / 8) + n mod 8)%nat = Some 2) by (rewrite <- Hdm; apply list_lookup_insert_eq; lia).
  rewrite (or_word_spec nb buf1 (n / 8) (n mod 8) 2 4) by (done || lia). rewrite bind_Ok, <- Hdm. change (Z.lor 2 4) with 6.
  unfold buf1. rewrite list_insert_insert_eq.
  set (buf2 := <[n := 6]> buf). assert (Bbuf2 : bytes buf2) by (by apply Forall_insert).
  assert (Lbuf2 : length buf2 = (8 * nb)%nat) by (unfold buf2; by rewrite length_insert).
  replace ((1088 * Z.of_nat (S (n / rate)) - 1) / 64) with (Z.of_nat (nb - 1)) by (unfold nb; zlia).
  replace (Z.shiftl 1 ((1088 * Z.of_nat (S (n / rate)) - 1) mod 64)) with (Z.shiftl 128 (8 * Z.of_nat 7)).
  2: { change 128 with (Z.shiftl 1 7). rewrite Z.shiftl_shiftl by lia. f_equal. zlia. }
  destruct (lookup_lt_is_Some_2 buf2 (T - 1) ltac:(lia)) as [b2 E2].
  assert (ET : (8 * (nb - 1) + 7 = T - 1)%nat) by lia.
  rewrite (or_word_spec nb buf2 (nb - 1) 7 b2 128) by (done || lia || by rewrite ET). rewrite bind_Ok, ET.
  do 3 f_equal. by apply sponge_pad_insert.
Qed.

(** ** The sponge *)
Definition absorb (d : list Z) (block : list Z) : list Z :=
  fips_keccak_f (zip_with Z.lxor d (words 17 block ++ replicate 8 0)).

Definition fips_sha3_256 (m : list Z) : list Z :=
  let p := sponge_pad m in
  take 32 (unwords (fold_left absorb (map (fun i => take rate (drop (rate * i) p)) (seq 0 (S (length m / rate)))) (replicate 25 0))).

Lemma drop_words j : forall n bs, (j <= n)%nat -> drop j (words n bs) = words (n - j) (drop (8 * j) bs).
Proof.
  induction j as [|j IH]; intros n bs Hj; [by rewrite Nat.sub_0_r|]. destruct n as [|n]; [lia|]. cbn [words drop].
  rewrite IH by lia. cbn [Nat.sub]. rewrite drop_drop. by replace (8 * S j)%nat with (8 + 8 * j)%nat by lia.
Qed.

Lemma take_words k : forall n bs, (k <= n)%nat -> take k (words n bs) = words k (take (8 * k) bs).
Proof.
  induction k as [|k IH]; intros n bs Hk; [done|]. destruct n as [|n]; [lia|]. cbn [words take]. f_equal.
  - f_equal. rewrite take_take. f_equal. lia.
  - rewrite IH by lia. f_equal. rewrite skipn_firstn_comm. f_equal. lia.
Qed.

Lemma forM_fold {A B} (f : A -> B -> A) (g : Z -> res B) (h : nat -> B) n a :
  (forall i, (i < n)%nat -> g (Z.of_nat i) = Ok (h i)) ->
  forM n 0 (fun i a => b ← g i; Ok (f a b)) a = Ok (fold_left f (map h (seq 0 n)) a).
Proof.
  intros H. forM_induction (fun i s => s = fold_left f (map h (seq 0 i)) a); [done| |].
  - intros i s Hi ->. rewrite H by lia. rewrite bind_Ok. eexists. split; [done|].
    by rewrite seq_S, map_app, fold_left_app.
  - destruct Hloop as (s & -> & ->). done.
Qed.

Lemma fold_left_map {A B C} (f : A -> B -> A) (h : C -> B) l : forall a,
  fold_left f (map h l) a = fold_left (fun a c => f a (h c)) l a.
Proof. induction l as [|c l IH]; intros a; [done|]. cbn [map fold_left]. apply IH. Qed.

Lemma sponge_agree l d : length d = 25%nat ->
  fold_left (fun d p => keccak_f (zip_with Z.lxor d p)) (map (fun p => words 17 p ++ replicate 8 0) l) d = fold_left absorb l d.
Proof.
  intros Hd. rewrite fold_left_map. apply (fold_left_agree (fun d => length d = 25%nat) (fun _ => True)); [|exact Hd|by apply Forall_true].
  intros a b Ha _. unfold absorb. set (x := zip_with Z.lxor a (words 17 b ++ replicate 8 0)).
  assert (Hx : length x = 25%nat) by (unfold x; rewrite length_zip_with, length_app, words_length, length_replicate, Ha; done).
  clearbody x. exact (keccak_f_fips x Hx).
Qed.

Lemma p_block_spec k p i : (i < k)%nat ->
  p_block (words (17 * k) p) (Z.of_nat i) = Ok (words 17 (take rate (drop (rate * i) p)) ++ replicate 8 0).
Proof.
  intros Hi. unfold p_block. replace (Z.to_nat (17 * Z.of_nat i)) with (17 * i)%nat by lia.
  rewrite slice_Some by (rewrite words_length; lia). cbn [of_option]. rewrite bind_Ok.
  rewrite drop_words, take_words by lia. do 3 f_equal. unfold rate. f_equal. f_equal. lia.
Qed.

Lemma sha3_256_spec message n :
  bytes message -> (n <= length message)%nat ->
  sha3_256 true message (Z.of_nat n) = Ok (fips_sha3_256 (take n message)).
Proof.
  intros Hb Hn. unfold sha3_256. cbn [negb]. rewrite pad_message_spec, bind_Ok by done.
  set (k := S (n / rate)). set (p := sponge_pad (take n message)).
  replace (Z.to_nat (Z.quot (Z.of_nat (17 * k)) 17)) with k by (rewrite Z.quot_div_nonneg by lia; zlia).
  rewrite (forM_fold (fun d p => keccak_f (zip_with Z.lxor d p)) (p_block (words (17 * k) p))
    (fun i => words 17 (take rate (drop (rate * i) p)) ++ replicate 8 0)) by (intros; by apply p_block_spec).
  rewrite bind_Ok. unfold fips_sha3_256. fold p. rewrite length_take_le by done. fold k.
  rewrite <- (map_map (fun i => take rate (drop (rate * i) p)) (fun b => words 17 b ++ replicate 8 0)).
  by rewrite sponge_agree by apply length_replicate.
Qed.

(** C25: [sha3_256] is SHA3-256. For every message and every length within it,
    with the allocations granted, the function returns without an access out
    of range and the digest is the 32-byte output of the FIPS 202 sponge:
    the message with the byte form of the 01 suffix and pad10*1, absorbed in
    blocks of 136 bytes through 24 rounds of the permutation in coordinate
    form with the standard's derived offsets and constants. *)
Theorem sha3_256_fips message n :
  bytes message -> (n <= length message)%nat ->
  sha3_256 true message (Z.of_nat n) = Ok (fips_sha3_256 (take n message)).
Proof. apply sha3_256_spec. Qed.

(** The digest of the message "abc" published with the standard. *)
Lemma sha3_256_fips_witness :
  sha3_256 true [0x61; 0x62; 0x63] 3 = Ok (fips_sha3_256 [0x61; 0x62; 0x63]) /\
  sha3_256 true [0x61; 0x62; 0x63] 3 = Ok [
    0x3a; 0x98; 0x5d; 0xa7; 0x4f; 0xe2; 0x25; 0xb2; 0x04; 0x5c; 0x17; 0x2d; 0x6b; 0xd3; 0x90; 0xbd;
    0x85; 0x5f; 0x08; 0x6e; 0x3e; 0x9d; 0x52; 0x5b; 0x46; 0xbf; 0xe2; 0x45; 0x11; 0x43; 0x15; 0x32 ].
Proof.
  split; [|vm_compute; reflexivity].
  apply (sha3_256_fips [0x61; 0x62; 0x63] 3); [by apply (bool_decide_unpack _)|cbn; lia].
Defined.
