(* ===== verification/Aont.v ===== *)
(** * Aont: the all-or-nothing transform with erasure coding (src/lib/aont.c)

    [encode_aont_package] encrypts a block under a random key, appends the key
    masked by the digest of the ciphertext, cuts the package into data shares
    and adds parity shares; [decode_aont_package] reverses it. The shares
    are buffers of a store, as in CauchyRs. The theorem composes the round
    trips of the three libraries it is built from. *)
From stdpp Require Import base tactics option list numbers gmap.
From Stdlib Require Import ZArith Lia.
From S2P Require Import Prelude Galois CauchyGf CauchyMem CauchyRs CauchyElim CauchyDecode CauchyUninit Speck Sha3.

Local Open Scope Z_scope.
Local Open Scope afs_scope.

Definition CANARY_SIZE : Z := 16.
Definition KEY_SIZE : Z := 32.

Definition get_share_size (data_length data_blocks : Z) : res Z :=
  if data_blocks =? 0 then Fault else Ok ((data_length + CANARY_SIZE + KEY_SIZE) / data_blocks).

(** What the environment decides: which allocations succeed and what the
    fresh buffers hold. *)
Record aont_env := {
  plaintext_ok : bool;
  ciphertext_ok : bool;
  pad_ok : bool;
  keys_ok : Z -> bool;
  sha3_ok : bool;
  originals_ok : bool;
  decoder_ok : bool * bool * bool;
  plaintext_heap : list Z;
  ciphertext_heap : list Z;
  pad_heap : Z * Z;
  decoder_heap : list Z;
  matrix_heap : list Z;
}.

(** [speck_ctr] on byte buffers seen as arrays of words. *)
Definition speck_ctr_bytes (env : aont_env) (inp out : list Z) (pt_length : Z) (key nonce : list Z) : res (list Z) :=
  let n := (length out / 8)%nat in
  out' ← speck_ctr (pad_ok env) (keys_ok env) (pad_heap env) (words (length inp / 8) inp) (words n out) pt_length key nonce;
  Ok (unwords out' ++ drop (8 * n) out).

Definition memcpy_at (off : Z) (src : list Z) (n : Z) (dst : list Z) : res (list Z) :=
  s ← of_option (slice 0 (Z.to_nat n) src); of_option (splice (Z.to_nat off) s dst).

(** The loops that copy the package to the shares and back. *)
Definition package_to_shares (package : list Z) (rs_block_size : Z) (shares : list nat) (data_blocks : nat) (st : store) : res store :=
  forM data_blocks 0 (fun i st =>
    q ← get shares i;
    src ← of_option (slice (Z.to_nat (rs_block_size * i)) (Z.to_nat rs_block_size) package);
    b ← of_option (st !! q);
    b ← of_option (splice 0 src b);
    Ok (<[q := b]> st)) st.

Definition shares_to_package (package : list Z) (rs_block_size : Z) (shares : list nat) (data_blocks : nat) (st : store) : res (list Z) :=
  forM data_blocks 0 (fun i package =>
    q ← get shares i;
    b ← of_option (st !! q);
    memcpy_at (rs_block_size * i) b rs_block_size package) package.

Section Aont.
Context (c : gf_ctx) (ssse3 : bool) (env : aont_env).

Definition aont_params (rs_block_size data_blocks parity_blocks : Z) : cauchy_encoder_params :=
  {| OriginalCount := data_blocks; RecoveryCount := parity_blocks; BlockBytes := rs_block_size |}.

(** [key] is what [get_random_bytes] returns, as four words. The result is
    the return value, [difference] and the shares. *)
Definition encode_aont_package (key : list Z) (difference data : list Z) (data_length : Z) (shares : list nat)
    (data_blocks parity_blocks : Z) (nonce : list Z) (st : store) : res (Z * list Z * store) :=
  let cipher_size := data_length in
  let encrypted_payload_size := cipher_size + KEY_SIZE in
  if data_blocks =? 0 then Fault else
  let rs_block_size := encrypted_payload_size / data_blocks in
  if negb (plaintext_ok env) then Ok (-1, difference, st) else
  if negb (ciphertext_ok env) then Ok (-1, difference, st) else
  plaintext_buffer ← of_option (slice 0 (Z.to_nat encrypted_payload_size) (plaintext_heap env));
  ciphertext_buffer ← of_option (slice 0 (Z.to_nat encrypted_payload_size) (ciphertext_heap env));
  plaintext_buffer ← memcpy_at 0 data data_length plaintext_buffer;
  ciphertext_buffer ← speck_ctr_bytes env plaintext_buffer ciphertext_buffer cipher_size key nonce;
  hash ← sha3_256 (sha3_ok env) ciphertext_buffer cipher_size;
  difference ← of_option (splice 0 (unwords (zip_with Z.lxor (take 4 key) (words 4 hash))) difference);
  ciphertext_buffer ← memcpy_at cipher_size difference KEY_SIZE ciphertext_buffer;
  st ← package_to_shares ciphertext_buffer rs_block_size shares (Z.to_nat data_blocks) st;
  '(_, st) ← cauchy_rs_encode c ssse3 (originals_ok env) (aont_params rs_block_size data_blocks parity_blocks)
      (take (Z.to_nat data_blocks) shares) (drop (Z.to_nat data_blocks) shares) st;
  Ok (0, difference, st).

(** The result is the return value, [difference], the data and the shares. *)
Definition decode_aont_package (difference data : list Z) (data_length : Z) (shares : list nat)
    (data_blocks parity_blocks : Z) (nonce : list Z) (erasures : list Z) (num_erasures : Z) (st : store)
  : res (Z * list Z * list Z * store) :=
  let cipher_size := data_length in
  let encrypted_payload_size := cipher_size + KEY_SIZE in
  if data_blocks =? 0 then Fault else
  let rs_block_size := encrypted_payload_size / data_blocks in
  if negb (plaintext_ok env) then Ok (-1, difference, data, st) else
  if negb (ciphertext_ok env) then Ok (-1, difference, data, st) else
  plaintext_buffer ← of_option (slice 0 (Z.to_nat encrypted_payload_size) (plaintext_heap env));
  ciphertext_buffer ← of_option (slice 0 (Z.to_nat encrypted_payload_size) (ciphertext_heap env));
  '(ret, st) ← cauchy_rs_decode c ssse3 (decoder_ok env) (decoder_heap env) (matrix_heap env)
      (aont_params rs_block_size data_blocks parity_blocks)
      (take (Z.to_nat data_blocks) shares) (drop (Z.to_nat data_blocks) shares) erasures num_erasures st;
  ciphertext_buffer ← shares_to_package ciphertext_buffer rs_block_size shares (Z.to_nat data_blocks) st;
  hash ← sha3_256 (sha3_ok env) ciphertext_buffer cipher_size;
  diff ← of_option (slice (Z.to_nat cipher_size) (Z.to_nat KEY_SIZE) ciphertext_buffer);
  difference ← of_option (splice 0 diff difference);
  let key := zip_with Z.lxor (words 4 difference) (words 4 hash) in
  plaintext_buffer ← speck_ctr_bytes env ciphertext_buffer plaintext_buffer cipher_size key nonce;
  data ← memcpy_at 0 plaintext_buffer data_length data;
  Ok (ret, difference, data, st).
End Aont.

(** ** Words and bytes *)
Lemma unwords_app a b : unwords (a ++ b) = unwords a ++ unwords b.
Proof. unfold unwords. by rewrite map_app, concat_app. Qed.

Lemma unwords_xor n : forall bs ws, bytes bs -> length bs = (8 * n)%nat -> length ws = n -> Forall (in_range 64) ws ->
  unwords (zip_with Z.lxor (words n bs) ws) = zip_with Z.lxor bs (unwords ws).
Proof.
  induction n as [|n IH]; intros bs ws Hb Hl Hw Hr.
  - destruct bs, ws; try done.
  - destruct ws as [|w ws]; [done|]. apply Forall_cons in Hr as [Hw1 Hr]. cbn [words zip_with].
    change (unwords (?a :: ?l)) with (le_store 8 a ++ unwords l).
    rewrite IH by (rewrite ?length_drop; (by apply Forall_drop) || (cbn in Hw; lia) || done).
    rewrite <- (take_drop 8 bs) at 3. rewrite zip_with_app by (rewrite length_take, le_store_length; lia). f_equal.
    assert (Ht : length (take 8 bs) = 8%nat) by (rewrite length_take; lia).
    transitivity (le_store (length (take 8 bs)) (Z.lxor (le_load (take 8 bs)) (le_load (le_store 8 w)))).
    + rewrite Ht, le_load_store. by rewrite Z.mod_small.
    + apply word_lxor; [by apply Forall_take|apply le_store_bytes|by rewrite le_store_length].
Qed.

Lemma unwords_drop_words n j bs : bytes bs -> (8 * n = length bs)%nat -> (j <= n)%nat ->
  unwords (drop j (words n bs)) = drop (8 * j) bs.
Proof.
  intros Hb Hl Hj. rewrite drop_words by done. apply unwords_words; [by apply Forall_drop|]. rewrite length_drop. lia.
Qed.

(** ** The key stream as bytes *)
Lemma pad_at_ok key nonce t : Forall (in_range 64) key -> Forall (in_range 64) nonce -> block_ok (pad_at key nonce t).
Proof.
  intros Hk Hn. assert (Hit : Forall (in_range 64) (Nat.iter t add1 nonce)).
  { induction t as [|t IH]; [done|]. change (Nat.iter (S t) add1 nonce) with (add1 (Nat.iter t add1 nonce)). by apply add1_ok. }
  rewrite pad_at_unfold. apply fold_dec_enc; [split; by apply tab_range|by apply key_schedule_ok].
Qed.

Lemma keystream_ok key nonce n : Forall (in_range 64) key -> Forall (in_range 64) nonce -> Forall (in_range 64) (keystream key nonce n).
Proof.
  intros Hk Hn. induction n as [|n IH]; [by constructor|]. rewrite keystream_S. apply Forall_app. split; [done|].
  destruct (pad_at_ok key nonce n Hk Hn). by repeat (apply Forall_cons; split; [done|]).
Qed.

Definition stream (key nonce : list Z) (blocks : nat) : list Z := unwords (keystream key nonce blocks).

Lemma stream_length key nonce n : length (stream key nonce n) = (16 * n)%nat.
Proof. unfold stream. rewrite unwords_length, keystream_length. lia. Qed.

Section Roundtrip.
Context (env : aont_env) (b : nat) (key : list Z) (n0 n1 : Z).
Context (Hpad : pad_ok env = true) (Hkeys : forall t, keys_ok env t = true)
  (Hkey : Forall (in_range 64) key) (Hn0 : in_range 64 n0) (Hn1 : in_range 64 n1).
Let P := (16 * b + 32)%nat.

Lemma ctr_bytes_spec inp out : bytes inp -> bytes out -> length inp = P -> length out = P ->
  speck_ctr_bytes env inp out (16 * Z.of_nat b) key [n0; n1]
  = Ok (zip_with Z.lxor (take (16 * b) inp) (stream key [n0; n1] b) ++ drop (16 * b) out).
Proof.
  intros Bi Bo Li Lo. unfold speck_ctr_bytes. rewrite Li, Lo.
  assert (E8 : (P / 8 = 2 * b + 4)%nat) by (unfold P; replace (16 * b + 32)%nat with ((2 * b + 4) * 8)%nat by lia; by apply Nat.div_mul).
  rewrite E8, speck_ctr_spec by (rewrite ?words_length; done || lia). rewrite bind_Ok. f_equal.
  rewrite unwords_app, unwords_drop_words by (done || lia || (rewrite Lo; unfold P; lia)).
  rewrite (drop_ge out (8 * (2 * b + 4))), app_nil_r by (rewrite Lo; unfold P; lia).
  rewrite take_words by lia. replace (8 * (2 * b))%nat with (16 * b)%nat by lia. f_equal.
  apply unwords_xor; [by apply Forall_take|rewrite length_take; unfold P in *; lia|apply keystream_length|].
  apply keystream_ok; [done|]. by repeat (apply Forall_cons; split; [done|]).
Qed.
End Roundtrip.

(** ** Cutting the package into shares and joining them *)
Section Shares.
Context (k r : nat) (shares : list nat) (Hk : (k <= length shares)%nat) (Hnd : NoDup (take k shares)).

Lemma share_lookup i : (i < k)%nat -> exists q, shares !! i = Some q /\ take k shares !! i = Some q.
Proof.
  intros Hi. destruct (lookup_lt_is_Some_2 shares i ltac:(lia)) as [q Eq]. exists q. split; [done|].
  by rewrite lookup_take, decide_True.
Qed.

Definition piece (package : list Z) (i : nat) : list Z := take r (drop (r * i) package).

Lemma package_to_shares_spec package st :
  length package = (k * r)%nat -> bytes package -> buffers_ok r st (take k shares) ->
  exists st', package_to_shares package (Z.of_nat r) shares k st = Ok st' /\
    (forall i q old, take k shares !! i = Some q -> st !! q = Some old -> st' !! q = Some (piece package i ++ drop r old)) /\
    (forall q, q ∉ take k shares -> st' !! q = st !! q).
Proof.
  intros Lp Bp Hst. unfold package_to_shares.
  forM_induction (fun c (st' : store) =>
    (forall i q old, (i < c)%nat -> take k shares !! i = Some q -> st !! q = Some old -> st' !! q = Some (piece package i ++ drop r old)) /\
    (forall q, q ∉ take c shares -> st' !! q = st !! q)).
  - split; [intros; lia|done].
  - intros i st1 Hi [H1 H2]. destruct (share_lookup i ltac:(lia)) as (q & Eq & Eq').
    rewrite (get_nat _ _ _ Eq), bind_Ok. replace (Z.to_nat (Z.of_nat r * Z.of_nat i)) with (r * i)%nat by lia. rewrite Nat2Z.id.
    assert (r * i + r <= length package)%nat by nia. rewrite slice_Some by done. cbn [of_option]. rewrite bind_Ok.
    assert (Hni : q ∉ take i shares).
    { intros Hin. apply list_elem_of_lookup in Hin as [j Ej]. apply lookup_take_Some in Ej as [Ej Hj].
      assert (Ej' : take k shares !! j = Some q) by (rewrite lookup_take, decide_True; [done|lia]).
      pose proof (NoDup_lookup _ _ _ _ Hnd Ej' Eq'). lia. }
    destruct (Hst q ltac:(by eapply list_elem_of_lookup_2)) as (buf & Eb & Bb & Lb).
    rewrite H2, Eb by done. cbn [of_option]. rewrite bind_Ok. fold (piece package i).
    assert (Lpc : length (piece package i) = r) by (unfold piece; rewrite length_take, length_drop; lia).
    rewrite splice_Some by lia. cbn [of_option]. rewrite bind_Ok, take_0, app_nil_l, Lpc. eexists. split; [done|].
    assert (Hlt : (q < length st1)%nat) by (eapply lookup_lt_Some; rewrite H2 by done; exact Eb). split.
    + intros j q' old Hj Ej Eo. destruct (decide (q' = q)) as [->|Hne].
      * rewrite (NoDup_lookup _ _ _ _ Hnd Ej Eq'), list_lookup_insert_eq by done. rewrite Eb in Eo. by injection Eo as ->.
      * rewrite list_lookup_insert_ne by done. apply H1; [|done..]. destruct (decide (j = i)) as [->|]; [congruence|lia].
    + intros q' Hq'. rewrite (take_S_r _ _ _ Eq), not_elem_of_app, list_elem_of_singleton in Hq'.
      rewrite list_lookup_insert_ne by (intros ->; tauto). apply H2. tauto.
  - destruct Hloop as (st' & -> & H1 & H2). exists st'. split; [done|]. split; [|done].
    intros i q old Ei. apply H1; [|done]. apply lookup_lt_Some in Ei. rewrite length_take in Ei. lia.
Qed.

Lemma shares_to_package_spec package buf st :
  length package = (k * r)%nat -> length buf = (k * r)%nat ->
  (forall i q, take k shares !! i = Some q -> exists t, st !! q = Some (piece package i ++ t)) ->
  shares_to_package buf (Z.of_nat r) shares k st = Ok package.
Proof.
  intros Lp Lb Hst. unfold shares_to_package.
  forM_induction (fun c buf' => buf' = take (r * c) package ++ drop (r * c) buf).
  - by rewrite Nat.mul_0_r, take_0, drop_0.
  - intros i buf' Hi ->. destruct (share_lookup i ltac:(lia)) as (q & Eq & Eq').
    rewrite (get_nat _ _ _ Eq), bind_Ok. destruct (Hst i q Eq') as [t Et]. rewrite Et. cbn [of_option]. rewrite bind_Ok.
    assert (r * i + r <= length package)%nat by nia.
    assert (Lpc : length (piece package i) = r) by (unfold piece; rewrite length_take, length_drop; lia).
    unfold memcpy_at. rewrite Nat2Z.id, slice_Some by (rewrite length_app; lia). cbn [of_option].
    rewrite bind_Ok, drop_0, take_app_length' by done.
    replace (Z.to_nat (Z.of_nat r * Z.of_nat i)) with (r * i)%nat by lia.
    assert (Lt : length (take (r * i) package) = (r * i)%nat) by (rewrite length_take; lia).
    rewrite splice_Some by (rewrite length_app, length_drop; lia). cbn [of_option]. eexists. split; [done|].
    rewrite Lpc, take_app_length' by done. rewrite drop_app_ge by lia. rewrite Lt, drop_drop.
    replace (r * i + (r * i + r - r * i))%nat with (r * S i)%nat by lia. rewrite app_assoc. f_equal.
    unfold piece. replace (r * S i)%nat with (r * i + r)%nat by lia. by rewrite <- take_take_drop.
  - destruct Hloop as (buf' & -> & ->). rewrite take_ge, drop_ge by lia. by rewrite app_nil_r.
Qed.
End Shares.

(** ** The round trip *)

(** All allocations succeed and fresh memory is large enough, for packages of
    [P] bytes and [e] erasures. *)
Record env_ok (P e : nat) (env : aont_env) : Prop := {
  env_plaintext : plaintext_ok env = true;
  env_ciphertext : ciphertext_ok env = true;
  env_pad : pad_ok env = true;
  env_keys t : keys_ok env t = true;
  env_sha3 : sha3_ok env = true;
  env_originals : originals_ok env = true;
  env_decoder : decoder_ok env = (true, true, true);
  env_plaintext_heap : (P <= length (plaintext_heap env))%nat /\ bytes (plaintext_heap env);
  env_ciphertext_heap : (P <= length (ciphertext_heap env))%nat /\ bytes (ciphertext_heap env);
  env_decoder_heap : length (decoder_heap env) = 256%nat;
  env_matrix_heap : (e * e <= length (matrix_heap env))%nat;
}.

(** What the package holds: the ciphertext and the masked key. *)
Definition aont_cipher (b : nat) (key nonce data : list Z) : list Z :=
  zip_with Z.lxor (take (16 * b) data) (stream key nonce b).
Definition aont_difference (cipher key : list Z) : list Z :=
  unwords (zip_with Z.lxor (take 4 key) (words 4 (fips_sha3_256 cipher))).
Definition aont_package (b : nat) (key nonce data : list Z) : list Z :=
  aont_cipher b key nonce data ++ aont_difference (aont_cipher b key nonce data) key.

Lemma fips_sha3_256_bytes m : bytes (fips_sha3_256 m).
Proof. apply Forall_take, unwords_bytes. Qed.

Lemma aont_difference_length cipher key : length key = 4%nat -> length (aont_difference cipher key) = 32%nat.
Proof. intros Hk. unfold aont_difference. rewrite unwords_length, length_zip_with, length_take, words_length, Hk. done. Qed.

Lemma zip_lxor_range w a c : 0 <= w -> Forall (in_range w) a -> Forall (in_range w) c -> Forall (in_range w) (zip_with Z.lxor a c).
Proof.
  intros Hw Ha. revert c; induction Ha as [|x a Hx _ IH]; intros c Hc; destruct c as [|y c]; try constructor.
  - apply Forall_cons in Hc as [Hy _]. by apply lxor_range.
  - apply Forall_cons in Hc as [_ Hc]. by apply IH.
Qed.

(** The key comes back from the masked key and the ciphertext. *)
Lemma unmask_key cipher key : length key = 4%nat -> Forall (in_range 64) key ->
  zip_with Z.lxor (words 4 (aont_difference cipher key)) (words 4 (fips_sha3_256 cipher)) = key.
Proof.
  intros Lk Hk. unfold aont_difference. set (h := words 4 (fips_sha3_256 cipher)).
  assert (Lh : length h = 4%nat) by apply words_length.
  assert (Hh : Forall (in_range 64) h) by (apply words_range, fips_sha3_256_bytes).
  rewrite take_ge by lia. set (x := zip_with Z.lxor key h).
  assert (Lx : length x = 4%nat) by (unfold x; rewrite length_zip_with; lia).
  assert (Hx : Forall (in_range 64) x) by by apply zip_lxor_range.
  rewrite <- Lx at 1. rewrite words_unwords by done. apply zip_lxor_twice. lia.
Qed.

Lemma memcpy_at_spec off src n dst : 0 <= off -> 0 <= n -> (Z.to_nat n <= length src)%nat -> (Z.to_nat off + Z.to_nat n <= length dst)%nat ->
  memcpy_at off src n dst = Ok (take (Z.to_nat off) dst ++ take (Z.to_nat n) src ++ drop (Z.to_nat off + Z.to_nat n) dst).
Proof.
  intros. unfold memcpy_at. rewrite slice_Some, drop_0 by lia. cbn [of_option]. rewrite bind_Ok.
  rewrite splice_Some by (rewrite length_take; lia). by rewrite length_take_le.
Qed.

Section Package.
Context (c : gf_ctx) (ssse3 : bool) `{SystematicCoder c ssse3} (b k m r : nat) (shares : list nat) (key data : list Z) (n0 n1 : Z).
Let P := (16 * b + 32)%nat.
Context (Hk : (0 < k)%nat) (Hm : (1 < m)%nat) (Hkm : (k + m <= 256)%nat) (Hr : (k * r = P)%nat)
  (Hshares : length shares = (k + m)%nat) (Hnd : NoDup shares)
  (Lkey : length key = 4%nat) (Hkey : Forall (in_range 64) key) (Hn0 : in_range 64 n0) (Hn1 : in_range 64 n1)
  (Bdata : bytes data) (Ldata : (16 * b <= length data)%nat).
Let pkg := aont_package b key [n0; n1] data.
Let cipher := aont_cipher b key [n0; n1] data.

Lemma cipher_facts : length cipher = (16 * b)%nat /\ bytes cipher /\ length pkg = P /\ bytes pkg.
Proof.
  assert (L : length cipher = (16 * b)%nat).
  { unfold cipher, aont_cipher. rewrite length_zip_with, length_take, stream_length. lia. }
  assert (B : bytes cipher) by (apply zip_lxor_bytes; [by apply Forall_take|apply unwords_bytes]).
  split_and!; [done|done| |].
  - unfold pkg, aont_package. rewrite length_app. fold cipher. rewrite L, aont_difference_length by done. done.
  - apply Forall_app. split; [exact B|apply unwords_bytes].
Qed.

Lemma share_size : (16 * Z.of_nat b + KEY_SIZE) / Z.of_nat k = Z.of_nat r.
Proof. replace (16 * Z.of_nat b + KEY_SIZE) with (Z.of_nat r * Z.of_nat k) by (unfold KEY_SIZE, P in *; lia). apply Z.div_mul. lia. Qed.

Lemma r_pos : (0 < r)%nat.
Proof. destruct r; [unfold P in Hr; lia|lia]. Qed.

(** Encoding writes the pieces of the package and their parity. *)
Lemma encode_package env e difference st :
  env_ok P e env -> length difference = 32%nat -> buffers_ok r st shares ->
  exists st0 st1, encode_aont_package c ssse3 env key difference data (16 * Z.of_nat b) shares
      (Z.of_nat k) (Z.of_nat m) [n0; n1] st = Ok (0, aont_difference cipher key, st1) /\
    cauchy_rs_encode c ssse3 true (aont_params (Z.of_nat r) (Z.of_nat k) (Z.of_nat m)) (take k shares) (drop k shares) st0
      = Ok (0, st1) /\
    buffers_ok r st0 shares /\ buffers_ok r st1 (take k shares) /\
    (forall q, q ∉ drop k shares -> st1 !! q = st0 !! q) /\
    (forall i q old, take k shares !! i = Some q -> st !! q = Some old -> st0 !! q = Some (piece r pkg i ++ drop r old)) /\
    (forall q, q ∉ take k shares -> st0 !! q = st !! q).
Proof.
  intros Henv Ld Hst. destruct cipher_facts as (Lc & Bc & Lp & Bp). pose proof r_pos as Hr0.
  assert (Hndk : NoDup (take k shares)) by (eapply sublist_NoDup; [exact Hnd|apply sublist_take]).
  destruct (package_to_shares_spec k r shares ltac:(lia) Hndk pkg st ltac:(lia) Bp) as (st0 & E0 & Hpc & Hf0).
  { intros q Hq. apply Hst. by apply (subseteq_take k). }
  assert (Hb0 : buffers_ok r st0 shares).
  { intros q Hq. destruct (decide (q ∈ take k shares)) as [Hin|Hin].
    - apply list_elem_of_lookup in Hin as [i Ei].
      destruct (Hst q) as (old & Eo & Bo & Lo); [apply (subseteq_take k); by eapply list_elem_of_lookup_2|].
      exists (piece r pkg i ++ drop r old). split; [by apply Hpc|].
      split; [apply Forall_app; split; [by apply Forall_take, Forall_drop|by apply Forall_drop]|].
      apply lookup_lt_Some in Ei. rewrite length_take in Ei. rewrite length_app. unfold piece. rewrite length_take, length_drop. nia.
    - rewrite Hf0 by done. by apply Hst. }
  destruct (encode_systematic r k m (take k shares) (drop k shares) st0) as (st1 & E1 & Hf1).
  { done. } { done. } { done. } { done. } { rewrite length_take; lia. } { rewrite length_drop; lia. }
  { by rewrite take_drop. } { by rewrite take_drop. }
  assert (Hb1 : buffers_ok r st1 (take k shares)).
  { intros q Hq. rewrite Hf1; [apply Hb0; by apply (subseteq_take k)|].
    pose proof Hnd as Hnd'. rewrite <- (take_drop k shares) in Hnd'. apply NoDup_app in Hnd' as (_ & Hdis & _). by apply Hdis. }
  exists st0, st1. split_and!; [|exact E1|exact Hb0|exact Hb1|exact Hf1|exact Hpc|exact Hf0].
  unfold encode_aont_package. destruct (Z.eqb_spec (Z.of_nat k) 0); [lia|]. rewrite share_size.
  destruct Henv as [H1 H2 H3 H4 H5 H6 _ [L1 B1] [L2 B2] _ _]. rewrite H1, H2, H5, H6. cbn [negb].
  assert (EP : Z.to_nat (16 * Z.of_nat b + KEY_SIZE) = P) by (unfold KEY_SIZE, P; lia).
  rewrite EP, !slice_Some, !drop_0 by lia. cbn [of_option]. rewrite !bind_Ok.
  assert (E16 : Z.to_nat (16 * Z.of_nat b) = (16 * b)%nat) by lia.
  rewrite (memcpy_at_spec 0) by (rewrite ?length_take; unfold P in *; lia). rewrite bind_Ok, E16.
  change (Z.to_nat 0) with 0%nat. rewrite take_0, app_nil_l, Nat.add_0_l.
  assert (BP : bytes (take P (plaintext_heap env))) by by apply Forall_take.
  assert (BC : bytes (take P (ciphertext_heap env))) by by apply Forall_take.
  rewrite (ctr_bytes_spec env b key n0 n1 H3 H4 Hkey Hn0 Hn1).
  2: { apply Forall_app. split; [by apply Forall_take|by apply Forall_drop]. }
  2: done. 2: { rewrite length_app, length_take, length_drop, length_take. unfold P in *. lia. }
  2: { rewrite length_take. unfold P in *. lia. }
  rewrite bind_Ok, take_app_length' by (rewrite length_take; lia). fold (aont_cipher b key [n0; n1] data). fold cipher.
  set (tail := drop (16 * b) (take P (ciphertext_heap env))).
  assert (Lt : length tail = 32%nat) by (unfold tail, P in *; rewrite length_drop, length_take; lia).
  assert (Bt : bytes (cipher ++ tail)) by (apply Forall_app; split; [done|by apply Forall_drop]).
  replace (16 * Z.of_nat b) with (Z.of_nat (16 * b)) by lia.
  rewrite (sha3_256_spec _ _ Bt) by (rewrite length_app; lia). rewrite bind_Ok, take_app_length' by done.
  fold (aont_difference cipher key). pose proof (aont_difference_length cipher key Lkey) as LD.
  rewrite splice_Some by lia. cbn [of_option]. rewrite bind_Ok, take_0, app_nil_l, LD, (drop_ge difference), app_nil_r by lia.
  rewrite memcpy_at_spec by (rewrite ?length_app; unfold KEY_SIZE; lia). rewrite bind_Ok, Nat2Z.id, (take_app_length' cipher), (take_ge (aont_difference _ _)) by (done || unfold KEY_SIZE; lia).
  rewrite (drop_ge (cipher ++ tail)), app_nil_r by (rewrite length_app; lia). fold pkg in E0. rewrite ?Nat2Z.id.
  change (cipher ++ aont_difference cipher key) with pkg. rewrite E0, bind_Ok.
  unfold aont_params in *. rewrite E1. done.
Qed.

(** Decoding a store whose pieces can be repaired gives the data back. *)
Lemma decode_package env e difference data0 erasures num_erasures st2 st3 :
  env_ok P e env -> length difference = 32%nat -> (16 * b <= length data0)%nat ->
  cauchy_rs_decode c ssse3 (decoder_ok env) (decoder_heap env) (matrix_heap env)
    (aont_params (Z.of_nat r) (Z.of_nat k) (Z.of_nat m)) (take k shares) (drop k shares)
    erasures num_erasures st2 = Ok (0, st3) ->
  (forall i q, take k shares !! i = Some q -> exists t, st3 !! q = Some (piece r pkg i ++ t)) ->
  decode_aont_package c ssse3 env difference data0 (16 * Z.of_nat b) shares (Z.of_nat k) (Z.of_nat m) [n0; n1]
    erasures num_erasures st2
  = Ok (0, aont_difference cipher key, take (16 * b) data ++ drop (16 * b) data0, st3).
Proof.
  intros Henv Ld Ld0 Edec Hpc. destruct cipher_facts as (Lc & Bc & Lp & Bp).
  pose proof (aont_difference_length cipher key Lkey) as LD.
  destruct Henv as [H1 H2 H3 H4 H5 H6 _ [L1 B1] [L2 B2] _ _].
  unfold decode_aont_package. destruct (Z.eqb_spec (Z.of_nat k) 0); [lia|]. rewrite share_size, H1, H2, H5. cbn [negb].
  assert (EP : Z.to_nat (16 * Z.of_nat b + KEY_SIZE) = P) by (unfold KEY_SIZE, P; lia).
  assert (E16 : Z.to_nat (16 * Z.of_nat b) = (16 * b)%nat) by lia.
  rewrite EP, !slice_Some, !drop_0 by lia. cbn [of_option]. rewrite !bind_Ok, ?Nat2Z.id, Edec, bind_Ok.
  rewrite (shares_to_package_spec k r shares ltac:(lia) pkg _ st3) by (done || lia || (rewrite length_take; lia)).
  rewrite bind_Ok. replace (16 * Z.of_nat b) with (Z.of_nat (16 * b)) at 1 by lia.
  rewrite (sha3_256_spec _ _ Bp) by lia. rewrite bind_Ok.
  assert (Epkg : pkg = cipher ++ aont_difference cipher key) by done.
  assert (Etk : take (16 * b) pkg = cipher) by (rewrite Epkg; by apply take_app_length').
  rewrite Etk, E16, slice_Some by (unfold KEY_SIZE; rewrite Lp; unfold P; lia). cbn [of_option].
  rewrite bind_Ok, Epkg, drop_app_length' by done. rewrite (take_ge (aont_difference _ _)) by (unfold KEY_SIZE; lia).
  rewrite splice_Some by lia. cbn [of_option]. rewrite bind_Ok, take_0, app_nil_l, LD, (drop_ge difference), app_nil_r by lia.
  rewrite unmask_key by done. rewrite <- Epkg.
  rewrite (ctr_bytes_spec env b key n0 n1 H3 H4 Hkey Hn0 Hn1) by (done || (by apply Forall_take) || (rewrite length_take; unfold P in *; lia)).
  assert (Epl : zip_with Z.lxor cipher (stream key [n0; n1] b) = take (16 * b) data)
    by (apply zip_lxor_twice; rewrite length_take, stream_length; lia).
  rewrite bind_Ok, Etk, Epl.
  rewrite memcpy_at_spec by (rewrite ?length_app, ?length_take; lia). rewrite bind_Ok. change (Z.to_nat 0) with 0%nat.
  rewrite take_0, app_nil_l, E16, take_app_length' by (rewrite length_take; lia). done.
Qed.

End Package.


(** C11: the all-or-nothing transform round-trips through losses. For every
    number of cipher blocks [b], every [k >= 1] data and [m >= 2] parity
    shares with [k + m <= 256] whose sizes divide the package evenly, every
    random key, nonce and data, and every content of fresh memory: encoding
    returns 0; and after any at most [m] data shares have been overwritten
    arbitrarily, decoding with their indices returns 0, writes the original
    [16 * b] bytes to the front of the data buffer and leaves the rest of it. *)
Theorem aont_roundtrip ssse3 (b k m r : nat) shares key data n0 n1 env1 env2 e difference1 difference2 data0 st :
  let P := (16 * b + 32)%nat in
  (0 < k)%nat -> (1 < m)%nat -> (k + m <= 256)%nat -> (k * r = P)%nat ->
  length shares = (k + m)%nat -> NoDup shares -> buffers_ok r st shares ->
  length key = 4%nat -> Forall (in_range 64) key -> in_range 64 n0 -> in_range 64 n1 ->
  bytes data -> (16 * b <= length data)%nat -> (16 * b <= length data0)%nat ->
  env_ok P e env1 -> env_ok P e env2 -> length difference1 = 32%nat -> length difference2 = 32%nat ->
  exists difference st1, encode_aont_package ready_ctx ssse3 env1 key difference1 data (16 * Z.of_nat b) shares
      (Z.of_nat k) (Z.of_nat m) [n0; n1] st = Ok (0, difference, st1) /\
    buffers_ok r st1 (take k shares) /\
    forall erasures st2, NoDup erasures -> (forall i, i ∈ erasures -> 0 <= i < Z.of_nat k) ->
      (length erasures <= m)%nat -> (length erasures <= e)%nat ->
      lost r (take k shares) (drop k shares) erasures st1 st2 ->
      exists st3, decode_aont_package ready_ctx ssse3 env2 difference2 data0 (16 * Z.of_nat b) shares
          (Z.of_nat k) (Z.of_nat m) [n0; n1] erasures (Z.of_nat (length erasures)) st2
        = Ok (0, difference, take (16 * b) data ++ drop (16 * b) data0, st3).
Proof.
  intros P Hk Hm Hkm Hr Hs Hnd Hst Lkey Hkey Hn0 Hn1 Bd Ld Ld0 He1 He2 Hd1 Hd2.
  assert (Hr0 : (0 < r)%nat) by (destruct r; lia).
  destruct (cipher_facts b k m r shares key data n0 n1 Hk Hm Hkm Hr Hs Lkey Bd Ld) as (_ & _ & Lp & _).
  destruct (encode_package ready_ctx ssse3 b k m r shares key data n0 n1) with (env := env1) (e := e) (difference := difference1) (st := st)
    as (st0 & st1 & E1 & Er1 & Hb0 & Hb1 & _ & Hpc & _); try done.
  eexists _, st1. split; [exact E1|]. split; [exact Hb1|]. intros erasures st2 Hnde Hrange Hle Hlee Hlost.
  destruct (repair ssse3 r k m (take k shares) (drop k shares) st0) as (st1' & Er1' & _ & Hdec); try (done || by rewrite take_drop).
  { rewrite length_take; lia. } { rewrite length_drop; lia. }
  unfold aont_params in Er1. rewrite Er1 in Er1'. injection Er1' as <-.
  destruct (Hdec erasures (decoder_heap env2) (matrix_heap env2) st2) as (st3 & E3 & H3); try done.
  { by apply He2. } { pose proof (env_matrix_heap _ _ _ He2). nia. }
  exists st3. eapply decode_package; try done; [rewrite (env_decoder _ _ _ He2); exact E3|].
  intros i q Ei. assert (Hin : q ∈ take k shares) by (by eapply list_elem_of_lookup_2).
  destruct (Hst q) as (old & Eo & _); [by apply (subseteq_take k)|]. specialize (H3 q Hin).
  assert (Lpc : length (piece r (aont_package b key [n0; n1] data) i) = r).
  { unfold piece. rewrite length_take, length_drop. apply lookup_lt_Some in Ei. rewrite length_take in Ei. nia. }
  rewrite (Hpc i q old Ei Eo) in H3.
  assert (Epc : forall t, take r <$> Some (piece r (aont_package b key [n0; n1] data) i ++ t) = Some (piece r (aont_package b key [n0; n1] data) i)).
  { intros t. cbn [fmap option_fmap option_map]. by rewrite take_app_length'. }
  rewrite Epc in H3. apply fmap_Some in H3 as (s & Es & ->). exists (drop r s). by rewrite take_drop.
Qed.

Definition sample_env : aont_env := {|
  plaintext_ok := true; ciphertext_ok := true; pad_ok := true; keys_ok := fun _ => true; sha3_ok := true; originals_ok := true;
  decoder_ok := (true, true, true); plaintext_heap := replicate 48 17; ciphertext_heap := replicate 48 99; pad_heap := (3, 4);
  decoder_heap := replicate 256 5; matrix_heap := replicate 4 6 |}.

Lemma aont_roundtrip_witness :
  let shares := [0; 1; 2; 3]%nat in let st := replicate 4 (replicate 24 0) in
  exists difference st1, encode_aont_package ready_ctx true sample_env [1; 2; 3; 4] (replicate 32 0) (replicate 16 65) 16 shares 2 2 [7; 8] st
      = Ok (0, difference, st1) /\
    exists st3, decode_aont_package ready_ctx true sample_env (replicate 32 0) (replicate 17 0) 16 shares 2 2 [7; 8] [] 0 st1
        = Ok (0, difference, replicate 16 65 ++ [0], st3).
Proof.
  intros shares st.
  assert (Hnd : NoDup shares) by (apply (bool_decide_unpack _); vm_compute; exact I).
  assert (Hst : buffers_ok 24 st shares).
  { intros q Hq. exists (replicate 24 0). split; [|split; [by apply Forall_replicate|done]].
    unfold shares in Hq. repeat (apply elem_of_cons in Hq as [->|Hq]; [done|]). by apply elem_of_nil in Hq. }
  assert (Henv : env_ok 48 2 sample_env) by (constructor; try done; split; (done || by apply Forall_replicate)).
  assert (Hkey : Forall (in_range 64) [1; 2; 3; 4]) by (by repeat (apply Forall_cons; split; [done|])).
  destruct (aont_roundtrip true 1 2 2 24 shares [1; 2; 3; 4] (replicate 16 65) 7 8 sample_env sample_env 2 (replicate 32 0) (replicate 32 0)
    (replicate 17 0) st ltac:(lia) ltac:(lia) ltac:(lia) eq_refl eq_refl Hnd Hst eq_refl Hkey ltac:(done) ltac:(done)
    ltac:(by apply Forall_replicate) ltac:(done) ltac:(cbn; lia) Henv Henv eq_refl eq_refl) as (d & st1 & E1 & Hb1 & Hdec).
  exists d, st1. split; [exact E1|].
  refine (Hdec [] st1 (NoDup_nil_2) _ (Nat.le_0_l 2) (Nat.le_0_l 2) _).
  - intros i Hi. destruct (not_elem_of_nil i Hi).
  - split; [intros; reflexivity|]. split; [intros; reflexivity|exact Hb1].
Defined.
