(* ===== verification/City.v ===== *)
(** * City: CityHash (src/lib/city.c, include/lib/city.h)

    The 32-, 64- and 128-bit hashes of a buffer. A pointer into the buffer is
    an offset, and a load outside the buffer is a [Fault]. The part of the file
    under [__SSE4_2__] is not compiled into the module. Theorems: for every
    length that the buffer covers the hashes return, read only the bytes they
    were given, and fit their type; [CityHash128] reads 16 bytes before it
    looks at the length. *)
From stdpp Require Import base tactics option list numbers.
From Stdlib Require Import ZArith Lia.
From S2P Require Import Prelude.

Local Open Scope Z_scope.
Local Open Scope afs_scope.

Record uint128 := mk_uint128 { first : Z; second : Z }.

(** ** Loads *)
Definition load (n : nat) (s : list Z) (p : Z) : res Z :=
  if p <? 0 then Fault else bs ← of_option (slice (Z.to_nat p) n s); Ok (le_load bs).

Definition Fetch64 (s : list Z) (p : Z) : res Z := load 8 s p.
Definition Fetch32 (s : list Z) (p : Z) : res Z := load 4 s p.

Definition bswap_32 (x : Z) : Z := le_load (rev (le_store 4 x)).
Definition bswap_64 (x : Z) : Z := le_load (rev (le_store 8 x)).

(** ** Mixing *)
Definition k0 : Z := 0xc3a5c85c97cb3127.
Definition k1 : Z := 0xb492b66fbe98f273.
Definition k2 : Z := 0x9ae16a3b2f90404f.
Definition c1 : Z := 0xcc9e2d51.
Definition c2 : Z := 0x1b873593.

Definition Hash128to64 (x : uint128) : Z :=
  let kMul := 0x9ddfea08eb382d69 in
  let a := (first x xor second x) *64 kMul in
  let a := a xor Z.shiftr a 47 in
  let b := (second x xor a) *64 kMul in
  let b := b xor Z.shiftr b 47 in
  b *64 kMul.

Definition fmix (h : Z) : Z :=
  let h := h xor Z.shiftr h 16 in
  let h := h *32 0x85ebca6b in
  let h := h xor Z.shiftr h 13 in
  let h := h *32 0xc2b2ae35 in
  h xor Z.shiftr h 16.

Definition Rotate32 (val shift : Z) : Z :=
  if shift =? 0 then val else Z.lor (Z.shiftr val shift) (u32 (Z.shiftl val (32 - shift))).

Definition Mur (a h : Z) : Z :=
  let a := a *32 c1 in
  let a := Rotate32 a 17 in
  let a := a *32 c2 in
  let h := h xor a in
  let h := Rotate32 h 19 in
  (h *32 5) +32 0xe6546b64.

Definition Rotate (val shift : Z) : Z :=
  if shift =? 0 then val else Z.lor (Z.shiftr val shift) (u64 (Z.shiftl val (64 - shift))).

Definition ShiftMix (val : Z) : Z := val xor Z.shiftr val 47.

Definition HashLen16 (u v : Z) : Z := Hash128to64 (mk_uint128 u v).

Definition HashLen16Mul (u v mul : Z) : Z :=
  let a := (u xor v) *64 mul in
  let a := a xor Z.shiftr a 47 in
  let b := (v xor a) *64 mul in
  let b := b xor Z.shiftr b 47 in
  b *64 mul.

(** ** CityHash32 *)
Definition Hash32Len13to24 (s : list Z) (len : Z) : res Z :=
  a ← Fetch32 s (-4 + Z.shiftr len 1);
  b ← Fetch32 s 4;
  c ← Fetch32 s (len - 8);
  d ← Fetch32 s (Z.shiftr len 1);
  e ← Fetch32 s 0;
  f ← Fetch32 s (len - 4);
  let h := u32 len in
  Ok (fmix (Mur f (Mur e (Mur d (Mur c (Mur b (Mur a h))))))).

(** [signed char v = s[i]], added to an unsigned number. *)
Definition sign_extend (b : Z) : Z := if b <? 128 then b else u32 (b - 256).

Definition Hash32Len0to4 (s : list Z) (len : Z) : res Z :=
  '(b, c) ← forM (Z.to_nat len) 0 (fun i '(b, c) =>
    v ← get s i;
    let b := (b *32 c1) +32 sign_extend v in
    Ok (b, c xor b)) (0, 9);
  Ok (fmix (Mur b (Mur (u32 len) c))).

Definition Hash32Len5to12 (s : list Z) (len : Z) : res Z :=
  let a := u32 len in let b := u32 (len * 5) in let c := 9 in let d := b in
  fa ← Fetch32 s 0;
  let a := a +32 fa in
  fb ← Fetch32 s (len - 4);
  let b := b +32 fb in
  fc ← Fetch32 s (Z.land (Z.shiftr len 1) 4);
  let c := c +32 fc in
  Ok (fmix (Mur c (Mur b (Mur a d)))).

(** One iteration of the loop, at offset [p]; the three variables are
    permuted at its end. *)
Definition hash32_round (s : list Z) (p : Z) (hgf : Z * Z * Z) : res (Z * Z * Z) :=
  let '(h, g, f) := hgf in
  f0 ← Fetch32 s p;
  let a0 := Rotate32 (f0 *32 c1) 17 *32 c2 in
  a1 ← Fetch32 s (p + 4);
  f2 ← Fetch32 s (p + 8);
  let a2 := Rotate32 (f2 *32 c1) 17 *32 c2 in
  f3 ← Fetch32 s (p + 12);
  let a3 := Rotate32 (f3 *32 c1) 17 *32 c2 in
  a4 ← Fetch32 s (p + 16);
  let h := h xor a0 in
  let h := Rotate32 h 18 in
  let h := (h *32 5) +32 0xe6546b64 in
  let f := f +32 a1 in
  let f := Rotate32 f 19 in
  let f := f *32 c1 in
  let g := g +32 a2 in
  let g := Rotate32 g 18 in
  let g := (g *32 5) +32 0xe6546b64 in
  let h := h xor (a3 +32 a1) in
  let h := Rotate32 h 19 in
  let h := (h *32 5) +32 0xe6546b64 in
  let g := g xor a4 in
  let g := bswap_32 g *32 5 in
  let h := h +32 (a4 *32 5) in
  let h := bswap_32 h in
  let f := f +32 a0 in
  (* PERMUTE3(f, h, g) *)
  Ok (f, h, g).

Definition hash32_finish (h g f : Z) : Z :=
  let g := Rotate32 g 11 *32 c1 in
  let g := Rotate32 g 17 *32 c1 in
  let f := Rotate32 f 11 *32 c1 in
  let f := Rotate32 f 17 *32 c1 in
  let h := Rotate32 (h +32 g) 19 in
  let h := (h *32 5) +32 0xe6546b64 in
  let h := Rotate32 h 17 *32 c1 in
  let h := Rotate32 (h +32 f) 19 in
  let h := (h *32 5) +32 0xe6546b64 in
  Rotate32 h 17 *32 c1.

Definition hash32_start (s : list Z) (len : Z) : res (Z * Z * Z) :=
  let h := u32 len in let g := c1 *32 len in let f := g in
  f0 ← Fetch32 s (len - 4);
  let a0 := Rotate32 (f0 *32 c1) 17 *32 c2 in
  f1 ← Fetch32 s (len - 8);
  let a1 := Rotate32 (f1 *32 c1) 17 *32 c2 in
  f2 ← Fetch32 s (len - 16);
  let a2 := Rotate32 (f2 *32 c1) 17 *32 c2 in
  f3 ← Fetch32 s (len - 12);
  let a3 := Rotate32 (f3 *32 c1) 17 *32 c2 in
  f4 ← Fetch32 s (len - 20);
  let a4 := Rotate32 (f4 *32 c1) 17 *32 c2 in
  let h := h xor a0 in
  let h := Rotate32 h 19 in
  let h := (h *32 5) +32 0xe6546b64 in
  let h := h xor a2 in
  let h := Rotate32 h 19 in
  let h := (h *32 5) +32 0xe6546b64 in
  let g := g xor a1 in
  let g := Rotate32 g 19 in
  let g := (g *32 5) +32 0xe6546b64 in
  let g := g xor a3 in
  let g := Rotate32 g 19 in
  let g := (g *32 5) +32 0xe6546b64 in
  let f := f +32 a4 in
  let f := Rotate32 f 19 in
  let f := (f *32 5) +32 0xe6546b64 in
  Ok (h, g, f).

Definition CityHash32 (s : list Z) (len : Z) : res Z :=
  if len <=? 24 then
    if len <=? 12 then (if len <=? 4 then Hash32Len0to4 s len else Hash32Len5to12 s len)
    else Hash32Len13to24 s len
  else
    start ← hash32_start s len;
    '(h, g, f) ← forM (Z.to_nat ((len - 1) / 20)) 0 (fun i hgf => hash32_round s (20 * i) hgf) start;
    Ok (hash32_finish h g f).

Definition cityhash32_to_16 (s : list Z) (len : Z) : res Z :=
  data ← CityHash32 s len;
  Ok (Z.land data 0xffff xor Z.land (Z.shiftr data 16) 0xffff).

(** ** CityHash64 *)
Definition HashLen0to16 (s : list Z) (p len : Z) : res Z :=
  if 8 <=? len then
    let mul := k2 +64 len * 2 in
    fa ← Fetch64 s p;
    let a := fa +64 k2 in
    b ← Fetch64 s (p + len - 8);
    let c := (Rotate b 37 *64 mul) +64 a in
    let d := (Rotate a 25 +64 b) *64 mul in
    Ok (HashLen16Mul c d mul)
  else if 4 <=? len then
    let mul := k2 +64 len * 2 in
    a ← Fetch32 s p;
    b ← Fetch32 s (p + len - 4);
    Ok (HashLen16Mul (len +64 Z.shiftl a 3) b mul)
  else if 0 <? len then
    a ← get s p;
    b ← get s (p + Z.shiftr len 1);
    c ← get s (p + len - 1);
    let y := a +32 Z.shiftl b 8 in
    let z := u32 (len + u32 (Z.shiftl c 2)) in
    Ok (ShiftMix ((y *64 k2) xor (z *64 k0)) *64 k2)
  else Ok k2.

Definition HashLen17to32 (s : list Z) (len : Z) : res Z :=
  let mul := k2 +64 len * 2 in
  fa ← Fetch64 s 0;
  let a := fa *64 k1 in
  b ← Fetch64 s 8;
  fc ← Fetch64 s (len - 8);
  let c := fc *64 mul in
  fd ← Fetch64 s (len - 16);
  let d := fd *64 k2 in
  Ok (HashLen16Mul ((Rotate (a +64 b) 43 +64 Rotate c 30) +64 d)
                   ((a +64 Rotate (b +64 k2) 18) +64 c) mul).

Definition WeakHashLen32WithSeeds (w x y z a b : Z) : uint128 :=
  let a := a +64 w in
  let b := Rotate ((b +64 a) +64 z) 21 in
  let c := a in
  let a := a +64 x in
  let a := a +64 y in
  let b := b +64 Rotate a 44 in
  mk_uint128 (a +64 z) (b +64 c).

Definition WeakHashLen32WithSeedsArray (s : list Z) (p a b : Z) : res uint128 :=
  w ← Fetch64 s p;
  x ← Fetch64 s (p + 8);
  y ← Fetch64 s (p + 16);
  z ← Fetch64 s (p + 24);
  Ok (WeakHashLen32WithSeeds w x y z a b).

Definition HashLen33to64 (s : list Z) (len : Z) : res Z :=
  let mul := k2 +64 len * 2 in
  fa ← Fetch64 s 0;
  let a := fa *64 k2 in
  b ← Fetch64 s 8;
  c ← Fetch64 s (len - 24);
  d ← Fetch64 s (len - 32);
  fe ← Fetch64 s 16;
  let e := fe *64 k2 in
  ff ← Fetch64 s 24;
  let f := ff *64 9 in
  g ← Fetch64 s (len - 8);
  fh ← Fetch64 s (len - 16);
  let h := fh *64 mul in
  let u := Rotate (a +64 g) 43 +64 ((Rotate b 30 +64 c) *64 9) in
  let v := (((a +64 g) xor d) +64 f) +64 1 in
  let w := bswap_64 ((u +64 v) *64 mul) +64 h in
  let x := Rotate (e +64 f) 42 +64 c in
  let y := (bswap_64 ((v +64 w) *64 mul) +64 g) *64 mul in
  let z := (e +64 f) +64 c in
  let a := bswap_64 (((x +64 z) *64 mul) +64 y) +64 b in
  let b := ShiftMix ((((z +64 a) *64 mul) +64 d) +64 h) *64 mul in
  Ok (b +64 x).

(** The 56 bytes of state and the iteration that CityHash64 and CityHash128
    share, on 64 bytes at [p]. *)
Record city_state := mk_city { cx : Z; cy : Z; cz : Z; cv : uint128; cw : uint128 }.

Definition city_round (s : list Z) (p : Z) (t : city_state) : res city_state :=
  let '(mk_city x y z v w) := t in
  f8 ← Fetch64 s (p + 8);
  let x := Rotate (((x +64 y) +64 first v) +64 f8) 37 *64 k1 in
  f48 ← Fetch64 s (p + 48);
  let y := Rotate ((y +64 second v) +64 f48) 42 *64 k1 in
  let x := x xor second w in
  f40 ← Fetch64 s (p + 40);
  let y := y +64 (first v +64 f40) in
  let z := Rotate (z +64 first w) 33 *64 k1 in
  v ← WeakHashLen32WithSeedsArray s p (second v *64 k1) (x +64 first w);
  f16 ← Fetch64 s (p + 16);
  w ← WeakHashLen32WithSeedsArray s (p + 32) (z +64 second w) (y +64 f16);
  (* SWAP(z, x) *)
  Ok (mk_city z y x v w).

Definition CityHash64 (s : list Z) (len : Z) : res Z :=
  if len <=? 32 then
    if len <=? 16 then HashLen0to16 s 0 len else HashLen17to32 s len
  else if len <=? 64 then HashLen33to64 s len
  else
    x ← Fetch64 s (len - 40);
    y1 ← Fetch64 s (len - 16);
    y2 ← Fetch64 s (len - 56);
    let y := y1 +64 y2 in
    z1 ← Fetch64 s (len - 48);
    z2 ← Fetch64 s (len - 24);
    let z := HashLen16 (z1 +64 len) z2 in
    v ← WeakHashLen32WithSeedsArray s (len - 64) len z;
    w ← WeakHashLen32WithSeedsArray s (len - 32) (y +64 k1) x;
    f0 ← Fetch64 s 0;
    let x := (x *64 k1) +64 f0 in
    (* (len - 1) & ~63, 64 bytes at a time *)
    t ← forM (Z.to_nat ((len - 1) / 64)) 0 (fun i t => city_round s (64 * i) t) (mk_city x y z v w);
    let '(mk_city x y z v w) := t in
    Ok (HashLen16 ((HashLen16 (first v) (first w) +64 (ShiftMix y *64 k1)) +64 z)
                  (HashLen16 (second v) (second w) +64 x)).

Definition CityHash64WithSeeds (s : list Z) (len seed0 seed1 : Z) : res Z :=
  h ← CityHash64 s len; Ok (HashLen16 (h -64 seed0) seed1).

Definition CityHash64WithSeed (s : list Z) (len seed : Z) : res Z := CityHash64WithSeeds s len k2 seed.

(** ** CityHash128, on the [len] bytes from offset [p] *)

(** One iteration of [CityMurmur]. *)
Definition murmur_round (s : list Z) (p : Z) (abcd : Z * Z * Z * Z) : res (Z * Z * Z * Z) :=
  let '(a, b, c, d) := abcd in
  f0 ← Fetch64 s p;
  let a := a xor (ShiftMix (f0 *64 k1) *64 k1) in
  let a := a *64 k1 in
  let b := b xor a in
  f8 ← Fetch64 s (p + 8);
  let c := c xor (ShiftMix (f8 *64 k1) *64 k1) in
  let c := c *64 k1 in
  let d := d xor c in
  Ok (a, b, c, d).

Definition CityMurmur (s : list Z) (p len : Z) (seed : uint128) : res uint128 :=
  let a := first seed in
  let b := second seed in
  '(a, b, c, d) ←
    (if len <=? 16 then
       let a := ShiftMix (a *64 k1) *64 k1 in
       h ← HashLen0to16 s p len;
       let c := (b *64 k1) +64 h in
       f ← (if 8 <=? len then Fetch64 s p else Ok c);
       let d := ShiftMix (a +64 f) in
       Ok (a, b, c, d)
     else
       fc ← Fetch64 s (p + len - 8);
       let c := HashLen16 (fc +64 k1) a in
       fd ← Fetch64 s (p + len - 16);
       let d := HashLen16 (b +64 len) (c +64 fd) in
       let a := a +64 d in
       forM (Z.to_nat ((len - 16 + 15) / 16)) 0 (fun i abcd => murmur_round s (p + 16 * i) abcd) (a, b, c, d));
  let a := HashLen16 a c in
  let b := HashLen16 d b in
  Ok (mk_uint128 (a xor b) (HashLen16 b a)).

(** The loop over the tail: [len] bytes are left and end at [last]. *)
Definition tail_round (s : list Z) (last : Z) (i : Z) (t : city_state) : res city_state :=
  let '(mk_city x y z v w) := t in
  let tail_done := 32 * (i + 1) in
  let y := (Rotate (x +64 y) 42 *64 k0) +64 second v in
  f16 ← Fetch64 s (last - tail_done + 16);
  let w := mk_uint128 (first w +64 f16) (second w) in
  let x := (x *64 k0) +64 first w in
  f0 ← Fetch64 s (last - tail_done);
  let z := z +64 (second w +64 f0) in
  let w := mk_uint128 (first w) (second w +64 first v) in
  v ← WeakHashLen32WithSeedsArray s (last - tail_done) (first v +64 z) (second v);
  let v := mk_uint128 (first v *64 k0) (second v) in
  Ok (mk_city x y z v w).

Definition CityHash128WithSeed (s : list Z) (p len : Z) (seed : uint128) : res uint128 :=
  if len <? 128 then CityMurmur s p len seed
  else
    let x := first seed in
    let y := second seed in
    let z := len *64 k1 in
    f0 ← Fetch64 s p;
    let v1 := (Rotate (y xor k1) 49 *64 k1) +64 f0 in
    f8 ← Fetch64 s (p + 8);
    let v2 := (Rotate v1 42 *64 k1) +64 f8 in
    let w1 := (Rotate (y +64 z) 35 *64 k1) +64 x in
    f88 ← Fetch64 s (p + 88);
    let w2 := Rotate (x +64 f88) 53 *64 k1 in
    t ← forM (Z.to_nat (len / 128)) 0 (fun i t =>
      t ← city_round s (p + 128 * i) t;
      city_round s (p + 128 * i + 64) t) (mk_city x y z (mk_uint128 v1 v2) (mk_uint128 w1 w2));
    let '(mk_city x y z v w) := t in
    let x := x +64 (Rotate (first v +64 z) 49 *64 k0) in
    let y := (y *64 k0) +64 Rotate (second w) 37 in
    let z := (z *64 k0) +64 Rotate (first w) 27 in
    let w := mk_uint128 (first w *64 9) (second w) in
    let v := mk_uint128 (first v *64 k0) (second v) in
    t ← forM (Z.to_nat ((len mod 128 + 31) / 32)) 0 (tail_round s (p + len)) (mk_city x y z v w);
    let '(mk_city x y z v w) := t in
    let x := HashLen16 x (first v) in
    let y := HashLen16 (y +64 z) (first w) in
    Ok (mk_uint128 (HashLen16 (x +64 second v) (second w) +64 y)
                   (HashLen16 (x +64 second w) (y +64 second v))).

(** Both words are read before the length is looked at. *)
Definition CityHash128 (s : list Z) (len : Z) : res uint128 :=
  f0 ← Fetch64 s 0;
  f8 ← Fetch64 s 8;
  let output1 := mk_uint128 f0 (f8 +64 k0) in
  let output2 := mk_uint128 k0 k1 in
  if 16 <=? len then CityHash128WithSeed s 16 (len - 16) output1 else CityHash128WithSeed s 0 len output2.

Definition cityhash128_to_array (hash : uint128) : list Z := le_store 8 (first hash) ++ le_store 8 (second hash).

(** ** Two runs that agree

    The runs on a buffer and on a longer one both return, with one value. *)
Definition agree {A} (P : A -> Prop) (r r' : res A) : Prop := exists v, r = Ok v /\ r' = Ok v /\ P v.

Lemma agree_Ok {A} (P : A -> Prop) v : P v -> agree P (Ok v) (Ok v).
Proof. intros. by exists v. Qed.

Lemma agree_bind {A B} (P : A -> Prop) (Q : B -> Prop) m m' (k k' : A -> res B) :
  agree P m m' -> (forall v, P v -> agree Q (k v) (k' v)) -> agree Q (m ≫= k) (m' ≫= k').
Proof. intros (v & -> & -> & Hv) Hk. by apply Hk. Qed.

Lemma agree_forM {S} n i (body body' : Z -> S -> res S) s :
  (forall k s, i <= k < i + Z.of_nat n -> agree (fun _ => True) (body k s) (body' k s)) ->
  agree (fun _ => True) (forM n i body s) (forM n i body' s).
Proof.
  revert i s. induction n as [|n IH]; intros i s H; [by apply agree_Ok|]. cbn [forM].
  apply (agree_bind (fun _ => True)); [apply H; lia|]. intros v _. apply IH. intros. apply H. lia.
Qed.

Section Bounds.
Context (s t : list Z).
Let n := Z.of_nat (length s).

Lemma load_agree k p : 0 <= p -> p + Z.of_nat k <= n -> agree (fun _ => True) (load k s p) (load k (s ++ t) p).
Proof.
  intros H0 H1. exists (le_load (take k (drop (Z.to_nat p) s))). unfold load. destruct (Z.ltb_spec p 0); [lia|].
  rewrite slice_app_l, slice_Some by lia. done.
Qed.

Lemma get_agree p : 0 <= p < n -> agree (fun _ => True) (get s p) (get (s ++ t) p).
Proof.
  intros Hp. destruct (lookup_lt_is_Some_2 s (Z.to_nat p) ltac:(lia)) as [v E]. exists v.
  rewrite <- (Z2Nat.id p) by lia. rewrite !(get_nat _ _ v) by (rewrite ?lookup_app_l by lia; done). done.
Qed.

(** Runs through a sequence of loads. *)
Ltac agree_step :=
  first
    [ eapply agree_bind;
      [first [apply load_agree; try change (Z.of_nat 4) with 4; try change (Z.of_nat 8) with 8; zlia | apply get_agree; zlia | eassumption]|intros ? _]
    | apply agree_Ok ].
Ltac agree_loads := unfold Fetch32, Fetch64; cbv zeta; repeat agree_step.

Lemma weak_agree p a b : 0 <= p -> p + 32 <= n ->
  agree (fun _ => True) (WeakHashLen32WithSeedsArray s p a b) (WeakHashLen32WithSeedsArray (s ++ t) p a b).
Proof. intros. unfold WeakHashLen32WithSeedsArray. by agree_loads. Qed.

Lemma city_round_agree p st : 0 <= p -> p + 64 <= n ->
  agree (fun _ => True) (city_round s p st) (city_round (s ++ t) p st).
Proof.
  intros. destruct st as [x y z v w]. unfold city_round. agree_loads.
  eapply agree_bind; [apply weak_agree; lia|intros ? _]. agree_step.
  eapply agree_bind; [apply weak_agree; lia|intros ? _]. by apply agree_Ok.
Qed.

Lemma hash32_round_agree p hgf : 0 <= p -> p + 20 <= n ->
  agree (fun _ => True) (hash32_round s p hgf) (hash32_round (s ++ t) p hgf).
Proof. intros. destruct hgf as [[h g] f]. unfold hash32_round. by agree_loads. Qed.

Lemma fmix_range h : in_range 32 h -> in_range 32 (fmix h).
Proof. intros. unfold fmix. auto 8 with afs. Qed.
Lemma Mur_range a h : in_range 32 (Mur a h).
Proof. apply wrap_range. lia. Qed.

Lemma hash32_agree : agree (in_range 32) (CityHash32 s n) (CityHash32 (s ++ t) n).
Proof.
  assert (Hn : 0 <= n) by lia. unfold CityHash32. repeat zcase.
  - unfold Hash32Len0to4. eapply (agree_bind (fun _ => True)); [|intros [b c] _; apply agree_Ok, fmix_range, Mur_range].
    apply agree_forM. intros k [b c] Hk. by agree_loads.
  - unfold Hash32Len5to12. assert (0 <= Z.land (Z.shiftr n 1) 4 /\ Z.land (Z.shiftr n 1) 4 + 4 <= n).
    { assert (Hf : forallb (fun n => (0 <=? Z.land (Z.shiftr n 1) 4) && (Z.land (Z.shiftr n 1) 4 + 4 <=? n)) (seqZ 5 8) = true) by done.
      rewrite forallb_forall in Hf. specialize (Hf n ltac:(apply list_elem_of_In, elem_of_seqZ; lia)). lia. }
    agree_loads. apply fmix_range, Mur_range.
  - unfold Hash32Len13to24. rewrite Z.shiftr_div_pow2 by lia. agree_loads. apply fmix_range, Mur_range.
  - unfold hash32_start. eapply (agree_bind (fun _ => True)); [by agree_loads|]. intros [[h g] f] _. cbv beta iota.
    eapply (agree_bind (fun _ => True)); [|intros [[h' g'] f'] _; apply agree_Ok; apply wrap_range; lia].
    apply agree_forM. intros k hgf Hk. apply hash32_round_agree; [lia|]. zlia.
Qed.

Lemma HashLen16Mul_range u v mul : in_range 64 (HashLen16Mul u v mul).
Proof. apply wrap_range. lia. Qed.
Lemma HashLen16_range u v : in_range 64 (HashLen16 u v).
Proof. apply wrap_range. lia. Qed.

Lemma HashLen0to16_agree p len : 0 <= p -> 0 <= len <= 16 -> p + len <= n ->
  agree (in_range 64) (HashLen0to16 s p len) (HashLen0to16 (s ++ t) p len).
Proof.
  intros. unfold HashLen0to16. destruct (Z.leb_spec 8 len); [agree_loads; apply HashLen16Mul_range|].
  destruct (Z.leb_spec 4 len); [agree_loads; apply HashLen16Mul_range|]. zcase; [|by apply agree_Ok].
  rewrite Z.shiftr_div_pow2 by lia. agree_loads. apply wrap_range. lia.
Qed.

Lemma hash64_agree : agree (in_range 64) (CityHash64 s n) (CityHash64 (s ++ t) n).
Proof.
  assert (Hn : 0 <= n) by lia. unfold CityHash64. repeat zcase.
  - apply HashLen0to16_agree; lia.
  - unfold HashLen17to32. agree_loads. apply HashLen16Mul_range.
  - unfold HashLen33to64. agree_loads. apply wrap_range. lia.
  - agree_loads. eapply agree_bind; [apply weak_agree; lia|intros ? _].
    eapply agree_bind; [apply weak_agree; lia|intros ? _]. agree_step.
    eapply (agree_bind (fun _ => True)); [|intros [] _; apply agree_Ok, HashLen16_range].
    apply agree_forM. intros k st Hk. apply city_round_agree; [lia|]. zlia.
Qed.

Definition in_range128 (h : uint128) : Prop := in_range 64 (first h) /\ in_range 64 (second h).

Lemma murmur_agree p len seed : 0 <= p -> 0 <= len -> p + len <= n ->
  agree in_range128 (CityMurmur s p len seed) (CityMurmur (s ++ t) p len seed).
Proof.
  intros. unfold CityMurmur. eapply (agree_bind (fun _ => True)).
  - zcase.
    + eapply agree_bind; [apply HashLen0to16_agree; lia|intros h _].
      eapply (agree_bind (fun _ => True)); [zcase; [apply load_agree; lia|by apply agree_Ok]|intros f _]. by apply agree_Ok.
    + agree_loads. apply agree_forM. intros k [[[a b] c] d] Hk. unfold murmur_round.
      assert (16 * k + 16 <= len) by zlia. by agree_loads.
  - intros [[[a b] c] d] _. apply agree_Ok. split; cbn [first second]; [|apply HashLen16_range].
    apply lxor_range; [lia|apply HashLen16_range..].
Qed.

Lemma hash128_seed_agree p len seed : 0 <= p -> 0 <= len -> p + len <= n ->
  agree in_range128 (CityHash128WithSeed s p len seed) (CityHash128WithSeed (s ++ t) p len seed).
Proof.
  intros. unfold CityHash128WithSeed. zcase; [by apply murmur_agree|]. agree_loads.
  eapply (agree_bind (fun _ => True)).
  { apply agree_forM. intros k st Hk. assert (128 * k + 128 <= len) by zlia.
    eapply agree_bind; [apply city_round_agree; lia|intros st' _]. apply city_round_agree; lia. }
  intros [x3 y3 z3 v3 w3] _. eapply (agree_bind (fun _ => True)).
  { apply agree_forM. intros k [x' y' z' v' w'] Hk. assert (32 * (k + 1) <= len) by zlia. unfold tail_round. agree_loads.
    eapply agree_bind; [apply weak_agree; lia|intros ? _]. by apply agree_Ok. }
  intros [] _. apply agree_Ok. split; cbn [first second]; [apply wrap_range; lia|apply HashLen16_range].
Qed.

Lemma hash128_agree : 16 <= n -> agree in_range128 (CityHash128 s n) (CityHash128 (s ++ t) n).
Proof. intros. unfold CityHash128. agree_loads. zcase; [|lia]. apply hash128_seed_agree; lia. Qed.
End Bounds.

Lemma fold16_range h : in_range 32 h -> in_range 16 (Z.land h 0xffff xor Z.land (Z.shiftr h 16) 0xffff).
Proof. intros. apply lxor_range; [lia|rewrite Z.land_comm; by apply land_range|rewrite Z.land_comm; by apply land_range]. Qed.

Lemma checksum_agree s t : agree (in_range 16) (cityhash32_to_16 s (Z.of_nat (length s))) (cityhash32_to_16 (s ++ t) (Z.of_nat (length s))).
Proof. eapply agree_bind; [apply hash32_agree|]. intros h Hh. by apply agree_Ok, fold16_range. Qed.

(** C40: the hashes stay inside their input. On a buffer of any length the
    32-bit hash with its 16-bit folding and the 64-bit hash return, never read
    a byte outside the given length (what follows the buffer in memory does
    not matter), and the result fits its type; so does the 128-bit hash from 16
    bytes on. *)
Theorem cityhash_in_bounds s t :
  let len := Z.of_nat (length s) in
  agree (in_range 32) (CityHash32 s len) (CityHash32 (s ++ t) len) /\
  agree (in_range 16) (cityhash32_to_16 s len) (cityhash32_to_16 (s ++ t) len) /\
  agree (in_range 64) (CityHash64 s len) (CityHash64 (s ++ t) len) /\
  (16 <= len -> agree in_range128 (CityHash128 s len) (CityHash128 (s ++ t) len)).
Proof.
  split; [apply hash32_agree|]. split; [apply checksum_agree|]. split; [apply hash64_agree|apply hash128_agree].
Qed.

(** [CityHash128] reads outside a buffer of fewer than 16 bytes, although
    it chooses the variant for such lengths right after; [CityHash128WithSeed]
    and the other hashes handle them, and give the values published with the
    library on the empty buffer. *)
Theorem cityhash128_short_read s :
  (length s < 16)%nat -> CityHash128 s (Z.of_nat (length s)) = Fault /\
  exists h, CityHash128WithSeed s 0 (Z.of_nat (length s)) (mk_uint128 k0 k1) = Ok h.
Proof.
  intros Hs. split.
  - unfold CityHash128, Fetch64, load. cbn -[slice]. change (Z.to_nat 8) with 8%nat.
    assert (E : slice 8 8 s = None) by (unfold slice; case_decide; [lia|done]). rewrite E.
    by destruct (slice (Z.to_nat 0) 8 s).
  - destruct (hash128_seed_agree s [] 0 (Z.of_nat (length s)) (mk_uint128 k0 k1)) as (h & E & _); [lia..|]. by exists h.
Qed.

Lemma cityhash128_short_read_witness :
  CityHash128 [] 0 = Fault /\ CityHash128WithSeed [] 0 0 (mk_uint128 k0 k1) = Ok (mk_uint128 0x3df09dfc64c09a2b 0x3cb540c392e51e29).
Proof.
  destruct (cityhash128_short_read []) as [H _]; [cbn; lia|]. split; [exact H|]. vm_compute. reflexivity.
Defined.
