(* ===== verification/EngineQueue.v ===== *)
(** * EngineQueue: the queue of requests (src/dm_afs_engine.c)

    An engine queue is a red-black tree of requests keyed by block number. The
    search and the insertion point are this code's; [rb_insert_color] and
    [rb_erase], which rebalance, are the kernel's and the class [RbTree] states
    what they document: the in-order sequence of the nodes is kept, or loses
    the erased one. Each operation holds the queue's lock, so it is one step.
    Theorem: the operations refine a finite map from block numbers to
    requests; adding a block that is queued never returns. *)
From stdpp Require Import base tactics option list numbers gmap sorting.
From Stdlib Require Import ZArith Lia.
From S2P Require Import Prelude BlockIo.

Local Open Scope Z_scope.
Local Open Scope afs_scope.

Inductive rb_tree (A : Type) := Leaf | Node (rb_left : rb_tree A) (this : A) (rb_right : rb_tree A).
Arguments Leaf {A}.
Arguments Node {A} _ _ _.

Fixpoint inorder {A} (t : rb_tree A) : list A :=
  match t with Leaf => [] | Node l x r => inorder l ++ x :: inorder r end.

(** The kernel's part. A node is identified with the request it is in. *)
Class RbTree (A : Type) := {
  rb_insert_color : rb_tree A -> rb_tree A;
  rb_erase : A -> rb_tree A -> rb_tree A;
}.

Class RbTreeLaws (A : Type) `{RbTree A} : Prop := {
  insert_color_inorder (t : rb_tree A) : inorder (rb_insert_color t) = inorder t;
  erase_inorder (t : rb_tree A) x l r : inorder t = l ++ x :: r -> x ∉ l -> inorder (rb_erase x t) = l ++ r;
}.

Section Queue.
Context {A : Type} `{EqDecision A} `{RbTree A} (block : A -> Z).

Definition afs_eq_init : rb_tree A := Leaf.

(** The loop that looks for the place of [element]; on an equal block it goes
    round without moving. *)
Fixpoint link_node (fuel : nat) (t : rb_tree A) (element : A) : res (rb_tree A) :=
  match t with
  | Leaf => Ok (Node Leaf element Leaf)
  | Node l this r =>
      match fuel with
      | O => OutOfFuel
      | S f =>
          if block element <? block this then l' ← link_node f l element; Ok (Node l' this r)
          else if block element >? block this then r' ← link_node f r element; Ok (Node l this r')
          else link_node f t element
      end
  end.

Definition afs_eq_add (fuel : nat) (t : rb_tree A) (element : A) : res (rb_tree A) :=
  t ← link_node fuel t element; Ok (rb_insert_color t).

Definition afs_eq_empty_unsafe (t : rb_tree A) : bool := match t with Leaf => true | _ => false end.
Definition afs_eq_empty (t : rb_tree A) : bool := afs_eq_empty_unsafe t.

(** [rb_erase] of a node that is in no tree corrupts memory. *)
Definition afs_eq_remove (t : rb_tree A) (req : A) : res (rb_tree A) :=
  if afs_eq_empty_unsafe t then Ok t
  else if decide (req ∈ inorder t) then Ok (rb_erase req t) else Fault.

Fixpoint find_block (t : rb_tree A) (block_num : Z) : option A :=
  match t with
  | Leaf => None
  | Node l this r =>
      if block_num <? block this then find_block l block_num
      else if block_num >? block this then find_block r block_num
      else Some this
  end.

(** The block number of a bio: the sector is a 64-bit number, the result 32. *)
Definition afs_eq_req_exist (t : rb_tree A) (bi_sector : Z) : option A :=
  find_block t (u32 ((bi_sector *64 AFS_SECTOR_SIZE) / AFS_BLOCK_SIZE)).

(** ** Search trees *)
Definition ordered (t : rb_tree A) : Prop := StronglySorted Z.lt (map block (inorder t)).

Fixpoint height (t : rb_tree A) : nat := match t with Leaf => 0 | Node l _ r => S (Nat.max (height l) (height r)) end.

Lemma sorted_app (l r : list Z) : StronglySorted Z.lt (l ++ r) <->
  StronglySorted Z.lt l /\ StronglySorted Z.lt r /\ (forall x y, x ∈ l -> y ∈ r -> x < y).
Proof.
  induction l as [|a l IH]; cbn [app].
  - split; [intros; split_and!; [constructor|done|]; intros x y Hx; by apply elem_of_nil in Hx|tauto].
  - split.
    + intros Hs. apply StronglySorted_inv in Hs as [Hs Ha]. apply IH in Hs as (H1 & H2 & H3). apply Forall_app in Ha as [Ha1 Ha2].
      split_and!; [by constructor|done|]. intros x y [->|Hx]%elem_of_cons Hy; [|by apply H3].
      rewrite Forall_forall in Ha2. by apply Ha2.
    + intros (Hs & H2 & H3). apply StronglySorted_inv in Hs as [Hs Ha]. constructor.
      * apply IH. split_and!; [done|done|]. intros x y Hx. apply H3. by apply elem_of_cons; right.
      * apply Forall_app. split; [done|]. apply Forall_forall. intros y Hy. apply H3; [apply elem_of_cons; by left|done].
Qed.

Lemma ordered_node l x r : ordered (Node l x r) <->
  ordered l /\ ordered r /\ (forall y, y ∈ inorder l -> block y < block x) /\ (forall y, y ∈ inorder r -> block x < block y).
Proof.
  unfold ordered. cbn [inorder]. rewrite map_app. cbn [map]. rewrite sorted_app. split.
  - intros (H1 & H2 & H3). apply StronglySorted_inv in H2 as [H2 Hx]. split_and!; [done|done| |].
    + intros y Hy. apply H3; [by apply list_elem_of_fmap_2|apply elem_of_cons; by left].
    + intros y Hy. rewrite Forall_forall in Hx. by apply Hx, list_elem_of_fmap_2.
  - intros (H1 & H2 & H3 & H4).
    assert (Hr : forall z, z ∈ map block (inorder r) -> block x < z) by (intros z (y & -> & Hy)%list_elem_of_fmap; by apply H4).
    split_and!; [done| |].
    + constructor; [done|]. apply Forall_forall. intros z Hz. by apply Hr.
    + intros a b (y & -> & Hy)%list_elem_of_fmap [->|Hb]%elem_of_cons; [by apply H3|]. specialize (H3 y Hy). specialize (Hr b Hb). lia.
Qed.

(** ** The map a queue stands for *)
Definition queued (t : rb_tree A) : gmap Z A := list_to_map (map (fun x => (block x, x)) (inorder t)).

Lemma sorted_nodup (l : list Z) : StronglySorted Z.lt l -> NoDup l.
Proof.
  induction 1 as [|a l Hs IH Ha]; constructor; [|done]. intros Hin. rewrite Forall_forall in Ha. specialize (Ha a Hin). lia.
Qed.

Lemma ordered_nodup t : ordered t -> NoDup (map fst (map (fun x => (block x, x)) (inorder t))).
Proof. intros Ht. rewrite map_map. exact (sorted_nodup _ Ht). Qed.

Lemma queued_spec t : ordered t -> forall b x, queued t !! b = Some x <-> x ∈ inorder t /\ block x = b.
Proof.
  intros Ht b x. unfold queued. rewrite <- elem_of_list_to_map by by apply ordered_nodup. rewrite list_elem_of_fmap. split.
  - intros (y & [= -> ->] & Hy). done.
  - intros [Hx <-]. by exists x.
Qed.

Lemma find_block_spec t b : ordered t -> find_block t b = queued t !! b.
Proof.
  intros Ht. symmetry. apply option_eq. intros x. rewrite queued_spec by done. revert Ht.
  induction t as [|l IHl y r IHr]; intros Ht; cbn [find_block inorder].
  - split; [intros [Hx _]; by apply elem_of_nil in Hx|done].
  - apply ordered_node in Ht as (Hl & Hr & Hlt & Hgt). rewrite elem_of_app, elem_of_cons, Z.gtb_ltb.
    destruct (Z.ltb_spec b (block y)); [rewrite <- IHl by done|destruct (Z.ltb_spec (block y) b); [rewrite <- IHr by done|]].
    + split; [|tauto]. intros [[Hx|[->|Hx]] <-]; [done|lia|]. specialize (Hgt x Hx). lia.
    + split; [|tauto]. intros [[Hx|[->|Hx]] <-]; [|lia|done]. specialize (Hlt x Hx). lia.
    + split; [|intros [= <-]; split; [tauto|lia]]. intros [[Hx|[->|Hx]] <-]; [specialize (Hlt x Hx); lia|done|specialize (Hgt x Hx); lia].
Qed.

Lemma link_node_spec t e fuel : ordered t -> (height t <= fuel)%nat -> queued t !! block e = None ->
  exists t' l r, link_node fuel t e = Ok t' /\ ordered t' /\ inorder t = l ++ r /\ inorder t' = l ++ e :: r.
Proof.
  revert fuel. induction t as [|l IHl y r IHr]; intros fuel Ht Hf Hn.
  - destruct fuel; cbn; eexists _, [], []; (split; [done|]); (split; [|done]); apply ordered_node; cbn;
      split_and!; try (by constructor); intros z Hz; by apply elem_of_nil in Hz.
  - cbn [height] in Hf. destruct fuel as [|fuel]; [lia|]. cbn [link_node]. pose proof Ht as Ht'.
    apply ordered_node in Ht as (Hl & Hr & Hlt & Hgt).
    assert (Hnot : forall z, z ∈ inorder (Node l y r) -> block z <> block e).
    { intros z Hz E. assert (queued (Node l y r) !! block e = Some z) by by apply queued_spec. congruence. }
    cbn [inorder] in Hnot. assert (Hey : block y <> block e) by (apply Hnot; apply elem_of_app; right; apply elem_of_cons; by left).
    assert (Hsub : forall t', ordered t' -> (forall z, z ∈ inorder t' -> z ∈ inorder l ++ y :: inorder r) -> queued t' !! block e = None).
    { intros t' Ho Hin. apply eq_None_not_Some. intros [z Hz]. apply queued_spec in Hz as [Hz E]; [|done]. by apply (Hnot z); [apply Hin|]. }
    rewrite Z.gtb_ltb. destruct (Z.ltb_spec (block e) (block y)); [|destruct (Z.ltb_spec (block y) (block e)); [|lia]].
    + destruct (IHl fuel Hl ltac:(lia)) as (t' & l1 & l2 & -> & Ho & E1 & E2); [apply Hsub; [done|]; intros; apply elem_of_app; by left|].
      exists (Node t' y r), l1, (l2 ++ y :: inorder r). cbn [inorder]. rewrite E1, E2, <- !app_assoc. split_and!; try done.
      apply ordered_node. split_and!; try done. intros z Hz. rewrite E2, elem_of_app, elem_of_cons in Hz.
      destruct (decide (z = e)) as [->|]; [done|]. apply Hlt. rewrite E1, elem_of_app. tauto.
    + destruct (IHr fuel Hr ltac:(lia)) as (t' & l1 & l2 & -> & Ho & E1 & E2);
        [apply Hsub; [done|]; intros; apply elem_of_app; right; apply elem_of_cons; by right|].
      exists (Node l y t'), (inorder l ++ y :: l1), l2. cbn [inorder]. rewrite E1, E2, <- !app_assoc. split_and!; try done.
      apply ordered_node. split_and!; try done. intros z Hz. rewrite E2, elem_of_app, elem_of_cons in Hz.
      destruct (decide (z = e)) as [->|]; [done|]. apply Hgt. rewrite E1, elem_of_app. tauto.
Qed.

Lemma link_node_stuck t e : ordered t -> is_Some (queued t !! block e) -> forall fuel, link_node fuel t e = OutOfFuel.
Proof.
  intros Ht [x Hx] fuel. apply queued_spec in Hx as [Hx E]; [|done]. revert t Ht Hx.
  induction fuel as [|fuel IH]; intros t Ht Hx; (destruct t as [|l y r]; [by apply elem_of_nil in Hx|]); [done|]. cbn [link_node].
  pose proof Ht as Ht'. apply ordered_node in Ht as (Hl & Hr & Hlt & Hgt). cbn [inorder] in Hx. rewrite elem_of_app, elem_of_cons in Hx.
  rewrite Z.gtb_ltb. destruct (Z.ltb_spec (block e) (block y)); [|destruct (Z.ltb_spec (block y) (block e))].
  - rewrite IH; [done|done|]. destruct Hx as [Hx|[->|Hx]]; [done|lia|specialize (Hgt x Hx); lia].
  - rewrite IH; [done|done|]. destruct Hx as [Hx|[->|Hx]]; [specialize (Hlt x Hx); lia|lia|done].
  - apply IH; [done|]. cbn [inorder]. rewrite elem_of_app, elem_of_cons. exact Hx.
Qed.

Lemma ordered_inorder t t' : inorder t = inorder t' -> ordered t -> ordered t'.
Proof. unfold ordered. by intros ->. Qed.

Section Laws.
Context `{!RbTreeLaws A}.

Lemma eq_add_spec t e fuel : ordered t -> (height t <= fuel)%nat -> queued t !! block e = None ->
  exists t', afs_eq_add fuel t e = Ok t' /\ ordered t' /\ queued t' = <[block e := e]> (queued t).
Proof.
  intros Ht Hf Hn. destruct (link_node_spec t e fuel Ht Hf Hn) as (t1 & l & r & E & Ho & E1 & E2).
  exists (rb_insert_color t1). unfold afs_eq_add. rewrite E, bind_Ok. split; [done|].
  assert (Ho' : ordered (rb_insert_color t1)) by (eapply ordered_inorder; [symmetry; apply insert_color_inorder|done]).
  split; [done|]. apply map_eq. intros b. apply option_eq. intros x. rewrite queued_spec by done.
  rewrite insert_color_inorder, E2, elem_of_app, elem_of_cons, lookup_insert_Some, queued_spec, E1, elem_of_app by done.
  assert (Hnot : forall y, y ∈ l \/ y ∈ r -> block y <> block e).
  { intros y Hy Eb. apply eq_None_not_Some in Hn. apply Hn. exists y. apply queued_spec; [done|]. by rewrite E1, elem_of_app. }
  split.
  - intros [[Hx|[->|Hx]] <-]; [right|by left|right]; (split; [intros Eb; by apply (Hnot x); [tauto|]|tauto]).
  - intros [[<- ->]|(Hb & Hx & Eb)]; tauto.
Qed.

Lemma eq_remove_spec t e : ordered t -> queued t !! block e = Some e ->
  exists t', afs_eq_remove t e = Ok t' /\ ordered t' /\ queued t' = delete (block e) (queued t).
Proof.
  intros Ht He. pose proof He as [Hin _]%queued_spec; [|done]. unfold afs_eq_remove.
  destruct (afs_eq_empty_unsafe t) eqn:Ee; [by destruct t; [apply elem_of_nil in Hin|]|]. rewrite decide_True by done.
  pose proof Hin as (l & r & E)%list_elem_of_split.
  assert (Hlr : forall x, x ∈ l \/ x ∈ r -> block x <> block e).
  { unfold ordered in Ht. rewrite E, map_app in Ht. cbn [map] in Ht. apply sorted_app in Ht as (_ & H2 & H3).
    apply StronglySorted_inv in H2 as [_ H2]. rewrite Forall_forall in H2. intros x [Hx|Hx].
    - specialize (H3 (block x) (block e) ltac:(by apply list_elem_of_fmap_2) ltac:(apply elem_of_cons; by left)). lia.
    - specialize (H2 (block x) ltac:(by apply list_elem_of_fmap_2)). lia. }
  assert (Ei : inorder (rb_erase e t) = l ++ r) by (apply erase_inorder; [done|]; intros Hl; by apply (Hlr e); [left|]).
  exists (rb_erase e t). split; [done|].
  assert (Ho : ordered (rb_erase e t)).
  { unfold ordered in *. rewrite E, map_app in Ht. rewrite Ei, map_app. cbn [map] in Ht. apply sorted_app in Ht as (H1 & H2 & H3).
    apply StronglySorted_inv in H2 as [H2 _]. apply sorted_app. split_and!; try done. intros x y Hx Hy. apply H3; [done|]. apply elem_of_cons. by right. }
  split; [done|]. apply map_eq. intros b. apply option_eq. intros x.
  rewrite queued_spec, lookup_delete_Some, queued_spec, Ei, E, !elem_of_app, elem_of_cons by done. split.
  - intros [Hx <-]. split; [by intros ?; apply (Hlr x)|]. tauto.
  - intros [Hb [[Hx|[->|Hx]] <-]]; [tauto|done|tauto].
Qed.

Lemma eq_empty_spec t : ordered t -> afs_eq_empty t = true <-> queued t = ∅.
Proof.
  intros Ht. split; [by destruct t|]. intros E. destruct t as [|l x r]; [done|]. exfalso.
  assert (Hx : queued (Node l x r) !! block x = Some x) by (apply queued_spec; [done|]; split; [apply elem_of_app; right; apply elem_of_cons; by left|done]).
  by rewrite E, lookup_empty in Hx.
Qed.
End Laws.
End Queue.

(** ** Sequences of operations *)
Inductive queue_op (A : Type) := Add (element : A) | Remove (req : A) | Exist (bi_sector : Z) | Empty.
Arguments Add {A}. Arguments Remove {A}. Arguments Exist {A}. Arguments Empty {A}.

Inductive queue_answer (A : Type) := Unit | Found (req : option A) | IsEmpty (e : bool).
Arguments Unit {A}. Arguments Found {A}. Arguments IsEmpty {A}.

Section Run.
Context {A : Type} `{EqDecision A} `{RbTree A} (block : A -> Z).

Definition run_op (fuel : nat) (o : queue_op A) (t : rb_tree A) : res (rb_tree A * queue_answer A) :=
  match o with
  | Add e => t ← afs_eq_add block fuel t e; Ok (t, Unit)
  | Remove e => t ← afs_eq_remove t e; Ok (t, Unit)
  | Exist s => Ok (t, Found (afs_eq_req_exist block t s))
  | Empty => Ok (t, IsEmpty (afs_eq_empty t))
  end.

Fixpoint run_ops (fuel : nat) (os : list (queue_op A)) (t : rb_tree A) : res (rb_tree A * list (queue_answer A)) :=
  match os with
  | [] => Ok (t, [])
  | o :: os' => '(t, a) ← run_op fuel o t; '(t, l) ← run_ops fuel os' t; Ok (t, a :: l)
  end.

(** The specification: a finite map. An operation that is not legal is one the
    code may not perform. *)
Definition spec_op (o : queue_op A) (m : gmap Z A) : option (gmap Z A * queue_answer A) :=
  match o with
  | Add e => match m !! block e with None => Some (<[block e := e]> m, Unit) | Some _ => None end
  | Remove e => if decide (m !! block e = Some e) then Some (delete (block e) m, Unit) else None
  | Exist s => Some (m, Found (m !! u32 ((s *64 AFS_SECTOR_SIZE) / AFS_BLOCK_SIZE)))
  | Empty => Some (m, IsEmpty (bool_decide (m = ∅)))
  end.

Fixpoint spec_ops (os : list (queue_op A)) (m : gmap Z A) : option (gmap Z A * list (queue_answer A)) :=
  match os with
  | [] => Some (m, [])
  | o :: os' => '(m, a) ← spec_op o m; '(m, l) ← spec_ops os' m; Some (m, a :: l)
  end.

Lemma height_inorder (t : rb_tree A) : (height t <= length (inorder t))%nat.
Proof. induction t; cbn; [lia|]. rewrite length_app. cbn. lia. Qed.

Lemma inorder_size t : ordered block t -> length (inorder t) = size (queued block t).
Proof.
  intros Ht. unfold queued. rewrite <- length_map_to_list, map_to_list_to_map by by apply ordered_nodup. by rewrite length_map.
Qed.

Context `{!RbTreeLaws A}.

Lemma run_op_spec fuel o t m a : ordered block t -> (size (queued block t) <= fuel)%nat -> spec_op o (queued block t) = Some (m, a) ->
  exists t', run_op fuel o t = Ok (t', a) /\ ordered block t' /\ queued block t' = m.
Proof.
  intros Ht Hf. rewrite <- inorder_size in Hf by done. pose proof (height_inorder t). destruct o as [e|e|s|]; cbn [spec_op run_op].
  - destruct (queued block t !! block e) eqn:E; [done|]. intros [= <- <-].
    destruct (eq_add_spec block t e fuel Ht ltac:(lia) E) as (t' & -> & ? & ?). by exists t'.
  - case_decide as E; [|done]. intros [= <- <-]. destruct (eq_remove_spec block t e Ht E) as (t' & -> & ? & ?). by exists t'.
  - intros [= <- <-]. exists t. unfold afs_eq_req_exist. by rewrite find_block_spec.
  - intros [= <- <-]. exists t. split_and!; try done. do 3 f_equal. pose proof (eq_empty_spec block t Ht).
    case_bool_decide as Hc; [tauto|]. destruct (afs_eq_empty t); [tauto|done].
Qed.

Lemma spec_op_size o m m' a : spec_op o m = Some (m', a) -> (size m' <= S (size m))%nat.
Proof.
  destruct o as [e|e|s|]; cbn [spec_op].
  - destruct (m !! block e) eqn:E; [done|]. intros [= <- _]. by rewrite map_size_insert_None.
  - case_decide as E; [|done]. intros [= <- _]. rewrite map_size_delete, E. lia.
  - intros [= <- _]. lia.
  - intros [= <- _]. lia.
Qed.

Lemma run_ops_spec fuel os : forall t m l, ordered block t -> (size (queued block t) + length os <= fuel)%nat ->
  spec_ops os (queued block t) = Some (m, l) ->
  exists t', run_ops fuel os t = Ok (t', l) /\ ordered block t' /\ queued block t' = m.
Proof.
  induction os as [|o os IH]; intros t m l Ht Hf; cbn [spec_ops run_ops length] in *; [intros [= <- <-]; by exists t|].
  destruct (spec_op o (queued block t)) as [[m1 a]|] eqn:Eo; cbn; [|done].
  destruct (spec_ops os m1) as [[m2 l']|] eqn:Es; cbn; [|done]. intros [= <- <-].
  destruct (run_op_spec fuel o t m1 a Ht ltac:(lia) Eo) as (t1 & -> & Ht1 & <-). rewrite bind_Ok.
  apply spec_op_size in Eo. destruct (IH t1 m2 l' Ht1 ltac:(lia) Es) as (t2 & -> & ? & ?). by exists t2.
Qed.

(** C24: an engine queue is a finite map from block numbers to requests. Every
    sequence of operations that adds no block twice and removes only queued
    requests runs to its end, with as much fuel as there are operations;
    the tree stays a search tree, and every answer is the map's. *)
Theorem engine_queue_refines_map os m l fuel :
  (length os <= fuel)%nat -> spec_ops os ∅ = Some (m, l) ->
  exists t, run_ops fuel os (afs_eq_init) = Ok (t, l) /\ ordered block t /\ queued block t = m.
Proof. intros Hf. apply (run_ops_spec fuel os afs_eq_init); [constructor|exact Hf]. Qed.

(** Adding a second request for a block never returns: in a search tree
    that holds the block the loop of [afs_eq_add] finds no place, with any
    amount of fuel, and the queue's lock stays taken. *)
Theorem engine_queue_add_hangs t e :
  ordered block t -> is_Some (queued block t !! block e) -> forall fuel, afs_eq_add block fuel t e = OutOfFuel.
Proof. intros Ht He fuel. unfold afs_eq_add. by rewrite (link_node_stuck block t e Ht He fuel). Qed.
End Run.

(** ** An instance of the kernel's part: no rebalancing *)
Definition spine {A} (l : list A) : rb_tree A := foldr (fun x t => Node Leaf x t) Leaf l.

Fixpoint remove_first {A} `{EqDecision A} (x : A) (l : list A) : list A :=
  match l with [] => [] | y :: l' => if decide (y = x) then l' else y :: remove_first x l' end.

#[export] Instance spine_tree : RbTree (Z * Z) := {
  rb_insert_color t := t;
  rb_erase x t := spine (remove_first x (inorder t));
}.

Lemma inorder_spine {A} (l : list A) : inorder (spine l) = l.
Proof. induction l as [|x l IH]; [done|]. change (spine (x :: l)) with (Node Leaf x (spine l)). cbn [inorder app]. by rewrite IH. Qed.

#[export] Instance spine_laws : RbTreeLaws (Z * Z).
Proof.
  split; [done|]. intros t x l r E Hx. change (inorder (spine (remove_first x (inorder t))) = l ++ r). rewrite inorder_spine, E. clear E.
  induction l as [|y l IH]; cbn [app remove_first]; [by rewrite decide_True|].
  apply not_elem_of_cons in Hx as [Hy Hx]. by rewrite decide_False, IH by done.
Qed.

Definition sample_ops : list (queue_op (Z * Z)) :=
  [Empty; Add (7, 0); Add (3, 1); Add (9, 2); Exist 24; Remove (7, 0); Exist 56; Exist 79; Empty].

Lemma engine_queue_refines_map_witness :
  exists t, run_ops fst 9 sample_ops afs_eq_init
    = Ok (t, [IsEmpty true; Unit; Unit; Unit; Found (Some (3, 1)); Unit; Found None; Found (Some (9, 2)); IsEmpty false]).
Proof.
  destruct (engine_queue_refines_map fst sample_ops {[3 := (3, 1); 9 := (9, 2)]}
    [IsEmpty true; Unit; Unit; Unit; Found (Some (3, 1)); Unit; Found None; Found (Some (9, 2)); IsEmpty false] 9)
    as (t & E & _); [cbn; lia|vm_compute; reflexivity|]. by exists t.
Defined.

Lemma engine_queue_add_hangs_witness : afs_eq_add fst 100 (Node Leaf (7, 0) Leaf) (7, 1) = OutOfFuel.
Proof.
  apply (engine_queue_add_hangs fst).
  - apply ordered_node. split_and!; [constructor|constructor| |]; intros y Hy; by apply elem_of_nil in Hy.
  - by exists (7, 0).
Defined.
