(* ===== verification/Engine.v ===== *)
(** * Engine: map requests (src/dm_afs_engine.c, include/dm_afs_engine.h)

    A request is [afs_map_request], a record that the handlers transform; what
    it shares with the instance (map, configuration, free list, allocation
    vector, device) is the [afs_private] of Metadata. The pages
    [carrier_blocks] are the store of buffers the encoders work in. A handler
    that submits bios returns them; [bio_done] is what happens when one of
    them completes. The tables of the erasure code are [zero_ctx]: the
    module never initialises them. *)
From stdpp Require Import base tactics option list numbers gmap.
From Stdlib Require Import ZArith Lia.
From S2P Require Import Prelude BitVector Allocation BlockIo Format Metadata GfShare CauchyGf CauchyRs Aont City.

Local Open Scope Z_scope.
Local Open Scope afs_scope.

Definition NUM_MAX_CARRIER_BLKS : nat := 8.
Definition SHAMIR : Z := 1.
Definition AONT_RS : Z := 2.

Definition REQ_STATE_GROUND : Z := Z.shiftl 1 0.
Definition REQ_STATE_FLIGHT : Z := Z.shiftl 1 1.
Definition REQ_STATE_COMPLETED : Z := Z.shiftl 1 2.

(** ** Bios received from the device mapper

    A segment is a page with an offset and a length; [bi_size] is in bytes. *)
Record bio_vec := mk_bv { bv_page : list Z; bv_offset : Z; bv_len : Z }.
Inductive bio_op := REQ_OP_READ | REQ_OP_WRITE | REQ_OP_FLUSH | REQ_OP_OTHER.
Record bio := mk_bio { op : bio_op; bi_sector : Z; bi_size : Z; bi_io_vec : list bio_vec }.

Definition bio_sectors (b : bio) : Z := bi_size b / 512.

(** [bio_for_each_segment]: the vectors, cut off after [bi_size] bytes. *)
Fixpoint segments (size : Z) (vs : list bio_vec) : list bio_vec :=
  match vs with
  | [] => []
  | v :: vs' =>
      if size <=? 0 then []
      else let len := Z.min (bv_len v) size in
           mk_bv (bv_page v) (bv_offset v) len :: segments (size - len) vs'
  end.

(** The field [bio] of a request: set, null, or never assigned. *)
Inductive bio_ptr := BioSet (b : bio) | BioNull | BioGarbage.

(** ** Requests *)
Record afs_map_request := mk_req {
  carrier_blocks : list (list Z);
  data_block : list Z;
  state : Z;
  req_bio : bio_ptr;
  bio_ended : nat;                (* how often [bio_endio] was called *)
  bios_pending : Z;
  encoder : option gfshare_ctx;
  encoding_type : Z;
  erasures : list Z;
  num_erasures : Z;
  iv : list Z;
  block : Z;
  request_size : Z;
  sector_offset : Z;
  block_nums : list Z;
  rebuild_flag : bool;
}.

Definition set_carriers x r := mk_req x (data_block r) (state r) (req_bio r) (bio_ended r) (bios_pending r) (encoder r)
  (encoding_type r) (erasures r) (num_erasures r) (iv r) (block r) (request_size r) (sector_offset r) (block_nums r) (rebuild_flag r).
Definition set_data x r := mk_req (carrier_blocks r) x (state r) (req_bio r) (bio_ended r) (bios_pending r) (encoder r)
  (encoding_type r) (erasures r) (num_erasures r) (iv r) (block r) (request_size r) (sector_offset r) (block_nums r) (rebuild_flag r).
Definition set_state x r := mk_req (carrier_blocks r) (data_block r) x (req_bio r) (bio_ended r) (bios_pending r) (encoder r)
  (encoding_type r) (erasures r) (num_erasures r) (iv r) (block r) (request_size r) (sector_offset r) (block_nums r) (rebuild_flag r).
Definition set_bio x e r := mk_req (carrier_blocks r) (data_block r) (state r) x e (bios_pending r) (encoder r)
  (encoding_type r) (erasures r) (num_erasures r) (iv r) (block r) (request_size r) (sector_offset r) (block_nums r) (rebuild_flag r).
Definition set_pending x r := mk_req (carrier_blocks r) (data_block r) (state r) (req_bio r) (bio_ended r) x (encoder r)
  (encoding_type r) (erasures r) (num_erasures r) (iv r) (block r) (request_size r) (sector_offset r) (block_nums r) (rebuild_flag r).
Definition set_encoder x r := mk_req (carrier_blocks r) (data_block r) (state r) (req_bio r) (bio_ended r) (bios_pending r) x
  (encoding_type r) (erasures r) (num_erasures r) (iv r) (block r) (request_size r) (sector_offset r) (block_nums r) (rebuild_flag r).
Definition set_erasures x r := mk_req (carrier_blocks r) (data_block r) (state r) (req_bio r) (bio_ended r) (bios_pending r) (encoder r)
  (encoding_type r) x (num_erasures r) (iv r) (block r) (request_size r) (sector_offset r) (block_nums r) (rebuild_flag r).
Definition set_block_nums x r := mk_req (carrier_blocks r) (data_block r) (state r) (req_bio r) (bio_ended r) (bios_pending r) (encoder r)
  (encoding_type r) (erasures r) (num_erasures r) (iv r) (block r) (request_size r) (sector_offset r) x (rebuild_flag r).
Definition set_rebuild x r := mk_req (carrier_blocks r) (data_block r) (state r) (req_bio r) (bio_ended r) (bios_pending r) (encoder r)
  (encoding_type r) (erasures r) (num_erasures r) (iv r) (block r) (request_size r) (sector_offset r) (block_nums r) x.

(** What the environment decides during one request: SSSE3, the allocations
    and fresh memory of the encoders, and the random bytes they draw. *)
Record enc_env := {
  ssse3 : bool;
  aont : aont_env;
  aont_key : list Z;
  gf_allocs : bool * bool * bool;
  gf_memory : list Z;
  gf_seed : list Z;
  gf_free_nrs : list Z;
}.

(** ** Map entries *)
Definition afs_get_map_entry (cfg : afs_config) (index : Z) : nat := Z.to_nat (index *32 map_entry_sz cfg).

(** [map_entry_tuple[i]]: 6 bytes from [e + 6 i]. *)
Definition tuple_at (m : list Z) (e : nat) (i : Z) : res afs_map_tuple :=
  bs ← of_option (slice (e + Z.to_nat (map_tuple_sz * i)) (Z.to_nat map_tuple_sz) m); Ok (tuple_of_bytes bs).
Definition put_tuple (m : list Z) (e : nat) (i : Z) (t : afs_map_tuple) : res (list Z) :=
  of_option (splice (e + Z.to_nat (map_tuple_sz * i)) (tuple_bytes t) m).

Definition set_carrier_block_ptr (m : list Z) (e : nat) (i v : Z) : res (list Z) :=
  t ← tuple_at m e i; put_tuple m e i {| carrier_block_ptr := v; checksum := checksum t |}.
Definition set_checksum (m : list Z) (e : nat) (i v : Z) : res (list Z) :=
  t ← tuple_at m e i; put_tuple m e i {| carrier_block_ptr := carrier_block_ptr t; checksum := v |}.

(** [map_entry_difference]: 32 bytes after the tuples. *)
Definition difference_off (cfg : afs_config) (e : nat) : nat := (e + Z.to_nat (num_carrier_blocks cfg * map_tuple_sz))%nat.

(** ** Copies between the segments of a bio and the data block

    The position is [sector_offset * 512 + segment_offset]. *)
Fixpoint copy_to_bio (segs : list bio_vec) (size base segment_offset : Z) (data : list Z) : res (list bio_vec) :=
  match segs with
  | [] => Ok []
  | v :: segs' =>
      let left := size -32 segment_offset in
      let n := if bv_len v <=? left then bv_len v else left in
      src ← of_option (slice (Z.to_nat (base +32 segment_offset)) (Z.to_nat n) data);
      p ← of_option (splice (Z.to_nat (bv_offset v)) src (bv_page v));
      let v' := mk_bv p (bv_offset v) (bv_len v) in
      if bv_len v <=? left then
        rest ← copy_to_bio segs' size base (segment_offset +32 bv_len v) data; Ok (v' :: rest)
      else Ok (v' :: segs')
  end.

Fixpoint copy_from_bio (segs : list bio_vec) (size base segment_offset : Z) (data : list Z) : res (list Z) :=
  match segs with
  | [] => Ok data
  | v :: segs' =>
      let left := size -32 segment_offset in
      let n := if bv_len v <=? left then bv_len v else left in
      src ← of_option (slice (Z.to_nat (bv_offset v)) (Z.to_nat n) (bv_page v));
      data ← of_option (splice (Z.to_nat (base +32 segment_offset)) src data);
      if bv_len v <=? left then copy_from_bio segs' size base (segment_offset +32 bv_len v) data
      else Ok data
  end.

Definition bio_base (r : afs_map_request) : Z := sector_offset r *32 AFS_SECTOR_SIZE.

(** The data block copied into the bio of the request. *)
Definition return_data (b : bio) (r : afs_map_request) : res bio :=
  vs ← copy_to_bio (segments (bi_size b) (bi_io_vec b)) (request_size r) (bio_base r) 0 (data_block r);
  Ok (mk_bio (op b) (bi_sector b) (bi_size b) vs).

(** ** Submitting bios for the carrier blocks *)
Record carrier_bio := mk_cbio { cb_write : bool; cb_sector : Z; cb_index : nat; cb_good : bool }.

(** The loop of [read_pages] and [write_pages]; [IS_ERR] of a bio ends it. The
    pages come from [__get_free_page], so the alignment check holds. *)
Fixpoint submit_bios (write : bool) (n : nat) (i : nat) (r : afs_map_request) (off : Z) (outs : list bio_outcome)
  : res (Z * list carrier_bio * list bio_outcome) :=
  match n with
  | O => Ok (0, [], outs)
  | S n' =>
      match head outs with
      | Some (BioAllocFails err) => Ok (err, [], tail outs)
      | o =>
          b ← of_option (block_nums r !! i);
          let sector_num := (b *32 AFS_SECTORS_PER_BLOCK) +32 off in
          let good := match o with Some BioIoFails => false | _ => true end in
          '(ret, bios, outs) ← submit_bios write n' (S i) r off (tail outs);
          Ok (ret, mk_cbio write sector_num i good :: bios, outs)
      end
  end.

(** [read_pages] and [write_pages]; the array of bios is used without a check
    of its allocation. *)
Definition submit_pages (write : bool) (r : afs_map_request) (num_pages : Z) (c : afs_private)
  : res (Z * afs_map_request * list carrier_bio * afs_private) :=
  let '(ok, c) := alloc c in
  if negb ok then Fault else
  '(ret, bios, outs) ← submit_bios write (Z.to_nat num_pages) 0 r (data_start_off (passive_fs c)) (outcomes (bdev c));
  Ok (ret, set_pending num_pages r, bios, set_bdev (mk_bdev (nr_sects (bdev c)) (sectors (bdev c)) outs) c).

Definition read_pages := submit_pages false.
Definition write_pages := submit_pages true.

(** ** Completion of a request *)
Definition free_encoder (env : enc_env) (r : afs_map_request) : res afs_map_request :=
  match encoder r with
  | None => Ok r
  | Some ctx => _ ← gfshare_ctx_free (gf_seed env) (gf_free_nrs env) ctx; Ok (set_encoder None r)
  end.

(** [bio_endio] on a pointer that was never assigned is a [Fault]. *)
Definition afs_req_clean (env : enc_env) (r : afs_map_request) : res afs_map_request :=
  let r := set_state REQ_STATE_COMPLETED r in
  r ← (match req_bio r with
       | BioSet b => Ok (set_bio (BioSet b) (S (bio_ended r)) r)
       | BioNull => Ok r
       | BioGarbage => Fault
       end);
  free_encoder env r.

(** ** Encoding and decoding the data block *)
Definition nrs (n : Z) (er : list Z) : res (list Z) :=
  forM (Z.to_nat n) 0 (fun i er => put er i (u8 (i + 48))) er.

Definition carriers (n : Z) : list nat := seq 0 (Z.to_nat n).

(** The request with its shares in the carrier pages, and the map. *)
Definition encode_data (env : enc_env) (r : afs_map_request) (c : afs_private) : res (afs_map_request * afs_private) :=
  let n := num_carrier_blocks (config c) in
  if encoding_type r =? SHAMIR then
    let '(ok1, ok2, ok3) := gf_allocs env in
    enc ← gfshare_ctx_init_enc ok1 ok2 ok3 (gf_memory env) (erasures r) n 2 AFS_BLOCK_SIZE;
    match enc with
    | None => Fault
    | Some ctx =>
        '(_, ctx, shares) ← gfshare_ctx_enc_getshares (gf_seed env) ctx (data_block r) (carrier_blocks r);
        Ok (set_carriers shares (set_encoder (Some ctx) r), c)
    end
  else if encoding_type r =? AONT_RS then
    let d := difference_off (config c) (afs_get_map_entry (config c) (block r)) in
    difference ← of_option (slice d 32 (afs_map c));
    '(_, difference, st) ← encode_aont_package zero_ctx (ssse3 env) (aont env) (aont_key env) difference (data_block r)
        AFS_BLOCK_SIZE (carriers n) 2 (u64 (n - 2)) (words 2 (iv r)) (carrier_blocks r);
    m ← of_option (splice d difference (afs_map c));
    Ok (set_carriers st r, set_map m c)
  else Ok (r, c).

Definition decode_data (env : enc_env) (r : afs_map_request) (c : afs_private) : res (afs_map_request * afs_private) :=
  let n := num_carrier_blocks (config c) in
  if encoding_type r =? SHAMIR then
    match encoder r with
    | None => Fault
    | Some ctx =>
        '(ctx, data) ← gfshare_ctx_dec_decode ctx (erasures r) (carrier_blocks r) (data_block r);
        Ok (set_data data (set_encoder (Some ctx) r), c)
    end
  else if encoding_type r =? AONT_RS then
    let d := difference_off (config c) (afs_get_map_entry (config c) (block r)) in
    difference ← of_option (slice d 32 (afs_map c));
    '(_, difference, data, st) ← decode_aont_package zero_ctx (ssse3 env) (aont env) difference (data_block r)
        AFS_BLOCK_SIZE (carriers n) 2 (u64 (n - 2)) (words 2 (iv r)) (erasures r) (num_erasures r) (carrier_blocks r);
    m ← of_option (splice d difference (afs_map c));
    Ok (set_data data (set_carriers st r), set_map m c)
  else Ok (r, c).

(** ** Block numbers for the carriers *)

(** The loop; the boolean is false when it leaves for [reset_entry]. *)
Fixpoint assign_blocks (modification : bool) (e : nat) (n : nat) (i : Z) (r : afs_map_request) (c : afs_private)
  : res (bool * afs_map_request * afs_private) :=
  match n with
  | O => Ok (true, r, c)
  | S n' =>
      '(block_num, c) ←
        (if modification then t ← tuple_at (afs_map c) e i; Ok (carrier_block_ptr t, c) else ctx_acquire_block c);
      if block_num =? AFS_INVALID_BLOCK then Ok (false, r, c) else
      m ← set_carrier_block_ptr (afs_map c) e i block_num;
      nums ← put (block_nums r) i block_num;
      assign_blocks modification e n' (i + 1) (set_block_nums nums r) (set_map m c)
  end.

(** [reset_entry]. *)
Definition reset_entry (env : enc_env) (e : nat) (r : afs_map_request) (c : afs_private) : res (afs_map_request * afs_private) :=
  c ← forM (Z.to_nat (num_carrier_blocks (config c))) 0 (fun i c =>
    t ← tuple_at (afs_map c) e i;
    c ← (if negb (carrier_block_ptr t =? AFS_INVALID_BLOCK)
         then v ← allocation_free (vector c) (carrier_block_ptr t); Ok (set_vector v c) else Ok c);
    m ← set_carrier_block_ptr (afs_map c) e i AFS_INVALID_BLOCK;
    Ok (set_map m c)) c;
  r ← (if encoding_type r =? SHAMIR then
         match encoder r with
         | None => Fault
         | Some ctx => _ ← gfshare_ctx_free (gf_seed env) (gf_free_nrs env) ctx; Ok r
         end
       else Ok r);
  Ok (set_encoder None r, c).

(** ** The request handlers

    The result is the return value, the request, the bios that were
    submitted and the context. *)
Definition outcome : Type := Z * afs_map_request * list carrier_bio * afs_private.

Definition afs_write_request (env : enc_env) (r : afs_map_request) (b : bio) (c : afs_private) : res outcome :=
  if negb (state r =? REQ_STATE_FLIGHT) then Ok (- EINVAL, r, [], c) else
  let n := num_carrier_blocks (config c) in
  let e := afs_get_map_entry (config c) (block r) in
  t ← tuple_at (afs_map c) e 0;
  let modification := negb (carrier_block_ptr t =? AFS_INVALID_BLOCK) in
  data ← copy_from_bio (segments (bi_size b) (bi_io_vec b)) (request_size r) (bio_base r) 0 (data_block r);
  er ← nrs n (erasures r);
  '(r, c) ← encode_data env (set_erasures er (set_data data r)) c;
  '(ok, r, c) ← assign_blocks modification e (Z.to_nat n) 0 r c;
  if negb ok then '(r, c) ← reset_entry env e r c; Ok (- ENOSPC, r, [], c) else
  '(ret, r, bios, c) ← write_pages r n c;
  if negb (ret =? 0) then '(r, c) ← reset_entry env e r c; Ok (- EIO, r, bios, c)
  else Ok (0, r, bios, c).

(** The part shared by [afs_read_request] and [afs_rebuild_request], for an
    entry that is mapped: the carriers are read. *)
Definition read_carriers (env : enc_env) (e : nat) (r : afs_map_request) (c : afs_private) : res outcome :=
  let n := num_carrier_blocks (config c) in
  enc ← (if encoding_type r =? SHAMIR then
           let '(ok1, ok2, ok3) := gf_allocs env in
           gfshare_ctx_init_dec ok1 ok2 ok3 (gf_memory env) (erasures r) n 2 AFS_BLOCK_SIZE
         else Ok (encoder r));
  nums ← forM (Z.to_nat n) 0 (fun i nums => t ← tuple_at (afs_map c) e i; put nums i (carrier_block_ptr t)) (block_nums r);
  er ← nrs n (erasures r);
  '(ret, r, bios, c) ← read_pages (set_erasures er (set_block_nums nums (set_encoder enc r))) n c;
  Ok ((if ret =? 0 then 0 else - EIO), r, bios, c).

Definition afs_read_request (env : enc_env) (r : afs_map_request) (b : bio) (c : afs_private) : res outcome :=
  if negb (state r =? REQ_STATE_FLIGHT) then Ok (- EINVAL, r, [], c) else
  let e := afs_get_map_entry (config c) (block r) in
  t ← tuple_at (afs_map c) e 0;
  if carrier_block_ptr t =? AFS_INVALID_BLOCK then
    data ← of_option (splice 0 (replicate 4096 0) (data_block r));
    let r := set_data data r in
    b ← return_data b r;
    r ← afs_req_clean env (set_bio (BioSet b) (bio_ended r) r);
    Ok (0, r, [], c)
  else read_carriers env e r c.

Definition afs_rebuild_request (env : enc_env) (r : afs_map_request) (c : afs_private) : res outcome :=
  if negb (state r =? REQ_STATE_FLIGHT) then Ok (- EINVAL, r, [], c) else
  let e := afs_get_map_entry (config c) (block r) in
  t ← tuple_at (afs_map c) e 0;
  if carrier_block_ptr t =? AFS_INVALID_BLOCK then r ← afs_req_clean env r; Ok (0, r, [], c)
  else read_carriers env e r c.

(** Every carrier gets a new block and the contents of the data block. *)
Fixpoint remap_blocks (e : nat) (n : nat) (i : Z) (r : afs_map_request) (c : afs_private)
  : res (bool * afs_map_request * afs_private) :=
  match n with
  | O => Ok (true, r, c)
  | S n' =>
      '(block_num, c) ← ctx_acquire_block c;
      if block_num =? AFS_INVALID_BLOCK then Ok (false, r, c) else
      m ← set_carrier_block_ptr (afs_map c) e i block_num;
      nums ← put (block_nums r) i block_num;
      src ← of_option (slice 0 4096 (data_block r));
      p ← get (carrier_blocks r) i;
      p ← of_option (splice 0 src p);
      pages ← put (carrier_blocks r) i p;
      remap_blocks e n' (i + 1) (set_carriers pages (set_block_nums nums r)) (set_map m c)
  end.

Definition rebuild_blocks (env : enc_env) (r : afs_map_request) (c : afs_private) : res outcome :=
  let n := num_carrier_blocks (config c) in
  let e := afs_get_map_entry (config c) (block r) in
  er ← nrs n (erasures r);
  '(r, c) ← encode_data env (set_erasures er r) c;
  '(ok, r, c) ← remap_blocks e (Z.to_nat n) 0 r c;
  if negb ok then '(r, c) ← reset_entry env e r c; Ok (- ENOSPC, r, [], c) else
  '(ret, r, bios, c) ← write_pages r n c;
  if negb (ret =? 0) then '(r, c) ← reset_entry env e r c; Ok (- EIO, r, bios, c)
  else Ok (0, r, bios, c).

(** The comparison of the stored and the computed checksums. *)
Definition verify_checksums (r : afs_map_request) (c : afs_private) : res afs_map_request :=
  let e := afs_get_map_entry (config c) (block r) in
  forM (Z.to_nat (num_carrier_blocks (config c))) 0 (fun i r =>
    p ← get (carrier_blocks r) i;
    sum ← cityhash32_to_16 p AFS_BLOCK_SIZE;
    t ← tuple_at (afs_map c) e i;
    if checksum t =? sum then Ok r
    else er ← put (erasures r) i 48; Ok (set_erasures er (set_rebuild true r))) r.

(** [afs_read_decode]; the return value of [rebuild_blocks] is ignored. *)
Definition afs_read_decode (env : enc_env) (r : afs_map_request) (c : afs_private) : res outcome :=
  r ← verify_checksums r c;
  '(r, c) ← decode_data env r c;
  match req_bio r with
  | BioSet b =>
      b ← return_data b r;
      let r := set_bio (BioSet b) (bio_ended r) r in
      if rebuild_flag r then '(_, r, bios, c) ← rebuild_blocks env r c; Ok (0, r, bios, c)
      else r ← afs_req_clean env r; Ok (0, r, [], c)
  | _ => Fault
  end.

(** ** Completion of carrier bios *)

(** The transfer between the page and the device. *)
Definition transfer (cb : carrier_bio) (r : afs_map_request) (c : afs_private) : res (afs_map_request * afs_private) :=
  p ← of_option (carrier_blocks r !! cb_index cb);
  let '(p', d) := submit_bio_wait (cb_good cb)
      (mk_io p (cb_sector cb) AFS_BLOCK_SIZE (if cb_write cb then IO_WRITE else IO_READ)) (bdev c) in
  Ok (set_carriers (<[cb_index cb := p']> (carrier_blocks r)) r, set_bdev d c).

(** The last part of [afs_write_endio]. The 128-bit digest of the data block it
    also computes is not stored. *)
Definition store_checksums (r : afs_map_request) (c : afs_private) : res afs_private :=
  let e := afs_get_map_entry (config c) (block r) in
  forM (Z.to_nat (num_carrier_blocks (config c))) 0 (fun i c =>
    p ← get (carrier_blocks r) i;
    sum ← cityhash32_to_16 p AFS_BLOCK_SIZE;
    m ← set_checksum (afs_map c) e i sum;
    Ok (set_map m c)) c.

Definition afs_write_endio (env : enc_env) (r : afs_map_request) (c : afs_private) : res (afs_map_request * afs_private) :=
  let r := set_pending (bios_pending r - 1) r in
  if bios_pending r =? 0 then
    c ← store_checksums r c;
    r ← afs_req_clean env r;
    Ok (r, c)
  else Ok (r, c).

(** [afs_read_endio]: the boolean says that the request was put on the crypto
    queue. *)
Definition afs_read_endio (r : afs_map_request) : afs_map_request * bool :=
  let r := set_pending (bios_pending r - 1) r in (r, bios_pending r =? 0).
