(* ===== verification/EngineMap.v ===== *)
(** * EngineMap: the engine's view of one map entry

    Lemmas on the pieces the request handlers are made of: the copies between a
    bio and the data block, the tuples and the difference of a map entry, the
    loop that chooses the carrier blocks and the two checksum loops. *)
From stdpp Require Import base tactics option list numbers gmap.
From Stdlib Require Import ZArith Lia.
From S2P Require Import Prelude BitVector Allocation BlockIo Format Metadata City Engine.

Local Open Scope Z_scope.
Local Open Scope afs_scope.

(** ** Segments of a bio *)
Definition piece_of (v : bio_vec) : list Z := take (Z.to_nat (bv_len v)) (drop (Z.to_nat (bv_offset v)) (bv_page v)).
Definition payload (segs : list bio_vec) : list Z := concat (map piece_of segs).

Definition seg_ok (v : bio_vec) : Prop :=
  0 <= bv_offset v /\ 0 <= bv_len v /\ bv_offset v + bv_len v <= Z.of_nat (List.length (bv_page v)).
Definition seg_lens (segs : list bio_vec) : Z := foldr (fun v n => bv_len v + n) 0 segs.

Lemma seg_lens_nonneg segs : Forall seg_ok segs -> 0 <= seg_lens segs.
Proof. induction 1 as [|v segs (? & ? & ?) _ IH]; cbn [seg_lens foldr]; [done|]. fold (seg_lens segs). lia. Qed.

Lemma piece_length v : seg_ok v -> List.length (piece_of v) = Z.to_nat (bv_len v).
Proof. intros (? & ? & ?). unfold piece_of. rewrite length_take, length_drop. lia. Qed.

Lemma payload_length segs : Forall seg_ok segs -> List.length (payload segs) = Z.to_nat (seg_lens segs).
Proof.
  induction 1 as [|v segs Hv Hs IH]; [done|]. unfold payload in *. cbn [map concat seg_lens foldr].
  rewrite length_app, IH, piece_length by done. pose proof (seg_lens_nonneg _ Hs). destruct Hv as (? & ? & ?). unfold seg_lens in *. lia.
Qed.

(** Copying into the block: the payload replaces the bytes from [base + off]. *)
Lemma copy_from_bio_spec segs : forall size base off data,
  Forall seg_ok segs -> 0 <= off -> 0 <= base -> off + seg_lens segs = size -> base + size <= Z.of_nat (List.length data) ->
  Z.of_nat (List.length data) < 2 ^ 32 ->
  copy_from_bio segs size base off data
  = Ok (take (Z.to_nat (base + off)) data ++ payload segs ++ drop (Z.to_nat (base + size)) data).
Proof.
  induction segs as [|v segs IH]; intros size base off data Hs Ho Hb Hsize Hl Hd; cbn [copy_from_bio].
  - cbn in Hsize. replace size with off by lia. cbn [payload concat map app]. by rewrite take_drop.
  - apply Forall_cons in Hs as [Hv Hs]. pose proof (seg_lens_nonneg _ Hs) as Hnn. pose proof (piece_length v Hv) as Lp.
    pose proof Hv as (H0 & H1 & H2). cbn [seg_lens foldr] in Hsize. fold (seg_lens segs) in Hsize.
    rewrite !wrap_id by (unfold in_range; lia). destruct (Z.leb_spec (bv_len v) (size - off)); [|lia].
    rewrite slice_Some by lia. cbn [of_option]. rewrite bind_Ok. fold (piece_of v). rewrite splice_Some by lia. cbn [of_option]. rewrite bind_Ok.
    rewrite Lp. set (data' := take _ data ++ _).
    assert (Ld : List.length data' = List.length data).
    { unfold data'. rewrite !length_app, length_take, length_drop, Lp. lia. }
    rewrite (IH size base (off + bv_len v) data') by (done || lia || rewrite Ld; lia). f_equal. unfold payload. cbn [map concat].
    rewrite <- !app_assoc, (app_assoc (take _ data)). f_equal.
    + unfold data'. rewrite app_assoc, take_app_length' by (rewrite length_app, length_take, Lp; lia). done.
    + f_equal. unfold data'. rewrite app_assoc, drop_app_ge by (rewrite length_app, length_take, Lp; lia).
      rewrite drop_drop. f_equal. rewrite length_app, length_take, Lp. lia.
Qed.

(** Copying out of the block: only the bytes of the segments change. *)
Definition refilled (v v' : bio_vec) : Prop :=
  bv_offset v' = bv_offset v /\ bv_len v' = bv_len v /\ List.length (bv_page v') = List.length (bv_page v) /\
  take (Z.to_nat (bv_offset v)) (bv_page v') = take (Z.to_nat (bv_offset v)) (bv_page v) /\
  drop (Z.to_nat (bv_offset v + bv_len v)) (bv_page v') = drop (Z.to_nat (bv_offset v + bv_len v)) (bv_page v).

Lemma copy_to_bio_spec segs : forall size base off data,
  Forall seg_ok segs -> 0 <= off -> 0 <= base -> off + seg_lens segs = size -> base + size <= Z.of_nat (List.length data) ->
  Z.of_nat (List.length data) < 2 ^ 32 ->
  exists segs', copy_to_bio segs size base off data = Ok segs' /\ Forall2 refilled segs segs' /\
    payload segs' = take (Z.to_nat (seg_lens segs)) (drop (Z.to_nat (base + off)) data).
Proof.
  induction segs as [|v segs IH]; intros size base off data Hs Ho Hb Hsize Hl Hd; cbn [copy_to_bio].
  - exists []. split_and!; [done|constructor|done].
  - apply Forall_cons in Hs as [Hv Hs]. pose proof (seg_lens_nonneg _ Hs) as Hnn. pose proof Hv as (H0 & H1 & H2).
    cbn [seg_lens foldr] in Hsize |- *. fold (seg_lens segs) in Hsize |- *. rewrite !wrap_id by (unfold in_range; lia).
    destruct (Z.leb_spec (bv_len v) (size - off)); [|lia].
    rewrite slice_Some by lia. cbn [of_option]. rewrite bind_Ok. set (src := take _ (drop _ data)).
    assert (Ls : List.length src = Z.to_nat (bv_len v)) by (unfold src; rewrite length_take, length_drop; lia).
    rewrite splice_Some by lia. cbn [of_option]. rewrite bind_Ok.
    destruct (IH size base (off + bv_len v) data) as (segs' & -> & Hr & Hp); [done|lia..|]. rewrite bind_Ok.
    eexists. split; [done|]. split.
    + constructor; [|done]. split_and!; cbn [bv_offset bv_len bv_page]; [done|done| | |].
      * rewrite !length_app, length_take, length_drop, Ls. lia.
      * by rewrite take_app_length' by (rewrite length_take; lia).
      * rewrite app_assoc, drop_app_ge by (rewrite length_app, length_take, Ls; lia). rewrite drop_drop. f_equal.
        rewrite length_app, length_take, Ls. lia.
    + unfold payload in *. cbn [map concat]. rewrite Hp. unfold piece_of. cbn [bv_offset bv_len bv_page].
      rewrite drop_app_length' by (rewrite length_take; lia). rewrite take_app_length' by done. unfold src.
      rewrite (Z2Nat.inj_add (bv_len v) (seg_lens segs)), <- take_take_drop by lia. rewrite drop_drop. f_equal. do 2 f_equal. lia.
Qed.

(** ** A map with the entry of one block *)
Definition tuples (ts : list afs_map_tuple) : list Z := concat (map tuple_bytes ts).
Definition entry_map (pre : list Z) (ts : list afs_map_tuple) (diff post : list Z) : list Z := pre ++ tuples ts ++ diff ++ post.
Definition tuple_ok (t : afs_map_tuple) : Prop := in_range 32 (carrier_block_ptr t) /\ in_range 16 (checksum t).

Lemma tuples_length ts : List.length (tuples ts) = (6 * List.length ts)%nat.
Proof.
  induction ts as [|t ts IH]; [done|]. unfold tuples in *. cbn [map concat]. rewrite length_app, IH, tuple_bytes_length. cbn. lia.
Qed.

Lemma tuples_app a b : tuples (a ++ b) = tuples a ++ tuples b.
Proof. unfold tuples. by rewrite map_app, concat_app. Qed.

Lemma tuples_split ts i t : ts !! i = Some t -> tuples ts = tuples (take i ts) ++ tuple_bytes t ++ tuples (drop (S i) ts).
Proof. intros E. rewrite <- (take_drop_middle ts i t E) at 1. by rewrite tuples_app. Qed.

Section Entry.
Context (pre diff post : list Z).
Let E ts := entry_map pre ts diff post.
Let e := List.length pre.

Lemma tuple_off i : (e + Z.to_nat (map_tuple_sz * Z.of_nat i) = e + 6 * i)%nat.
Proof. unfold map_tuple_sz. lia. Qed.

Lemma tuple_at_entry ts i t : ts !! i = Some t -> tuple_ok t -> tuple_at (E ts) e (Z.of_nat i) = Ok t.
Proof.
  intros Ei [H1 H2]. unfold tuple_at. rewrite tuple_off. change (Z.to_nat map_tuple_sz) with 6%nat. unfold E, entry_map.
  rewrite (tuples_split ts i t Ei), <- !app_assoc.
  assert (Lt : List.length (tuples (take i ts)) = (6 * i)%nat).
  { rewrite tuples_length, length_take. apply lookup_lt_Some in Ei. lia. }
  rewrite (app_assoc pre). rewrite <- (Nat.add_0_r (e + 6 * i)).
  replace (e + 6 * i)%nat with (List.length (pre ++ tuples (take i ts))) by (rewrite length_app, Lt; done).
  rewrite slice_app_r, slice_app_l by (rewrite tuple_bytes_length; lia).
  rewrite slice_Some by (rewrite tuple_bytes_length; lia). cbn [of_option]. rewrite bind_Ok, drop_0, take_ge by (rewrite tuple_bytes_length; lia).
  rewrite <- (app_nil_r (tuple_bytes t)). by rewrite tuple_of_tuple_bytes.
Qed.

Lemma put_tuple_entry ts i t : (i < List.length ts)%nat -> put_tuple (E ts) e (Z.of_nat i) t = Ok (E (<[i := t]> ts)).
Proof.
  intros Hi. destruct (lookup_lt_is_Some_2 ts i Hi) as [t0 E0]. unfold put_tuple. rewrite tuple_off. unfold E, entry_map.
  rewrite (tuples_split ts i t0 E0), <- !app_assoc.
  assert (Lt : List.length (tuples (take i ts)) = (6 * i)%nat) by (rewrite tuples_length, length_take; lia).
  rewrite (app_assoc pre). rewrite <- (Nat.add_0_r (e + 6 * i)).
  replace (e + 6 * i)%nat with (List.length (pre ++ tuples (take i ts))) by (rewrite length_app, Lt; done).
  rewrite splice_app_r, splice_app_l by (rewrite !tuple_bytes_length; lia).
  rewrite splice_Some by (rewrite !tuple_bytes_length; lia). cbn [fmap option_fmap option_map of_option].
  rewrite take_0, app_nil_l, (drop_ge (tuple_bytes t0)), app_nil_r by (rewrite !tuple_bytes_length; lia).
  rewrite <- !app_assoc. f_equal. f_equal.
  rewrite insert_take_drop, tuples_app, <- app_assoc by done. unfold tuples at 4. cbn [map concat]. by rewrite <- app_assoc.
Qed.

Definition with_ptr (b : Z) (t : afs_map_tuple) : afs_map_tuple := {| carrier_block_ptr := b; checksum := checksum t |}.
Definition with_sum (s : Z) (t : afs_map_tuple) : afs_map_tuple := {| carrier_block_ptr := carrier_block_ptr t; checksum := s |}.

Lemma set_ptr_entry ts i t b : ts !! i = Some t -> tuple_ok t ->
  set_carrier_block_ptr (E ts) e (Z.of_nat i) b = Ok (E (<[i := with_ptr b t]> ts)).
Proof.
  intros Ei Ht. unfold set_carrier_block_ptr. rewrite (tuple_at_entry _ _ _ Ei Ht), bind_Ok.
  apply put_tuple_entry. by eapply lookup_lt_Some.
Qed.

Lemma set_sum_entry ts i t s : ts !! i = Some t -> tuple_ok t ->
  set_checksum (E ts) e (Z.of_nat i) s = Ok (E (<[i := with_sum s t]> ts)).
Proof.
  intros Ei Ht. unfold set_checksum. rewrite (tuple_at_entry _ _ _ Ei Ht), bind_Ok.
  apply put_tuple_entry. by eapply lookup_lt_Some.
Qed.

Lemma difference_entry ts d : List.length diff = 32%nat -> d = (e + 6 * List.length ts)%nat ->
  slice d 32 (E ts) = Some diff /\
  forall diff', List.length diff' = 32%nat -> splice d diff' (E ts) = Some (entry_map pre ts diff' post).
Proof.
  intros Hl ->. unfold E, entry_map. rewrite !app_assoc, <- (app_assoc (pre ++ tuples ts)).
  replace (e + 6 * List.length ts)%nat with (List.length (pre ++ tuples ts) + 0)%nat by (rewrite length_app, tuples_length; unfold e; lia).
  split.
  - rewrite slice_app_r, slice_app_l, slice_Some by lia. by rewrite drop_0, take_ge by lia.
  - intros diff' Hl'. rewrite splice_app_r, splice_app_l, splice_Some by lia. cbn [fmap option_fmap option_map].
    rewrite take_0, app_nil_l, (drop_ge diff), app_nil_r by lia. by rewrite <- !app_assoc.
Qed.
End Entry.

(** ** Finding an entry in a map *)
Definition has_entry (m : list Z) (e : nat) (ts : list afs_map_tuple) (diff : list Z) : Prop :=
  List.length diff = 32%nat /\ slice e (6 * List.length ts + 32) m = Some (tuples ts ++ diff).

Lemma slice_parts {A} o n (l s : list A) : slice o n l = Some s -> exists pre post, l = pre ++ s ++ post /\ List.length pre = o.
Proof.
  unfold slice. case_decide as Hl; [|done]. intros [= <-]. exists (take o l), (drop n (drop o l)).
  rewrite take_drop, take_drop. split; [done|]. rewrite length_take. lia.
Qed.

Lemma has_entry_parts m e ts diff : has_entry m e ts diff ->
  List.length diff = 32%nat /\ exists pre post, m = entry_map pre ts diff post /\ List.length pre = e.
Proof.
  intros [Hd (pre & post & -> & Hp)%slice_parts]. split; [done|]. exists pre, post. unfold entry_map. by rewrite <- app_assoc.
Qed.

Lemma entry_map_has pre ts diff post : List.length diff = 32%nat -> has_entry (entry_map pre ts diff post) (List.length pre) ts diff.
Proof.
  intros Hd. split; [done|]. unfold entry_map. rewrite app_assoc with (l := tuples ts).
  rewrite <- (Nat.add_0_r (List.length pre)), slice_app_r. assert (L : List.length (tuples ts ++ diff) = (6 * List.length ts + 32)%nat) by (rewrite length_app, tuples_length; lia).
  rewrite <- L, slice_app_l, slice_Some by lia. by rewrite drop_0, take_ge by lia.
Qed.

Lemma entry_map_length pre ts diff post : List.length (entry_map pre ts diff post) = (List.length pre + 6 * List.length ts + List.length diff + List.length post)%nat.
Proof. unfold entry_map. rewrite !length_app, tuples_length. lia. Qed.

(** Rewriting one entry leaves every disjoint part of the map. *)
Lemma slice_app3 {A} (p a b q : list A) o n : List.length a = List.length b -> (o + n <= List.length p \/ List.length p + List.length a <= o)%nat ->
  slice o n (p ++ a ++ q) = slice o n (p ++ b ++ q).
Proof.
  intros Hl [H|H]; [by rewrite !slice_app_l by lia|].
  rewrite !(app_assoc p). replace o with (List.length (p ++ a) + (o - List.length (p ++ a)))%nat at 1 by (rewrite length_app; lia).
  replace o with (List.length (p ++ b) + (o - List.length (p ++ a)))%nat at 2 by (rewrite !length_app; lia). by rewrite !slice_app_r.
Qed.

Lemma has_entry_frame pre ts ts1 diff diff1 post e ts' diff' :
  List.length ts1 = List.length ts -> List.length diff1 = List.length diff ->
  (e + 6 * List.length ts' + 32 <= List.length pre \/ List.length pre + 6 * List.length ts + List.length diff <= e)%nat ->
  has_entry (entry_map pre ts diff post) e ts' diff' -> has_entry (entry_map pre ts1 diff1 post) e ts' diff'.
Proof.
  intros H1 H2 Hd [Hl Hs]. split; [done|]. rewrite <- Hs. unfold entry_map. rewrite !(app_assoc (tuples _)).
  apply slice_app3; rewrite !length_app, !tuples_length; lia.
Qed.

(** ** Choosing the carrier blocks *)
Lemma assign_step (modification : bool) k i r c c1 b pre ts diff post t :
  (if modification then t ← tuple_at (afs_map c) (List.length pre) (Z.of_nat i); Ok (carrier_block_ptr t, c) else ctx_acquire_block c) = Ok (b, c1) ->
  b <> AFS_INVALID_BLOCK -> afs_map c1 = entry_map pre ts diff post -> ts !! i = Some t -> tuple_ok t -> (i < List.length (block_nums r))%nat ->
  assign_blocks modification (List.length pre) (S k) (Z.of_nat i) r c
  = assign_blocks modification (List.length pre) k (Z.of_nat (S i)) (set_block_nums (<[i := b]> (block_nums r)) r)
      (set_map (entry_map pre (<[i := with_ptr b t]> ts) diff post) c1).
Proof.
  intros Hb Hne Hm Et Ht Hi. cbn [assign_blocks]. rewrite Hb, bind_Ok. cbn [fst snd]. destruct (Z.eqb_spec b AFS_INVALID_BLOCK); [done|].
  rewrite Hm, (set_ptr_entry _ _ _ _ _ _ _ Et Ht), bind_Ok, put_nat, bind_Ok by done. by rewrite Nat2Z.inj_succ.
Qed.

Definition with_ptrs (nums : list Z) (ts : list afs_map_tuple) : list afs_map_tuple := zip_with with_ptr nums ts.

Lemma insert_middle {A} (a b : list A) x y : <[List.length a := y]> (a ++ x :: b) = a ++ y :: b.
Proof. rewrite insert_app_r_alt by lia. by rewrite Nat.sub_diag. Qed.

Lemma assign_fresh pre diff post : forall nums ts0 ts nums0 old rest r c v rng,
  afs_map c = entry_map pre (ts0 ++ ts) diff post -> List.length ts = List.length nums -> Forall tuple_ok ts ->
  block_nums r = nums0 ++ old ++ rest -> List.length nums0 = List.length ts0 -> List.length old = List.length nums ->
  acquire_many (passive_fs c) (vector c) (Metadata.rng c) (List.length nums) = Ok (nums, v, rng) -> AFS_INVALID_BLOCK ∉ nums ->
  assign_blocks false (List.length pre) (List.length nums) (Z.of_nat (List.length ts0)) r c
  = Ok (true, set_block_nums (nums0 ++ nums ++ rest) r,
        set_map (entry_map pre (ts0 ++ with_ptrs nums ts) diff post) (set_rng rng (set_vector v c))).
Proof.
  intros nums. induction nums as [|b nums IH]; intros ts0 ts nums0 old rest r c v rng Hm Hl Hts Hbn Hl0 Hlo Ha Hni.
  - destruct ts; [|done]. destruct old; [|done]. cbn [List.length acquire_many assign_blocks] in *. injection Ha as <- <-.
    cbn [with_ptrs zip_with] in *. rewrite <- Hm. destruct c, r. cbn in *. by subst.
  - destruct ts as [|t ts]; [done|]. destruct old as [|o old]; [done|]. apply Forall_cons in Hts as [Ht Hts].
    apply not_elem_of_cons in Hni as [Hb Hni]. cbn [List.length acquire_many] in Ha.
    apply res_bind_Ok in Ha as ([[b1 v1] rnd1] & H1 & Ha). apply res_bind_Ok in Ha as ([[bs2 v2] rnd2] & H2 & Ha). injection Ha as -> -> -> ->.
    cbn [List.length]. erewrite assign_step; [| |done| | |exact Ht|].
    2: { cbv iota. unfold ctx_acquire_block. rewrite H1, bind_Ok. reflexivity. }
    2: { exact Hm. } 2: { by apply list_lookup_middle. } 2: { rewrite Hbn, !length_app. cbn. lia. }
    assert (E1 : <[List.length ts0 := b]> (block_nums r) = (nums0 ++ [b]) ++ old ++ rest)
      by (rewrite Hbn, <- Hl0, <- app_assoc; apply insert_middle).
    assert (E2 : <[List.length ts0 := with_ptr b t]> (ts0 ++ t :: ts) = (ts0 ++ [with_ptr b t]) ++ ts)
      by (rewrite <- app_assoc; apply insert_middle).
    rewrite E1, E2. replace (S (List.length ts0)) with (List.length (ts0 ++ [with_ptr b t])) by (rewrite length_app; cbn; lia).
    rewrite (IH (ts0 ++ [with_ptr b t]) ts (nums0 ++ [b]) old rest) with (v := v) (rng := rng); try done.
    + cbn [with_ptrs zip_with]. rewrite <- !app_assoc. reflexivity.
    + cbn in *. lia.
    + rewrite !length_app. cbn. lia.
    + cbn in *. lia.
Qed.

(** A write to a mapped block keeps its carriers and so the map. *)
Lemma with_own_ptr t : with_ptr (carrier_block_ptr t) t = t.
Proof. by destruct t. Qed.

Lemma set_map_same c : set_map (afs_map c) c = c.
Proof. by destruct c. Qed.

Lemma assign_mapped pre diff post : forall ts ts0 nums0 old rest r c,
  afs_map c = entry_map pre (ts0 ++ ts) diff post -> Forall tuple_ok ts -> Forall (fun t => carrier_block_ptr t <> AFS_INVALID_BLOCK) ts ->
  block_nums r = nums0 ++ old ++ rest -> List.length nums0 = List.length ts0 -> List.length old = List.length ts ->
  assign_blocks true (List.length pre) (List.length ts) (Z.of_nat (List.length ts0)) r c
  = Ok (true, set_block_nums (nums0 ++ map carrier_block_ptr ts ++ rest) r, c).
Proof.
  intros ts. induction ts as [|t ts IH]; intros ts0 nums0 old rest r c Hm Hts Hni Hbn Hl0 Hlo.
  - destruct old; [|done]. cbn in *. destruct r. cbn in *. by subst.
  - destruct old as [|o old]; [done|]. apply Forall_cons in Hts as [Ht Hts]. apply Forall_cons in Hni as [Hb Hni].
    assert (Et : (ts0 ++ t :: ts) !! List.length ts0 = Some t) by by apply list_lookup_middle.
    cbn [List.length]. erewrite assign_step; [| |exact Hb|exact Hm|exact Et|exact Ht|rewrite Hbn, !length_app; cbn; lia].
    2: { cbv iota. rewrite Hm, (tuple_at_entry _ _ _ _ _ _ Et Ht), bind_Ok. reflexivity. }
    assert (E1 : <[List.length ts0 := carrier_block_ptr t]> (block_nums r) = (nums0 ++ [carrier_block_ptr t]) ++ old ++ rest)
      by (rewrite Hbn, <- Hl0, <- app_assoc; apply insert_middle).
    rewrite E1, with_own_ptr, insert_middle, <- Hm, set_map_same.
    replace (S (List.length ts0)) with (List.length (ts0 ++ [t])) by (rewrite length_app; cbn; lia).
    rewrite (IH (ts0 ++ [t]) (nums0 ++ [carrier_block_ptr t]) old rest); try done.
    + cbn [map]. by rewrite <- app_assoc.
    + by rewrite <- app_assoc.
    + rewrite !length_app. cbn. lia.
    + cbn in *. lia.
Qed.

(** ** Checksums *)
Definition sum_of (p : list Z) : Z := match cityhash32_to_16 p 4096 with Ok s => s | _ => 0 end.

Lemma sum_of_spec p : List.length p = 4096%nat -> cityhash32_to_16 p AFS_BLOCK_SIZE = Ok (sum_of p) /\ in_range 16 (sum_of p).
Proof.
  intros Hl. destruct (checksum_agree p []) as (s & E & _ & Hs). rewrite Hl in E. unfold sum_of, AFS_BLOCK_SIZE.
  change (Z.of_nat 4096) with 4096 in E. by rewrite E.
Qed.

Definition with_sums (pages : list (list Z)) (ts : list afs_map_tuple) : list afs_map_tuple := zip_with (fun p => with_sum (sum_of p)) pages ts.

Lemma with_sums_lookup pages ts i p t : pages !! i = Some p -> ts !! i = Some t -> with_sums pages ts !! i = Some (with_sum (sum_of p) t).
Proof. intros Ep Et. unfold with_sums. by rewrite lookup_zip_with, Ep, Et. Qed.

Section Sums.
Context (r : afs_map_request) (c : afs_private) (n : nat) (pre diff post : list Z) (ts : list afs_map_tuple).
Context (Hn : num_carrier_blocks (config c) = Z.of_nat n) (He : afs_get_map_entry (config c) (block r) = List.length pre)
  (Hm : afs_map c = entry_map pre ts diff post) (Hl : List.length ts = n) (Hts : Forall tuple_ok ts)
  (Hlp : List.length (carrier_blocks r) = n) (Hp : Forall (fun p => List.length p = 4096%nat) (carrier_blocks r)).

Lemma page_and_tuple i : (i < n)%nat -> exists p t, carrier_blocks r !! i = Some p /\ List.length p = 4096%nat /\ ts !! i = Some t /\ tuple_ok t.
Proof.
  intros Hi. destruct (lookup_lt_is_Some_2 (carrier_blocks r) i ltac:(lia)) as [p Ep]. destruct (lookup_lt_is_Some_2 ts i ltac:(lia)) as [t Et].
  exists p, t. split_and!; [done| |done|]; [by apply (Forall_lookup_1 _ _ _ _ Hp Ep)|by apply (Forall_lookup_1 _ _ _ _ Hts Et)].
Qed.

Lemma store_checksums_spec : store_checksums r c = Ok (set_map (entry_map pre (with_sums (carrier_blocks r) ts) diff post) c).
Proof.
  unfold store_checksums. rewrite Hn, Nat2Z.id, He.
  forM_induction (fun i c' => c' = set_map (entry_map pre (with_sums (take i (carrier_blocks r)) (take i ts) ++ drop i ts) diff post) c).
  - rewrite !take_0, drop_0. change (with_sums [] [] ++ ts) with ts. by rewrite <- Hm, set_map_same.
  - intros i c' Hi ->. destruct (page_and_tuple i ltac:(lia)) as (p & t & Ep & Lp & Et & Ht).
    destruct (sum_of_spec p Lp) as [Es _]. rewrite (get_nat _ _ _ Ep), bind_Ok, Es, bind_Ok.
    set (done_ := with_sums _ _). assert (Ld : List.length done_ = i) by (unfold done_, with_sums; rewrite length_zip_with, !length_take; lia).
    assert (Ed : drop i ts = t :: drop (S i) ts) by by apply drop_S.
    cbn [afs_map set_map]. rewrite Ed. rewrite (set_sum_entry _ _ _ _ i t); [|by rewrite <- Ld; apply list_lookup_middle|done].
    rewrite bind_Ok. eexists. split; [done|]. rewrite <- Ld at 1. rewrite insert_middle.
    rewrite (take_S_r _ _ _ Ep), (take_S_r _ _ _ Et). unfold with_sums. rewrite zip_with_app by (rewrite !length_take; lia).
    rewrite <- app_assoc. reflexivity.
  - destruct Hloop as (c' & -> & ->). by rewrite !take_ge, drop_ge, app_nil_r by lia.
Qed.

(** Pages that match their checksums are accepted. *)
Lemma verify_checksums_spec :
  (forall i p t, carrier_blocks r !! i = Some p -> ts !! i = Some t -> checksum t = sum_of p) -> verify_checksums r c = Ok r.
Proof.
  intros Hs. unfold verify_checksums. rewrite Hn, Nat2Z.id, He.
  forM_induction (fun (_ : nat) r' => r' = r).
  - done.
  - intros i r' Hi ->. destruct (page_and_tuple i ltac:(lia)) as (p & t & Ep & Lp & Et & Ht).
    destruct (sum_of_spec p Lp) as [Es _]. rewrite (get_nat _ _ _ Ep), bind_Ok, Es, bind_Ok, Hm, (tuple_at_entry _ _ _ _ _ _ Et Ht), bind_Ok.
    rewrite (Hs i p t Ep Et), Z.eqb_refl. by eexists.
  - by destruct Hloop as (r' & -> & ->).
Qed.
End Sums.
