(* ===== verification/EngineData.v ===== *)
(** * EngineData: a block as its carriers hold it

    What the data path of the engine relies on: encoding a data block into the
    carrier pages and decoding it from them, with the all-or-nothing transform
    over two data carriers and the erasure code as the module runs it. *)
From stdpp Require Import base tactics option list numbers gmap.
From Stdlib Require Import ZArith Lia.
From S2P Require Import Prelude BitVector Allocation BlockIo Format Metadata Galois GfShare CauchyGf CauchyMem CauchyRs CauchyElim CauchyDecode CauchyUninit Speck Sha3 Aont City Engine EngineMap.

Local Open Scope Z_scope.
Local Open Scope afs_scope.

Definition page_ok (p : list Z) : Prop := bytes p /\ List.length p = 4096%nat.

Lemma page_ok_length pages : Forall page_ok pages -> Forall (fun p => List.length p = 4096%nat) pages.
Proof. intros H. eapply Forall_impl; [exact H|]. by intros p []. Qed.

(** The carriers of a data block: the first two start with the pieces of its
    package. *)
Definition share_sz : nat := 2064.
Definition package (key iv data : list Z) : list Z := aont_package 256 key (words 2 iv) data.
Definition carries (iv data : list Z) (pages : list (list Z)) : Prop :=
  exists key, List.length key = 4%nat /\ Forall (in_range 64) key /\
    forall i, (i < 2)%nat -> exists t, pages !! i = Some (piece share_sz (package key iv data) i ++ t).

(** The environment of one request: the allocations of the transform succeed
    and fresh memory is large enough. *)
Definition enc_env_ok (env : enc_env) : Prop :=
  (exists e, env_ok 4128 e (aont env)) /\ List.length (aont_key env) = 4%nat /\ Forall (in_range 64) (aont_key env).

Lemma iv_words iv : bytes iv -> List.length iv = 16%nat -> exists n0 n1, words 2 iv = [n0; n1] /\ in_range 64 n0 /\ in_range 64 n1.
Proof.
  intros Hb Hl. pose proof (words_range 2 iv Hb) as Hr. pose proof (words_length 2 iv) as L.
  destruct (words 2 iv) as [|n0 [|n1 [|]]]; try discriminate L. apply Forall_cons in Hr as [H0 Hr]. apply Forall_cons in Hr as [H1 _].
  by exists n0, n1.
Qed.

Lemma take_seq k n : (k <= n)%nat -> take k (seq 0 n) = seq 0 k.
Proof. intros H. replace n with (k + (n - k))%nat by lia. rewrite seq_app. apply take_app_length'. by rewrite length_seq. Qed.

Lemma drop_seq k n : (k <= n)%nat -> drop k (seq 0 n) = seq k (n - k).
Proof. intros H. replace n with (k + (n - k))%nat at 1 by lia. rewrite seq_app. apply drop_app_length'. by rewrite length_seq. Qed.

Lemma pages_lookup (pages : list (list Z)) q : Forall page_ok pages -> (q < List.length pages)%nat ->
  exists p, pages !! q = Some p /\ page_ok p.
Proof. intros H Hq. destruct (lookup_lt_is_Some_2 _ _ Hq) as [p E]. exists p. split; [done|]. by apply (Forall_lookup_1 _ _ _ _ H E). Qed.

Lemma pages_intro n (pages : list (list Z)) : (forall q, (n <= q)%nat -> pages !! q = None) ->
  (forall q, (q < n)%nat -> exists p, pages !! q = Some p /\ page_ok p) -> List.length pages = n /\ Forall page_ok pages.
Proof.
  intros Hnone Hsome. assert (Hl : List.length pages = n).
  { destruct (decide (List.length pages < n)%nat) as [Hlt|Hge].
    - destruct (Hsome (List.length pages) Hlt) as (p & E & _). apply lookup_lt_Some in E. lia.
    - specialize (Hnone n ltac:(lia)). apply lookup_ge_None in Hnone. lia. }
  split; [done|]. apply Forall_lookup. intros q p E. destruct (Hsome q) as (p' & E' & Hp); [apply lookup_lt_Some in E; lia|]. congruence.
Qed.

Section Coder.
Context (env : enc_env) (n : nat) (iv data : list Z).
Context (Henv : enc_env_ok env) (Hn : (4 <= n <= 8)%nat) (Hiv : bytes iv) (Liv : List.length iv = 16%nat) (Hdata : page_ok data).

(** The encoder: pages stay pages, and they carry the data. *)
Lemma encode_pages difference pages : List.length difference = 32%nat -> List.length pages = n -> Forall page_ok pages ->
  exists difference' pages', encode_aont_package zero_ctx (ssse3 env) (aont env) (aont_key env) difference data AFS_BLOCK_SIZE
      (carriers (Z.of_nat n)) 2 (u64 (Z.of_nat n - 2)) (words 2 iv) pages = Ok (0, difference', pages') /\
    List.length difference' = 32%nat /\ List.length pages' = n /\ Forall page_ok pages' /\ carries iv data pages'.
Proof.
  destruct Henv as ((e & He) & Lk & Hk). destruct Hdata as [Bd Ld]. destruct (iv_words iv Hiv Liv) as (n0 & n1 & Ew & H0 & H1).
  intros Hdiff Hlp Hp. unfold carriers. rewrite Nat2Z.id.
  assert (Hb : forall r, (r <= 4096)%nat -> buffers_ok r pages (seq 0 n)).
  { intros r Hr q Hq. apply elem_of_seq in Hq. destruct (pages_lookup pages q Hp ltac:(lia)) as (p & E & Bp & Lp). exists p. split_and!; [done|done|lia]. }
  destruct (encode_package zero_ctx (ssse3 env) 256 2 (n - 2) share_sz (seq 0 n) (aont_key env) data n0 n1) with
    (env := aont env) (e := e) (difference := difference) (st := pages)
    as (st0 & st1 & E & Er & Hb0 & Hb1 & Hf1 & Hpc & Hf0); try done; try (unfold share_sz; lia).
  { rewrite length_seq. lia. } { apply NoDup_seq. } { apply Hb. unfold share_sz. lia. }
  assert (Em : Z.of_nat (n - 2) = u64 (Z.of_nat n - 2)) by (rewrite wrap_id by (unfold in_range; lia); lia).
  rewrite Em in E. change (16 * Z.of_nat 256) with AFS_BLOCK_SIZE in E. change (Z.of_nat 2) with 2 in E. rewrite <- Ew in E.
  eexists _, st1. split; [exact E|]. split; [by apply aont_difference_length|].
  rewrite take_seq in * by lia. rewrite drop_seq in * by lia.
  (* parity *)
  destruct (uninitialised_encode (ssse3 env) share_sz 2 (n - 2) (seq 0 2) (seq 2 (n - 2)) st0) as (st1' & Er' & _ & Hpar); try done; try (unfold share_sz; lia).
  { apply length_seq. } { rewrite <- seq_app. apply NoDup_seq. }
  { rewrite <- seq_app. by replace (2 + (n - 2))%nat with n by lia. }
  unfold aont_params in Er. change (Z.of_nat 2) with 2 in Er, Er'. rewrite Er in Er'. injection Er' as <-.
  assert (Hpiece : forall i, (i < 2)%nat -> exists old, pages !! i = Some old /\ page_ok old /\
            st1 !! i = Some (piece share_sz (package (aont_key env) iv data) i ++ drop share_sz old)).
  { intros i Hi. destruct (pages_lookup pages i Hp ltac:(lia)) as (old & Eo & Ho). exists old. split; [done|]. split; [done|].
    rewrite Hf1 by (rewrite elem_of_seq; lia). unfold package. rewrite Ew. apply Hpc; [|done]. by rewrite lookup_seq_lt. }
  destruct (cipher_facts 256 2 (n - 2) share_sz (seq 0 n) (aont_key env) data n0 n1) as (_ & _ & Lp & Bp); try done; try (unfold share_sz; lia).
  { rewrite length_seq. lia. }
  assert (Hpages : List.length st1 = n /\ Forall page_ok st1).
  { apply pages_intro.
    - intros q Hq. rewrite Hf1, Hf0 by (rewrite elem_of_seq; lia). apply lookup_ge_None. lia.
    - intros q Hq. destruct (decide (q < 2)%nat) as [Hlt|Hge].
      + destruct (Hpiece q Hlt) as (old & Eo & [Bo Lo] & ->). eexists. split; [done|]. unfold package. rewrite Ew. split.
        * apply Forall_app. split; [by apply Forall_take, Forall_drop|by apply Forall_drop].
        * unfold piece. rewrite length_app, length_take, !length_drop. unfold share_sz in *. nia.
      + destruct (pages_lookup pages q Hp ltac:(lia)) as (old & Eo & Bo & Lo).
        rewrite (Hpar (q - 2)%nat q old); [|by rewrite lookup_seq_lt by lia; f_equal; lia|by rewrite Hf0 by (rewrite elem_of_seq; lia)].
        eexists. split; [done|].
        assert (Hz : bytes (zero_row share_sz 2 (contents st0 (seq 0 2)) (q - 2)) /\ List.length (zero_row share_sz 2 (contents st0 (seq 0 2)) (q - 2)) = share_sz).
        { unfold zero_row. case_decide; [|split; [by apply Forall_replicate|apply length_replicate]].
          apply and_comm, xor_blocks_ok; [done|]. apply contents_ok. intros x Hx. apply Hb0. apply elem_of_seq in Hx. apply elem_of_seq. lia. }
        destruct Hz as [Bz Lz]. split; [apply Forall_app; split; [exact Bz|by apply Forall_drop]|].
        rewrite length_app, Lz, length_drop. unfold share_sz. lia. }
  destruct Hpages as [Lst Hst]. split_and!; [exact Lst|exact Hst|]. exists (aont_key env). split_and!; [done|done|].
  intros i Hi. destruct (Hpiece i Hi) as (old & _ & _ & Ei). by eexists.
Qed.

(** The decoder: the data comes back from pages that carry it. *)
Lemma decode_pages difference data0 erasures pages : List.length difference = 32%nat -> List.length data0 = 4096%nat ->
  List.length pages = n -> carries iv data pages ->
  exists difference', decode_aont_package zero_ctx (ssse3 env) (aont env) difference data0 AFS_BLOCK_SIZE
      (carriers (Z.of_nat n)) 2 (u64 (Z.of_nat n - 2)) (words 2 iv) erasures 0 pages = Ok (0, difference', data, pages) /\
    List.length difference' = 32%nat.
Proof.
  destruct Henv as ((e & He) & _ & _). destruct Hdata as [Bd Ld]. destruct (iv_words iv Hiv Liv) as (n0 & n1 & Ew & H0 & H1).
  intros Hdiff Ld0 Hlp (key & Lk & Hk & Hpc). unfold carriers. rewrite Nat2Z.id.
  assert (Em : u64 (Z.of_nat n - 2) = Z.of_nat (n - 2)) by (rewrite wrap_id by (unfold in_range; lia); lia).
  rewrite Em, Ew. change AFS_BLOCK_SIZE with (16 * Z.of_nat 256). change 2 with (Z.of_nat 2) at 1.
  eexists. split; [|by eapply (aont_difference_length _ key)].
  rewrite (decode_package zero_ctx (ssse3 env) 256 2 (n - 2) share_sz (seq 0 n) key data n0 n1) with (e := e) (st3 := pages); try done; try (unfold share_sz; lia).
  - by rewrite take_ge, drop_ge, app_nil_r by lia.
  - rewrite length_seq. lia.
  - rewrite take_seq, drop_seq, (env_decoder _ _ _ He) by lia. apply decode_nothing; try done; try (unfold share_sz; lia).
    + apply length_seq.
    + rewrite <- seq_app. apply NoDup_seq.
    + apply He.
  - rewrite take_seq by lia. intros i q Ei. apply lookup_seq in Ei as [-> Hi]. destruct (Hpc i Hi) as [t Et]. exists t.
    unfold package in Et. rewrite Ew in Et. exact Et.
Qed.
End Coder.
