(* ===== verification/Target.v ===== *)
(** * Target: the device-mapper target (src/dm_afs.c)

    Requests are made by [afs_map] and [afs_rebuild] and run on the
    work queues: a task of the system is a request with the point it has
    reached. A step of the system is the start of a queued task, the completion
    of one of the carrier bios in flight, or a decoding on the crypto queue; the
    tasks share the instance and their steps interleave freely, as the
    work queues run them. A handler that faults or never returns is a step too,
    to a system that has stopped. Theorems: every task completes its bio at most
    once and only after its last carrier bio; every execution ends, at most in
    such a stop. *)
From stdpp Require Import base tactics option list numbers gmap relations.
From Stdlib Require Import ZArith Lia.
From S2P Require Import Prelude BitVector Allocation BlockIo Format Metadata GfShare CauchyGf CauchyRs Aont City EngineQueue Engine.

Local Open Scope Z_scope.
Local Open Scope afs_scope.

(** ** Work functions *)

(** The result of a work function: the request, the carrier bios in flight and
    the context. *)
Definition work_result : Type := afs_map_request * list carrier_bio * afs_private.

(** [afs_flightq]. The work item is not pending while it runs. *)
Definition afs_flightq (env : enc_env) (r : afs_map_request) (c : afs_private) : res work_result :=
  match req_bio r with
  | BioSet b =>
      '(ret, r, bios, c) ←
        match op b with
        | REQ_OP_READ => afs_read_request env (set_state REQ_STATE_FLIGHT r) b c
        | REQ_OP_WRITE => afs_write_request env (set_state REQ_STATE_FLIGHT r) b c
        | _ => Ok (- EINVAL, r, [], c)
        end;
      if ret =? 0 then Ok (r, bios, c) else r ← afs_req_clean env r; Ok (r, bios, c)
  | _ => Fault
  end.

(** The alert of a failed rebuild prints the operation of the bio. *)
Definition afs_rebuildq (env : enc_env) (r : afs_map_request) (c : afs_private) : res work_result :=
  '(ret, r, bios, c) ← afs_rebuild_request env (set_state REQ_STATE_FLIGHT r) c;
  if ret =? 0 then Ok (r, bios, c)
  else match req_bio r with
       | BioSet _ => r ← afs_req_clean env r; Ok (r, bios, c)
       | _ => Fault
       end.

Definition afs_cryptoq (env : enc_env) (r : afs_map_request) (c : afs_private) : res work_result :=
  '(ret, r, bios, c) ← afs_read_decode env r c;
  if ret =? 0 then Ok (r, bios, c) else r ← afs_req_clean env r; Ok (r, bios, c).

(** ** Making requests *)

(** What [kmalloc] and [__get_free_page] leave in a new request: the pages, or
    none when they run out, and the fields that are not assigned. *)
Record request_memory := {
  mem_ok : bool;
  mem_pages : list (list Z);
  mem_data_block : list Z;
  mem_bio : bio_ptr;
  mem_erasures : list Z;
  mem_block_nums : list Z;
  mem_numbers : Z * Z * Z * Z;
}.

(** An instance: its context with what the metadata code does not use. *)
Record instance := mk_instance {
  priv : afs_private;
  passphrase_hash : list Z;
  ctx_encoding_type : Z;
  flight_eq : rb_tree (Z * Z);
}.

(** [None]: the request could not be allocated. A page that could not be
    allocated is a null pointer among [carrier_blocks]; the model faults at
    once and not when the page is used. *)
Definition init_request (mem : request_memory) (x : instance) : res (option afs_map_request) :=
  if negb (mem_ok mem) then Ok None else
  pages ← of_option (slice 0 (Z.to_nat (num_carrier_blocks (config (priv x)))) (mem_pages mem));
  let '(pending, blk, size, off) := mem_numbers mem in
  Ok (Some {| carrier_blocks := pages; data_block := mem_data_block mem; state := REQ_STATE_GROUND;
              req_bio := mem_bio mem; bio_ended := 0; bios_pending := pending; encoder := None;
              encoding_type := ctx_encoding_type x; erasures := mem_erasures mem; num_erasures := 0;
              iv := take 16 (passphrase_hash x); block := blk; request_size := size; sector_offset := off;
              block_nums := mem_block_nums mem; rebuild_flag := false |}).

Definition set_geometry blk size off (r : afs_map_request) : afs_map_request :=
  mk_req (carrier_blocks r) (data_block r) (state r) (req_bio r) (bio_ended r) (bios_pending r) (encoder r)
    (encoding_type r) (erasures r) (num_erasures r) (iv r) blk size off (block_nums r) (rebuild_flag r).

(** [dm_accept_partial_bio]: the rest of the bio is sent again later. *)
Definition dm_accept_partial_bio (b : bio) (n_sectors : Z) : bio :=
  mk_bio (op b) (bi_sector b) (n_sectors * 512) (bi_io_vec b).

Definition truncate (b : bio) : bio :=
  let sector_offset := u32 (bi_sector b mod AFS_SECTORS_PER_BLOCK) in
  let max_sector_count := AFS_SECTORS_PER_BLOCK -32 sector_offset in
  if bio_sectors b >? max_sector_count then dm_accept_partial_bio b max_sector_count else b.

(** [__clone_bio] returns its argument: [override] is set. *)
Definition clone_bio (b : bio) : bio := b.

Inductive map_result :=
| DM_MAPIO_SUBMITTED (queued : option afs_map_request)  (* queued, or the bio was ended *)
| DM_MAPIO_KILL.                                         (* the bio was ended *)

(** The wait of a flush: the bio's block is looked up until it is absent. *)
Definition flush_waits (x : instance) (b : bio) : bool :=
  match afs_eq_req_exist fst (flight_eq x) (bi_sector b) with Some _ => true | None => false end.

Definition afs_map (mem : request_memory) (x : instance) (b : bio) : res map_result :=
  let b := truncate b in
  r ← init_request mem x;
  match r with
  | None => Ok DM_MAPIO_KILL
  | Some r =>
      match op b with
      | REQ_OP_READ | REQ_OP_WRITE =>
          let r := set_bio (BioSet (clone_bio b)) 0 r in
          Ok (DM_MAPIO_SUBMITTED (Some (set_geometry (u32 (bi_sector b / AFS_SECTORS_PER_BLOCK))
                (u32 (bio_sectors b * AFS_SECTOR_SIZE)) (u32 (bi_sector b mod (AFS_BLOCK_SIZE / AFS_SECTOR_SIZE))) r)))
      | REQ_OP_FLUSH => if flush_waits x b then OutOfFuel else Ok (DM_MAPIO_SUBMITTED None)
      | REQ_OP_OTHER => Ok DM_MAPIO_KILL
      end
  end.

(** The requests [afs_rebuild] puts on the rebuild queue, one for each block
    [i]. The result of [init_request] is used without a check. *)
Definition rebuild_one (mem : request_memory) (x : instance) (i : Z) : res afs_map_request :=
  r ← init_request mem x;
  match r with
  | None => Fault
  | Some r => Ok (set_geometry i AFS_BLOCK_SIZE 0 r)
  end.

Definition afs_rebuild (mem : Z -> request_memory) (x : instance) : res (list afs_map_request) :=
  forM (Z.to_nat (num_blocks (config (priv x)))) 0 (fun i rs => r ← rebuild_one (mem i) x i; Ok (rs ++ [r])) [].

(** ** The system *)

(** Why a handler does not return: a bad access stops the kernel, or a loop
    that waits for what never comes. *)
Inductive halt := Crashed | Hangs.

Definition halts {A} (why : halt) : res A := match why with Crashed => Fault | Hangs => OutOfFuel end.

Inductive phase :=
| Queued (rebuild : bool)                (* on the flight or the rebuild queue *)
| InFlight (bios : list carrier_bio)     (* carrier bios have been submitted *)
| Decoding                               (* on the crypto queue *)
| Done (bios : list carrier_bio)         (* cleaned and freed, with what was still in flight *)
| Stopped (why : halt).                  (* its handler has crashed or will never return *)

Record task := mk_task { t_env : enc_env; t_req : afs_map_request; t_phase : phase }.
Record system := mk_system { s_ctx : afs_private; s_tasks : list task }.

(** After a work function: [afs_req_clean] has freed the request or its bios
    are in flight. *)
Definition after (env : enc_env) (r : afs_map_request) (bios : list carrier_bio) : task :=
  mk_task env r (if state r =? REQ_STATE_COMPLETED then Done bios else InFlight bios).

(** One task's next event; [j] is the bio that completes. *)
Inductive event := Start | Complete (j : nat) | Decode.

Definition run_event (ev : event) (t : task) (c : afs_private) : option (res (task * afs_private)) :=
  let env := t_env t in
  match ev, t_phase t with
  | Start, Queued rebuild =>
      Some ('(r, bios, c) ← (if rebuild then afs_rebuildq env (t_req t) c else afs_flightq env (t_req t) c);
            Ok (after env r bios, c))
  | Complete j, InFlight bios =>
      match bios !! j with
      | None => None
      | Some cb =>
          let rest := delete j bios in
          Some ('(r, c) ← transfer cb (t_req t) c;
                if cb_write cb then '(r, c) ← afs_write_endio env r c; Ok (after env r rest, c)
                else let '(r, last) := afs_read_endio r in
                     Ok (mk_task env r (if last then Decoding else InFlight rest), c))
      end
  | Decode, Decoding => Some ('(r, bios, c) ← afs_cryptoq env (t_req t) c; Ok (after env r bios, c))
  | _, _ => None
  end.

Definition running (t : task) : bool := match t_phase t with Stopped _ => false | _ => true end.

(** A handler's step is its result. When it has none, the system stops: the task
    is marked, with the request and the context as they were before its handler
    ran. What that handler did before it crashed or began to wait, and what the
    other tasks do afterwards, is not modelled: there is no further step. *)
Inductive step : system -> system -> Prop :=
| task_step ev i t t' c c' ts :
    forallb running ts = true -> ts !! i = Some t -> run_event ev t c = Some (Ok (t', c')) ->
    step (mk_system c ts) (mk_system c' (<[i := t']> ts))
| task_stop ev i t why c ts :
    forallb running ts = true -> ts !! i = Some t -> run_event ev t c = Some (halts why) ->
    step (mk_system c ts) (mk_system c (<[i := mk_task (t_env t) (t_req t) (Stopped why)]> ts)).

(** ** What the handlers leave alone

    [quiet]: the fields that say how far the request has come; [keeps]: the
    configuration and the outcomes of the bios and allocations still to come. *)
Definition bio_set (r : afs_map_request) : bool := match req_bio r with BioSet _ => true | _ => false end.

Definition quiet (r r' : afs_map_request) : Prop :=
  bio_ended r' = bio_ended r /\ state r' = state r /\ bio_set r' = bio_set r /\ bios_pending r' = bios_pending r.
Definition keeps (c c' : afs_private) : Prop := config c' = config c /\ outcomes (bdev c') = outcomes (bdev c) /\ allocs c' = allocs c.

#[export] Instance quiet_preorder : PreOrder quiet.
Proof. unfold quiet. split; [done|]. intros r1 r2 r3. intuition congruence. Qed.
#[export] Instance keeps_preorder : PreOrder keeps.
Proof. unfold keeps. split; [done|]. intros c1 c2 c3. intuition congruence. Qed.

(** Case analysis on a run that returned. *)
Ltac run_step H :=
  first
    [ match type of H with mbind _ _ = Ok _ => apply res_bind_Ok in H as (? & ? & H) end
    | progress cbv beta iota zeta in H
    | progress unfold mret, res_ret in H
    | match type of H with
      | (let '(_, _) := ?x in _) = Ok _ => destruct x eqn:?
      | (if ?b then _ else _) = Ok _ => destruct b eqn:?
      | match ?x with Some _ => _ | None => _ end = Ok _ => destruct x eqn:?
      | Ok _ = Ok _ => injection H as ?
      | Fault = Ok _ => discriminate H
      | OutOfFuel = Ok _ => discriminate H
      end ].
Ltac run_inv H := repeat run_step H; subst.
Ltac run_inv_all := repeat match goal with H : _ = Ok _ |- _ => run_step H end; subst.

Lemma acquire_keeps c b c' : ctx_acquire_block c = Ok (b, c') -> keeps c c'.
Proof. unfold ctx_acquire_block. intros H. run_inv H. done. Qed.

Lemma encode_data_quiet env r c r' c' : encode_data env r c = Ok (r', c') -> quiet r r' /\ keeps c c'.
Proof. unfold encode_data. intros H. run_inv H; done. Qed.

Lemma decode_data_quiet env r c r' c' : decode_data env r c = Ok (r', c') -> quiet r r' /\ keeps c c'.
Proof. unfold decode_data. intros H. run_inv H; done. Qed.

(** A relation that every iteration respects holds across a loop. *)
Lemma forM_rel {S} (R : S -> S -> Prop) `{!PreOrder R} n i body s s' :
  (forall k s s', body k s = Ok s' -> R s s') -> forM n i body s = Ok s' -> R s s'.
Proof.
  intros Hb. revert i s. induction n as [|n IH]; intros i s H; cbn [forM] in H; [by injection H as ->|].
  apply res_bind_Ok in H as (s1 & H1 & H2). etrans; [by eapply Hb|by eapply IH].
Qed.

Lemma assign_blocks_quiet modification e n : forall i r c ok r' c',
  assign_blocks modification e n i r c = Ok (ok, r', c') -> quiet r r' /\ keeps c c'.
Proof.
  induction n as [|n IH]; intros i r c ok r' c' H; cbn [assign_blocks] in H; [by run_inv H|].
  apply res_bind_Ok in H as ([b c1] & Hb & H). assert (Hk : keeps c c1).
  { destruct modification; [run_inv Hb; done|by eapply acquire_keeps]. }
  run_inv H; [done|]. apply IH in H as [Hq Hk']. split; [done|]. etrans; [exact Hk|]. exact Hk'.
Qed.

Lemma remap_blocks_quiet e n : forall i r c ok r' c',
  remap_blocks e n i r c = Ok (ok, r', c') -> quiet r r' /\ keeps c c'.
Proof.
  induction n as [|n IH]; intros i r c ok r' c' H; cbn [remap_blocks] in H; [by run_inv H|].
  apply res_bind_Ok in H as ([b c1] & Hb & H). pose proof (acquire_keeps _ _ _ Hb) as Hk.
  run_inv H; [done|]. apply IH in H as [Hq Hk']. split; [done|]. etrans; [exact Hk|]. exact Hk'.
Qed.

Lemma reset_entry_quiet env e r c r' c' : reset_entry env e r c = Ok (r', c') -> quiet r r' /\ keeps c c'.
Proof.
  unfold reset_entry. intros H. apply res_bind_Ok in H as (c1 & Hc & H). split; [by run_inv_all|].
  assert (Hk : keeps c c1); [|by run_inv_all]. eapply (forM_rel keeps); [|exact Hc].
  intros k s s' Hs. cbv beta in Hs. clear Hc H. run_inv_all; done.
Qed.

Lemma verify_checksums_quiet r c r' : verify_checksums r c = Ok r' -> quiet r r'.
Proof.
  intros H. eapply (forM_rel quiet); [|exact H]. intros k s s' Hs. cbv beta in Hs. clear H. run_inv_all; done.
Qed.

Lemma store_checksums_keeps r c c' : store_checksums r c = Ok c' -> keeps c c'.
Proof.
  intros H. eapply (forM_rel keeps); [|exact H]. intros k s s' Hs. cbv beta in Hs. clear H. run_inv_all; done.
Qed.

(** ** Submission *)
Definition no_alloc_failure (o : bio_outcome) : Prop := match o with BioAllocFails _ => False | _ => True end.
Definition device_ready (c : afs_private) : Prop := Forall no_alloc_failure (outcomes (bdev c)).

Lemma submit_bios_spec w n : forall i r off outs ret bios outs',
  submit_bios w n i r off outs = Ok (ret, bios, outs') -> Forall no_alloc_failure outs ->
  ret = 0 /\ List.length bios = n /\ Forall (fun cb => cb_write cb = w) bios /\ Forall no_alloc_failure outs'.
Proof.
  induction n as [|n IH]; intros i r off outs ret bios outs' H Ho; cbn [submit_bios] in H.
  { injection H as <- <- <-. split_and!; [done|done|constructor|done]. }
  assert (Ht : Forall no_alloc_failure (tail outs)) by (destruct Ho; [constructor|done]).
  destruct (head outs) as [[| |]|] eqn:Eh; try (destruct outs as [|[] outs]; [discriminate Eh|..]; try discriminate Eh; by apply Forall_cons in Ho as [[] _]).
  all: run_inv H; edestruct IH as (-> & <- & Hw & Hf); [eassumption|exact Ht|]; split_and!; [done|done|by constructor|done].
Qed.

Lemma submit_pages_spec w r n c ret r' bios c' : submit_pages w r n c = Ok (ret, r', bios, c') -> device_ready c ->
  ret = 0 /\ List.length bios = Z.to_nat n /\ Forall (fun cb => cb_write cb = w) bios /\ r' = set_pending n r /\
  config c' = config c /\ device_ready c'.
Proof.
  unfold submit_pages. intros H Hd. destruct (alloc c) as [ok c1] eqn:Ea.
  assert (Hc : config c1 = config c /\ bdev c1 = bdev c) by (unfold alloc in Ea; by injection Ea as <- <-). destruct Hc as [Hc1 Hc2].
  run_inv H. edestruct submit_bios_spec as (-> & Hl & Hw & Hf); [eassumption|by rewrite Hc2|]. split_and!; done.
Qed.

(** ** How a work function can end *)
Definition finished (r r' : afs_map_request) (bios : list carrier_bio) : Prop :=
  state r' = REQ_STATE_COMPLETED /\ bios = [] /\ bio_set r' = bio_set r /\
  bio_ended r' = (if bio_set r then S (bio_ended r) else bio_ended r).

Definition submitted (w : bool) (n : Z) (r r' : afs_map_request) (bios : list carrier_bio) : Prop :=
  state r' = state r /\ bio_ended r' = bio_ended r /\ bio_set r' = bio_set r /\ bios_pending r' = n /\
  List.length bios = Z.to_nat n /\ Forall (fun cb => cb_write cb = w) bios.

(** Neither: nothing is in flight and the request is not cleaned. *)
Definition idle (r r' : afs_map_request) (bios : list carrier_bio) : Prop := quiet r r' /\ bios = [].

Definition ready_for (c c' : afs_private) : Prop := config c' = config c /\ device_ready c'.

Lemma keeps_ready c c' : keeps c c' -> device_ready c -> ready_for c c'.
Proof. intros (H1 & H2 & _) H. split; [done|]. unfold device_ready. by rewrite H2. Qed.

Lemma clean_spec env r r' : afs_req_clean env r = Ok r' ->
  state r' = REQ_STATE_COMPLETED /\ bio_set r' = bio_set r /\ bio_ended r' = (if bio_set r then S (bio_ended r) else bio_ended r).
Proof.
  unfold afs_req_clean, free_encoder. intros H. apply res_bind_Ok in H as (r1 & H1 & H).
  assert (Hq : state r1 = REQ_STATE_COMPLETED /\ bio_set r1 = bio_set r /\ bio_ended r1 = (if bio_set r then S (bio_ended r) else bio_ended r)).
  { unfold bio_set in *. cbn in H1. destruct (req_bio r) eqn:E; try discriminate H1; injection H1 as <-; cbn; rewrite ?E; done. }
  run_inv_all; exact Hq.
Qed.

Lemma submitted_quiet w n r0 r r' bios : quiet r0 r -> submitted w n r r' bios -> submitted w n r0 r' bios.
Proof. unfold quiet, submitted. intuition congruence. Qed.

Lemma pages_submitted w n r c ret r' bios c' : submit_pages w r n c = Ok (ret, r', bios, c') -> device_ready c ->
  ret = 0 /\ submitted w n r r' bios /\ ready_for c c'.
Proof. intros H Hd. apply submit_pages_spec in H as (-> & Hl & Hw & -> & Hc & Hd'); [|done]. done. Qed.

Lemma ready_trans c c1 c2 : keeps c c1 -> ready_for c1 c2 -> ready_for c c2.
Proof. intros [H1 _] [H2 H3]. split; [congruence|done]. Qed.

Lemma read_carriers_spec env e r c ret r' bios c' : read_carriers env e r c = Ok (ret, r', bios, c') -> device_ready c ->
  ret = 0 /\ submitted false (num_carrier_blocks (config c)) r r' bios /\ ready_for c c'.
Proof.
  unfold read_carriers. intros H Hd. apply res_bind_Ok in H as (enc & _ & H). apply res_bind_Ok in H as (nums & _ & H).
  apply res_bind_Ok in H as (er & _ & H). apply res_bind_Ok in H as ([[[ret1 r1] b1] c1] & Hs & H).
  apply pages_submitted in Hs as (-> & Hs & Hr); [|done]. cbn in H. injection H as <- <- <- <-. split; [done|]. split; [|done].
  eapply submitted_quiet; [|exact Hs]. done.
Qed.

Lemma read_request_spec env r b c ret r' bios c' : afs_read_request env r b c = Ok (ret, r', bios, c') -> device_ready c ->
  state r = REQ_STATE_FLIGHT -> bio_set r = true ->
  ret = 0 /\ (finished r r' bios \/ submitted false (num_carrier_blocks (config c)) r r' bios) /\ ready_for c c'.
Proof.
  unfold afs_read_request. intros H Hd Hst Hset. rewrite Hst in H. change (negb (REQ_STATE_FLIGHT =? REQ_STATE_FLIGHT)) with false in H.
  cbv iota zeta in H. apply res_bind_Ok in H as (t & _ & H). destruct (carrier_block_ptr t =? AFS_INVALID_BLOCK).
  - apply res_bind_Ok in H as (d & _ & H). apply res_bind_Ok in H as (b' & _ & H). apply res_bind_Ok in H as (r1 & Hc & H).
    injection H as <- <- <- <-. split; [done|]. split; [left|done]. apply clean_spec in Hc as (H1 & H2 & H3).
    split_and!; [done|done|by rewrite H2, Hset|by rewrite H3, Hset].
  - apply read_carriers_spec in H as (-> & Hs & Hr); [|done]. auto.
Qed.

Lemma rebuild_request_spec env r c ret r' bios c' : afs_rebuild_request env r c = Ok (ret, r', bios, c') -> device_ready c ->
  state r = REQ_STATE_FLIGHT ->
  ret = 0 /\ (finished r r' bios \/ submitted false (num_carrier_blocks (config c)) r r' bios) /\ ready_for c c'.
Proof.
  unfold afs_rebuild_request. intros H Hd Hst. rewrite Hst in H. change (negb (REQ_STATE_FLIGHT =? REQ_STATE_FLIGHT)) with false in H.
  cbv iota zeta in H. apply res_bind_Ok in H as (t & _ & H). destruct (carrier_block_ptr t =? AFS_INVALID_BLOCK).
  - apply res_bind_Ok in H as (r1 & Hc & H). injection H as <- <- <- <-. split; [done|]. split; [left|done].
    apply clean_spec in Hc as (H1 & H2 & H3). done.
  - apply read_carriers_spec in H as (-> & Hs & Hr); [|done]. auto.
Qed.

(** The part that [afs_write_request] and [rebuild_blocks] share. *)
Lemma finish_write env e ok r1 c1 ret r' bios c' n :
  (if negb ok then '(r, c) ← reset_entry env e r1 c1; Ok (- ENOSPC, r, [], c)
   else '(ret, r, bios, c) ← write_pages r1 n c1;
        if negb (ret =? 0) then '(r, c) ← reset_entry env e r c; Ok (- EIO, r, bios, c) else Ok (0, r, bios, c)) = Ok (ret, r', bios, c') ->
  device_ready c1 ->
  (ret = 0 /\ submitted true n r1 r' bios \/ ret <> 0 /\ idle r1 r' bios) /\ ready_for c1 c'.
Proof.
  intros H Hd. destruct ok; cbn [negb] in H.
  - apply res_bind_Ok in H as ([[[ret1 r2] b2] c2] & Hs & H). apply pages_submitted in Hs as (-> & Hs & Hr); [|done].
    cbn in H. injection H as <- <- <- <-. auto.
  - apply res_bind_Ok in H as ([r2 c2] & Hr & H). injection H as <- <- <- <-. apply reset_entry_quiet in Hr as [Hq Hk].
    split; [right; split; [done|by split]|by apply keeps_ready].
Qed.

Lemma write_request_spec env r b c ret r' bios c' : afs_write_request env r b c = Ok (ret, r', bios, c') -> device_ready c ->
  state r = REQ_STATE_FLIGHT ->
  (ret = 0 /\ submitted true (num_carrier_blocks (config c)) r r' bios \/ ret <> 0 /\ idle r r' bios) /\ ready_for c c'.
Proof.
  unfold afs_write_request. intros H Hd Hst. rewrite Hst in H. change (negb (REQ_STATE_FLIGHT =? REQ_STATE_FLIGHT)) with false in H.
  cbv iota zeta in H. apply res_bind_Ok in H as (t & _ & H). apply res_bind_Ok in H as (d & _ & H). apply res_bind_Ok in H as (er & _ & H).
  apply res_bind_Ok in H as ([r1 c1] & He & H). apply encode_data_quiet in He as [Hq1 Hk1].
  apply res_bind_Ok in H as ([[ok r2] c2] & Ha & H). apply assign_blocks_quiet in Ha as [Hq2 Hk2].
  assert (Hq : quiet r r2) by (etrans; [|exact Hq2]; exact Hq1). assert (Hk : keeps c c2) by (by etrans).
  apply finish_write in H as [H Hr]; [|by apply (keeps_ready _ _ Hk)]. split; [|by eapply ready_trans].
  destruct H as [[-> H]|[Hne [H ->]]]; [left; split; [done|by eapply submitted_quiet]|right; split; [done|]]. split; [by etrans|done].
Qed.

Lemma rebuild_blocks_spec env r c ret r' bios c' : rebuild_blocks env r c = Ok (ret, r', bios, c') -> device_ready c ->
  (submitted true (num_carrier_blocks (config c)) r r' bios \/ idle r r' bios) /\ ready_for c c'.
Proof.
  unfold rebuild_blocks. intros H Hd. cbv zeta in H. apply res_bind_Ok in H as (er & _ & H).
  apply res_bind_Ok in H as ([r1 c1] & He & H). apply encode_data_quiet in He as [Hq1 Hk1].
  apply res_bind_Ok in H as ([[ok r2] c2] & Ha & H). apply remap_blocks_quiet in Ha as [Hq2 Hk2].
  assert (Hq : quiet r r2) by (etrans; [|exact Hq2]; exact Hq1). assert (Hk : keeps c c2) by (by etrans).
  apply finish_write in H as [H Hr]; [|by apply (keeps_ready _ _ Hk)]. split; [|by eapply ready_trans].
  destruct H as [[_ H]|[_ [H ->]]]; [left; by eapply submitted_quiet|right; split; [by etrans|done]].
Qed.

Lemma read_decode_spec env r c ret r' bios c' : afs_read_decode env r c = Ok (ret, r', bios, c') -> device_ready c ->
  ret = 0 /\ (finished r r' bios \/ submitted true (num_carrier_blocks (config c)) r r' bios \/ idle r r' bios) /\ ready_for c c'.
Proof.
  unfold afs_read_decode. intros H Hd. apply res_bind_Ok in H as (r1 & Hv & H). apply verify_checksums_quiet in Hv as Hq1.
  apply res_bind_Ok in H as ([r2 c2] & He & H). apply decode_data_quiet in He as [Hq2 Hk2].
  destruct (req_bio r2) as [b| |] eqn:Eb; [|discriminate H..]. apply res_bind_Ok in H as (b' & _ & H). cbv zeta in H.
  set (r3 := set_bio (BioSet b') (bio_ended r2) r2) in H.
  assert (Hq3 : quiet r r3).
  { etrans; [exact Hq1|]. etrans; [exact Hq2|]. unfold quiet, bio_set. cbn. by rewrite Eb. }
  pose proof (keeps_ready _ _ Hk2 Hd) as [Hcf Hd2]. destruct (rebuild_flag r3).
  - apply res_bind_Ok in H as ([[[ret1 r4] b4] c4] & Hb & H). injection H as <- <- <- <-. split; [done|].
    apply rebuild_blocks_spec in Hb as [Hb Hr]; [|done]. rewrite Hcf in Hb. split; [right|by eapply ready_trans].
    destruct Hb as [Hb|[Hb ->]]; [left; by eapply submitted_quiet|right; split; [by etrans|done]].
  - apply res_bind_Ok in H as (r4 & Hc & H). injection H as <- <- <- <-. split; [done|]. split; [left|done].
    apply clean_spec in Hc as (H1 & H2 & H3). destruct Hq3 as (E1 & _ & E3 & _). split_and!; [done|done|congruence|].
    rewrite H3, E3, E1. done.
Qed.

(** ** The invariant of a task

    A request ends its bio when it is cleaned, once, and then nothing of it
    is in flight. *)
Definition task_ok (n : Z) (t : task) : Prop :=
  let r := t_req t in
  match t_phase t with
  | Queued rebuild => bio_ended r = 0%nat /\ (rebuild = false -> bio_set r = true)
  | InFlight bios =>
      state r = REQ_STATE_FLIGHT /\ bio_ended r = 0%nat /\ (List.length bios <= Z.to_nat n)%nat /\
      Z.of_nat (List.length bios) <= bios_pending r /\ exists w, Forall (fun cb => cb_write cb = w) bios
  | Decoding => state r = REQ_STATE_FLIGHT /\ bio_ended r = 0%nat /\ 0 <= bios_pending r
  | Done bios => bios = [] /\ state r = REQ_STATE_COMPLETED /\ bio_ended r = if bio_set r then 1%nat else 0%nat
  | Stopped _ => bio_ended r = 0%nat
  end.

(** A bound on the steps a task can still take. *)
Definition weight (n : Z) (t : task) : nat :=
  let N := Z.to_nat n in
  match t_phase t with
  | Queued _ => 2 * N + 4
  | InFlight bios => List.length bios + (if forallb cb_write bios then 0 else N + 2)
  | Decoding => N + 1
  | Done _ | Stopped _ => 0
  end.

Section Task.
Context (n : Z) (Hn : 0 <= n).

Lemma after_finished env r r' bios : finished r r' bios -> bio_ended r = 0%nat ->
  task_ok n (after env r' bios) /\ weight n (after env r' bios) = 0%nat.
Proof.
  intros (Hs & -> & Hb & He) H0. unfold after. rewrite Hs. split; [|done]. split_and!; [done|exact Hs|]. cbn [t_req]. by rewrite He, Hb, H0.
Qed.

Lemma after_submitted env w r r' bios : submitted w n r r' bios -> bio_ended r = 0%nat -> state r = REQ_STATE_FLIGHT ->
  task_ok n (after env r' bios) /\ (weight n (after env r' bios) <= Z.to_nat n + (if w then 0 else Z.to_nat n + 2))%nat.
Proof.
  intros (Hs & He & Hb & Hp & Hl & Hw) H0 Hf. unfold after. rewrite Hs, Hf. change (REQ_STATE_FLIGHT =? REQ_STATE_COMPLETED) with false. unfold task_ok, weight. cbn -[Nat.mul]. rewrite Hl. split.
  - split_and!; [congruence|congruence|lia|lia|by exists w].
  - destruct w; [|destruct (forallb cb_write bios); lia].
    assert (E : forallb cb_write bios = true) by (apply forallb_forall; intros cb Hcb; rewrite Forall_forall in Hw; apply Hw; by apply list_elem_of_In).
    rewrite E. lia.
Qed.

Lemma after_idle env r r' bios : idle r r' bios -> bio_ended r = 0%nat -> state r = REQ_STATE_FLIGHT -> 0 <= bios_pending r ->
  task_ok n (after env r' bios) /\ weight n (after env r' bios) = 0%nat.
Proof.
  intros [(He & Hs & Hb & Hp) ->] H0 Hf Hpos. unfold after. rewrite Hs, Hf. change (REQ_STATE_FLIGHT =? REQ_STATE_COMPLETED) with false. unfold task_ok. cbn. split; [|done].
  split_and!; [congruence|congruence|lia|lia|]. exists true. constructor.
Qed.

Lemma clean_finished env r r' : afs_req_clean env r = Ok r' -> finished r r' [].
Proof. intros H. apply clean_spec in H as (H1 & H2 & H3). done. Qed.

Lemma flightq_ok env r c r' bios c' : afs_flightq env r c = Ok (r', bios, c') ->
  device_ready c -> n = num_carrier_blocks (config c) -> bio_ended r = 0%nat ->
  task_ok n (after env r' bios) /\ ready_for c c' /\ (weight n (after env r' bios) < 2 * Z.to_nat n + 4)%nat.
Proof.
  unfold afs_flightq. intros H Hd Hc H0. destruct (req_bio r) as [b| |] eqn:Eb; [|discriminate H..].
  set (r0 := set_state REQ_STATE_FLIGHT r) in H. assert (Hset : bio_set r0 = true) by (unfold bio_set; cbn; by rewrite Eb).
  apply res_bind_Ok in H as ([[[ret r1] b1] c1] & Ho & H).
  assert (Hend : finished r r' bios \/ submitted false n r0 r' bios \/ submitted true n r0 r' bios /\ ready_for c c' ->
    task_ok n (after env r' bios) /\ (weight n (after env r' bios) < 2 * Z.to_nat n + 4)%nat).
  { intros [Hf|[Hs|[Hs _]]].
    - destruct (after_finished env r r' bios Hf H0) as [? ->]. split; [done|lia].
    - destruct (after_submitted env false r0 r' bios Hs H0 eq_refl). split; [done|lia].
    - destruct (after_submitted env true r0 r' bios Hs H0 eq_refl). split; [done|lia]. }
  assert (Hclean : forall r1, bio_ended r1 = bio_ended r -> bio_set r1 = bio_set r -> afs_req_clean env r1 = Ok r' -> finished r r' []).
  { intros r2 E1 E2 Hcl. apply clean_spec in Hcl as (H1 & H2 & H3). split_and!; [done|done|congruence|]. by rewrite H3, E1, E2. }
  destruct (op b).
  - apply read_request_spec in Ho as (-> & Hs & Hr); [|done..]. cbn in H. injection H as -> -> ->.
    rewrite <- Hc in Hs. split_and!; try done; apply Hend; destruct Hs as [Hf|Hs]; auto.
  - apply write_request_spec in Ho as (Hs & Hr); [|done..]. rewrite <- Hc in Hs. destruct Hs as [[-> Hs]|[Hne [(E1 & E2 & E3 & _) ->]]].
    + cbn in H. injection H as -> -> ->. split_and!; try done; apply Hend; auto.
    + destruct (Z.eqb_spec ret 0); [done|]. apply res_bind_Ok in H as (r2 & Hcl & H). injection H as <- <- <-.
      pose proof (Hclean r1 E1 E3 Hcl). split_and!; try done; apply Hend; auto.
  - injection Ho as <- <- <- <-. apply res_bind_Ok in H as (r2 & Hcl & H). injection H as <- <- <-.
    pose proof (Hclean r0 eq_refl eq_refl Hcl). split_and!; try done; apply Hend; auto.
  - injection Ho as <- <- <- <-. apply res_bind_Ok in H as (r2 & Hcl & H). injection H as <- <- <-.
    pose proof (Hclean r0 eq_refl eq_refl Hcl). split_and!; try done; apply Hend; auto.
Qed.

Lemma rebuildq_ok env r c r' bios c' : afs_rebuildq env r c = Ok (r', bios, c') ->
  device_ready c -> n = num_carrier_blocks (config c) -> bio_ended r = 0%nat ->
  task_ok n (after env r' bios) /\ ready_for c c' /\ (weight n (after env r' bios) < 2 * Z.to_nat n + 4)%nat.
Proof.
  unfold afs_rebuildq. intros H Hd Hc H0. set (r0 := set_state REQ_STATE_FLIGHT r) in H.
  apply res_bind_Ok in H as ([[[ret r1] b1] c1] & Ho & H). apply rebuild_request_spec in Ho as (-> & Hs & Hr); [|done..].
  cbn in H. injection H as -> -> ->. rewrite <- Hc in Hs. destruct Hs as [Hf|Hs].
  - destruct (after_finished env r0 r' bios Hf H0) as [? ->]. split_and!; [done|done|lia].
  - destruct (after_submitted env false r0 r' bios Hs H0 eq_refl). split_and!; [done|done|lia].
Qed.

Lemma cryptoq_ok env r c r' bios c' : afs_cryptoq env r c = Ok (r', bios, c') ->
  device_ready c -> n = num_carrier_blocks (config c) -> bio_ended r = 0%nat -> state r = REQ_STATE_FLIGHT -> 0 <= bios_pending r ->
  task_ok n (after env r' bios) /\ ready_for c c' /\ (weight n (after env r' bios) < Z.to_nat n + 1)%nat.
Proof.
  unfold afs_cryptoq. intros H Hd Hc H0 Hst Hp. apply res_bind_Ok in H as ([[[ret r1] b1] c1] & Ho & H).
  apply read_decode_spec in Ho as (-> & Hs & Hr); [|done]. cbn in H. injection H as -> -> ->. rewrite <- Hc in Hs.
  destruct Hs as [Hf|[Hs|Hi]].
  - destruct (after_finished env r r' bios Hf H0) as [? ->]. split_and!; [done|done|lia].
  - destruct (after_submitted env true r r' bios Hs H0 Hst). split_and!; [done|done|lia].
  - destruct (after_idle env r r' bios Hi H0 Hst Hp) as [? ->]. split_and!; [done|done|lia].
Qed.

Lemma transfer_quiet cb r c r' c' : transfer cb r c = Ok (r', c') -> quiet r r' /\ (device_ready c -> ready_for c c').
Proof.
  unfold transfer. intros H. apply res_bind_Ok in H as (p & _ & H). unfold submit_bio_wait in H.
  destruct (cb_write cb); cbn [io_type] in H; destruct (_ && _); injection H as <- <-; done.
Qed.
End Task.

(** ** Events *)
Section System.
Context (n : Z) (Hn : 0 <= n).

Lemma forall_write_delete j w (bios : list carrier_bio) : Forall (fun cb => cb_write cb = w) bios -> Forall (fun cb => cb_write cb = w) (delete j bios).
Proof. intros H. rewrite delete_take_drop. apply Forall_app. split; [by apply Forall_take|by apply Forall_drop]. Qed.

Lemma forallb_writes bios w : Forall (fun cb => cb_write cb = w) bios -> bios <> [] -> forallb cb_write bios = w.
Proof.
  intros H Hne. destruct bios as [|cb bios]; [done|]. apply Forall_cons in H as [Hw H]. cbn. rewrite Hw.
  destruct w; [|done]. cbn. apply forallb_forall. intros x Hx. rewrite Forall_forall in H. apply H. by apply list_elem_of_In.
Qed.

Lemma weight_inflight env r bios w : Forall (fun cb => cb_write cb = w) bios ->
  (weight n (mk_task env r (InFlight bios)) <= List.length bios + (if w then 0 else Z.to_nat n + 2))%nat.
Proof.
  intros Hw. cbn. destruct bios as [|cb bios]; [destruct w; cbn; lia|]. rewrite (forallb_writes (cb :: bios) w) by done. destruct w; lia.
Qed.

(** The completion of one bio of a task. *)
Lemma complete_ok env r c bios j cb r1 c1 w :
  bios !! j = Some cb -> Forall (fun cb => cb_write cb = w) bios -> transfer cb r c = Ok (r1, c1) ->
  task_ok n (mk_task env r (InFlight bios)) -> device_ready c ->
  quiet r r1 /\ ready_for c c1 /\ List.length bios = S (List.length (delete j bios)) /\ cb_write cb = w /\
  weight n (mk_task env r (InFlight bios)) = (List.length bios + (if w then 0 else Z.to_nat n + 2))%nat.
Proof.
  intros Ej Hw Ht _ Hd. apply transfer_quiet in Ht as [Hq Hr]. pose proof (lookup_lt_Some _ _ _ Ej).
  split; [done|]. split; [by apply Hr|]. split.
  { rewrite delete_take_drop, length_app, length_take, length_drop. lia. }
  split; [by apply (Forall_lookup_1 _ _ _ _ Hw Ej)|]. cbn. rewrite (forallb_writes bios w Hw) by (intros ->; by rewrite lookup_nil in Ej).
  by destruct w.
Qed.

Lemma write_endio_ok env r c r' c' rest :
  afs_write_endio env r c = Ok (r', c') -> device_ready c ->
  state r = REQ_STATE_FLIGHT -> bio_ended r = 0%nat -> (S (List.length rest) <= Z.to_nat n)%nat ->
  Z.of_nat (S (List.length rest)) <= bios_pending r -> Forall (fun cb => cb_write cb = true) rest ->
  task_ok n (after env r' rest) /\ ready_for c c' /\ (weight n (after env r' rest) <= List.length rest)%nat.
Proof.
  unfold afs_write_endio. intros H Hd Hs H0 Hl Hp Hw. set (r0 := set_pending (bios_pending r - 1) r) in H.
  destruct (Z.eqb_spec (bios_pending r0) 0) as [Ez|Ez]; cbn in Ez.
  - apply res_bind_Ok in H as (c1 & Hc & H). apply res_bind_Ok in H as (r1 & Hcl & H). injection H as <- <-.
    apply store_checksums_keeps in Hc. assert (rest = []) as -> by (destruct rest; [done|cbn in *; lia]).
    apply (clean_finished) in Hcl. destruct (after_finished n env r0 r1 [] Hcl H0) as [? ->].
    split_and!; [done|by apply keeps_ready|done].
  - injection H as <- <-. unfold after. change (state r0) with (state r). rewrite Hs. change (REQ_STATE_FLIGHT =? REQ_STATE_COMPLETED) with false.
    split; [|split; [done|]].
    + split_and!; [exact Hs|exact H0|cbn; lia|cbn; lia|by exists true].
    + pose proof (weight_inflight env r0 rest true Hw). cbn in *. lia.
Qed.

Lemma event_ok ev t c t' c' : run_event ev t c = Some (Ok (t', c')) ->
  task_ok n t -> device_ready c -> n = num_carrier_blocks (config c) ->
  task_ok n t' /\ ready_for c c' /\ (weight n t' < weight n t)%nat.
Proof.
  destruct t as [env r ph]. intros H Ht Hd Hc. destruct ev as [|j|], ph as [rb|bios| |bios|why]; try discriminate H.
  - cbn [run_event t_env t_req t_phase] in H. injection H as H. destruct Ht as [H0 Hset]. cbn in H0.
    apply res_bind_Ok in H as ([[r1 b1] c1] & Ho & H). injection H as <- <-.
    destruct rb; [exact (rebuildq_ok n Hn env r c r1 b1 c1 Ho Hd Hc H0)|exact (flightq_ok n Hn env r c r1 b1 c1 Ho Hd Hc H0)].
  - cbn [run_event t_env t_req t_phase] in H. destruct (bios !! j) as [cb|] eqn:Ej; [|done]. injection H as H.
    apply res_bind_Ok in H as ([r1 c1] & Ht1 & H). pose proof Ht as (Hs & H0 & Hl & Hp & w & Hw). cbn in Hs, H0, Hp.
    destruct (complete_ok env r c bios j cb r1 c1 w Ej Hw Ht1 Ht Hd) as ((E1 & E2 & E3 & E4) & [Hcf Hd1] & Hlen & Hcb & ->).
    pose proof (forall_write_delete j w bios Hw) as Hw'. rewrite Hcb in H. destruct w.
    + apply res_bind_Ok in H as ([r2 c2] & He & H). injection H as <- <-.
      eapply (write_endio_ok _ _ _ _ _ (delete j bios)) in He as (? & [] & ?); [|done|congruence|congruence|lia|rewrite E4; lia|done].
      split_and!; [done|by split; [congruence|]|lia].
    + cbn in H. injection H as <- <-. rewrite E4. destruct (Z.eqb_spec (bios_pending r - 1) 0) as [Ez|Ez].
      * split; [split_and!; cbn; [congruence|congruence|lia]|]. split; [done|cbn; lia].
      * split; [split_and!; cbn; [congruence|congruence|lia|lia|by exists false]|]. split; [done|].
        pose proof (weight_inflight env (set_pending (bios_pending r - 1) r1) (delete j bios) false Hw'). cbn in *. lia.
  - cbn [run_event t_env t_req t_phase] in H. injection H as H. destruct Ht as (Hs & H0 & Hp). cbn in H0, Hs, Hp.
    apply res_bind_Ok in H as ([[r1 b1] c1] & Ho & H). injection H as <- <-. exact (cryptoq_ok n Hn env r c r1 b1 c1 Ho Hd Hc H0 Hs Hp).
Qed.

(** ** The system *)
Definition system_ok (s : system) : Prop :=
  Forall (task_ok n) (s_tasks s) /\ device_ready (s_ctx s) /\ num_carrier_blocks (config (s_ctx s)) = n.

Definition total_weight (s : system) : nat := sum_list_with (weight n) (s_tasks s).

Lemma sum_list_insert {A} (f : A -> nat) (l : list A) i x y : l !! i = Some x ->
  (sum_list_with f (<[i := y]> l) + f x = sum_list_with f l + f y)%nat.
Proof.
  revert i; induction l as [|a l IH]; intros [|i] E; try done.
  - injection E as ->. cbn. lia.
  - change (<[S i := y]> (a :: l)) with (a :: <[i := y]> l). cbn [sum_list_with]. specialize (IH i E). lia.
Qed.

(** A task with a next event has not ended its bio, and can still take a step. *)
Lemma event_pending ev t c x : run_event ev t c = Some x -> task_ok n t -> bio_ended (t_req t) = 0%nat /\ (0 < weight n t)%nat.
Proof.
  destruct t as [env r ph]. intros H Ht. destruct ev as [|j|], ph as [rb|bios| |bios|why]; try discriminate H.
  - destruct Ht as [H0 _]. split; [done|]. cbn. lia.
  - destruct Ht as (_ & H0 & _). split; [done|]. cbn [run_event t_phase] in H. destruct (bios !! j) eqn:Ej; [|discriminate H].
    apply lookup_lt_Some in Ej. unfold weight. cbn [t_phase]. lia.
  - destruct Ht as (_ & H0 & _). split; [done|]. cbn. lia.
Qed.

Lemma step_ok s s' : step s s' -> system_ok s -> system_ok s' /\ (total_weight s' < total_weight s)%nat.
Proof.
  intros [ev i t t' c c' ts _ Ei He|ev i t why c ts _ Ei He] (Hts & Hd & Hc); cbn in *;
    pose proof (Forall_lookup_1 _ _ _ _ Hts Ei) as Ht.
  - destruct (event_ok ev t c t' c' He Ht Hd (eq_sym Hc)) as (Ht' & [Hcf Hd'] & Hw). split.
    + split_and!; cbn; [by apply Forall_insert|done|congruence].
    + unfold total_weight. cbn. pose proof (sum_list_insert (weight n) ts i t t' Ei). lia.
  - destruct (event_pending ev t c _ He Ht) as [H0 Hw]. split.
    + split_and!; cbn; [by apply Forall_insert|done|done].
    + unfold total_weight. cbn. pose proof (sum_list_insert (weight n) ts i t (mk_task (t_env t) (t_req t) (Stopped why)) Ei) as E.
      change (weight n (mk_task _ _ (Stopped why))) with 0%nat in E. lia.
Qed.

Lemma steps_ok s s' : rtc step s s' -> system_ok s -> system_ok s'.
Proof. induction 1 as [|s s1 s' H1 _ IH]; [done|]. intros H. by apply IH, (step_ok s). Qed.

Lemma nsteps_weight k s s' : nsteps step k s s' -> system_ok s -> (k + total_weight s' <= total_weight s)%nat.
Proof.
  induction 1 as [|k s s1 s' H1 _ IH]; [lia|]. intros H. destruct (step_ok _ _ H1 H) as [Hok Hlt]. specialize (IH Hok). lia.
Qed.
End System.

(** The start: tasks that [afs_map] and [afs_rebuild] have just queued. *)
Definition fresh_task (t : task) : Prop :=
  exists rebuild, t_phase t = Queued rebuild /\ bio_ended (t_req t) = 0%nat /\ (rebuild = false -> bio_set (t_req t) = true).

Definition initial (s : system) : Prop :=
  Forall fresh_task (s_tasks s) /\ device_ready (s_ctx s) /\ 0 <= num_carrier_blocks (config (s_ctx s)).

Lemma initial_ok s : initial s -> system_ok (num_carrier_blocks (config (s_ctx s))) s.
Proof.
  intros (Hts & Hd & _). split_and!; [|done|done]. eapply Forall_impl; [exact Hts|].
  intros t (rb & Hp & H0 & Hs). unfold task_ok. rewrite Hp. done.
Qed.

(** ** A sample instance of one block, not yet written *)
Definition sample_private : afs_private := {|
  config := mk_config 4 2 0 64 0 63 1 1 0 4096 100;
  super_block := sb_of_bytes (replicate 4096 0); passive_fs := small_fs; vector := small_vector;
  Metadata.afs_map := fresh_entry 4; afs_map_blocks := []; afs_ptr_blocks := []; passphrase := []; args_entropy_dir := [];
  bdev := empty_device 800; rng := []; allocs := [] |}.

Definition sample_enc_env : enc_env := {|
  ssse3 := true; aont := {| plaintext_ok := true; ciphertext_ok := true; pad_ok := true; keys_ok := fun _ => true; sha3_ok := true; originals_ok := true;
    decoder_ok := (true, true, true); plaintext_heap := []; ciphertext_heap := []; pad_heap := (0, 0); decoder_heap := []; matrix_heap := [] |};
  aont_key := [1; 2; 3; 4]; gf_allocs := (true, true, true); gf_memory := []; gf_seed := []; gf_free_nrs := [] |}.

Definition sample_read : afs_map_request := {|
  carrier_blocks := replicate 4 (replicate 4096 0); data_block := replicate 4096 7; state := REQ_STATE_GROUND;
  req_bio := BioSet (mk_bio REQ_OP_READ 0 512 [mk_bv (replicate 512 9) 0 512]); bio_ended := 0; bios_pending := 0; encoder := None;
  encoding_type := AONT_RS; erasures := replicate 8 0; num_erasures := 0; iv := replicate 16 0; block := 0; request_size := 512;
  sector_offset := 0; block_nums := replicate 8 0; rebuild_flag := false |}.

Definition sample_task : task := mk_task sample_enc_env sample_read (Queued false).
Definition sample_system : system := mk_system sample_private [sample_task].

Lemma sample_initial : initial sample_system.
Proof. split_and!; [|constructor|done]. constructor; [|constructor]. by exists false. Qed.

Lemma sample_run : exists t', run_event Start sample_task sample_private = Some (Ok (t', sample_private)) /\ t_phase t' = Done [] /\ bio_ended (t_req t') = 1%nat.
Proof. eexists. split_and!; vm_compute; reflexivity. Qed.

(** C8: every request ends its bio once, and last. In every state that any
    interleaving of the work queues and bio completions can reach, on a device
    whose bios can be allocated, a request that has not been cleaned has
    not ended its bio; and one that has been cleaned has ended it exactly once
    (if it has a bio) and has no carrier bio in flight, so nothing touches the
    freed request. Rebuild writes included. Of a request whose handler stopped the
    system, the state is the one before that handler. *)
Theorem requests_end_once s s' t :
  initial s -> rtc step s s' -> t ∈ s_tasks s' ->
  match t_phase t with
  | Done bios => bios = [] /\ state (t_req t) = REQ_STATE_COMPLETED /\ bio_ended (t_req t) = if bio_set (t_req t) then 1%nat else 0%nat
  | _ => bio_ended (t_req t) = 0%nat
  end.
Proof.
  intros Hi Hs Hin. pose proof (proj2 (proj2 Hi)) as Hn.
  destruct (steps_ok _ Hn s s' Hs (initial_ok s Hi)) as (Hts & _ & _).
  rewrite Forall_forall in Hts. specialize (Hts t Hin). unfold task_ok in Hts. destruct (t_phase t); tauto.
Qed.

Lemma requests_end_once_witness : exists t, rtc step sample_system (mk_system sample_private [t]) /\
  t_phase t = Done [] /\ state (t_req t) = REQ_STATE_COMPLETED /\ bio_ended (t_req t) = 1%nat.
Proof.
  destruct sample_run as (t & Ht & Hp & He). exists t.
  assert (Hs : rtc step sample_system (mk_system sample_private [t])) by (apply rtc_once, (task_step Start 0 sample_task t); [reflexivity|reflexivity|exact Ht]).
  pose proof (requests_end_once _ _ t sample_initial Hs ltac:(apply list_elem_of_here)) as H. rewrite Hp in H. destruct H as (_ & H1 & H2).
  split; [exact Hs|]. split; [exact Hp|]. split; [exact H1|exact He].
Defined.

(** ** The ends of executions *)
Definition at_rest (t : task) : Prop :=
  match t_phase t with Done _ => True | InFlight bios => bios = [] | _ => False end.

Lemma stopped_dec ts : forallb running ts = true \/ exists t why, t ∈ ts /\ t_phase t = Stopped why.
Proof.
  induction ts as [|t ts IH]; [by left|]. destruct (t_phase t) as [| | | |why] eqn:E.
  5: { right. exists t, why. split; [apply list_elem_of_here|done]. }
  all: destruct IH as [IH|(t' & why & Hin & Ht')]; [left|right; exists t', why; split; [by right|done]].
  all: cbn; unfold running at 1; by rewrite E.
Qed.

(** A task at rest is one without a next event. *)
Lemma at_rest_events t c : running t = true -> at_rest t <-> forall ev, run_event ev t c = None.
Proof.
  destruct t as [env r ph]. unfold at_rest, running. cbn [t_phase].
  destruct ph as [rb|bios| |bios|why]; intros Hr; try discriminate Hr; (split; [intros H ev|intros H]); try done.
  - by specialize (H Start).
  - subst. destruct ev; try done.
  - destruct bios as [|cb bios]; [done|]. by specialize (H (Complete 0)).
  - by specialize (H Decode).
  - by destruct ev.
Qed.

Lemma event_steps ev i t x c ts : forallb running ts = true -> ts !! i = Some t -> run_event ev t c = Some x ->
  exists s', step (mk_system c ts) s'.
Proof.
  intros Hr Ei He. destruct x as [[t' c']| |].
  - eexists. by eapply task_step.
  - eexists. by apply (task_stop ev i t Crashed).
  - eexists. by apply (task_stop ev i t Hangs).
Qed.

(** The states from which there is no step. *)
Lemma final_states s : (forall s', ~ step s s') <->
  Forall at_rest (s_tasks s) \/ exists t why, t ∈ s_tasks s /\ t_phase t = Stopped why.
Proof.
  destruct s as [c ts]. cbn [s_tasks]. split.
  - intros H. destruct (stopped_dec ts) as [Hr|Hs]; [left|by right]. apply list.Forall_forall. intros t Ht.
    pose proof Ht as Ht'. apply list_elem_of_lookup in Ht as (i & Ei). apply (at_rest_events t c).
    { rewrite forallb_forall in Hr. apply Hr. by apply list_elem_of_In. }
    intros ev. destruct (run_event ev t c) as [x|] eqn:E; [|done]. destruct (event_steps ev i t x c ts Hr Ei E) as (s' & Hs). by destruct (H s').
  - intros [Hf|(t & why & Hin & Ht)] s' Hs.
    + assert (He : exists ev i t x, forallb running ts = true /\ ts !! i = Some t /\ run_event ev t c = Some x).
      { inversion Hs; subst; by eexists _, _, _, _. }
      destruct He as (ev & i & t & x & Hr & Ei & He). pose proof (Forall_lookup_1 _ _ _ _ Hf Ei) as Ht.
      assert (Hrt : running t = true) by (rewrite forallb_forall in Hr; apply Hr; apply list_elem_of_In; by eapply list_elem_of_lookup_2).
      by rewrite (proj1 (at_rest_events t c Hrt) Ht) in He.
    + assert (Hr : forallb running ts = true) by by inversion Hs.
      rewrite forallb_forall in Hr. specialize (Hr t (proj1 (list_elem_of_In _ _) Hin)). unfold running in Hr. by rewrite Ht in Hr.
Qed.

(** C19: every execution of the target ends. With [n] carrier blocks, on a
    device whose bios can be allocated, a system of [k] requests takes at most
    [k (2 n + 4)] steps, in whatever order its work items run and its bios
    complete; a handler that crashes or never returns is a step as well. And it
    ends exactly when nothing is left to run: each request has been cleaned, or
    is at rest with no bio in flight (a rebuild that found no room, which is
    never freed), or when a handler has stopped the system. *)
Theorem engine_terminates s s' k :
  initial s -> nsteps step k s s' ->
  (k <= List.length (s_tasks s) * (2 * Z.to_nat (num_carrier_blocks (config (s_ctx s))) + 4))%nat /\
  ((forall s2, ~ step s' s2) <-> Forall at_rest (s_tasks s') \/ exists t why, t ∈ s_tasks s' /\ t_phase t = Stopped why).
Proof.
  intros Hi Hs. split; [|apply final_states]. pose proof (proj2 (proj2 Hi)) as Hn. pose proof (nsteps_weight _ Hn k s s' Hs (initial_ok s Hi)) as Hw.
  assert (Hb : (total_weight (num_carrier_blocks (config (s_ctx s))) s
    <= List.length (s_tasks s) * (2 * Z.to_nat (num_carrier_blocks (config (s_ctx s))) + 4))%nat); [|lia].
  destruct Hi as (Hts & _ & _). unfold total_weight. induction Hts as [|t ts (rb & Hp & _) Hts IH]; [done|]. cbn -[Nat.mul].
  unfold weight at 1. rewrite Hp. lia.
Qed.

Lemma engine_terminates_witness : exists s', nsteps step 1 sample_system s' /\ (1 <= 1 * (2 * 4 + 4))%nat /\ forall s2, ~ step s' s2.
Proof.
  destruct sample_run as (t & Ht & Hp & _). exists (mk_system sample_private [t]).
  assert (Hs : nsteps step 1 sample_system (mk_system sample_private [t])) by (apply nsteps_once, (task_step Start 0 sample_task t); [reflexivity|reflexivity|exact Ht]).
  split; [exact Hs|]. destruct (engine_terminates sample_system _ 1 sample_initial Hs) as [Hk Hf]. split; [exact Hk|].
  apply Hf. left. constructor; [|constructor]. unfold at_rest. by rewrite Hp.
Defined.
