(* ===== verification/EngineRun.v ===== *)
(** * EngineRun: all runs of one request

    Total correctness of a task: [task_ends] says that in every order of its
    events a task ends, without a fault, in a state that satisfies the
    postcondition. The two lemmas at the end do the inductions over the orders
    in which the carrier bios of a write and of a read complete. *)
From stdpp Require Import base tactics option list numbers gmap relations.
From Stdlib Require Import ZArith Lia.
From S2P Require Import Prelude BitVector Allocation BlockIo Format Metadata City Engine EngineMap EngineData Target.

Local Open Scope Z_scope.
Local Open Scope afs_scope.

(** ** All runs of a task

    [task_ends Post t c]: whichever events the task has next, in any order,
    none of them faults, and after finitely many no event is left and [Post]
    holds. *)
Inductive task_ends (Post : task -> afs_private -> Prop) : task -> afs_private -> Prop :=
| ends_now t c : (forall ev, run_event ev t c = None) -> Post t c -> task_ends Post t c
| ends_later t c :
    (exists ev x, run_event ev t c = Some x) ->
    (forall ev x, run_event ev t c = Some x -> exists t' c', x = Ok (t', c') /\ task_ends Post t' c') ->
    task_ends Post t c.

(** Induction over the runs, with the hypothesis for every next state. *)
Lemma task_ends_induction Post (P : task -> afs_private -> Prop) :
  (forall t c, (forall ev, run_event ev t c = None) -> Post t c -> P t c) ->
  (forall t c, (exists ev x, run_event ev t c = Some x) ->
    (forall ev x, run_event ev t c = Some x -> exists t' c', x = Ok (t', c') /\ task_ends Post t' c' /\ P t' c') -> P t c) ->
  forall t c, task_ends Post t c -> P t c.
Proof.
  intros Hnow Hlater. fix IH 3. intros t c [t' c' Hn Hp|t' c' He Ha]; [by apply Hnow|]. apply Hlater; [done|].
  intros ev x Hx. destruct (Ha ev x Hx) as (t2 & c2 & Ex & H2). exists t2, c2. split; [exact Ex|]. split; [exact H2|by apply IH].
Qed.

Lemma ends_Done (Post : task -> afs_private -> Prop) env r c : Post (mk_task env r (Done [])) c -> task_ends Post (mk_task env r (Done [])) c.
Proof. intros H. apply ends_now; [|done]. by intros [|j|]. Qed.

Lemma ends_Queued Post env r c r' bios c' : afs_flightq env r c = Ok (r', bios, c') ->
  task_ends Post (after env r' bios) c' -> task_ends Post (mk_task env r (Queued false)) c.
Proof.
  intros E H. apply ends_later; [by exists Start; eexists|]. intros [|j|] x Hx; try discriminate Hx.
  cbn [run_event t_env t_req t_phase] in Hx. injection Hx as <-. rewrite E. by eexists _, _.
Qed.

Lemma ends_Decoding Post env r c r' bios c' : afs_cryptoq env r c = Ok (r', bios, c') ->
  task_ends Post (after env r' bios) c' -> task_ends Post (mk_task env r Decoding) c.
Proof.
  intros E H. apply ends_later; [by exists Decode; eexists|]. intros [|j|] x Hx; try discriminate Hx.
  cbn [run_event t_env t_req t_phase] in Hx. injection Hx as <-. rewrite E. by eexists _, _.
Qed.

(** On a system of one task this is total correctness for [step]: it does not
    stop, and when no step is left the postcondition holds. *)
Lemma task_ends_sound Post t c s : task_ends Post t c -> rtc step (mk_system c [t]) s ->
  (exists s', step s s') \/ exists t' c', s = mk_system c' [t'] /\ Post t' c'.
Proof.
  intros H Hs. remember (mk_system c [t]) as s0 eqn:E. revert t c E H.
  assert (Hstep : forall t c s', task_ends Post t c -> step (mk_system c [t]) s' -> exists t' c', s' = mk_system c' [t'] /\ task_ends Post t' c').
  { intros t c s' He H1. assert (Hone : forall i t1, [t] !! i = Some t1 -> i = 0%nat /\ t1 = t) by (intros [|i] t1 [=]; done).
    inversion H1 as [ev i t1 t' c1 c' ts _ Ei Hr|ev i t1 why c1 ts _ Ei Hr]; subst; destruct (Hone _ _ Ei) as [-> ->];
      destruct He as [t c Hn _|t c _ Ha]; try (by rewrite Hn in Hr); destruct (Ha _ _ Hr) as (t2 & c2 & E2 & H2).
    - injection E2 as <- <-. by eexists _, _.
    - by destruct why. }
  induction Hs as [s0|s0 s1 s2 H1 _ IH]; intros t c -> H.
  - destruct (stopped_dec [t]) as [Hr|(t1 & why & ->%list_elem_of_singleton & Ht)]; destruct H as [t c Hn Hp|t c (ev & x & Hx) _]; [right; eauto..| |right; eauto|].
    + left. by apply (event_steps ev 0 t x).
    + destruct t. cbn in Ht. subst. by destruct ev.
  - destruct (Hstep _ _ _ H H1) as (t' & c' & -> & H'). by eapply IH.
Qed.

(** ** Carrier bios *)
Section Bios.
Context (off : Z).

Definition cbio (w : bool) (i : nat) (b : Z) : carrier_bio := mk_cbio w (8 * b + off) i true.
Definition small (b : Z) : Prop := 0 <= b < 2 ^ 20 /\ 0 <= off < 2 ^ 31.

Lemma engine_sector b : small b -> (b *32 AFS_SECTORS_PER_BLOCK) +32 off = 8 * b + off.
Proof. intros [? ?]. unfold AFS_SECTORS_PER_BLOCK. zlia. Qed.

Lemma submit_bios_good w r : forall nums nums0 rest, block_nums r = nums0 ++ nums ++ rest -> Forall small nums ->
  submit_bios w (List.length nums) (List.length nums0) r off [] = Ok (0, imap (fun j b => cbio w (List.length nums0 + j) b) nums, []).
Proof.
  induction nums as [|b nums IH]; intros nums0 rest Hb Hs; [done|]. apply Forall_cons in Hs as [Hb0 Hs].
  cbn [List.length submit_bios head tail]. rewrite Hb, lookup_app_r, Nat.sub_diag by lia. cbn [lookup of_option app]. cbn -[submit_bios wrap imap AFS_SECTORS_PER_BLOCK].
  replace (S (List.length nums0)) with (List.length (nums0 ++ [b])) by (rewrite length_app; cbn; lia).
  rewrite (IH (nums0 ++ [b]) rest) by (done || by rewrite <- app_assoc). rewrite bind_Ok, engine_sector by done.
  rewrite imap_cons. f_equal. f_equal. f_equal. f_equal; [unfold cbio; by rewrite Nat.add_0_r|].
  apply imap_ext. intros j x _. cbn. f_equal. rewrite length_app. cbn. lia.
Qed.

Lemma cbio_in w nums cb : cb ∈ imap (fun j b => cbio w (0 + j) b) nums <-> exists i b, cb = cbio w i b /\ nums !! i = Some b.
Proof.
  rewrite list_elem_of_lookup. setoid_rewrite list_lookup_imap_Some. naive_solver.
Qed.
End Bios.

(** ** Transfers *)
Definition page_len (p : list Z) : Prop := List.length p = 4096%nat.
Definition all_on_device (c : afs_private) (nums : list Z) : Prop := Forall (on_device (bdev c) (data_start_off (passive_fs c))) nums.
Definition blk (c : afs_private) (b : Z) : list Z := block_at (bdev c) (data_start_off (passive_fs c)) b.

Lemma set_bdev_same c : set_bdev (bdev c) c = c.
Proof. by destruct c. Qed.

Lemma set_carriers_same r : set_carriers (carrier_blocks r) r = r.
Proof. by destruct r. Qed.

Lemma on_device_sector d off b : on_device d off b -> sector_num b off = 8 * b + off /\ (8 * b + off + AFS_BLOCK_SIZE / AFS_SECTOR_SIZE <=? nr_sects d) = true.
Proof. intros (H1 & H2 & H3). split; [by apply sector_num_small|]. apply Z.leb_le. exact H3. Qed.

Section Transfer.
Context (r : afs_map_request) (c : afs_private) (i : nat) (b : Z) (p : list Z).
Let off := data_start_off (passive_fs c).
Context (Hp : carrier_blocks r !! i = Some p) (Hlen : page_len p) (Hd : dev_ok (bdev c)) (Hb : on_device (bdev c) off b).

Lemma transfer_write : transfer (cbio off true i b) r c = Ok (r, set_bdev (set_block (bdev c) off b p) c).
Proof.
  destruct (on_device_sector _ _ _ Hb) as [Es Hle]. unfold transfer. cbn [cbio cb_index cb_good cb_write cb_sector]. rewrite Hp. cbn [of_option].
  rewrite bind_Ok. unfold submit_bio_wait. cbn [io_size io_sector io_type io_page andb]. rewrite Hle. cbv iota beta zeta.
  rewrite list_insert_id by done. rewrite set_carriers_same. unfold set_block. by rewrite Es.
Qed.

Lemma transfer_read : transfer (cbio off false i b) r c = Ok (set_carriers (<[i := blk c b]> (carrier_blocks r)) r, c).
Proof.
  destruct (on_device_sector _ _ _ Hb) as [Es Hle]. unfold transfer. cbn [cbio cb_index cb_good cb_write cb_sector]. rewrite Hp. cbn [of_option].
  rewrite bind_Ok. unfold submit_bio_wait. cbn [io_size io_sector io_type io_page andb]. rewrite Hle. cbv iota beta zeta.
  rewrite set_bdev_same. unfold blk, block_at. fold off. rewrite Es.
  change (Z.to_nat AFS_BLOCK_SIZE) with 4096%nat. rewrite (drop_ge p), app_nil_r by (unfold page_len in Hlen; lia). done.
Qed.
End Transfer.

(** ** Waiting for all carrier bios *)
Lemma delete_cases {A} (l : list A) j x y : l !! j = Some x -> y ∈ l -> y = x \/ y ∈ delete j l.
Proof.
  intros Ej Hy. apply list_elem_of_lookup in Hy as [k Ek]. destruct (decide (k = j)) as [->|Hne]; [left; congruence|right].
  rewrite delete_take_drop, elem_of_app. destruct (decide (k < j)%nat).
  - left. apply list_elem_of_lookup. exists k. by rewrite lookup_take_lt.
  - right. apply list_elem_of_lookup. exists (k - S j)%nat. rewrite lookup_drop. by replace (S j + (k - S j))%nat with k by lia.
Qed.

Lemma delete_subset {A} (l : list A) j y : y ∈ delete j l -> y ∈ l.
Proof. rewrite delete_take_drop, elem_of_app. intros [H|H]; [by apply (subseteq_take j l)|by apply (subseteq_drop (S j) l)]. Qed.

Lemma delete_length {A} (l : list A) j x : l !! j = Some x -> List.length l = S (List.length (delete j l)).
Proof. intros H%lookup_lt_Some. rewrite delete_take_drop, length_app, length_take, length_drop. lia. Qed.

(** The bios in flight, of the carriers [nums]. *)
Definition bios_of (w : bool) (off : Z) (nums : list Z) (bios : list carrier_bio) : Prop :=
  forall cb, cb ∈ bios -> exists i b, cb = cbio off w i b /\ nums !! i = Some b.

Lemma ends_InFlight (Post : task -> afs_private -> Prop) env r bios c : bios <> [] ->
  (forall j cb, bios !! j = Some cb -> exists t' c', run_event (Complete j) (mk_task env r (InFlight bios)) c = Some (Ok (t', c')) /\ task_ends Post t' c') ->
  task_ends Post (mk_task env r (InFlight bios)) c.
Proof.
  intros Hne H. apply ends_later.
  - destruct bios as [|cb bios]; [done|]. destruct (H 0%nat cb eq_refl) as (t' & c' & E & _). by eexists _, _.
  - intros [|j|] x Hx; try discriminate Hx. assert (exists cb, bios !! j = Some cb) as [cb Ej].
    { cbn [run_event t_phase t_req t_env] in Hx. destruct (bios !! j); [by eexists|done]. }
    destruct (H j cb Ej) as (t' & c' & E & He). rewrite E in Hx. injection Hx as <-. by eexists _, _.
Qed.

Section Writes.
Context (Post : task -> afs_private -> Prop) (env : enc_env) (nums : list Z) (r : afs_map_request) (c0 : afs_private).
Let off := data_start_off (passive_fs c0).
Context (Hnd : NoDup nums) (Hdev : all_on_device c0 nums) (Hst : state r = REQ_STATE_FLIGHT)
  (Hlp : List.length (carrier_blocks r) = List.length nums) (Hp : Forall page_len (carrier_blocks r)).

(** The pages are stored and nothing else is. *)
Definition stored (d : block_device) : Prop :=
  forall i b p, nums !! i = Some b -> carrier_blocks r !! i = Some p -> block_at d off b = p.
Definition frame (d : block_device) : Prop :=
  dev_ok d /\ nr_sects d = nr_sects (bdev c0) /\ same_below off (bdev c0) d /\
  forall b, on_device (bdev c0) off b -> b ∉ nums -> block_at d off b = block_at (bdev c0) off b.

Lemma writes_end : forall bios c, bios <> [] -> bios_of true off nums bios ->
  (exists d, c = set_bdev d c0 /\ frame d /\
    forall i b p, nums !! i = Some b -> carrier_blocks r !! i = Some p -> cbio off true i b ∈ bios \/ block_at d off b = p) ->
  (forall d, frame d -> stored d -> exists c2 r2, store_checksums (set_pending 0 r) (set_bdev d c0) = Ok c2 /\
     afs_req_clean env (set_pending 0 r) = Ok r2 /\ state r2 = REQ_STATE_COMPLETED /\ Post (mk_task env r2 (Done [])) c2) ->
  task_ends Post (mk_task env (set_pending (Z.of_nat (List.length bios)) r) (InFlight bios)) c.
Proof.
  intros bios. remember (List.length bios) as k eqn:Hk. revert bios Hk. induction k as [|k IH]; intros bios Hk c Hne Hbios (d & -> & (Hd & Hns & Hlo & Hfr) & Hprog) Hpost.
  { by destruct bios. }
  apply ends_InFlight; [done|]. intros j cb Ej. cbn [run_event t_phase t_req t_env]. rewrite Ej.
  destruct (Hbios cb) as (i & b & -> & Ei); [by eapply list_elem_of_lookup_2|].
  destruct (lookup_lt_is_Some_2 (carrier_blocks r) i) as [p Ep]; [rewrite Hlp; by eapply lookup_lt_Some|].
  pose proof (Forall_lookup_1 _ _ _ _ Hp Ep) as Lp. pose proof (Forall_lookup_1 _ _ _ _ Hdev Ei) as Hon.
  assert (Hon' : forall x, on_device d off x <-> on_device (bdev c0) off x) by (intros x; unfold on_device; by rewrite Hns).
  set (rk := set_pending (Z.of_nat (S k)) r).
  assert (Ht : transfer (cbio off true i b) rk (set_bdev d c0) = Ok (rk, set_bdev (set_block d off b p) c0)).
  { refine (transfer_write rk (set_bdev d c0) i b p Ep _). by apply Hon'. }
  rewrite Ht, bind_Ok. cbn [cb_write cbio].
  set (d1 := set_block d off b p).
  assert (Hf1 : frame d1).
  { split; [by apply set_block_ok|]. split; [done|]. split; [etransitivity; [exact Hlo|by apply set_block_below, Hon']|]. intros x Hx Hni. unfold d1. rewrite block_at_set_ne; [by apply Hfr|by apply Hon'|by apply Hon'|].
    intros ->. apply Hni. by eapply list_elem_of_lookup_2. }
  assert (Hprog1 : forall i' b' p', nums !! i' = Some b' -> carrier_blocks r !! i' = Some p' -> cbio off true i' b' ∈ delete j bios \/ block_at d1 off b' = p').
  { intros i' b' p' Ei' Ep'. destruct (decide (i' = i)) as [->|Hni].
    - right. assert (b' = b) as -> by congruence. assert (p' = p) as -> by congruence. by apply block_at_set.
    - assert (Hbb : b' <> b) by (intros ->; apply Hni; by eapply NoDup_lookup).
      destruct (Hprog i' b' p' Ei' Ep') as [Hin|Hin].
      + left. destruct (delete_cases _ _ _ _ Ej Hin) as [Heq|]; [|done]. injection Heq. intros. lia.
      + right. unfold d1. rewrite block_at_set_ne; [done|by apply Hon'| |done]. apply Hon'. by apply (Forall_lookup_1 _ _ _ _ Hdev Ei'). }
  assert (Hpend : set_pending (bios_pending rk - 1) rk = set_pending (Z.of_nat k) r).
  { unfold rk. change (bios_pending _) with (Z.of_nat (S k)). by replace (Z.of_nat (S k) - 1) with (Z.of_nat k) by lia. }
  unfold afs_write_endio. rewrite Hpend. change (bios_pending (set_pending (Z.of_nat k) r)) with (Z.of_nat k).
  pose proof (delete_length _ _ _ Ej) as Hlen. destruct (Z.eqb_spec (Z.of_nat k) 0) as [E0|E0].
  - assert (Ed : delete j bios = []) by (apply nil_length_inv; lia).
    assert (k = 0)%nat as -> by lia. change (Z.of_nat 0) with 0.
    destruct (Hpost d1 Hf1) as (c2 & r2 & Ec & Er & Hs2 & HP).
    { intros i' b' p' Ei' Ep'. destruct (Hprog1 i' b' p' Ei' Ep') as [Hin|]; [|done]. rewrite Ed in Hin. by apply elem_of_nil in Hin. }
    rewrite Ec, bind_Ok, Er, !bind_Ok. eexists _, _. split; [done|]. unfold after. rewrite Hs2. rewrite Ed. by apply ends_Done.
  - rewrite bind_Ok. eexists _, _. split; [done|]. unfold after. change (state (set_pending (Z.of_nat k) r)) with (state r).
    rewrite Hst. change (REQ_STATE_FLIGHT =? REQ_STATE_COMPLETED) with false. cbv iota.
    apply IH; [lia| | | |done].
    + intros Ed. rewrite Ed in Hlen. cbn in Hlen. lia.
    + intros cb Hcb. apply Hbios. by eapply delete_subset.
    + by exists d1.
Qed.
End Writes.

Section Reads.
Context (Post : task -> afs_private -> Prop) (env : enc_env) (nums : list Z) (r : afs_map_request) (c : afs_private).
Let off := data_start_off (passive_fs c).
Context (Hdev : all_on_device c nums) (Hok : dev_ok (bdev c)).

Lemma reads_end : forall bios pages, bios <> [] -> bios_of false off nums bios ->
  List.length pages = List.length nums ->
  (forall i b, nums !! i = Some b -> cbio off false i b ∈ bios \/ pages !! i = Some (blk c b)) -> Forall page_len pages ->
  task_ends Post (mk_task env (set_carriers (map (blk c) nums) (set_pending 0 r)) Decoding) c ->
  task_ends Post (mk_task env (set_carriers pages (set_pending (Z.of_nat (List.length bios)) r)) (InFlight bios)) c.
Proof.
  intros bios. remember (List.length bios) as k eqn:Hk. revert bios Hk.
  induction k as [|k IH]; intros bios Hk pages Hne Hbios Hlp Hprog Hp Hpost; [by destruct bios|].
  apply ends_InFlight; [done|]. intros j cb Ej. cbn [run_event t_phase t_req t_env]. rewrite Ej.
  destruct (Hbios cb) as (i & b & -> & Ei); [by eapply list_elem_of_lookup_2|].
  destruct (lookup_lt_is_Some_2 pages i) as [p Ep]; [rewrite Hlp; by eapply lookup_lt_Some|].
  pose proof (Forall_lookup_1 _ _ _ _ Hp Ep) as Lp. pose proof (Forall_lookup_1 _ _ _ _ Hdev Ei) as Hon.
  set (rk := set_carriers pages (set_pending (Z.of_nat (S k)) r)).
  assert (Ht : transfer (cbio off false i b) rk c = Ok (set_carriers (<[i := blk c b]> pages) rk, c)).
  { exact (transfer_read rk c i b p Ep Lp Hon). }
  rewrite Ht, bind_Ok. cbn [cb_write cbio]. unfold afs_read_endio. change (bios_pending (set_carriers _ rk) - 1) with (Z.of_nat (S k) - 1).
  replace (Z.of_nat (S k) - 1) with (Z.of_nat k) by lia.
  change (set_pending (Z.of_nat k) (set_carriers (<[i := blk c b]> pages) rk)) with (set_carriers (<[i := blk c b]> pages) (set_pending (Z.of_nat k) r)).
  change (bios_pending (set_carriers _ (set_pending (Z.of_nat k) r))) with (Z.of_nat k).
  pose proof (delete_length _ _ _ Ej) as Hlen.
  assert (Hprog1 : forall i' b', nums !! i' = Some b' -> cbio off false i' b' ∈ delete j bios \/ <[i := blk c b]> pages !! i' = Some (blk c b')).
  { intros i' b' Ei'. destruct (decide (i' = i)) as [->|Hni].
    - right. assert (b' = b) as -> by congruence. apply list_lookup_insert_eq. by eapply lookup_lt_Some.
    - destruct (Hprog i' b' Ei') as [Hin|Hin]; [|right; by rewrite list_lookup_insert_ne].
      left. destruct (delete_cases _ _ _ _ Ej Hin) as [Heq|]; [|done]. injection Heq. intros. lia. }
  eexists _, _. split; [done|]. destruct (Z.eqb_spec (Z.of_nat k) 0) as [E0|E0].
  - assert (Ed : delete j bios = []) by (apply nil_length_inv; lia). assert (k = 0)%nat as -> by lia.
    assert (Epages : <[i := blk c b]> pages = map (blk c) nums); [|by rewrite Epages].
    apply list_eq. intros i'. rewrite list_lookup_fmap. destruct (nums !! i') as [b'|] eqn:Ei'; cbn [fmap option_fmap option_map].
    + destruct (Hprog1 i' b' Ei') as [Hin|]; [|done]. rewrite Ed in Hin. by apply elem_of_nil in Hin.
    + apply lookup_ge_None. apply lookup_ge_None in Ei'. rewrite length_insert. lia.
  - apply IH; [lia| | | |exact Hprog1| |done].
    + intros Ed. rewrite Ed in Hlen. cbn in Hlen. lia.
    + intros cb Hcb. apply Hbios. by eapply delete_subset.
    + by rewrite length_insert.
    + apply Forall_insert; [done|]. by apply block_at_length.
Qed.
End Reads.
