(* ===== verification/Volume.v ===== *)
(** * Volume: an instance as an array of blocks

    The abstract state of an instance: [represents] relates it to a finite map
    from block numbers to contents. The lemmas follow a write request up to its
    submission and show that what the write leaves on the device and in the map
    represents the updated map, with the blocks of other entries and of the
    metadata as they were. *)
From stdpp Require Import base tactics option list numbers gmap relations.
From Stdlib Require Import ZArith Lia.
From S2P Require Import Prelude BitVector Allocation BlockIo Format MapBlocks Aont City Engine EngineMap EngineData Target EngineRun Metadata.

Local Open Scope Z_scope.
Local Open Scope afs_scope.

(** ** The representation *)
Definition n_of (c : afs_private) : nat := Z.to_nat (num_carrier_blocks (config c)).
Definition entry_off (c : afs_private) (k : Z) : nat := afs_get_map_entry (config c) k.

(** Sizes in range, a well-formed free list on the device, and a kernel that
    does not run out of memory. *)
Record volume_ok (c : afs_private) : Prop := {
  vo_carriers : 4 <= num_carrier_blocks (config c) <= 8;
  vo_entry_sz : map_entry_sz (config c) = 40 + 6 * num_carrier_blocks (config c);
  vo_blocks : 0 <= num_blocks (config c) /\ num_blocks (config c) * map_entry_sz (config c) < 2 ^ 32;
  vo_fs : fs_wf (passive_fs c) (vector c);
  vo_list : NoDup (free_list (passive_fs c)) /\ all_on_device c (free_list (passive_fs c));
  vo_dev : dev_ok (bdev c);
  vo_mem : allocs c = [];
}.

(** A block of the free list that is marked as used. *)
Definition owned (c : afs_private) (b : Z) : Prop :=
  exists i, 0 <= i < list_len (passive_fs c) /\ block_list (passive_fs c) !! Z.to_nat i = Some b /\ bvmem (vector c) i = true.

Definition entry_is (c : afs_private) (k : Z) (ts : list afs_map_tuple) : Prop :=
  (exists diff, has_entry (afs_map c) (entry_off c k) ts diff) /\ List.length ts = n_of c /\ Forall tuple_ok ts.

Definition ptrs (ts : list afs_map_tuple) : list Z := map carrier_block_ptr ts.

(** The carriers of an entry hold a data block. *)
Record holds_data (iv : list Z) (c : afs_private) (ts : list afs_map_tuple) (data : list Z) : Prop := {
  hd_data : page_ok data;
  hd_owned : Forall (owned c) (ptrs ts);
  hd_pages : Forall page_ok (map (blk c) (ptrs ts));
  hd_carries : carries iv data (map (blk c) (ptrs ts));
  hd_sums : Forall (fun t => checksum t = sum_of (blk c (carrier_block_ptr t))) ts;
}.

Definition entry_holds (iv : list Z) (c : afs_private) (ts : list afs_map_tuple) (content : option (list Z)) : Prop :=
  match content with
  | None => Forall (fun t => carrier_block_ptr t = AFS_INVALID_BLOCK) ts
  | Some data => holds_data iv c ts data
  end.

(** [disk]: the blocks that have been written; [meta]: blocks of the free list
    in use for something else; [es]: the entries of the map. *)
Record represents_at (iv : list Z) (c : afs_private) (meta disk : gmap Z (list Z)) (es : Z -> list afs_map_tuple) : Prop := {
  rp_ok : volume_ok c;
  rp_entries : forall k, 0 <= k < num_blocks (config c) -> entry_is c k (es k) /\ entry_holds iv c (es k) (disk !! k);
  rp_disk : forall k data, disk !! k = Some data -> 0 <= k < num_blocks (config c);
  rp_apart : forall k1 k2 i1 i2 b, is_Some (disk !! k1) -> is_Some (disk !! k2) ->
    ptrs (es k1) !! i1 = Some b -> ptrs (es k2) !! i2 = Some b -> k1 = k2 /\ i1 = i2;
  rp_meta : forall b p, meta !! b = Some p -> owned c b /\ blk c b = p /\ forall k, is_Some (disk !! k) -> b ∉ ptrs (es k);
}.

Definition represents (iv : list Z) (c : afs_private) (meta disk : gmap Z (list Z)) : Prop := exists es, represents_at iv c meta disk es.

(** ** Requests *)

(** [src] over the bytes of [dst] from [off]. *)
Definition overwrite (off : nat) (src dst : list Z) : list Z := take off dst ++ src ++ drop (off + List.length src) dst.

Definition bio_segs (b : bio) : list bio_vec := segments (bi_size b) (bi_io_vec b).

(** A request as [afs_map] makes it for the bio [b], for an instance that
    uses the all-or-nothing transform. *)
Record request_ok (iv0 : list Z) (c : afs_private) (k : Z) (b : bio) (r : afs_map_request) : Prop := {
  rq_bio : req_bio r = BioSet b;
  rq_ended : bio_ended r = 0%nat;
  rq_pages : List.length (carrier_blocks r) = n_of c /\ Forall page_ok (carrier_blocks r);
  rq_data : page_ok (data_block r);
  rq_arrays : (n_of c <= List.length (erasures r))%nat /\ (n_of c <= List.length (block_nums r))%nat;
  rq_encoder : encoder r = None;
  rq_type : encoding_type r = AONT_RS;
  rq_erasures : num_erasures r = 0;
  rq_iv : iv r = iv0 /\ bytes iv0 /\ List.length iv0 = 16%nat;
  rq_rebuild : rebuild_flag r = false;
  rq_block : block r = k;
  rq_off : 0 <= sector_offset r /\ sector_offset r * 512 + request_size r <= 4096;
  rq_segs : Forall seg_ok (bio_segs b) /\ seg_lens (bio_segs b) = request_size r;
}.

Definition byte_off (r : afs_map_request) : nat := Z.to_nat (sector_offset r * 512).

(** ** Facts about the representation *)
Section Facts.
Context (c : afs_private) (Hok : volume_ok c).

Lemma n_of_range : (4 <= n_of c <= 8)%nat /\ num_carrier_blocks (config c) = Z.of_nat (n_of c).
Proof. pose proof (vo_carriers _ Hok). unfold n_of. lia. Qed.

Lemma entry_off_eq k : 0 <= k < num_blocks (config c) -> entry_off c k = (Z.to_nat k * (40 + 6 * n_of c))%nat.
Proof.
  intros Hk. destruct n_of_range as [Hn En]. pose proof (vo_entry_sz _ Hok) as Es. destruct (vo_blocks _ Hok) as [Hb0 Hb].
  unfold entry_off, afs_get_map_entry. rewrite Es, En in *. rewrite wrap_id by (unfold in_range; nia). nia.
Qed.

Lemma owned_block b : owned c b -> on_device (bdev c) (data_start_off (passive_fs c)) b /\ 0 <= b < AFS_INVALID_BLOCK.
Proof.
  intros (i & Hi & Hb & _). destruct (vo_list _ Hok) as [_ Hd]. destruct (vo_fs _ Hok) as (_ & _ & _ & Hr).
  split; [by apply (free_list_Forall _ _ _ _ Hd Hi Hb)|by apply (free_list_Forall _ _ _ _ Hr Hi Hb)].
Qed.

Lemma owned_all bs : Forall (owned c) bs -> all_on_device c bs /\ Forall (fun b => b <> AFS_INVALID_BLOCK) bs.
Proof.
  intros H. split; eapply Forall_impl; try exact H; intros b Hb%owned_block; [tauto|lia].
Qed.
End Facts.

Lemma ptrs_lookup ts i b : ptrs ts !! i = Some b -> exists t, ts !! i = Some t /\ carrier_block_ptr t = b.
Proof. unfold ptrs. intros (t & -> & E)%list_lookup_fmap_Some. by exists t. Qed.

Lemma holds_data_frame iv c c' ts data : holds_data iv c ts data ->
  (forall b, b ∈ ptrs ts -> owned c' b /\ blk c' b = blk c b) -> holds_data iv c' ts data.
Proof.
  intros [H1 H2 H5 H3 H4] Hf.
  assert (Hb : forall i t, ts !! i = Some t -> owned c' (carrier_block_ptr t) /\ blk c' (carrier_block_ptr t) = blk c (carrier_block_ptr t)).
  { intros i t Et. apply Hf. apply list_elem_of_lookup. exists i. unfold ptrs. by rewrite list_lookup_fmap, Et. }
  assert (Em : map (blk c') (ptrs ts) = map (blk c) (ptrs ts)).
  { apply list_eq. intros i. unfold ptrs. rewrite !list_lookup_fmap. destruct (ts !! i) as [t|] eqn:Et; [|done]. cbn. f_equal. by apply (Hb i). }
  split; [done| |by rewrite Em|by rewrite Em|].
  - apply Forall_lookup. intros i b (t & Et & <-)%ptrs_lookup. by apply (Hb i).
  - apply Forall_lookup. intros i t Et. rewrite (proj2 (Hb i t Et)). by apply (Forall_lookup_1 _ _ _ _ H4 Et).
Qed.

Lemma nrs_spec n er : (n <= List.length er)%nat -> exists er', nrs (Z.of_nat n) er = Ok er' /\ List.length er' = List.length er.
Proof.
  intros Hn. unfold nrs. rewrite Nat2Z.id.
  forM_induction (fun (_ : nat) (er' : list Z) => List.length er' = List.length er).
  - done.
  - intros i er' Hi Hl. rewrite put_nat by lia. eexists. split; [done|]. by rewrite length_insert.
  - destruct Hloop as (er' & E & Hl). by exists er'.
Qed.

Lemma overwrite_ok off src dst : page_ok dst -> bytes src -> (off + List.length src <= 4096)%nat -> page_ok (overwrite off src dst).
Proof.
  intros [Bd Ld] Bs Hl. unfold overwrite. split.
  - apply Forall_app. split; [by apply Forall_take|]. apply Forall_app. split; [done|by apply Forall_drop].
  - rewrite !length_app, length_take, length_drop. lia.
Qed.

(** ** What a read needs *)

(** The carriers of an entry hold a data block, whoever owns their blocks. *)
Record stored (iv : list Z) (c : afs_private) (ts : list afs_map_tuple) (data : list Z) : Prop := {
  st_data : page_ok data;
  st_blocks : all_on_device c (ptrs ts) /\ Forall (fun b => b <> AFS_INVALID_BLOCK) (ptrs ts);
  st_pages : Forall page_ok (map (blk c) (ptrs ts));
  st_carries : carries iv data (map (blk c) (ptrs ts));
  st_sums : Forall (fun t => checksum t = sum_of (blk c (carrier_block_ptr t))) ts;
}.

(** Entry [k] has the tuples [ts], which lead to [content]. *)
Definition readable_at (iv : list Z) (c : afs_private) (k : Z) (ts : list afs_map_tuple) (content : option (list Z)) : Prop :=
  entry_is c k ts /\
  match content with
  | None => Forall (fun t => carrier_block_ptr t = AFS_INVALID_BLOCK) ts
  | Some data => stored iv c ts data
  end.

Lemma represents_readable iv c meta disk es k : represents_at iv c meta disk es -> 0 <= k < num_blocks (config c) ->
  readable_at iv c k (es k) (disk !! k).
Proof.
  intros H Hk. destruct (rp_entries _ _ _ _ _ H k Hk) as [He Hh]. split; [done|]. destruct (disk !! k) as [data|]; [|done].
  destruct Hh as [H1 H2 H3 H4 H5]. split; try done. by apply owned_all; [apply (rp_ok _ _ _ _ _ H)|].
Qed.

(** It depends on the map, the sizes and the blocks of the carriers. *)
Lemma readable_frame iv c c' k ts content :
  afs_map c' = afs_map c -> config c' = config c -> data_start_off (passive_fs c') = data_start_off (passive_fs c) ->
  nr_sects (bdev c') = nr_sects (bdev c) -> (forall b, is_Some content -> b ∈ ptrs ts -> blk c' b = blk c b) ->
  readable_at iv c k ts content -> readable_at iv c' k ts content.
Proof.
  intros Em Ec Ef En Hb [(He & Hl & Ht) Hc]. split.
  - unfold entry_is, entry_off, n_of in *. by rewrite Em, Ec.
  - destruct content as [data|]; [|done]. destruct Hc as [H1 [H2 H2'] H3 H4 H5].
    assert (Eb : map (blk c') (ptrs ts) = map (blk c) (ptrs ts)).
    { apply map_ext_in. intros b Hin. apply Hb; [done|by apply list_elem_of_In]. }
    split; rewrite ?Eb; try done.
    + split; [|done]. eapply Forall_impl; [exact H2|]. intros b (? & ? & ?). unfold on_device. by rewrite Ef, En.
    + apply Forall_forall. intros t Hin. rewrite Hb; [by apply (proj1 (Forall_forall _ _) H5)|done|]. unfold ptrs. by apply list_elem_of_fmap_2.
Qed.

(** ** A write request *)

(** The blocks a write to block [k] will use: the carriers it has, or
    the next acquired ones. *)
Definition blocks_available (c : afs_private) (disk : gmap Z (list Z)) (k : Z) : Prop :=
  disk !! k = None -> exists nums v rnd,
    acquire_many (passive_fs c) (vector c) (rng c) (n_of c) = Ok (nums, v, rnd) /\ AFS_INVALID_BLOCK ∉ nums.

Definition with_blocks (m : list Z) (v : option bit_vector_t) (rnd : list Z) (c : afs_private) : afs_private :=
  set_map m (set_rng rnd (set_vector v c)).

Record chosen (c : afs_private) (disk : gmap Z (list Z)) (es : Z -> list afs_map_tuple) (k : Z) (nums : list Z)
    (v : option bit_vector_t) (rnd : list Z) : Prop := {
  ch_length : List.length nums = n_of c;
  ch_nodup : NoDup nums;
  ch_wf : fs_wf (passive_fs c) v;
  ch_owned b : owned (with_blocks (afs_map c) v rnd c) b <-> owned c b \/ b ∈ nums;
  ch_fresh b : b ∈ nums -> owned c b -> is_Some (disk !! k) /\ b ∈ ptrs (es k);
}.

Lemma with_ptrs_ptrs nums ts : List.length nums = List.length ts -> ptrs (with_ptrs nums ts) = nums.
Proof.
  revert ts; induction nums as [|b nums IH]; intros [|t ts] H; try done. unfold ptrs, with_ptrs in *. cbn in *.
  f_equal. apply IH. lia.
Qed.

Lemma with_ptrs_ok nums ts : Forall (in_range 32) nums -> Forall tuple_ok ts -> Forall tuple_ok (with_ptrs nums ts).
Proof.
  intros Hn Ht. revert ts Ht; induction Hn as [|b nums Hb _ IH]; intros [|t ts] Ht; try constructor.
  - apply Forall_cons in Ht as [[_ ?] _]. done.
  - apply Forall_cons in Ht as [_ Ht]. by apply IH.
Qed.

Section Choose.
Context (iv0 : list Z) (c : afs_private) (meta disk : gmap Z (list Z)) (es : Z -> list afs_map_tuple) (k : Z).
Context (H : represents_at iv0 c meta disk es) (Hk : 0 <= k < num_blocks (config c)) (Hav : blocks_available c disk k).

(** The fresh blocks of an unmapped entry. *)
Lemma choose_fresh nums v rnd : disk !! k = None ->
  acquire_many (passive_fs c) (vector c) (rng c) (n_of c) = Ok (nums, v, rnd) -> AFS_INVALID_BLOCK ∉ nums -> chosen c disk es k nums v rnd.
Proof.
  intros Hnone Ha Hni. pose proof (rp_ok _ _ _ _ _ H) as Hok. destruct (vo_list _ Hok) as [Hnd _].
  destruct (acquire_many_fresh _ _ _ _ _ _ _ (vo_fs _ Hok) Hnd Ha Hni) as (Hn & Hwf & Hset & Hfr).
  assert (Hl : List.length nums = n_of c).
  { clear -Ha. revert Ha. generalize (n_of c) (vector c) (rng c) nums v rnd. induction n as [|n IH]; intros v0 r0 bs v1 r1 Ha; cbn in Ha; [by injection Ha as <- _ _|].
    apply res_bind_Ok in Ha as ([[b v2] r2] & _ & Ha). apply res_bind_Ok in Ha as ([[bs2 v3] r3] & H2 & Ha). injection Ha as <- _ _.
    cbn. f_equal. by eapply IH. }
  split; [done|done|done| |].
  - intros b. split.
    + intros (i & Hi & Hb & Hm). cbn in Hi, Hb, Hm. apply (Hset i b Hi Hb) in Hm as [Hm|Hm]; [left; by exists i|by right].
    + intros [(i & Hi & Hb & Hm)|Hb]; [exists i; refine (conj Hi (conj Hb _)); apply (Hset i b Hi Hb); by left|].
      destruct (Hfr b Hb) as (i & Hi & Hbi & _). exists i. refine (conj Hi (conj Hbi _)). apply (Hset i b Hi Hbi). by right.
  - intros b Hb (i & Hi & Hbi & Hm). destruct (Hfr b Hb) as (j & Hj & Hbj & Hmj).
    assert (i = j) as -> by (by eapply free_list_inj). congruence.
Qed.

Lemma choose_own : is_Some (disk !! k) -> chosen c disk es k (ptrs (es k)) (vector c) (rng c).
Proof.
  intros Hs. pose proof (rp_ok _ _ _ _ _ H) as Hok. destruct (rp_entries _ _ _ _ _ H k Hk) as [(_ & Hl & _) Hh].
  pose proof Hs as [data Ed]. rewrite Ed in Hh. cbn in Hh. destruct Hh as [_ Ho _ _ _]. split.
  - unfold ptrs. by rewrite length_map.
  - apply NoDup_alt. intros i j b Hi Hj. by apply (rp_apart _ _ _ _ _ H k k i j b).
  - by apply vo_fs.
  - intros b. split; [intros Hb; by left|]. intros [Hb|Hb]; [done|]. rewrite Forall_forall in Ho. by apply Ho.
  - done.
Qed.

(** The loop of [afs_write_request], in a map whose entry [k] has the tuples
    [es k]. *)
Lemma choose_blocks pre diff post r t0 : List.length diff = 32%nat ->
  afs_map c = entry_map pre (es k) diff post -> es k !! 0%nat = Some t0 ->
  (n_of c <= List.length (block_nums r))%nat -> forall diff',
  exists nums ts rest v rnd,
    assign_blocks (negb (carrier_block_ptr t0 =? AFS_INVALID_BLOCK)) (List.length pre) (n_of c) 0 r (set_map (entry_map pre (es k) diff' post) c)
    = Ok (true, set_block_nums (nums ++ rest) r, with_blocks (entry_map pre ts diff' post) v rnd c) /\
    chosen c disk es k nums v rnd /\ ptrs ts = nums /\ Forall tuple_ok ts.
Proof.
  intros Hd Hm E0 Hbn diff'. pose proof (rp_ok _ _ _ _ _ H) as Hok. destruct (rp_entries _ _ _ _ _ H k Hk) as [(_ & Hl & Ht) Hh].
  set (rest := drop (n_of c) (block_nums r)). set (old := take (n_of c) (block_nums r)).
  assert (Hbe : block_nums r = old ++ rest) by (symmetry; apply take_drop).
  assert (Lo : List.length old = n_of c) by (unfold old; rewrite length_take; lia).
  destruct (disk !! k) as [data|] eqn:Ed; cbn in Hh.
  - assert (Hs : is_Some (disk !! k)) by by rewrite Ed. pose proof (choose_own Hs) as Hc. destruct Hh as [_ Ho _ _ _].
    apply owned_all in Ho as [_ Hni]; [|done].
    assert (Hni' : Forall (fun t => carrier_block_ptr t <> AFS_INVALID_BLOCK) (es k)) by (unfold ptrs in Hni; by rewrite Forall_fmap in Hni).
    destruct (Z.eqb_spec (carrier_block_ptr t0) AFS_INVALID_BLOCK) as [E|_]; [by apply (Forall_lookup_1 _ _ _ _ Hni') in E0|].
    exists (ptrs (es k)), (es k), rest, (vector c), (rng c). split_and!; [|done|done|done]. cbn [negb].
    rewrite <- Hl. change 0 with (Z.of_nat (List.length (@nil afs_map_tuple))).
    rewrite (assign_mapped pre diff' post (es k) [] [] old rest) by (done || lia). by destruct c.
  - destruct (Hav Ed) as (nums & v & rnd & Ha & Hni). pose proof (choose_fresh nums v rnd Ed Ha Hni) as Hc.
    rewrite (proj2 (Z.eqb_eq _ _) (Forall_lookup_1 _ _ _ _ Hh E0)). cbn [negb].
    pose proof (ch_length _ _ _ _ _ _ _ Hc) as Ln.
    exists nums, (with_ptrs nums (es k)), rest, v, rnd. split_and!; [|done|apply with_ptrs_ptrs; lia|].
    + rewrite <- Ln. change 0 with (Z.of_nat (List.length (@nil afs_map_tuple))).
      rewrite (assign_fresh pre diff' post nums [] (es k) [] old rest r _ v rnd); try done; try lia. cbn. by rewrite Ln.
    + apply with_ptrs_ok; [|done]. apply Forall_forall. intros b Hb.
      assert (Ho : owned (with_blocks (afs_map c) v rnd c) b) by (apply (ch_owned _ _ _ _ _ _ _ Hc); by right).
      destruct Ho as (i & Hi & Hbi & _). cbn in Hi, Hbi. destruct (vo_fs _ Hok) as (_ & _ & _ & Hr).
      pose proof (free_list_Forall _ _ _ _ Hr Hi Hbi) as Hb'. unfold in_range, AFS_INVALID_BLOCK in *. cbn in Hb'. lia.
Qed.
End Choose.

(** Submission on an instance with memory. *)
Lemma alloc_ok c : allocs c = [] -> alloc c = (true, c).
Proof. destruct c. cbn. by intros ->. Qed.

Lemma reset_outcomes c : outcomes (bdev c) = [] -> set_bdev (mk_bdev (nr_sects (bdev c)) (sectors (bdev c)) []) c = c.
Proof. destruct c as [? ? ? ? ? ? ? ? ? [? ? ?] ? ?]. cbn. by intros ->. Qed.

Lemma small_blocks c nums : all_on_device c nums -> Forall (small (data_start_off (passive_fs c))) nums.
Proof. intros H. eapply Forall_impl; [exact H|]. by intros b (? & ? & _). Qed.

Definition bios_for (w : bool) (c : afs_private) (nums : list Z) : list carrier_bio :=
  imap (fun j b => cbio (data_start_off (passive_fs c)) w (0 + j) b) nums.

Lemma submit_pages_good w r c nums rest n : allocs c = [] -> dev_ok (bdev c) -> all_on_device c nums ->
  block_nums r = nums ++ rest -> List.length nums = n ->
  submit_pages w r (Z.of_nat n) c = Ok (0, set_pending (Z.of_nat n) r, bios_for w c nums, c).
Proof.
  intros Ha [Ho _] Hd Hb <-. unfold submit_pages. rewrite alloc_ok by done. cbn [negb]. rewrite Nat2Z.id, Ho.
  rewrite (submit_bios_good _ w r nums [] rest) by (done || by apply small_blocks). rewrite bind_Ok, reset_outcomes by done. done.
Qed.

Section Write.
Context (iv0 : list Z) (c : afs_private) (meta disk : gmap Z (list Z)) (es : Z -> list afs_map_tuple) (k : Z) (env : enc_env) (b : bio) (r : afs_map_request).
Context (H : represents_at iv0 c meta disk es) (Hk : 0 <= k < num_blocks (config c)) (Hav : blocks_available c disk k)
  (Henv : enc_env_ok env) (Hr : request_ok iv0 c k b r) (Hop : op b = REQ_OP_WRITE) (Hpay : bytes (payload (bio_segs b))).
Let n := n_of c.
Let data := overwrite (byte_off r) (payload (bio_segs b)) (data_block r).

Lemma written_page : page_ok data /\
  copy_from_bio (bio_segs b) (request_size r) (bio_base r) 0 (data_block r) = Ok data.
Proof.
  pose proof (rq_data _ _ _ _ _ Hr) as [Bd Ld]. pose proof (rq_off _ _ _ _ _ Hr) as [Ho Hs]. pose proof (rq_segs _ _ _ _ _ Hr) as [Hsg Hl].
  pose proof (payload_length _ Hsg) as Lp. pose proof (seg_lens_nonneg _ Hsg) as Hnn.
  assert (Eb : bio_base r = sector_offset r * 512) by (unfold bio_base, AFS_SECTOR_SIZE; apply wrap_id; unfold in_range; lia). split.
  - apply overwrite_ok; [done|done|]. unfold byte_off. lia.
  - rewrite Eb, copy_from_bio_spec by (done || lia). unfold data, overwrite, byte_off. rewrite Lp, Hl, Z.add_0_r. do 3 f_equal. f_equal. lia.
Qed.

(** The state of the request and of the instance once the bios are in
    flight. *)
Record write_submitted (pre post ts_diff : list Z) (ts : list afs_map_tuple) (nums : list Z) (v : option bit_vector_t) (rnd : list Z) (r' : afs_map_request) : Prop := {
  ws_run : afs_flightq env r c = Ok (set_pending (Z.of_nat n) r', bios_for true c nums, with_blocks (entry_map pre ts ts_diff post) v rnd c);
  ws_map : exists diff, List.length diff = 32%nat /\ afs_map c = entry_map pre (es k) diff post;
  ws_pre : List.length pre = entry_off c k;
  ws_diff : List.length ts_diff = 32%nat;
  ws_chosen : chosen c disk es k nums v rnd;
  ws_ptrs : ptrs ts = nums;
  ws_tuples : Forall tuple_ok ts;
  ws_pages : List.length (carrier_blocks r') = n /\ Forall page_ok (carrier_blocks r') /\ carries iv0 data (carrier_blocks r');
  ws_req : state r' = REQ_STATE_FLIGHT /\ block r' = k /\ req_bio r' = BioSet b /\ bio_ended r' = 0%nat /\ encoder r' = None;
}.

Lemma write_submits : exists pre post diff ts nums v rnd r', write_submitted pre post diff ts nums v rnd r'.
Proof.
  pose proof (rp_ok _ _ _ _ _ H) as Hok. destruct (n_of_range c Hok) as [Hn En]. fold n in Hn, En.
  destruct (rp_entries _ _ _ _ _ H k Hk) as [((diff & Hent) & Hl & Ht) Hh]. fold n in Hl.
  apply has_entry_parts in Hent as (Hd & pre & post & Hm & Hpre).
  destruct (lookup_lt_is_Some_2 (es k) 0 ltac:(lia)) as [t0 E0].
  destruct written_page as [Hdata Ecopy]. pose proof (rq_arrays _ _ _ _ _ Hr) as [Her Hbn]. pose proof (rq_iv _ _ _ _ _ Hr) as (Eiv & Biv & Liv).
  pose proof (rq_pages _ _ _ _ _ Hr) as [Lpg Hpg].
  destruct (nrs_spec n (erasures r) Her) as (er & Eer & _).
  destruct (encode_pages env n iv0 data Henv Hn Biv Liv Hdata diff (carrier_blocks r) Hd Lpg Hpg) as (diff' & pages & Eenc & Ld' & Lpg' & Hpg' & Hcar).
  set (r1 := set_erasures er (set_data data (set_state REQ_STATE_FLIGHT r))).
  destruct (choose_blocks iv0 c meta disk es k H Hk Hav pre diff post (set_carriers pages r1) t0 Hd Hm E0 Hbn diff')
    as (nums & ts & rest & v & rnd & Eas & Hch & Hp & Hts).
  set (c2 := with_blocks (entry_map pre ts diff' post) v rnd c) in *. set (r2 := set_block_nums (nums ++ rest) (set_carriers pages r1)) in *.
  assert (Hnums : Forall (owned c2) nums).
  { apply Forall_forall. intros x Hx. apply (ch_owned _ _ _ _ _ _ _ Hch). by right. }
  assert (Hon : all_on_device c2 nums).
  { eapply Forall_impl; [exact Hnums|]. intros x (i & Hi & Hb & _). destruct (vo_list _ Hok) as [_ Hdv]. by apply (free_list_Forall _ _ _ _ Hdv Hi Hb). }
  exists pre, post, diff', ts, nums, v, rnd, r2. split; try done; [|by exists diff|split_and!; try done; [by apply Hr|by apply Hr|by apply Hr|by apply Hr]].
  unfold afs_flightq. rewrite (rq_bio _ _ _ _ _ Hr), Hop. unfold afs_write_request.
  change (state (set_state REQ_STATE_FLIGHT r)) with REQ_STATE_FLIGHT. change (negb (REQ_STATE_FLIGHT =? REQ_STATE_FLIGHT)) with false. cbv iota zeta.
  change (block (set_state REQ_STATE_FLIGHT r)) with (block r). rewrite (rq_block _ _ _ _ _ Hr). fold (entry_off c k). rewrite <- Hpre, En.
  assert (Ht0 : tuple_ok t0) by by apply (Forall_lookup_1 _ _ _ _ Ht E0).
  assert (E00 : tuple_at (afs_map c) (List.length pre) 0 = Ok t0) by (rewrite Hm; exact (tuple_at_entry pre diff post (es k) 0 t0 E0 Ht0)).
  rewrite E00, bind_Ok.
  fold (bio_segs b). change (copy_from_bio (bio_segs b) _ _ 0 _) with (copy_from_bio (bio_segs b) (request_size r) (bio_base r) 0 (data_block r)).
  rewrite Ecopy, bind_Ok. change (erasures (set_state _ _)) with (erasures r). rewrite Eer, bind_Ok. fold r1.
  assert (Een : encode_data env r1 c = Ok (set_carriers pages r1, set_map (entry_map pre (es k) diff' post) c)).
  { unfold encode_data. change (encoding_type r1) with (encoding_type r). rewrite (rq_type _ _ _ _ _ Hr). cbn [Z.eqb SHAMIR AONT_RS]. cbv iota.
    change (AONT_RS =? SHAMIR) with false. change (AONT_RS =? AONT_RS) with true. cbv iota zeta.
    change (block r1) with (block r). rewrite (rq_block _ _ _ _ _ Hr). fold (entry_off c k).
    assert (Edo : difference_off (config c) (entry_off c k) = (List.length pre + 6 * List.length (es k))%nat).
    { unfold difference_off, map_tuple_sz. rewrite Hpre, Hl, En. lia. }
    rewrite Edo. destruct (difference_entry pre diff post (es k) _ Hd eq_refl) as [Esl Espl]. rewrite Hm at 1. rewrite Esl. cbn [of_option]. rewrite bind_Ok, En.
    change (data_block r1) with data. change (iv r1) with (iv r). rewrite Eiv. change (carrier_blocks r1) with (carrier_blocks r). rewrite Eenc, bind_Ok.
    rewrite Hm at 1. rewrite (Espl diff' Ld'). done. }
  fold n in Eas. rewrite Een, bind_Ok, Nat2Z.id, Eas, bind_Ok. cbn [negb]. cbv iota. unfold write_pages.
  rewrite (submit_pages_good true r2 c2 nums rest n); [|exact (vo_mem _ Hok)|exact (vo_dev _ Hok)|done|done|by apply (ch_length _ _ _ _ _ _ _ Hch)]. done.
Qed.
End Write.

(** ** The instance after a write *)
Lemma with_sums_ptrs pages ts : List.length pages = List.length ts -> ptrs (with_sums pages ts) = ptrs ts.
Proof.
  revert ts; induction pages as [|p pages IH]; intros [|t ts] H; try done. unfold ptrs, with_sums in *. cbn in *. f_equal. apply IH. lia.
Qed.

Lemma with_sums_ok pages ts : Forall page_ok pages -> Forall tuple_ok ts -> Forall tuple_ok (with_sums pages ts).
Proof.
  intros Hp Ht. revert ts Ht; induction Hp as [|p pages [_ Hl] _ IH]; intros [|t ts] Ht; try constructor.
  - apply Forall_cons in Ht as [[? _] _]. split; [done|]. by apply sum_of_spec.
  - apply Forall_cons in Ht as [_ Ht]. by apply IH.
Qed.

Section Written.
Context (iv0 : list Z) (c : afs_private) (meta disk : gmap Z (list Z)) (es : Z -> list afs_map_tuple) (k : Z) (data : list Z).
Context (H : represents_at iv0 c meta disk es) (Hk : 0 <= k < num_blocks (config c)) (Hdata : page_ok data).
Context (pre post diff : list Z) (ts : list afs_map_tuple) (nums : list Z) (v : option bit_vector_t) (rnd : list Z) (pages : list (list Z)) (d : block_device).
Context (Hm : exists diff0, List.length diff0 = 32%nat /\ afs_map c = entry_map pre (es k) diff0 post)
  (Hpre : List.length pre = entry_off c k) (Hdiff : List.length diff = 32%nat) (Hch : chosen c disk es k nums v rnd) (Hp : ptrs ts = nums)
  (Hts : Forall tuple_ok ts) (Lpg : List.length pages = n_of c) (Hpg : Forall page_ok pages) (Hcar : carries iv0 data pages).
Context (Hd : dev_ok d) (Hns : nr_sects d = nr_sects (bdev c))
  (Hframe : forall b, on_device (bdev c) (data_start_off (passive_fs c)) b -> b ∉ nums -> block_at d (data_start_off (passive_fs c)) b = blk c b)
  (Hstored : forall i b p, nums !! i = Some b -> pages !! i = Some p -> block_at d (data_start_off (passive_fs c)) b = p).
Let c' := set_map (entry_map pre (with_sums pages ts) diff post) (set_bdev d (with_blocks (entry_map pre ts diff post) v rnd c)).
Let es' (j : Z) := if decide (j = k) then with_sums pages ts else es j.

Lemma Lts : List.length ts = n_of c.
Proof. rewrite <- (ch_length _ _ _ _ _ _ _ Hch), <- Hp. unfold ptrs. by rewrite length_map. Qed.

Lemma new_ptrs : ptrs (with_sums pages ts) = nums.
Proof. rewrite with_sums_ptrs; [exact Hp|]. pose proof Lts. lia. Qed.

Lemma written_ok : volume_ok c'.
Proof.
  destruct (rp_ok _ _ _ _ _ H) as [H1 H2 H3 H4 [H5 H6] H7 H8]. split; try done; [by apply (ch_wf _ _ _ _ _ _ _ Hch)|].
  split; [done|]. eapply Forall_impl; [exact H6|]. intros b. unfold on_device. cbn. by rewrite Hns.
Qed.

Lemma owned_mono b : owned c b -> owned c' b.
Proof. intros Hb. apply (ch_owned _ _ _ _ _ _ _ Hch). by left. Qed.

(** Blocks of other entries and of the metadata. *)
Lemma blk_other b : owned c b -> b ∉ nums -> blk c' b = blk c b.
Proof. intros Ho Hb. apply Hframe; [|done]. by apply (owned_block c (rp_ok _ _ _ _ _ H)). Qed.

Lemma not_chosen j b : j <> k -> is_Some (disk !! j) -> b ∈ ptrs (es j) -> owned c b -> b ∉ nums.
Proof.
  intros Hj Hs Hb Ho Hin. destruct (ch_fresh _ _ _ _ _ _ _ Hch b Hin Ho) as [Hsk Hbk].
  apply list_elem_of_lookup in Hb as [i1 E1]. apply list_elem_of_lookup in Hbk as [i2 E2].
  by destruct (rp_apart _ _ _ _ _ H j k i1 i2 b Hs Hsk E1 E2).
Qed.

Lemma new_entry : entry_is c' k (with_sums pages ts) /\ holds_data iv0 c' (with_sums pages ts) data.
Proof.
  pose proof Lts as L. assert (Lw : List.length (with_sums pages ts) = n_of c) by (unfold with_sums; rewrite length_zip_with; lia).
  assert (Hblk : forall i b p, nums !! i = Some b -> pages !! i = Some p -> blk c' b = p) by exact Hstored. split.
  - split; [|split; [exact Lw|by apply with_sums_ok]]. exists diff. change (entry_off c' k) with (entry_off c k). rewrite <- Hpre. by apply entry_map_has.
  - assert (Em : map (blk c') nums = pages).
    { apply list_eq. intros i. rewrite list_lookup_fmap. pose proof (ch_length _ _ _ _ _ _ _ Hch) as Ln. destruct (nums !! i) as [b|] eqn:Eb.
      - destruct (lookup_lt_is_Some_2 pages i) as [p Ep]; [apply lookup_lt_Some in Eb; lia|]. rewrite Ep. cbn. f_equal. by eapply Hblk.
      - symmetry. apply lookup_ge_None. apply lookup_ge_None in Eb. lia. }
    split; [done| |by rewrite new_ptrs, Em|by rewrite new_ptrs, Em|].
    + rewrite new_ptrs. apply Forall_forall. intros b Hb. apply (ch_owned _ _ _ _ _ _ _ Hch). by right.
    + apply Forall_lookup. intros i t' Et'. destruct (lookup_lt_is_Some_2 ts i) as [t Et]; [apply lookup_lt_Some in Et'; lia|].
      destruct (lookup_lt_is_Some_2 pages i) as [p Ep]; [apply lookup_lt_Some in Et; lia|].
      rewrite (with_sums_lookup _ _ _ _ _ Ep Et) in Et'. injection Et' as <-. cbn. f_equal. symmetry. eapply Hblk; [|exact Ep].
      rewrite <- Hp. unfold ptrs. by rewrite list_lookup_fmap, Et.
Qed.

Lemma old_entry j : j <> k -> 0 <= j < num_blocks (config c) ->
  entry_is c' j (es j) /\ entry_holds iv0 c' (es j) (disk !! j).
Proof.
  intros Hj Hr. destruct (rp_entries _ _ _ _ _ H j Hr) as [((dj & Hent) & Hl & Ht) Hh]. destruct Hm as (diff0 & Hd0 & Em).
  pose proof Lts as L. destruct (rp_entries _ _ _ _ _ H k Hk) as [(_ & Hlk & _) _]. split.
  - split; [|by split]. exists dj. change (entry_off c' j) with (entry_off c j). cbn [afs_map set_map c'].
    rewrite Em in Hent. eapply has_entry_frame; [| | |exact Hent]; [unfold with_sums; rewrite length_zip_with; lia|lia|].
    rewrite Hpre, Hl, Hlk, Hd0. rewrite !(entry_off_eq c (rp_ok _ _ _ _ _ H)) by done.
    destruct (Z.lt_ge_cases j k); [left|right]; [assert (Z.to_nat j < Z.to_nat k)%nat by lia|assert (Z.to_nat k < Z.to_nat j)%nat by lia]; nia.
  - destruct (disk !! j) as [dat|] eqn:Ed; [|done]. cbn in *. apply (holds_data_frame iv0 c); [done|]. intros b Hb.
    pose proof (hd_owned _ _ _ _ Hh) as Ho. rewrite Forall_forall in Ho. specialize (Ho b Hb).
    split; [by apply owned_mono|]. apply blk_other; [done|]. by apply (not_chosen j); rewrite ?Ed.
Qed.

Lemma written_represents : represents_at iv0 c' meta (<[k := data]> disk) es'.
Proof.
  assert (Hes : forall j b, is_Some (<[k := data]> disk !! j) -> b ∈ ptrs (es' j) ->
    (j = k /\ b ∈ nums) \/ (j <> k /\ is_Some (disk !! j) /\ es' j = es j)).
  { intros j b Hs Hb. unfold es' in *. destruct (decide (j = k)) as [->|Hne]; [left; split; [done|by rewrite <- new_ptrs]|right].
    rewrite lookup_insert_ne in Hs by done. done. }
  assert (Howned : forall j b, is_Some (disk !! j) -> b ∈ ptrs (es j) -> owned c b).
  { intros j b [dat Ed] Hb. pose proof (rp_disk _ _ _ _ _ H j dat Ed) as Hr. destruct (rp_entries _ _ _ _ _ H j Hr) as [_ Hh]. rewrite Ed in Hh.
    pose proof (hd_owned _ _ _ _ Hh) as Ho. rewrite Forall_forall in Ho. by apply Ho. }
  split.
  - apply written_ok.
  - intros j Hr. unfold es'. destruct (decide (j = k)) as [->|Hne]; [rewrite lookup_insert_eq; apply new_entry|].
    rewrite lookup_insert_ne by done. by apply old_entry.
  - intros j dat. destruct (decide (j = k)) as [->|Hne]; [done|]. rewrite lookup_insert_ne by done. apply (rp_disk _ _ _ _ _ H).
  - intros j1 j2 i1 i2 b Hs1 Hs2 E1 E2.
    pose proof (list_elem_of_lookup_2 _ _ _ E1) as Hb1. pose proof (list_elem_of_lookup_2 _ _ _ E2) as Hb2.
    destruct (Hes j1 b Hs1 Hb1) as [[-> Hn1]|(Hn1 & Hd1 & Ee1)], (Hes j2 b Hs2 Hb2) as [[-> Hn2]|(Hn2 & Hd2 & Ee2)].
    + split; [done|]. unfold es' in E1, E2. rewrite decide_True, new_ptrs in E1, E2 by done. eapply NoDup_lookup; [apply (ch_nodup _ _ _ _ _ _ _ Hch)|done..].
    + rewrite Ee2 in Hb2. by destruct (not_chosen j2 b Hn2 Hd2 Hb2 (Howned j2 b Hd2 Hb2)).
    + rewrite Ee1 in Hb1. by destruct (not_chosen j1 b Hn1 Hd1 Hb1 (Howned j1 b Hd1 Hb1)).
    + rewrite Ee1 in E1. rewrite Ee2 in E2. by apply (rp_apart _ _ _ _ _ H j1 j2 i1 i2 b).
  - intros b p Hb. destruct (rp_meta _ _ _ _ _ H b p Hb) as (Ho & Hp' & Hnot).
    assert (Hni : b ∉ nums) by (intros Hin; destruct (ch_fresh _ _ _ _ _ _ _ Hch b Hin Ho) as [Hs Hin']; by apply (Hnot k Hs)).
    split_and!; [by apply owned_mono|by rewrite blk_other|]. intros j Hs Hin.
    destruct (Hes j b Hs Hin) as [[-> Hn]|(Hne & Hd' & Ee)]; [done|]. rewrite Ee in Hin. by apply (Hnot j).
Qed.
End Written.
