(* ===== verification/VolumeRequests.v ===== *)
(** * VolumeRequests: the contract of the engine

    A write request updates the blocks an instance represents and a read request
    returns what they hold, in whatever order the carrier bios complete. *)
From stdpp Require Import base tactics option list numbers gmap relations.
From Stdlib Require Import ZArith Lia.
From S2P Require Import Prelude BitVector Allocation BlockIo Format MapBlocks Aont City Engine EngineMap EngineData Target EngineRun Volume Metadata.

Local Open Scope Z_scope.
Local Open Scope afs_scope.

(** ** What a request does *)
Lemma clean_bio env r b : req_bio r = BioSet b -> encoder r = None ->
  afs_req_clean env r = Ok (set_bio (BioSet b) (S (bio_ended r)) (set_state REQ_STATE_COMPLETED r)).
Proof. destruct r. cbn. by intros -> ->. Qed.

(** What a request leaves as it is: the setup of the instance, the sectors below
    the data area, the blocks that are not on the free list. *)
Record kept (c c' : afs_private) : Prop := mk_kept {
  kp_config : config c' = config c;
  kp_fs : passive_fs c' = passive_fs c;
  kp_sb : super_block c' = super_block c;
  kp_pass : passphrase c' = passphrase c;
  kp_map : List.length (afs_map c') = List.length (afs_map c);
  kp_nr : nr_sects (bdev c') = nr_sects (bdev c);
  kp_below : same_below (data_start_off (passive_fs c)) (bdev c) (bdev c');
  kp_other : forall b, on_device (bdev c) (data_start_off (passive_fs c)) b -> b ∉ free_list (passive_fs c) -> blk c' b = blk c b;
}.

Lemma kept_map m c : List.length m = List.length (afs_map c) -> kept c (set_map m c).
Proof. by split. Qed.

#[global] Instance kept_preorder : PreOrder kept.
Proof.
  split; [by intros c; split|]. intros c1 c2 c3 [A1 A2 A3 A4 A5 A6 A7 A8] [B1 B2 B3 B4 B5 B6 B7 B8]. rewrite A2 in *. split; try congruence.
  - by etransitivity.
  - intros b Hb Hn. rewrite B8, A8; [done..| |done]. unfold on_device in *. by rewrite A6.
Qed.

(** After a write of [data] to block [k]: the bio has ended once and the instance
    holds [data] there. *)
Definition write_done (iv0 : list Z) (c : afs_private) (meta disk : gmap Z (list Z)) (k : Z) (data : list Z) (t : task) (c' : afs_private) : Prop :=
  t_phase t = Done [] /\ bio_ended (t_req t) = 1%nat /\ kept c c' /\ represents iv0 c' meta (<[k := data]> disk).

Lemma write_ends iv0 c meta disk k env b r :
  represents iv0 c meta disk -> 0 <= k < num_blocks (config c) -> blocks_available c disk k -> enc_env_ok env ->
  request_ok iv0 c k b r -> op b = REQ_OP_WRITE -> bytes (payload (bio_segs b)) ->
  task_ends (write_done iv0 c meta disk k (overwrite (byte_off r) (payload (bio_segs b)) (data_block r))) (mk_task env r (Queued false)) c.
Proof.
  intros [es H] Hk Hav Henv Hr Hop Hpay. pose proof (rp_ok _ _ _ _ _ H) as Hok. destruct (n_of_range c Hok) as [Hn En].
  destruct (written_page iv0 c k b r Hr Hpay) as [Hdata _].
  destruct (write_submits iv0 c meta disk es k env b r H Hk Hav Henv Hr Hop Hpay) as (pre & post & diff & ts & nums & v & rnd & r' & [Hrun Hm Hpre Hdiff Hch Hp Hts (Lpg & Hpg & Hcar) (Hst & Hbl & Hbio & Hend & Henc)]).
  set (data := overwrite _ _ _) in *. set (c2 := with_blocks (entry_map pre ts diff post) v rnd c) in *.
  assert (Hon : all_on_device c2 nums).
  { apply Forall_forall. intros x Hx. assert (Ho : owned c2 x) by (apply (ch_owned _ _ _ _ _ _ _ Hch); by right).
    destruct Ho as (i & Hi & Hb & _). destruct (vo_list _ Hok) as [_ Hdv]. by apply (free_list_Forall _ _ _ _ Hdv Hi Hb). }
  pose proof (ch_length _ _ _ _ _ _ _ Hch) as Ln.
  assert (Lb : List.length (bios_for true c nums) = n_of c) by (unfold bios_for; by rewrite length_imap).
  eapply ends_Queued; [exact Hrun|]. unfold after. change (state (set_pending _ r')) with (state r'). rewrite Hst.
  change (REQ_STATE_FLIGHT =? REQ_STATE_COMPLETED) with false. cbv iota. rewrite <- Lb.
  apply (writes_end _ env nums r' c2); try done; [apply (ch_nodup _ _ _ _ _ _ _ Hch)|lia|by apply page_ok_length| | | |].
  - intros E. rewrite E in Lb. cbn in Lb. lia.
  - intros cb Hcb. by apply (cbio_in _ true nums cb).
  - exists (bdev c). split; [by destruct c|]. split; [split; [exact (vo_dev _ Hok)|split; [done|split; [reflexivity|done]]]|].
    intros i x p Ex _. left. apply cbio_in. by exists i, x.
  - intros d (Hd & Hns & Hlo & Hfr) Hsto.
    assert (Lts : List.length ts = n_of c) by (rewrite <- Ln, <- Hp; unfold ptrs; by rewrite length_map).
    eexists _, (set_bio (BioSet b) 1 (set_state REQ_STATE_COMPLETED (set_pending 0 r'))). split_and!; [| |done|].
    + apply (store_checksums_spec (set_pending 0 r') (set_bdev d c2) (n_of c) pre diff post ts); try done.
      * cbn. by rewrite Hbl. * by apply page_ok_length.
    + rewrite (clean_bio env _ b) by done. cbn [bio_ended set_pending]. by rewrite Hend.
    + split_and!; [done|done| |].
      { assert (Hlen : List.length (entry_map pre (with_sums (carrier_blocks r') ts) diff post) = List.length (afs_map c)).
        { destruct Hm as (diff0 & Hd0 & ->). unfold entry_map. rewrite !length_app, !tuples_length. unfold with_sums. rewrite length_zip_with.
          destruct (rp_entries _ _ _ _ _ H k Hk) as [(_ & Hlk & _) _]. lia. }
        split; try done. intros x Hx Hni. apply Hfr; [done|]. intros Hin. apply Hni.
        assert (Ho : owned c2 x) by (apply (ch_owned _ _ _ _ _ _ _ Hch); by right). destruct Ho as (i & Hi & Hxi & _).
        eapply list_elem_of_lookup_2. exact (free_list_lookup (passive_fs c) i x Hi Hxi). }
      eexists.
      refine (written_represents iv0 c meta disk es k data H Hk Hdata pre post diff ts nums v rnd (carrier_blocks r') d Hm Hpre Hdiff Hch Hp Hts Lpg Hpg Hcar Hd Hns _ Hsto).
      intros x Hx Hni. by apply Hfr.
Qed.

(** ** A read request *)

(** Decoding rewrites the difference of the entry it decodes. *)
Lemma represents_diff iv0 c meta disk es k pre diff diff' post :
  represents_at iv0 c meta disk es -> 0 <= k < num_blocks (config c) -> List.length pre = entry_off c k ->
  afs_map c = entry_map pre (es k) diff post -> List.length diff = 32%nat -> List.length diff' = 32%nat ->
  represents_at iv0 (set_map (entry_map pre (es k) diff' post) c) meta disk es.
Proof.
  intros H Hk Hpre Hm Hd Hd'. pose proof H as [[H1 H2 H3 H4 H5 H6 H7] He Hdisk Hap Hmeta]. split; [by split| |done|done|exact Hmeta].
  intros j Hj. destruct (He j Hj) as [((dj & Hent) & Hl & Ht) Hh].
  assert (Hh' : entry_holds iv0 (set_map (entry_map pre (es k) diff' post) c) (es j) (disk !! j)).
  { destruct (disk !! j) as [dat|]; [|exact Hh]. destruct Hh. by split. }
  split; [|exact Hh']. split; [|by split]. change (entry_off (set_map _ c) j) with (entry_off c j). cbn [afs_map set_map].
  destruct (decide (j = k)) as [->|Hne]; [exists diff'; rewrite <- Hpre; by apply entry_map_has|].
  exists dj. rewrite Hm in Hent. eapply has_entry_frame; [| | |exact Hent]; [done|lia|].
  destruct (He k Hk) as [(_ & Hlk & _) _]. rewrite Hpre, Hl, Hlk, Hd. rewrite !(entry_off_eq c (rp_ok _ _ _ _ _ H)) by done.
  destruct (Z.lt_ge_cases j k); [left|right]; [assert (Z.to_nat j < Z.to_nat k)%nat by lia|assert (Z.to_nat k < Z.to_nat j)%nat by lia]; nia.
Qed.

(** The bytes a read of the request returns from a block. *)
Definition read_bytes (r : afs_map_request) (content : list Z) : list Z := take (Z.to_nat (request_size r)) (drop (byte_off r) content).

(** What a read leaves: the difference of the entry it decoded may have changed. *)
Definition diff_only (c : afs_private) (k : Z) (ts : list afs_map_tuple) (c' : afs_private) : Prop :=
  exists pre diff diff' post, List.length pre = entry_off c k /\ List.length diff = 32%nat /\ List.length diff' = 32%nat /\
    afs_map c = entry_map pre ts diff post /\ c' = set_map (entry_map pre ts diff' post) c.

Lemma diff_only_refl c k ts : entry_is c k ts -> diff_only c k ts c.
Proof.
  intros ((diff & (Hd & pre & post & Hm & Hpre)%has_entry_parts) & _). exists pre, diff, diff, post. split_and!; try done.
  rewrite <- Hm. by destruct c.
Qed.

Lemma diff_only_kept c k ts c' : diff_only c k ts c' -> kept c c'.
Proof.
  intros (pre & diff & diff' & post & _ & Hd & Hd' & Hm & ->). apply kept_map. rewrite Hm. unfold entry_map. rewrite !length_app. lia.
Qed.

(** A read has ended: the bio was ended once, with [bs] in its segments. *)
Definition read_ended (c : afs_private) (k : Z) (ts : list afs_map_tuple) (b : bio) (bs : list Z) (t : task) (c' : afs_private) : Prop :=
  t_phase t = Done [] /\ bio_ended (t_req t) = 1%nat /\ diff_only c k ts c' /\
  exists vs, req_bio (t_req t) = BioSet (mk_bio (op b) (bi_sector b) (bi_size b) vs) /\ payload vs = bs /\ Forall2 refilled (bio_segs b) vs.

Definition read_done (iv0 : list Z) (c : afs_private) (meta disk : gmap Z (list Z)) (b : bio) (bs : list Z) (t : task) (c' : afs_private) : Prop :=
  t_phase t = Done [] /\ bio_ended (t_req t) = 1%nat /\ kept c c' /\ represents iv0 c' meta disk /\
  exists vs, req_bio (t_req t) = BioSet (mk_bio (op b) (bi_sector b) (bi_size b) vs) /\ payload vs = bs /\ Forall2 refilled (bio_segs b) vs.

Lemma return_data_spec iv0 c k b r content : request_ok iv0 c k b r -> List.length content = 4096%nat -> data_block r = content ->
  exists vs, return_data b r = Ok (mk_bio (op b) (bi_sector b) (bi_size b) vs) /\ payload vs = read_bytes r content /\ Forall2 refilled (bio_segs b) vs.
Proof.
  intros Hr Lc Hc. pose proof (rq_off _ _ _ _ _ Hr) as [Ho Hs]. pose proof (rq_segs _ _ _ _ _ Hr) as [Hsg Hl]. pose proof (seg_lens_nonneg _ Hsg) as Hnn.
  assert (Eb : bio_base r = sector_offset r * 512) by (unfold bio_base, AFS_SECTOR_SIZE; apply wrap_id; unfold in_range; lia).
  destruct (copy_to_bio_spec (bio_segs b) (request_size r) (bio_base r) 0 (data_block r)) as (vs & E & Hrf & Hpl); [done|lia|lia|lia| | |].
  { rewrite Hc, Lc, Eb. lia. } { rewrite Hc, Lc. lia. }
  exists vs. unfold return_data. fold (bio_segs b). rewrite E, bind_Ok. split; [done|]. split; [|done].
  rewrite Hpl, Hl, Hc, Eb, Z.add_0_r. done.
Qed.

Lemma read_numbers n pre ts diff post m bn : m = entry_map pre ts diff post -> List.length ts = n -> Forall tuple_ok ts -> (n <= List.length bn)%nat ->
  forM n 0 (fun i nums => t ← tuple_at m (List.length pre) i; put nums i (carrier_block_ptr t)) bn = Ok (ptrs ts ++ drop n bn).
Proof.
  intros -> Hl Ht Hbn. forM_induction (fun i nums => nums = ptrs (take i ts) ++ drop i bn).
  - done.
  - intros i nums Hi ->. destruct (lookup_lt_is_Some_2 ts i ltac:(lia)) as [t Et]. pose proof (Forall_lookup_1 _ _ _ _ Ht Et) as Hti.
    rewrite (tuple_at_entry pre diff post ts i t Et Hti), bind_Ok.
    assert (Lp : List.length (ptrs (take i ts)) = i) by (unfold ptrs; rewrite length_map, length_take; lia).
    rewrite put_nat by (rewrite length_app, length_drop, Lp; lia). eexists. split; [done|].
    destruct (lookup_lt_is_Some_2 bn i ltac:(lia)) as [old Eo]. rewrite (drop_S bn old i Eo).
    rewrite <- Lp at 1. rewrite insert_middle. rewrite (take_S_r _ _ _ Et). unfold ptrs. rewrite map_app, <- app_assoc. done.
  - destruct Hloop as (nums & -> & ->). by rewrite take_ge by lia.
Qed.

Lemma task_ends_mono (P Q : task -> afs_private -> Prop) t c : (forall t c, P t c -> Q t c) -> task_ends P t c -> task_ends Q t c.
Proof.
  intros HPQ. induction 1 as [t c Hn Hp|t c He Ha] using task_ends_induction; [apply ends_now; auto|].
  apply ends_later; [done|]. intros ev x Hx. destruct (Ha ev x Hx) as (t2 & c2 & Ex & _ & H2). by exists t2, c2.
Qed.

Section Read.
Context (iv0 : list Z) (c : afs_private) (k : Z) (ts : list afs_map_tuple) (env : enc_env) (b : bio) (r : afs_map_request).
Context (Hok : volume_ok c) (Hr : request_ok iv0 c k b r) (Hop : op b = REQ_OP_READ).

(** A block that has never been written reads as zeros, without I/O. *)
Lemma read_unmapped : readable_at iv0 c k ts None -> exists r', afs_flightq env r c = Ok (r', [], c) /\ state r' = REQ_STATE_COMPLETED /\
  bio_ended r' = 1%nat /\ exists vs, req_bio r' = BioSet (mk_bio (op b) (bi_sector b) (bi_size b) vs) /\
    payload vs = read_bytes r (replicate 4096 0) /\ Forall2 refilled (bio_segs b) vs.
Proof.
  intros [((diff & Hent) & Hl & Ht) Hh]. destruct (n_of_range c Hok) as [Hn En].
  apply has_entry_parts in Hent as (Hd & pre & post & Hm & Hpre). destruct (lookup_lt_is_Some_2 (ts) 0 ltac:(lia)) as [t0 E0].
  pose proof (Forall_lookup_1 _ _ _ _ Ht E0) as Ht0. pose proof (rq_data _ _ _ _ _ Hr) as [_ Ld].
  unfold afs_flightq. rewrite (rq_bio _ _ _ _ _ Hr), Hop. unfold afs_read_request.
  change (state (set_state REQ_STATE_FLIGHT r)) with REQ_STATE_FLIGHT. change (negb (REQ_STATE_FLIGHT =? REQ_STATE_FLIGHT)) with false. cbv iota zeta.
  change (block (set_state REQ_STATE_FLIGHT r)) with (block r). rewrite (rq_block _ _ _ _ _ Hr). fold (entry_off c k). rewrite <- Hpre.
  assert (E00 : tuple_at (afs_map c) (List.length pre) 0 = Ok t0) by (rewrite Hm; exact (tuple_at_entry pre diff post (ts) 0 t0 E0 Ht0)).
  rewrite E00, bind_Ok, (proj2 (Z.eqb_eq _ _) (Forall_lookup_1 _ _ _ _ Hh E0)). change (data_block (set_state _ r)) with (data_block r).
  rewrite splice_Some by (rewrite length_replicate; lia). cbn [of_option]. rewrite bind_Ok, take_0, app_nil_l, drop_ge, app_nil_r by (rewrite length_replicate; lia).
  set (r1 := set_data (replicate 4096 0) (set_state REQ_STATE_FLIGHT r)).
  assert (Hr1 : request_ok iv0 c k b r1).
  { destruct Hr. split; try done. split; [by apply Forall_replicate|apply length_replicate]. }
  destruct (return_data_spec iv0 c k b r1 (replicate 4096 0) Hr1 ltac:(apply length_replicate) eq_refl) as (vs & E & Hpl & Hrf).
  rewrite E, bind_Ok, (clean_bio env _ (mk_bio (op b) (bi_sector b) (bi_size b) vs)), bind_Ok by (done || exact (rq_encoder _ _ _ _ _ Hr)).
  change (0 =? 0) with true. cbv iota. eexists. split; [reflexivity|]. split; [done|]. split; [exact (f_equal S (rq_ended _ _ _ _ _ Hr))|]. exists vs. split; [by rewrite <- Hop|]. split; [exact Hpl|exact Hrf].
Qed.

(** A mapped block: the carriers are read. *)
Lemma read_submits data : readable_at iv0 c k ts (Some data) -> exists er nums rest,
  afs_flightq env r c = Ok (set_pending (Z.of_nat (n_of c)) (set_erasures er (set_block_nums (nums ++ rest) (set_encoder None (set_state REQ_STATE_FLIGHT r)))),
    bios_for false c nums, c) /\ nums = ptrs ts /\ List.length er = List.length (erasures r) /\ (n_of c <= List.length (nums ++ rest))%nat.
Proof.
  intros [((diff & Hent) & Hl & Ht) Hh]. destruct (n_of_range c Hok) as [Hn En].
  apply has_entry_parts in Hent as (Hd & pre & post & Hm & Hpre). destruct (lookup_lt_is_Some_2 (ts) 0 ltac:(lia)) as [t0 E0].
  pose proof (Forall_lookup_1 _ _ _ _ Ht E0) as Ht0. destruct (st_blocks _ _ _ _ Hh) as [Hon Hni].
  pose proof (rq_arrays _ _ _ _ _ Hr) as [Her Hbn]. destruct (nrs_spec (n_of c) (erasures r) Her) as (er & Eer & Ler).
  exists er, (ptrs (ts)), (drop (n_of c) (block_nums r)). split; [|split; [done|split; [done|unfold ptrs; rewrite length_app, length_map; lia]]].
  unfold afs_flightq. rewrite (rq_bio _ _ _ _ _ Hr), Hop. unfold afs_read_request.
  change (state (set_state REQ_STATE_FLIGHT r)) with REQ_STATE_FLIGHT. change (negb (REQ_STATE_FLIGHT =? REQ_STATE_FLIGHT)) with false. cbv iota zeta.
  change (block (set_state REQ_STATE_FLIGHT r)) with (block r). rewrite (rq_block _ _ _ _ _ Hr). fold (entry_off c k). rewrite <- Hpre.
  assert (E00 : tuple_at (afs_map c) (List.length pre) 0 = Ok t0) by (rewrite Hm; exact (tuple_at_entry pre diff post (ts) 0 t0 E0 Ht0)).
  rewrite E00, bind_Ok. destruct (Z.eqb_spec (carrier_block_ptr t0) AFS_INVALID_BLOCK) as [E|_].
  { unfold ptrs in Hni. rewrite Forall_fmap in Hni. by apply (Forall_lookup_1 _ _ _ _ Hni) in E0. }
  unfold read_carriers. change (encoding_type (set_state _ r)) with (encoding_type r). rewrite (rq_type _ _ _ _ _ Hr).
  change (AONT_RS =? SHAMIR) with false. cbv iota zeta. change (encoder (set_state _ r)) with (encoder r). rewrite (rq_encoder _ _ _ _ _ Hr), bind_Ok, En, Nat2Z.id.
  change (block_nums (set_state _ r)) with (block_nums r). rewrite (read_numbers (n_of c) pre (ts) diff post _ _ Hm Hl Ht Hbn), bind_Ok.
  change (erasures (set_state _ r)) with (erasures r). rewrite Eer, bind_Ok. unfold read_pages.
  rewrite (submit_pages_good false _ c (ptrs (ts)) (drop (n_of c) (block_nums r))); [|by apply vo_mem|by apply vo_dev|done|done|unfold ptrs; by rewrite length_map].
  done.
Qed.
End Read.

(** Decoding the carriers that were read. *)
Lemma read_decodes iv0 c k ts env b r data :
  volume_ok c -> readable_at iv0 c k ts (Some data) -> 0 <= k < num_blocks (config c) -> enc_env_ok env -> request_ok iv0 c k b r ->
  carrier_blocks r = map (blk c) (ptrs (ts)) ->
  exists r' c', afs_cryptoq env r c = Ok (r', [], c') /\ state r' = REQ_STATE_COMPLETED /\
    read_ended c k ts b (read_bytes r data) (mk_task env r' (Done [])) c'.
Proof.
  intros Hok [((diff & Hent) & Hl & Ht) [Hdata [Hon _] Hpgs Hcar Hsums]] Hk Henv Hr Hpages. destruct (n_of_range c Hok) as [Hn En].
  apply has_entry_parts in Hent as (Hd & pre & post & Hm & Hpre).
  pose proof (rq_iv _ _ _ _ _ Hr) as (Eiv & Biv & Liv). pose proof (rq_data _ _ _ _ _ Hr) as [_ Ld].
  assert (Lc : List.length (carrier_blocks r) = n_of c) by (rewrite Hpages; unfold ptrs; by rewrite !length_map).
  assert (Hver : verify_checksums r c = Ok r).
  { apply (verify_checksums_spec r c (n_of c) pre diff post (ts)); try done.
    - rewrite (rq_block _ _ _ _ _ Hr). by rewrite Hpre.
    - rewrite Hpages. apply Forall_fmap, Forall_forall. intros x _. apply block_at_length. by apply vo_dev.
    - intros i p t Ep Et. rewrite Hpages in Ep. unfold ptrs in Ep. rewrite !list_lookup_fmap, Et in Ep. cbn in Ep. injection Ep as <-.
      by apply (Forall_lookup_1 _ _ _ _ Hsums Et). }
  destruct (decode_pages env (n_of c) iv0 data Henv Hn Biv Liv Hdata diff (data_block r) (erasures r) (carrier_blocks r) Hd Ld Lc) as (diff' & Edec & Ld').
  { by rewrite Hpages. }
  set (c' := set_map (entry_map pre (ts) diff' post) c). set (r1 := set_data data (set_carriers (carrier_blocks r) r)).
  assert (Edd : decode_data env r c = Ok (r1, c')).
  { unfold decode_data. rewrite (rq_type _ _ _ _ _ Hr). change (AONT_RS =? SHAMIR) with false. change (AONT_RS =? AONT_RS) with true. cbv iota zeta.
    rewrite (rq_block _ _ _ _ _ Hr). fold (entry_off c k).
    assert (Edo : difference_off (config c) (entry_off c k) = (List.length pre + 6 * List.length (ts))%nat).
    { unfold difference_off, map_tuple_sz. rewrite Hpre, Hl, En. lia. }
    rewrite Edo. destruct (difference_entry pre diff post (ts) _ Hd eq_refl) as [Esl Espl]. rewrite Hm at 1. rewrite Esl. cbn [of_option]. rewrite bind_Ok, En.
    rewrite Eiv, (rq_erasures _ _ _ _ _ Hr), Edec, bind_Ok. rewrite Hm at 1. rewrite (Espl diff' Ld'). done. }
  assert (Hr1 : request_ok iv0 c k b r1) by (destruct Hr; by split).
  destruct (return_data_spec iv0 c k b r1 data Hr1 (proj2 Hdata) eq_refl) as (vs & Eret & Hpl & Hrf).
  set (b' := mk_bio (op b) (bi_sector b) (bi_size b) vs) in *.
  eexists (set_bio (BioSet b') (S (bio_ended r1)) (set_state REQ_STATE_COMPLETED (set_bio (BioSet b') (bio_ended r1) r1))), c'.
  split; [|split; [done|]].
  - unfold afs_cryptoq, afs_read_decode. rewrite Hver, bind_Ok, Edd, bind_Ok. change (req_bio r1) with (req_bio r).
    rewrite (rq_bio _ _ _ _ _ Hr), Eret, bind_Ok. cbv zeta. change (rebuild_flag (set_bio _ _ r1)) with (rebuild_flag r). rewrite (rq_rebuild _ _ _ _ _ Hr).
    rewrite (clean_bio env _ b') by (done || exact (rq_encoder _ _ _ _ _ Hr)). done.
  - split; [done|]. split; [exact (f_equal S (rq_ended _ _ _ _ _ Hr))|].
    split; [by exists pre, diff, diff', post|by exists vs].
Qed.

Lemma read_ends_at iv0 c k ts content env b r :
  volume_ok c -> readable_at iv0 c k ts content -> 0 <= k < num_blocks (config c) -> enc_env_ok env -> request_ok iv0 c k b r -> op b = REQ_OP_READ ->
  task_ends (read_ended c k ts b (read_bytes r (default (replicate 4096 0) content))) (mk_task env r (Queued false)) c.
Proof.
  intros Hok H Hk Henv Hr Hop. destruct (n_of_range c Hok) as [Hn En]. pose proof H as [Hent Hh].
  destruct content as [data|]; cbn [default].
  - destruct (read_submits iv0 c k ts env b r Hok Hr Hop data H) as (er & nums & rest & Hrun & Hnums & Ler & Lbn).
    set (r' := set_erasures er _) in Hrun. eapply ends_Queued; [exact Hrun|]. unfold after. change (state (set_pending _ r')) with REQ_STATE_FLIGHT.
    change (REQ_STATE_FLIGHT =? REQ_STATE_COMPLETED) with false. cbv iota.
    destruct Hent as (_ & Hl & _). destruct (st_blocks _ _ _ _ Hh) as [Hon _].
    assert (Ln : List.length nums = n_of c) by (rewrite Hnums; unfold ptrs; by rewrite length_map).
    assert (Lb : List.length (bios_for false c nums) = n_of c) by (unfold bios_for; by rewrite length_imap).
    pose proof (rq_pages _ _ _ _ _ Hr) as [Lpg Hpg].
    rewrite <- (set_carriers_same (set_pending _ r')). change (carrier_blocks (set_pending _ r')) with (carrier_blocks r). rewrite <- Lb.
    apply reads_end with (nums := nums); [by rewrite Hnums|by apply vo_dev| | |by rewrite Lpg| |by apply page_ok_length|].
    + intros E. rewrite E in Lb. cbn in Lb. lia.
    + intros cb Hcb. by apply (cbio_in _ false nums cb).
    + intros i x Ex. left. apply cbio_in. by exists i, x.
    + set (r2 := set_carriers _ _). assert (Hr2 : request_ok iv0 c k b r2).
      { pose proof (st_pages _ _ _ _ Hh) as Hpgs. rewrite <- Hnums in Hpgs. destruct Hr as [? ? ? ? [Her _] ? ? ? ? ? ? ? ?]. split; try done.
        - split; [unfold r2; cbn; by rewrite length_map|exact Hpgs].
        - split; [|exact Lbn]. change (erasures r2) with er. lia. }
      destruct (read_decodes iv0 c k ts env b r2 data Hok H Hk Henv Hr2) as (r3 & c3 & Erun & Hst & Hdone); [by rewrite <- Hnums|].
      eapply ends_Decoding; [exact Erun|]. unfold after. rewrite Hst. change (REQ_STATE_COMPLETED =? REQ_STATE_COMPLETED) with true. cbv iota.
      apply ends_Done. exact Hdone.
  - destruct (read_unmapped iv0 c k ts env b r Hok Hr Hop H) as (r' & Hrun & Hst & Hend & Hbio).
    eapply ends_Queued; [exact Hrun|]. unfold after. rewrite Hst. change (REQ_STATE_COMPLETED =? REQ_STATE_COMPLETED) with true. cbv iota.
    apply ends_Done. split_and!; [done|exact Hend|by apply diff_only_refl|exact Hbio].
Qed.

Lemma read_ends iv0 c meta disk k env b r :
  represents iv0 c meta disk -> 0 <= k < num_blocks (config c) -> enc_env_ok env -> request_ok iv0 c k b r -> op b = REQ_OP_READ ->
  task_ends (read_done iv0 c meta disk b (read_bytes r (default (replicate 4096 0) (disk !! k)))) (mk_task env r (Queued false)) c.
Proof.
  intros [es H] Hk Henv Hr Hop.
  eapply task_ends_mono; [|apply (read_ends_at iv0 c k (es k) (disk !! k)); try done; [apply (rp_ok _ _ _ _ _ H)|by eapply represents_readable]].
  intros t c' (H1 & H2 & H3 & H4). split; [done|]. split; [done|]. split; [by eapply diff_only_kept|]. split; [|done].
  destruct H3 as (pre & diff & diff' & post & Hpre & Hd & Hd' & Hm & ->). exists es. by apply (represents_diff iv0 c meta disk es k pre diff diff' post).
Qed.

(** ** A new instance *)
Lemma fresh_entry_parts n : fresh_entry (Z.of_nat n) = tuples (replicate n fresh_tuple) ++ replicate 32 0 ++ replicate 8 0.
Proof.
  unfold fresh_entry, tuples. rewrite Nat2Z.id, <- replicate_add. f_equal. f_equal. symmetry. apply (fmap_replicate tuple_bytes).
Qed.

Lemma fresh_has_entry c k : volume_ok c -> 0 <= k < num_blocks (config c) ->
  has_entry (fresh_map (config c)) (entry_off c k) (replicate (n_of c) fresh_tuple) (replicate 32 0).
Proof.
  intros Hok Hk. destruct (n_of_range c Hok) as [Hn En]. rewrite (entry_off_eq c Hok k Hk).
  unfold fresh_map. set (e := fresh_entry _).
  assert (Le : List.length e = (40 + 6 * n_of c)%nat) by (unfold e; rewrite fresh_entry_length by lia; lia).
  replace (Z.to_nat (num_blocks (config c))) with (Z.to_nat k + S (Z.to_nat (num_blocks (config c)) - S (Z.to_nat k)))%nat by lia.
  rewrite replicate_add, concat_app. cbn [replicate concat].
  assert (Ee : e = tuples (replicate (n_of c) fresh_tuple) ++ replicate 32 0 ++ replicate 8 0) by (unfold e; rewrite En; apply fresh_entry_parts).
  rewrite Ee at 2. rewrite <- !app_assoc. rewrite <- Le, <- (concat_replicate_length (Z.to_nat k) e).
  apply entry_map_has. done.
Qed.

Lemma fresh_represents iv0 c meta : volume_ok c -> afs_map c = fresh_map (config c) ->
  (forall b p, meta !! b = Some p -> owned c b /\ blk c b = p) -> represents iv0 c meta ∅.
Proof.
  intros Hok Hm Hmeta. exists (fun _ => replicate (n_of c) fresh_tuple). split.
  - done.
  - intros k Hk. rewrite lookup_empty. split; [split|].
    + exists (replicate 32 0). rewrite Hm. by apply fresh_has_entry.
    + split; [apply length_replicate|]. by apply Forall_replicate.
    + by apply Forall_replicate.
  - intros k data. by rewrite lookup_empty.
  - intros k1 k2 i1 i2 b [d Ed]. by rewrite lookup_empty in Ed.
  - intros b p Hb. destruct (Hmeta b p Hb). split_and!; [done|done|]. intros k [d Ed]. by rewrite lookup_empty in Ed.
Qed.

(** ** A sample instance: five free blocks, one data block, nothing written *)
Definition sample_fs : afs_passive_fs := {|
  block_list := [10; 20; 30; 40; 50]; list_len := 5; sectors_per_block := 8; total_blocks := 100; data_start_off := 0; blocks_in_tuple := 0 |}.

Definition sample_config : afs_config := mk_config 4 2 0 64 0 63 1 1 0 4096 100.

Definition sample_instance (m : list Z) : afs_private :=
  mk_private sample_config (sb_of_bytes (replicate 4096 0)) sample_fs small_vector m [] [] [] [] (empty_device 800) [0; 1; 2; 3] [].

Definition sample_volume : afs_private := sample_instance (fresh_map sample_config).

Definition sample_bio (o : bio_op) : bio := mk_bio o 1 512 [mk_bv (replicate 512 9) 0 512].

Definition sample_request (o : bio_op) : afs_map_request := {|
  carrier_blocks := replicate 4 (replicate 4096 0); data_block := replicate 4096 7; state := REQ_STATE_GROUND;
  req_bio := BioSet (sample_bio o); bio_ended := 0; bios_pending := 0; encoder := None;
  encoding_type := AONT_RS; erasures := replicate 8 0; num_erasures := 0; iv := replicate 16 0; block := 0; request_size := 512;
  sector_offset := 1; block_nums := replicate 8 0; rebuild_flag := false |}.

Definition sample_encoder : enc_env := {|
  ssse3 := true; aont := {| plaintext_ok := true; ciphertext_ok := true; pad_ok := true; keys_ok := fun _ => true; sha3_ok := true; originals_ok := true;
    decoder_ok := (true, true, true); plaintext_heap := replicate 4128 1; ciphertext_heap := replicate 4128 2; pad_heap := (0, 0);
    decoder_heap := replicate 256 3; matrix_heap := [] |};
  aont_key := [1; 2; 3; 4]; gf_allocs := (true, true, true); gf_memory := []; gf_seed := []; gf_free_nrs := [] |}.

Lemma sample_ok m : volume_ok (sample_instance m).
Proof.
  split; try done.
  - split_and!; [done|done|by vm_compute|..].
    + eexists; split; [reflexivity|]. by apply (bit_vector_create_wf 0 100 _ ltac:(lia) eq_refl).
    + repeat constructor; cbn; done.
  - split; [by apply (bool_decide_unpack _)|]. unfold all_on_device, on_device. cbn. repeat constructor; lia.
Qed.

Lemma sample_represents : represents (replicate 16 0) sample_volume ∅ ∅.
Proof. apply fresh_represents; [apply sample_ok|done|]. intros b p Hb. by rewrite lookup_empty in Hb. Qed.

Lemma sample_request_ok o c : n_of c = 4%nat -> request_ok (replicate 16 0) c 0 (sample_bio o) (sample_request o).
Proof.
  intros Hn. split; rewrite ?Hn; try done.
  - split; [done|]. apply Forall_replicate. split; [by apply Forall_replicate|apply length_replicate].
  - split; [by apply Forall_replicate|apply length_replicate].
  - cbn. lia.
  - split; [done|]. split; [by apply Forall_replicate|done].
  - split; [|done]. constructor; [|constructor]. unfold seg_ok. cbn. lia.
Qed.

Lemma sample_encoder_ok : enc_env_ok sample_encoder.
Proof.
  split; [exists 0%nat; constructor; try done; cbn [plaintext_heap ciphertext_heap sample_encoder aont]; (split; [rewrite length_replicate; lia|by apply Forall_replicate])|].
  split; [done|]. by repeat (apply Forall_cons; split; [done|]).
Qed.

Lemma sample_blocks : blocks_available sample_volume ∅ 0.
Proof. intros _. exists [10; 20; 30; 40]. eexists _, _. split; [vm_compute; reflexivity|by apply (bool_decide_unpack _)]. Qed.

Lemma sample_payload o : bytes (payload (bio_segs (sample_bio o))).
Proof. by apply (bool_decide_unpack _). Qed.

(** ** Theorems *)

(** C3: a write stores its data. An instance that represents the blocks [disk]
    gets a write request for block [k], mapped or not, with carrier blocks left
    if it is not; the request is as [afs_map] makes it and memory
    allocations succeed. In whatever order the carrier bios complete, no step
    faults, the request ends its bio once, and the instance represents [disk]
    with block [k] updated: its content is the payload of the bio over the bytes
    of the request's data buffer. No other block changes, nor
    any block of the metadata. Outside the written range the buffer is fresh
    heap memory and not what the block held. *)
Theorem volume_write iv0 c meta disk k env b r :
  represents iv0 c meta disk -> 0 <= k < num_blocks (config c) -> blocks_available c disk k -> enc_env_ok env ->
  request_ok iv0 c k b r -> op b = REQ_OP_WRITE -> bytes (payload (bio_segs b)) ->
  task_ends (write_done iv0 c meta disk k (overwrite (byte_off r) (payload (bio_segs b)) (data_block r))) (mk_task env r (Queued false)) c.
Proof. apply write_ends. Qed.

Lemma volume_write_witness :
  task_ends (write_done (replicate 16 0) sample_volume ∅ ∅ 0 (overwrite 512 (replicate 512 9) (replicate 4096 7)))
    (mk_task sample_encoder (sample_request REQ_OP_WRITE) (Queued false)) sample_volume.
Proof.
  exact (volume_write (replicate 16 0) sample_volume ∅ ∅ 0 sample_encoder (sample_bio REQ_OP_WRITE) (sample_request REQ_OP_WRITE)
    sample_represents (conj (Z.le_refl 0) eq_refl) sample_blocks sample_encoder_ok (sample_request_ok REQ_OP_WRITE sample_volume eq_refl) eq_refl (sample_payload REQ_OP_WRITE)).
Defined.

(** C9: a read returns what the block holds. On an instance that represents
    [disk], a read request ends its bio once, in whatever order the carrier bios
    complete, with exactly the requested range of block [k] in the segments of
    the bio and no other byte of its pages touched; a block that was never
    written reads as zeros. The instance still represents [disk]. *)
Theorem volume_read iv0 c meta disk k env b r :
  represents iv0 c meta disk -> 0 <= k < num_blocks (config c) -> enc_env_ok env -> request_ok iv0 c k b r -> op b = REQ_OP_READ ->
  task_ends (read_done iv0 c meta disk b (read_bytes r (default (replicate 4096 0) (disk !! k)))) (mk_task env r (Queued false)) c.
Proof. apply read_ends. Qed.

Lemma volume_read_witness :
  task_ends (read_done (replicate 16 0) sample_volume ∅ ∅ (sample_bio REQ_OP_READ) (replicate 512 0))
    (mk_task sample_encoder (sample_request REQ_OP_READ) (Queued false)) sample_volume.
Proof.
  exact (volume_read (replicate 16 0) sample_volume ∅ ∅ 0 sample_encoder (sample_bio REQ_OP_READ) (sample_request REQ_OP_READ)
    sample_represents (conj (Z.le_refl 0) eq_refl) sample_encoder_ok (sample_request_ok REQ_OP_READ sample_volume eq_refl) eq_refl).
Defined.

Lemma read_own_write r1 r2 src dst : List.length dst = 4096%nat -> sector_offset r2 = sector_offset r1 ->
  Z.of_nat (List.length src) = request_size r2 -> 0 <= sector_offset r1 -> sector_offset r1 * 512 + Z.of_nat (List.length src) <= 4096 ->
  read_bytes r2 (overwrite (byte_off r1) src dst) = src.
Proof.
  intros Ld Ho Hl H0 Hs. unfold read_bytes, overwrite, byte_off. rewrite Ho.
  rewrite drop_app_length' by (rewrite length_take; lia). rewrite take_app_length' by lia. done.
Qed.

(** C2: what is written is read back, through the whole data path: the copy
    from the bio, the all-or-nothing transform with a random key, the
    erasure code, the carrier blocks on the device and the map, and all
    of it backwards, for every order in which the bios of either request
    complete. A later read of the same range of the block returns the payload
    of the write. *)
Theorem volume_roundtrip iv0 c meta disk k env b r :
  represents iv0 c meta disk -> 0 <= k < num_blocks (config c) -> blocks_available c disk k -> enc_env_ok env ->
  request_ok iv0 c k b r -> op b = REQ_OP_WRITE -> bytes (payload (bio_segs b)) ->
  task_ends (fun t c' => t_phase t = Done [] /\ bio_ended (t_req t) = 1%nat /\
    forall env2 b2 r2, enc_env_ok env2 -> request_ok iv0 c' k b2 r2 -> op b2 = REQ_OP_READ ->
      sector_offset r2 = sector_offset r -> request_size r2 = request_size r ->
      task_ends (fun t2 _ => bio_ended (t_req t2) = 1%nat /\
        exists vs, req_bio (t_req t2) = BioSet (mk_bio (op b2) (bi_sector b2) (bi_size b2) vs) /\ payload vs = payload (bio_segs b))
        (mk_task env2 r2 (Queued false)) c') (mk_task env r (Queued false)) c.
Proof.
  intros H Hk Hav Henv Hr Hop Hpay. eapply task_ends_mono; [|by apply (write_ends iv0 c meta disk k)].
  intros t c' (Hph & Hend & Hcf & Hrep). split; [done|]. split; [done|]. intros env2 b2 r2 Henv2 Hr2 Hop2 Ho Hs.
  eapply task_ends_mono; [|apply (read_ends iv0 c' meta _ k env2 b2 r2 Hrep); try done; by rewrite (kp_config _ _ Hcf)].
  intros t2 c2 (_ & Hend2 & _ & _ & vs & Hbio & Hpl & _). split; [done|]. exists vs. split; [done|].
  rewrite Hpl, lookup_insert_eq. cbn [default]. pose proof (rq_segs _ _ _ _ _ Hr) as [Hsg Hl]. pose proof (rq_off _ _ _ _ _ Hr) as [H0 H1].
  pose proof (payload_length _ Hsg) as Lp. pose proof (seg_lens_nonneg _ Hsg). apply read_own_write; [apply (rq_data _ _ _ _ _ Hr)|done|lia|done|lia].
Qed.

Lemma volume_roundtrip_witness :
  task_ends (fun t c' => t_phase t = Done [] /\ bio_ended (t_req t) = 1%nat /\
    forall env2 b2 r2, enc_env_ok env2 -> request_ok (replicate 16 0) c' 0 b2 r2 -> op b2 = REQ_OP_READ ->
      sector_offset r2 = 1 -> request_size r2 = 512 ->
      task_ends (fun t2 _ => bio_ended (t_req t2) = 1%nat /\
        exists vs, req_bio (t_req t2) = BioSet (mk_bio (op b2) (bi_sector b2) (bi_size b2) vs) /\ payload vs = replicate 512 9)
        (mk_task env2 r2 (Queued false)) c') (mk_task sample_encoder (sample_request REQ_OP_WRITE) (Queued false)) sample_volume.
Proof.
  exact (volume_roundtrip (replicate 16 0) sample_volume ∅ ∅ 0 sample_encoder (sample_bio REQ_OP_WRITE) (sample_request REQ_OP_WRITE)
    sample_represents (conj (Z.le_refl 0) eq_refl) sample_blocks sample_encoder_ok (sample_request_ok REQ_OP_WRITE sample_volume eq_refl) eq_refl (sample_payload REQ_OP_WRITE)).
Defined.

(** A new instance is empty. The map that [afs_create_map] builds makes
    an instance whose sizes are in range represent no block at all, with any
    blocks in use for metadata set apart. *)
Theorem fresh_volume iv0 uninit c meta : (forall n, List.length (uninit n) = n) ->
  volume_ok c -> config_wf (config c) -> num_ptr_blocks (config c) = 0 ->
  (forall b p, meta !! b = Some p -> owned c b /\ blk c b = p) ->
  exists c', afs_create_map uninit c = Ok (0, c') /\ represents iv0 c' meta ∅.
Proof.
  intros Hu Hok Hcf Hpt Hmeta. eexists. split; [apply (afs_create_map_spec uninit Hu c Hcf Hpt), (vo_mem _ Hok)|].
  apply fresh_represents; [|done|exact Hmeta]. by destruct Hok.
Qed.

Lemma fresh_volume_witness : exists c', afs_create_map (fun n => replicate n 5) (sample_instance []) = Ok (0, c') /\ represents (replicate 16 0) c' ∅ ∅.
Proof.
  refine (fresh_volume (replicate 16 0) (fun n => replicate n 5) (sample_instance []) ∅ (fun n => length_replicate n 5) (sample_ok []) _ eq_refl _).
  - unfold config_wf. cbn. unfold SHA512_SZ, AFS_BLOCK_SIZE, NUM_MAP_BLKS_IN_SB, NUM_MAP_BLKS_IN_PB. lia.
  - intros b p Hb. rewrite lookup_empty in Hb. discriminate Hb.
Defined.
