(* ===== verification/Requests.v ===== *)
(** * Requests: what the target makes of a bio

    The requests of [afs_map] meet what the contract of the engine asks of a
    request, so its theorems apply to every bio the device mapper sends; the
    requests of [afs_rebuild] do not. *)
From stdpp Require Import base tactics option list numbers gmap relations.
From Stdlib Require Import ZArith Lia.
From S2P Require Import Prelude BitVector Allocation BlockIo Format City EngineQueue Engine EngineMap EngineData Target EngineRun Volume VolumeRequests Metadata.

Local Open Scope Z_scope.
Local Open Scope afs_scope.

(** ** Cutting a bio *)
Lemma segments_ok vs : forall size, 0 <= size -> Forall seg_ok vs -> size <= seg_lens vs ->
  Forall seg_ok (segments size vs) /\ seg_lens (segments size vs) = size.
Proof.
  induction vs as [|v vs IH]; intros size Hs Hv Hl.
  - cbn in Hl. split; [constructor|cbn; lia].
  - apply Forall_cons in Hv as [(H0 & H1 & H2) Hv]. pose proof (seg_lens_nonneg _ Hv). cbn [segments]. destruct (Z.leb_spec size 0).
    + split; [constructor|cbn; lia].
    + cbn [seg_lens foldr] in Hl. fold (seg_lens vs) in Hl.
      destruct (IH (size - Z.min (bv_len v) size)) as [Hok Hsum]; [lia|done|lia|]. split.
      * constructor; [|done]. unfold seg_ok. cbn. lia.
      * cbn [seg_lens foldr bv_len]. fold (seg_lens (segments (size - Z.min (bv_len v) size) vs)). lia.
Qed.

(** ** Bios and memory *)

(** A bio as the block layer makes it: whole sectors, inside a device of at
    most 2^32 blocks, with segments that cover it. *)
Record bio_ok (b : bio) : Prop := {
  bo_sector : 0 <= bi_sector b < 2 ^ 35;
  bo_size : exists n, 0 < n < 2 ^ 22 /\ bi_size b = 512 * n;
  bo_segs : Forall seg_ok (bi_io_vec b) /\ bi_size b <= seg_lens (bi_io_vec b);
}.

Record memory_ok (n : nat) (mem : request_memory) : Prop := {
  mo_ok : mem_ok mem = true;
  mo_pages : (n <= List.length (mem_pages mem))%nat /\ Forall page_ok (mem_pages mem);
  mo_data : page_ok (mem_data_block mem);
  mo_arrays : List.length (mem_erasures mem) = NUM_MAX_CARRIER_BLKS /\ List.length (mem_block_nums mem) = NUM_MAX_CARRIER_BLKS;
}.

Lemma truncate_spec b : bio_ok b ->
  bi_sector (truncate b) = bi_sector b /\ op (truncate b) = op b /\ bi_io_vec (truncate b) = bi_io_vec b /\
  bi_size (truncate b) = Z.min (bi_size b) (4096 - 512 * (bi_sector b mod 8)).
Proof.
  intros [Hs (n & Hn & Hz) _]. unfold truncate, bio_sectors, AFS_SECTORS_PER_BLOCK. pose proof (Z.mod_pos_bound (bi_sector b) 8 ltac:(lia)) as Hm.
  rewrite Hz, (Z.mul_comm 512), Z.div_mul, !wrap_id by (unfold in_range; lia || (rewrite wrap_id; unfold in_range; lia)).
  destruct (Z.gtb_spec n (8 - bi_sector b mod 8)); cbn [dm_accept_partial_bio bi_sector op bi_io_vec bi_size]; split_and!; try done; lia.
Qed.

Lemma init_request_ok n mem x : memory_ok n mem -> num_carrier_blocks (config (priv x)) = Z.of_nat n ->
  exists r, init_request mem x = Ok (Some r) /\ List.length (carrier_blocks r) = n /\ Forall page_ok (carrier_blocks r) /\
    data_block r = mem_data_block mem /\ erasures r = mem_erasures mem /\ block_nums r = mem_block_nums mem /\ encoder r = None /\
    encoding_type r = ctx_encoding_type x /\ num_erasures r = 0 /\ iv r = take 16 (passphrase_hash x) /\ rebuild_flag r = false /\
    req_bio r = mem_bio mem /\ bio_ended r = 0%nat.
Proof.
  intros [H1 [H2 H3] _ _] Hn. unfold init_request. rewrite H1, Hn, Nat2Z.id. cbn [negb]. rewrite slice_Some by lia. cbn [of_option].
  rewrite bind_Ok. destruct (mem_numbers mem) as [[[pending blk0] size] off]. eexists. split; [done|]. rewrite drop_0. cbn.
  split_and!; try done; [rewrite length_take; lia|by apply Forall_take].
Qed.

(** C20: every read or write bio becomes a request inside one block. For a bio of
    any length at any sector below 2^35, when memory lasts, [afs_map] queues
    a request that meets the preconditions of the engine's contract: the block
    and the sector of the bio, the size cut off at the end of the block, pages
    of the right number and size, and the rest of the bio given back to the
    device mapper. No index the engine computes from it leaves the 4096-byte
    data block. *)
Theorem afs_map_makes_requests n mem x b :
  memory_ok n mem -> num_carrier_blocks (config (priv x)) = Z.of_nat n -> (n <= NUM_MAX_CARRIER_BLKS)%nat ->
  ctx_encoding_type x = AONT_RS -> bytes (passphrase_hash x) -> List.length (passphrase_hash x) = 32%nat ->
  bio_ok b -> op b = REQ_OP_READ \/ op b = REQ_OP_WRITE ->
  exists r, Target.afs_map mem x b = Ok (DM_MAPIO_SUBMITTED (Some r)) /\
    request_ok (take 16 (passphrase_hash x)) (priv x) (bi_sector b / 8) (truncate b) r /\
    sector_offset r = bi_sector b mod 8 /\ request_size r = Z.min (bi_size b) (4096 - 512 * (bi_sector b mod 8)).
Proof.
  intros Hmem Hn Hmax Henc Bh Lh Hb Hop. destruct (truncate_spec b Hb) as (E1 & E2 & E3 & E4). destruct Hb as [Hs (m & Hm & Hz) [Hsg Hcov]].
  destruct (init_request_ok n mem x Hmem Hn) as (r & Er & Lc & Hpg & Ed & Eer & Ebn & Ee & Et & Ene & Eiv & Erb & _ & _).
  unfold Target.afs_map. rewrite Er, bind_Ok, E2.
  pose proof (Z.mod_pos_bound (bi_sector b) 8 ltac:(lia)) as Hmod.
  assert (Esz : u32 (bio_sectors (truncate b) * AFS_SECTOR_SIZE) = Z.min (bi_size b) (4096 - 512 * (bi_sector b mod 8))).
  { unfold bio_sectors, AFS_SECTOR_SIZE. rewrite E4, Hz.
    replace (Z.min (512 * m) (4096 - 512 * (bi_sector b mod 8))) with (Z.min m (8 - bi_sector b mod 8) * 512) by lia.
    rewrite Z.div_mul by lia. apply wrap_id. unfold in_range. lia. }
  assert (Eoff : u32 (bi_sector (truncate b) mod (AFS_BLOCK_SIZE / AFS_SECTOR_SIZE)) = bi_sector b mod 8).
  { rewrite E1. change (AFS_BLOCK_SIZE / AFS_SECTOR_SIZE) with 8. apply wrap_id. unfold in_range. lia. }
  assert (Eblk : u32 (bi_sector (truncate b) / AFS_SECTORS_PER_BLOCK) = bi_sector b / 8).
  { rewrite E1. unfold AFS_SECTORS_PER_BLOCK. apply wrap_id. unfold in_range. split; [apply Z.div_pos; lia|apply Z.div_lt_upper_bound; lia]. }
  destruct Hmem as [_ _ [Bd Ld] [Le Lb]].
  assert (Hsegs : Forall seg_ok (bio_segs (truncate b)) /\ seg_lens (bio_segs (truncate b)) = bi_size (truncate b)).
  { unfold bio_segs. rewrite E3. apply segments_ok; [rewrite E4; lia|done|rewrite E4; lia]. }
  rewrite Eblk, Esz, Eoff. eexists. split; [destruct Hop as [-> | ->]; reflexivity|]. split; [|done].
  split; cbn [set_geometry set_bio req_bio bio_ended carrier_blocks data_block erasures block_nums encoder encoding_type num_erasures iv rebuild_flag block sector_offset request_size]; try done.
  - unfold n_of. by rewrite Hn, Nat2Z.id.
  - by rewrite Ed.
  - unfold n_of. rewrite Hn, Nat2Z.id, Eer, Ebn, Le, Lb. done.
  - by rewrite Et.
  - split; [done|]. split; [by apply Forall_take|rewrite length_take; lia].
  - lia.
  - destruct Hsegs as [? ->]. by rewrite E4.
Qed.

Definition sample_memory : request_memory := {|
  mem_ok := true; mem_pages := replicate 8 (replicate 4096 1); mem_data_block := replicate 4096 2; mem_bio := BioGarbage;
  mem_erasures := replicate 8 3; mem_block_nums := replicate 8 4; mem_numbers := (5, 6, 7, 8) |}.

Definition sample_target : instance := {|
  priv := sample_volume; passphrase_hash := replicate 32 1; ctx_encoding_type := AONT_RS; flight_eq := Leaf |}.

Definition long_bio : bio := mk_bio REQ_OP_WRITE 13 8192 [mk_bv (replicate 4096 9) 0 4096; mk_bv (replicate 4096 10) 0 4096].

Lemma afs_map_makes_requests_witness : exists r, Target.afs_map sample_memory sample_target long_bio = Ok (DM_MAPIO_SUBMITTED (Some r)) /\
  sector_offset r = 5 /\ request_size r = 1536.
Proof.
  assert (Hp : forall x, in_range 8 x -> page_ok (replicate 4096 x)) by (intros x Hx; split; [by apply Forall_replicate|apply length_replicate]).
  destruct (afs_map_makes_requests 4 sample_memory sample_target long_bio) as (r & E & _ & E1 & E2).
  - split; [reflexivity| |by apply Hp|done]. split; [cbn; lia|]. apply Forall_replicate. by apply Hp.
  - reflexivity.
  - unfold NUM_MAX_CARRIER_BLKS. lia.
  - reflexivity.
  - by apply Forall_replicate.
  - reflexivity.
  - split; [cbn; lia|exists 16; cbn; lia|]. split; [|cbn; lia]. by apply Forall_cons; split; [|apply Forall_cons; split; [|constructor]].
  - right. reflexivity.
  - exists r. split; [exact E|]. split; [exact E1|exact E2].
Defined.

(** ** Rebuilding *)
Definition no_bio (r : afs_map_request) : Prop := bio_set r = false.

(** What a rebuild of a mapped block can reach. *)
Definition rebuilding (c : afs_private) (t : task) : Prop :=
  no_bio (t_req t) /\
  match t_phase t with
  | Queued rebuild => rebuild = true /\ exists t0, tuple_at (afs_map c) (afs_get_map_entry (config c) (block (t_req t))) 0 = Ok t0 /\
      carrier_block_ptr t0 <> AFS_INVALID_BLOCK
  | InFlight bios => Forall (fun cb => cb_write cb = false) bios
  | Decoding | Stopped _ => True
  | Done _ => False
  end.

Lemma submit_bios_writes w n : forall i r off outs ret bios outs',
  submit_bios w n i r off outs = Ok (ret, bios, outs') -> Forall (fun cb => cb_write cb = w) bios.
Proof.
  induction n as [|n IH]; intros i r off outs ret bios outs' H; cbn [submit_bios] in H; [injection H as <- <- <-; constructor|].
  destruct (head outs) as [[| |]|]; run_inv H; first [by constructor|constructor; [done|by eapply IH]].
Qed.

Lemma read_carriers_no_bio env e r c ret r' bios c' : read_carriers env e r c = Ok (ret, r', bios, c') -> no_bio r ->
  no_bio r' /\ state r' = state r /\ Forall (fun cb => cb_write cb = false) bios.
Proof.
  unfold read_carriers, read_pages, submit_pages. intros H Hb. apply res_bind_Ok in H as (enc & _ & H). apply res_bind_Ok in H as (nums & _ & H).
  apply res_bind_Ok in H as (er & _ & H). apply res_bind_Ok in H as ([[[ret1 r1] b1] c1] & Hs & H). cbn in H. injection H as _ <- <- _.
  destruct (alloc c) as [ok c2] eqn:Ea. destruct ok; cbn [negb] in Hs; [|discriminate Hs].
  apply res_bind_Ok in Hs as ([[ret2 b2] o2] & Hs & E). cbn in E. injection E as _ <- <- _. split; [exact Hb|]. split; [done|].
  by eapply submit_bios_writes.
Qed.

Lemma rebuilding_step ev t c t' c' : run_event ev t c = Some (Ok (t', c')) -> rebuilding c t -> rebuilding c' t'.
Proof.
  destruct t as [env r ph]. intros H [Hb Hph]. cbn in Hb, Hph.
  destruct ev as [|j|], ph as [rb|bios| |bios|why]; try discriminate H; cbn [run_event t_env t_req t_phase] in H.
  - destruct Hph as (-> & t0 & Et & Hne). injection H as H. apply res_bind_Ok in H as ([[r1 b1] c1] & Ho & H). injection H as <- <-.
    unfold afs_rebuildq in Ho. apply res_bind_Ok in Ho as ([[[ret r2] b2] c2] & Hr & Ho). unfold afs_rebuild_request in Hr.
    change (state (set_state REQ_STATE_FLIGHT r)) with REQ_STATE_FLIGHT in Hr. change (negb (REQ_STATE_FLIGHT =? REQ_STATE_FLIGHT)) with false in Hr.
    cbv iota zeta in Hr. change (block (set_state REQ_STATE_FLIGHT r)) with (block r) in Hr. rewrite Et, bind_Ok in Hr.
    destruct (Z.eqb_spec (carrier_block_ptr t0) AFS_INVALID_BLOCK) as [E|_]; [done|].
    apply read_carriers_no_bio in Hr as (Hb2 & Hst & Hw); [|exact Hb]. cbn in Ho. destruct (ret =? 0).
    + injection Ho as <- <- <-. unfold after. rewrite Hst. change (REQ_STATE_FLIGHT =? REQ_STATE_COMPLETED) with false. cbv iota. by split.
    + unfold no_bio, bio_set in Hb2. by destruct (req_bio r2).
  - destruct (bios !! j) as [cb|] eqn:Ej; [|discriminate H]. injection H as H. apply res_bind_Ok in H as ([r1 c1] & Ht & H).
    apply transfer_quiet in Ht as [(_ & _ & Hb1 & _) _]. rewrite (Forall_lookup_1 _ _ _ _ Hph Ej) in H. cbn in H.
    injection H as <- <-. split; [unfold no_bio in *; cbn; by rewrite <- Hb, <- Hb1|]. cbn [t_phase]. destruct (bios_pending r1 - 1 =? 0); [done|].
    by apply forall_write_delete.
  - injection H as H. apply res_bind_Ok in H as ([[r1 b1] c1] & Ho & H). unfold afs_cryptoq in Ho.
    apply res_bind_Ok in Ho as ([[[ret r2] b2] c2] & Hr & _). unfold afs_read_decode in Hr.
    apply res_bind_Ok in Hr as (r3 & Hv & Hr). apply verify_checksums_quiet in Hv as (_ & _ & Hv & _).
    apply res_bind_Ok in Hr as ([r4 c4] & Hd & Hr). apply decode_data_quiet in Hd as [(_ & _ & Hd & _) _].
    unfold no_bio in Hb. assert (Hb4 : bio_set r4 = false) by congruence. unfold bio_set in Hb4. by destruct (req_bio r4).
Qed.

(** C21: a rebuild of a mapped block never completes. The request that
    [afs_rebuild] makes has no bio (its field is what [kmalloc] left, not
    null), and the decoder walks the segments of that bio: whatever is on
    the device, whichever bios fail and in whatever order they complete, the
    work never gets past the decoding, so no carrier is ever rebuilt and the
    request is never freed: the decoding crashes, or the request is left before
    it. *)
Theorem rebuild_never_completes mem x i r t0 env s' t :
  rebuild_one mem x i = Ok r -> mem_bio mem = BioGarbage ->
  tuple_at (afs_map (priv x)) (afs_get_map_entry (config (priv x)) i) 0 = Ok t0 -> carrier_block_ptr t0 <> AFS_INVALID_BLOCK ->
  rtc step (mk_system (priv x) [mk_task env r (Queued true)]) s' -> t ∈ s_tasks s' ->
  match t_phase t with Done _ => False | _ => True end.
Proof.
  intros Hr Hb Et Hne Hs Hin.
  assert (H0 : rebuilding (priv x) (mk_task env r (Queued true))).
  { unfold rebuild_one, init_request in Hr. destruct (mem_ok mem); cbn [negb] in Hr; [|discriminate Hr].
    apply res_bind_Ok in Hr as (o & Ho & Hr). apply res_bind_Ok in Ho as (pages & _ & Ho). destruct (mem_numbers mem) as [[[p1 p2] p3] p4].
    injection Ho as <-. injection Hr as <-. split; [unfold no_bio, bio_set; cbn; by rewrite Hb|]. split; [done|]. by exists t0. }
  assert (Hall : Forall (rebuilding (s_ctx s')) (s_tasks s')).
  { assert (Hstart : Forall (rebuilding (priv x)) [mk_task env r (Queued true)]) by by constructor.
    remember (mk_system (priv x) [mk_task env r (Queued true)]) as s0 eqn:E0.
    assert (Hs0 : exists t, s_tasks s0 = [t] /\ rebuilding (s_ctx s0) t) by (subst; eauto). clear E0 Hstart H0.
    induction Hs as [s|s s1 s2 H1 _ IH]; [destruct Hs0 as (t1 & -> & H1); by constructor|]. apply IH; [done|].
    destruct Hs0 as (t1 & Et1 & Ht1). destruct H1 as [ev j t2 t3 c2 c3 ts _ Ej He|ev j t2 why c2 ts _ Ej He]; cbn in *; subst ts;
      (destruct j as [|j]; [injection Ej as ->|by apply lookup_lt_Some in Ej; cbn in Ej; lia]); (eexists; split; [done|]).
    - by eapply rebuilding_step.
    - split; [apply Ht1|done]. }
  rewrite Forall_forall in Hall. destruct (Hall t Hin) as [_ Hp]. by destruct (t_phase t).
Qed.

Definition mapped_target : instance := {|
  priv := sample_instance (replicate 64 0); passphrase_hash := replicate 32 1; ctx_encoding_type := AONT_RS; flight_eq := Leaf |}.

Definition rebuild_request : afs_map_request := match rebuild_one sample_memory mapped_target 0 with Ok r => r | _ => sample_request REQ_OP_READ end.

Lemma rebuild_run : exists t', run_event Start (mk_task sample_encoder rebuild_request (Queued true)) (priv mapped_target) = Some (Ok (t', priv mapped_target)) /\
  exists bios, t_phase t' = InFlight bios /\ List.length bios = 4%nat.
Proof. eexists. split; [vm_compute; reflexivity|]. eexists. split; vm_compute; reflexivity. Qed.

Lemma rebuild_never_completes_witness : exists s' t, rtc step (mk_system (priv mapped_target) [mk_task sample_encoder rebuild_request (Queued true)]) s' /\
  t ∈ s_tasks s' /\ match t_phase t with Done _ => False | _ => True end.
Proof.
  destruct rebuild_run as (t' & Ht & _). exists (mk_system (priv mapped_target) [t']), t'.
  assert (Hs : rtc step (mk_system (priv mapped_target) [mk_task sample_encoder rebuild_request (Queued true)]) (mk_system (priv mapped_target) [t']))
    by (apply rtc_once, (task_step Start 0 (mk_task sample_encoder rebuild_request (Queued true)) t'); [reflexivity|reflexivity|exact Ht]).
  split; [exact Hs|]. split; [apply list_elem_of_here|].
  refine (rebuild_never_completes sample_memory mapped_target 0 rebuild_request {| carrier_block_ptr := 0; checksum := 0 |} sample_encoder _ t' _ eq_refl _ _ Hs _).
  - reflexivity.
  - vm_compute. reflexivity.
  - discriminate.
  - apply list_elem_of_here.
Defined.
