(* ===== verification/Interference.v ===== *)
(** * Interference: a request beside rebuild requests

    [afs_ctr] puts a rebuild request for every block on a queue when it mounts
    an instance. Such a request has no bio, so it never gets past its decoding:
    until then it only reads. Theorem: a task whose runs all end well alone
    ends the same way in every interleaving with rebuild requests, as long as
    none of those has stopped the system. *)
From stdpp Require Import base tactics option list numbers gmap relations.
From Stdlib Require Import ZArith Lia.
From S2P Require Import Prelude BitVector Allocation BlockIo Format Metadata Engine EngineMap EngineData Target EngineRun Volume VolumeRequests Requests.

Local Open Scope Z_scope.
Local Open Scope afs_scope.

(** ** A context in which nothing is going to fail

    No failed allocation and no failed bio is still to come; no event changes
    that. *)
Definition calm (c : afs_private) : Prop := allocs c = [] /\ outcomes (bdev c) = [].

Lemma keeps_calm c c' : keeps c c' -> calm c -> calm c'.
Proof. unfold keeps, calm. intuition congruence. Qed.

Lemma submit_bios_calm w n : forall i r off ret bios outs, submit_bios w n i r off [] = Ok (ret, bios, outs) -> outs = [].
Proof.
  induction n as [|n IH]; intros i r off ret bios outs H; cbn [submit_bios head tail] in H; [by injection H as _ _ <-|].
  run_inv H. by eapply IH.
Qed.

Lemma submit_pages_calm w r n c ret r' bios c' : submit_pages w r n c = Ok (ret, r', bios, c') -> calm c -> calm c'.
Proof.
  unfold submit_pages, alloc. intros H [Ha Ho]. rewrite Ha in H. cbn [default head tail negb] in H.
  apply res_bind_Ok in H as ([[ret1 b1] o1] & Hs & H). injection H as _ _ _ <-. cbn in Hs. rewrite Ho in Hs.
  by rewrite (submit_bios_calm _ _ _ _ _ _ _ _ Hs).
Qed.

(** In a calm context reading the carriers leaves the context as it is. *)
Lemma read_carriers_calm env e r c ret r' bios c' : read_carriers env e r c = Ok (ret, r', bios, c') -> calm c -> c' = c.
Proof.
  unfold read_carriers, read_pages, submit_pages, alloc. intros H [Ha Ho]. rewrite Ha in H. cbn [default head tail negb] in H.
  apply res_bind_Ok in H as (enc & _ & H). apply res_bind_Ok in H as (nums & _ & H). apply res_bind_Ok in H as (er & _ & H).
  apply res_bind_Ok in H as ([[[ret1 r1] b1] c1] & Hs & H). cbn in H. injection H as _ _ _ <-.
  apply res_bind_Ok in Hs as ([[ret2 b2] o2] & Hs & E). injection E as _ _ _ <-. cbn in Hs. rewrite Ho in Hs.
  rewrite (submit_bios_calm _ _ _ _ _ _ _ _ Hs). destruct c as [? ? ? ? ? ? ? ? ? [? ? ?] ? ?]. cbn in *. by subst.
Qed.

Lemma finish_write_calm env e ok r1 c1 ret r' bios c' n :
  (if negb ok then '(r, c) ← reset_entry env e r1 c1; Ok (- ENOSPC, r, [], c)
   else '(ret, r, bios, c) ← write_pages r1 n c1;
        if negb (ret =? 0) then '(r, c) ← reset_entry env e r c; Ok (- EIO, r, bios, c) else Ok (0, r, bios, c)) = Ok (ret, r', bios, c') ->
  calm c1 -> calm c'.
Proof.
  intros H Hc. destruct ok; cbn [negb] in H.
  - apply res_bind_Ok in H as ([[[ret1 r2] b2] c2] & Hs & H). pose proof (submit_pages_calm _ _ _ _ _ _ _ _ Hs Hc) as Hc2.
    destruct (negb (ret1 =? 0)); [|by injection H as _ _ _ <-]. apply res_bind_Ok in H as ([r3 c3] & Hr & H). injection H as _ _ _ <-.
    apply reset_entry_quiet in Hr as [_ Hk]. by eapply keeps_calm.
  - apply res_bind_Ok in H as ([r2 c2] & Hr & H). injection H as _ _ _ <-. apply reset_entry_quiet in Hr as [_ Hk]. by eapply keeps_calm.
Qed.

Lemma write_request_calm env r b c ret r' bios c' : afs_write_request env r b c = Ok (ret, r', bios, c') -> calm c -> calm c'.
Proof.
  unfold afs_write_request. intros H Hc. destruct (negb (state r =? REQ_STATE_FLIGHT)); [by injection H as _ _ _ <-|]. cbv zeta in H.
  apply res_bind_Ok in H as (t & _ & H). apply res_bind_Ok in H as (d & _ & H). apply res_bind_Ok in H as (er & _ & H).
  apply res_bind_Ok in H as ([r1 c1] & He & H). apply encode_data_quiet in He as [_ Hk1].
  apply res_bind_Ok in H as ([[ok r2] c2] & Ha & H). apply assign_blocks_quiet in Ha as [_ Hk2].
  eapply finish_write_calm; [exact H|]. eapply keeps_calm; [exact Hk2|]. by eapply keeps_calm.
Qed.

Lemma read_request_calm env r b c ret r' bios c' : afs_read_request env r b c = Ok (ret, r', bios, c') -> calm c -> c' = c.
Proof.
  unfold afs_read_request. intros H Hc. destruct (negb (state r =? REQ_STATE_FLIGHT)); [by injection H as _ _ _ <-|]. cbv zeta in H.
  apply res_bind_Ok in H as (t & _ & H). destruct (carrier_block_ptr t =? AFS_INVALID_BLOCK); [|by eapply read_carriers_calm].
  apply res_bind_Ok in H as (d & _ & H). apply res_bind_Ok in H as (b' & _ & H). apply res_bind_Ok in H as (r1 & _ & H). by injection H as _ _ _ <-.
Qed.

Lemma rebuild_request_calm env r c ret r' bios c' : afs_rebuild_request env r c = Ok (ret, r', bios, c') -> calm c -> c' = c.
Proof.
  unfold afs_rebuild_request. intros H Hc. destruct (negb (state r =? REQ_STATE_FLIGHT)); [by injection H as _ _ _ <-|]. cbv zeta in H.
  apply res_bind_Ok in H as (t & _ & H). destruct (carrier_block_ptr t =? AFS_INVALID_BLOCK); [|by eapply read_carriers_calm].
  apply res_bind_Ok in H as (r1 & _ & H). by injection H as _ _ _ <-.
Qed.

Lemma read_decode_calm env r c ret r' bios c' : afs_read_decode env r c = Ok (ret, r', bios, c') -> calm c -> calm c'.
Proof.
  unfold afs_read_decode. intros H Hc. apply res_bind_Ok in H as (r1 & _ & H). apply res_bind_Ok in H as ([r2 c2] & He & H).
  apply decode_data_quiet in He as [_ Hk]. pose proof (keeps_calm _ _ Hk Hc) as Hc2. destruct (req_bio r2) as [b| |]; [|discriminate H..].
  apply res_bind_Ok in H as (b' & _ & H). cbv zeta in H. destruct (rebuild_flag _).
  - apply res_bind_Ok in H as ([[[ret1 r4] b4] c4] & Hb & H). injection H as _ _ _ <-. unfold rebuild_blocks in Hb. cbv zeta in Hb.
    apply res_bind_Ok in Hb as (er & _ & Hb). apply res_bind_Ok in Hb as ([r5 c5] & He & Hb). apply encode_data_quiet in He as [_ Hk5].
    apply res_bind_Ok in Hb as ([[ok r6] c6] & Ha & Hb). apply remap_blocks_quiet in Ha as [_ Hk6].
    eapply finish_write_calm; [exact Hb|]. eapply keeps_calm; [exact Hk6|]. by eapply keeps_calm.
  - apply res_bind_Ok in H as (r4 & _ & H). by injection H as _ _ _ <-.
Qed.

Lemma transfer_calm cb r c r' c' : transfer cb r c = Ok (r', c') -> calm c -> calm c' /\ (cb_write cb = false -> c' = c).
Proof.
  unfold transfer. intros H Hc. apply res_bind_Ok in H as (p & _ & H). unfold submit_bio_wait in H.
  destruct (cb_write cb); cbn [io_type] in H; destruct (_ && _); injection H as _ <-; (split; [exact Hc|]); intros; try done; by rewrite set_bdev_same.
Qed.

Lemma event_calm ev t c t' c' : run_event ev t c = Some (Ok (t', c')) -> calm c -> calm c'.
Proof.
  destruct t as [env r ph]. intros H Hc. destruct ev as [|j|], ph as [rb|bios| |bios|why]; try discriminate H; cbn [run_event t_env t_req t_phase] in H.
  - injection H as H. apply res_bind_Ok in H as ([[r1 b1] c1] & Ho & H). injection H as _ <-. destruct rb.
    + unfold afs_rebuildq in Ho. apply res_bind_Ok in Ho as ([[[ret r2] b2] c2] & Hr & Ho).
      assert (c1 = c2) as -> by (clear -Ho; destruct (req_bio r2); run_inv Ho; done). by rewrite (rebuild_request_calm _ _ _ _ _ _ _ Hr Hc).
    + unfold afs_flightq in Ho. destruct (req_bio r) as [b| |]; [|discriminate Ho..]. apply res_bind_Ok in Ho as ([[[ret r2] b2] c2] & Hr & Ho).
      assert (c1 = c2) as -> by (clear -Ho; run_inv Ho; done).
      destruct (op b); [by rewrite (read_request_calm _ _ _ _ _ _ _ _ Hr Hc)|by eapply write_request_calm|by injection Hr as _ _ _ <-..].
  - destruct (bios !! j) as [cb|]; [|discriminate H]. injection H as H. apply res_bind_Ok in H as ([r1 c1] & Ht & H).
    apply transfer_calm in Ht as [Hc1 _]; [|done]. destruct (cb_write cb).
    + apply res_bind_Ok in H as ([r2 c2] & He & H). injection H as _ <-. unfold afs_write_endio in He.
      destruct (_ =? 0); [|by injection He as _ <-]. apply res_bind_Ok in He as (c3 & Hs & He). apply res_bind_Ok in He as (r3 & _ & He).
      injection He as _ <-. apply store_checksums_keeps in Hs. by eapply keeps_calm.
    + destruct (afs_read_endio r1). by injection H as _ <-.
  - injection H as H. apply res_bind_Ok in H as ([[r1 b1] c1] & Ho & H). injection H as _ <-. unfold afs_cryptoq in Ho.
    apply res_bind_Ok in Ho as ([[[ret r2] b2] c2] & Hr & Ho). assert (c1 = c2) as -> by (clear -Ho; run_inv Ho; done). by eapply read_decode_calm.
Qed.

(** ** Rebuild requests beside another task *)

(** A rebuild request, mapped or not, before it crashes. *)
Definition bystander (t : task) : Prop :=
  no_bio (t_req t) /\
  match t_phase t with
  | Queued rebuild => rebuild = true
  | InFlight bios => Forall (fun cb => cb_write cb = false) bios
  | _ => True
  end.

(** Its events leave the context as it is. *)
Lemma bystander_event ev t c t' c' : run_event ev t c = Some (Ok (t', c')) -> calm c -> bystander t -> bystander t' /\ c' = c.
Proof.
  destruct t as [env r ph]. intros H Hc [Hb Hph]. cbn in Hb, Hph.
  destruct ev as [|j|], ph as [rb|bios| |bios|why]; try discriminate H; cbn [run_event t_env t_req t_phase] in H.
  - subst rb. injection H as H. apply res_bind_Ok in H as ([[r1 b1] c1] & Ho & H). injection H as <- <-.
    unfold afs_rebuildq in Ho. apply res_bind_Ok in Ho as ([[[ret r2] b2] c2] & Hr & Ho).
    assert (Hc2 : c2 = c) by by eapply rebuild_request_calm. subst c2. unfold afs_rebuild_request in Hr.
    change (state (set_state REQ_STATE_FLIGHT r)) with REQ_STATE_FLIGHT in Hr. change (negb (REQ_STATE_FLIGHT =? REQ_STATE_FLIGHT)) with false in Hr.
    cbv iota zeta in Hr. apply res_bind_Ok in Hr as (t & _ & Hr).
    assert (H2 : no_bio r2 /\ (state r2 = REQ_STATE_COMPLETED \/ Forall (fun cb => cb_write cb = false) b2)).
    { destruct (carrier_block_ptr t =? AFS_INVALID_BLOCK).
      - apply res_bind_Ok in Hr as (r3 & Hcl & Hr). injection Hr as _ <- _. apply clean_spec in Hcl as (Hs & Hbs & _).
        split; [unfold no_bio; by rewrite Hbs|by left].
      - apply read_carriers_no_bio in Hr as (Hb2 & _ & Hw); [|exact Hb]. split; [done|by right]. }
    destruct H2 as [Hb2 Hs2]. destruct (ret =? 0).
    + injection Ho as <- <- <-. split; [|done]. unfold after. split; [done|]. cbn [t_phase].
      destruct (Z.eqb_spec (state r2) REQ_STATE_COMPLETED); [done|]. by destruct Hs2.
    + unfold no_bio, bio_set in Hb2. by destruct (req_bio r2).
  - destruct (bios !! j) as [cb|] eqn:Ej; [|discriminate H]. injection H as H. apply res_bind_Ok in H as ([r1 c1] & Ht & H).
    pose proof (Forall_lookup_1 _ _ _ _ Hph Ej) as Hw. pose proof (proj2 (transfer_calm _ _ _ _ _ Ht Hc) Hw) as ->.
    apply transfer_quiet in Ht as [(_ & _ & Hb1 & _) _]. cbv beta in Hw. rewrite Hw in H. cbn in H.
    injection H as <- <-. split; [|done]. split; [unfold no_bio in *; cbn; by rewrite <- Hb, <- Hb1|]. cbn [t_phase]. destruct (bios_pending r1 - 1 =? 0); [done|].
    by apply forall_write_delete.
  - injection H as H. apply res_bind_Ok in H as ([[r1 b1] c1] & Ho & H). unfold afs_cryptoq in Ho.
    apply res_bind_Ok in Ho as ([[[ret r2] b2] c2] & Hr & _). unfold afs_read_decode in Hr.
    apply res_bind_Ok in Hr as (r3 & Hv & Hr). apply verify_checksums_quiet in Hv as (_ & _ & Hv & _).
    apply res_bind_Ok in Hr as ([r4 c4] & Hd & Hr). apply decode_data_quiet in Hd as [(_ & _ & Hd & _) _].
    unfold no_bio in Hb. assert (Hb4 : bio_set r4 = false) by congruence. unfold bio_set in Hb4. by destruct (req_bio r4).
Qed.

(** ** All interleavings *)
Section Beside.
Context (Post : task -> afs_private -> Prop).

(** The task is on one of its own runs, which nothing has disturbed. *)
Definition undisturbed (s : system) : Prop :=
  exists t rest, s_tasks s = t :: rest /\ task_ends Post t (s_ctx s) /\ calm (s_ctx s) /\ Forall bystander rest.

Lemma undisturbed_step s s' : step s s' -> undisturbed s -> undisturbed s'.
Proof.
  intros Hs (t & rest & Et & He & Hc & Hb).
  destruct Hs as [ev i t1 t' c c' ts _ Ei Hr|ev i t1 why c ts _ Ei Hr]; cbn in Et, He, Hc; subst ts; destruct i as [|i]; cbn in Ei.
  - injection Ei as <-. destruct He as [t c Hn _|t c _ Ha]; [by rewrite Hn in Hr|]. destruct (Ha _ _ Hr) as (t2 & c2 & [= <- <-] & H').
    exists t', rest. split_and!; try done. by eapply event_calm.
  - pose proof (Forall_lookup_1 _ _ _ _ Hb Ei) as Hbt. destruct (bystander_event _ _ _ _ _ Hr Hc Hbt) as [Hb' ->].
    exists t, (<[i := t']> rest). split_and!; try done. by apply Forall_insert.
  - injection Ei as <-. destruct He as [t c Hn _|t c _ Ha]; [by rewrite Hn in Hr|]. destruct (Ha _ _ Hr) as (t2 & c2 & E & _). by destruct why.
  - pose proof (Forall_lookup_1 _ _ _ _ Hb Ei) as [Hbt _]. exists t, (<[i := mk_task (t_env t1) (t_req t1) (Stopped why)]> rest).
    split_and!; try done. by apply Forall_insert.
Qed.

Lemma undisturbed_steps s s' : rtc step s s' -> undisturbed s -> undisturbed s'.
Proof. induction 1 as [|s s1 s2 H1 _ IH]; [done|]. intros H. by apply IH, (undisturbed_step s). Qed.

(** Where every run ends cleaned, the others can be left waiting until it has. *)
Lemma ends_beside t c rest : (forall t c, Post t c -> exists bios, t_phase t = Done bios) -> forallb running rest = true ->
  task_ends Post t c -> exists t' c', rtc step (mk_system c (t :: rest)) (mk_system c' (t' :: rest)) /\ Post t' c'.
Proof.
  intros Hdone Hr. induction 1 as [t c _ Hp|t c (ev & x & Hx) IH] using task_ends_induction; [by exists t, c|].
  destruct (IH ev x Hx) as (t1 & c1 & -> & He & t' & c' & Hs & Hp). exists t', c'. split; [|done]. eapply rtc_l; [|exact Hs].
  apply (task_step ev 0 t t1 c c1 (t :: rest)); [|done|done]. cbn. rewrite Hr, andb_true_r.
  destruct t as [env r ph]. by destruct ph, ev.
Qed.
End Beside.

(** In every interleaving with rebuild requests [others], a task of which all
    runs end with [Post] has that postcondition when it is done; and as long
    as no rebuild request has stopped the system, it can still be done. *)
Definition ends_among (Post : task -> afs_private -> Prop) (t : task) (others : list task) (c : afs_private) : Prop :=
  forall s, rtc step (mk_system c (t :: others)) s -> exists t' rest, s_tasks s = t' :: rest /\
    (forall bios, t_phase t' = Done bios -> Post t' (s_ctx s)) /\
    (forall why, t_phase t' <> Stopped why) /\
    (forallb running rest = true -> exists t2 c2, rtc step s (mk_system c2 (t2 :: rest)) /\ Post t2 c2).

Lemma task_ends_among Post t c others : (forall t c, Post t c -> exists bios, t_phase t = Done bios) ->
  task_ends Post t c -> calm c -> Forall bystander others -> ends_among Post t others c.
Proof.
  intros Hdone He Hc Hb s Hs. assert (Hu : undisturbed Post (mk_system c (t :: others))) by by exists t, others.
  apply (undisturbed_steps _ _ _ Hs) in Hu as (t' & rest & Et & He' & _ & _). exists t', rest. split; [done|].
  assert (Hend : (forall ev c, run_event ev t' c = None) -> Post t' (s_ctx s)).
  { intros Hn. destruct He' as [t' c' _ Hp|t' c' (ev & x & Hx) _]; [done|by rewrite Hn in Hx]. }
  split_and!.
  - intros bios Hd. apply Hend. intros ev c'. destruct t' as [env r ph]. cbn in Hd. subst. by destruct ev.
  - intros why Hst. destruct (Hdone t' (s_ctx s)) as (bios & Hd); [|congruence]. apply Hend. intros ev c'. destruct t' as [env r ph]. cbn in Hst. subst. by destruct ev.
  - intros Hr. destruct s as [c' ts]. cbn in *. subst ts. destruct (ends_beside Post t' c' rest Hdone Hr He') as (t2 & c2 & Hs2 & Hp). by exists t2, c2.
Qed.
