(* ===== verification/Entropy.v ===== *)
(** * Entropy: the pool of entropy files (src/dm_afs_entropy.c)

    The files of a directory are listed and kept in a hash table by the hash of
    their path; blocks of them are named by that hash and a block number. A C
    string is the list of its characters. The file system is given by
    functions: [None] or [inl] where the kernel reports an error. Theorems: what
    is listed and found, that an allocated block is read again, and that
    the destructor uses entries after it has freed them. *)
From stdpp Require Import base tactics option list numbers gmap strings.
From Stdlib Require Import ZArith Lia.
From S2P Require Import Prelude.

Local Open Scope Z_scope.
Local Open Scope afs_scope.

Definition HASH_TABLE_ORDER : Z := 16.
Definition BLOCK_LENGTH : Z := 4096.
Definition FILE_LIST_SIZE : Z := 1024.

Record entropy_hash_entry := mk_entry { key : Z; filename : list Z; file_size : Z }.

(** [file_list]: the array of pointers, [None] where it has not been written;
    it is empty where the array could not be allocated. *)
Record entropy_context := mk_context {
  number_of_files : Z;
  directory_name : list Z;
  directory_name_length : Z;
  file_list : list (option (list Z));
}.

(** The global variables, and the outcomes of allocations to come. *)
Record entropy := mk_entropy {
  ent_context : entropy_context;
  dm_afs_ht : gmap Z (list entropy_hash_entry);
  ent_allocs : list bool;
}.

Definition ent_alloc (s : entropy) : bool * entropy :=
  (default true (head (ent_allocs s)), mk_entropy (ent_context s) (dm_afs_ht s) (tail (ent_allocs s))).

(** ** Strings *)
Definition djb2_hash (str : list Z) : Z := foldl (fun hash c => u64 (Z.shiftl hash 5) +64 hash +64 c) 5381 str.

Definition strlcpy (src : list Z) (size : Z) : list Z := take (Z.to_nat size - 1) src.

(** The kernel stops on a destination that is already full. *)
Definition strlcat (dst src : list Z) (size : Z) : res (list Z) :=
  if size <=? Z.of_nat (List.length dst) then Fault else Ok (dst ++ take (Z.to_nat size - List.length dst - 1) src).

Definition slash : list Z := [47].

Section Entropy.
(** [hash_64_generic], with which entries are added, and [hash_min], with which
    [hash_for_each_possible] looks for them. *)
Context (hash_64_generic hash_min : Z -> Z -> Z).
(** A path that can be resolved; the size that [vfs_getattr] finds; what the
    stack holds in place of it; the names in a directory; a file that can be
    opened; a read of at most [BLOCK_LENGTH] bytes at an offset. *)
Context (kern_path : list Z -> bool) (vfs_getattr : list Z -> option Z) (stack_size : Z).
Context (iterate_dir : list Z -> option (list (list Z))) (filp_open : list Z -> bool) (kernel_read : list Z -> Z -> Z + list Z).

(** ** The table *)
Definition hash_add_64 (e : entropy_hash_entry) (ht : gmap Z (list entropy_hash_entry)) : gmap Z (list entropy_hash_entry) :=
  let b := hash_64_generic (key e) HASH_TABLE_ORDER in <[b := e :: default [] (ht !! b)]> ht.

Definition retrieve_file_data (filename_hash : Z) (s : entropy) : option entropy_hash_entry :=
  head (filter (fun e => key e = filename_hash) (default [] (dm_afs_ht s !! hash_min filename_hash HASH_TABLE_ORDER))).

(** The statuses of [kern_path] and [vfs_getattr] are not looked at: an
    unresolved path is used as it lies on the stack. *)
Definition insert_entropy_ht (filename : option (list Z)) (s : entropy) : res (Z * entropy) :=
  let '(ok, s) := ent_alloc s in
  match filename with
  | None => Ok (-1, s)
  | Some filename =>
      if negb ok then Fault else
      if negb (kern_path filename) then Fault else
      let e := mk_entry (djb2_hash filename) filename (default stack_size (vfs_getattr filename)) in
      Ok (0, mk_entropy (ent_context s) (hash_add_64 e (dm_afs_ht s)) (ent_allocs s))
  end.

(** ** Listing a directory *)
Definition set_context (c : entropy_context) (s : entropy) : entropy := mk_entropy c (dm_afs_ht s) (ent_allocs s).

Definition dm_afs_filldir (s : entropy) (name : list Z) : res entropy :=
  let c := ent_context s in
  if number_of_files c <? FILE_LIST_SIZE then
    let full_path_size := u64 (Z.of_nat (List.length name) + directory_name_length c + 2) in
    let '(ok, s) := ent_alloc s in
    if negb ok then Fault else
    path ← strlcat (strlcpy (directory_name c) full_path_size) slash full_path_size;
    path ← strlcat path name full_path_size;
    files ← put (file_list c) (number_of_files c) (Some path);
    '(_, s) ← insert_entropy_ht (Some path) (set_context (mk_context (number_of_files c) (directory_name c) (directory_name_length c) files) s);
    let c := ent_context s in
    Ok (set_context (mk_context (number_of_files c +32 1) (directory_name c) (directory_name_length c) (file_list c)) s)
  else Ok s.

Fixpoint fill (s : entropy) (names : list (list Z)) : res entropy :=
  match names with [] => Ok s | name :: names => s ← dm_afs_filldir s name; fill s names end.

(** [filp_open] gives an error pointer, which is not null, where it fails. *)
Definition scan_directory (directory : list Z) (s : entropy) : res entropy :=
  names ← of_option (iterate_dir directory); fill s names.

Definition build_entropy_ht (directory : list Z) (name_length : Z) (s : entropy) : res entropy :=
  let '(list_ok, s) := ent_alloc s in
  let '(name_ok, s) := ent_alloc s in
  if negb name_ok then Fault else
  scan_directory directory
    (mk_entropy (mk_context (number_of_files (ent_context s)) (strlcpy directory (u64 (name_length + 1))) name_length
                   (if (list_ok : bool) then replicate (Z.to_nat FILE_LIST_SIZE) None else [])) ∅ (ent_allocs s)).

(** The loop over the table reads the link of an entry that it has freed. *)
Definition cleanup_entropy_ht (s : entropy) : res entropy :=
  let c := ent_context s in
  _ ← forM (Z.to_nat (number_of_files c)) 0 (fun i _ => p ← of_option (file_list c !! Z.to_nat i); _ ← of_option p; Ok ()) ();
  if bool_decide (map_Forall (fun _ chain => chain = []) (dm_afs_ht s)) then
    Ok (set_context (mk_context (number_of_files c) [] (directory_name_length c) []) s)
  else Fault.

(** ** Blocks *)
Definition read_entropy (filename_hash block_pointer : Z) (block : list Z) (s : entropy) : res (Z * list Z) :=
  let offset := block_pointer *32 BLOCK_LENGTH in
  match retrieve_file_data filename_hash s with
  | None => Ok (-1, block)
  | Some e =>
      if negb (filp_open (filename e)) then Fault else
      match kernel_read (filename e) offset with
      | inl err => Ok (err, block)
      | inr data => Ok (Z.of_nat (List.length data), data ++ drop (List.length data) block)
      end
  end.

(** A 32-bit value as an [int]. *)
Definition int32 (x : Z) : Z := if u32 x <? 2 ^ 31 then u32 x else u32 x - 2 ^ 32.

(** [r1] and [r2]: the bytes of [get_random_bytes]. The results are the hash,
    the block pointer and the block. *)
Definition allocate_entropy (r1 r2 : Z) (block : list Z) (s : entropy) : res (Z * Z * list Z) :=
  let c := ent_context s in
  if number_of_files c =? 0 then Fault else
  let file_index := int32 (u32 r1 mod number_of_files c) in
  p ← of_option (file_list c !! Z.to_nat file_index);
  name ← of_option p;
  e ← of_option (retrieve_file_data (djb2_hash name) s);
  if file_size e =? 0 then Fault else
  let block_index := int32 (u64 (int32 r2) mod file_size e / BLOCK_LENGTH) in
  '(_, block) ← read_entropy (key e) (u32 block_index) block s;
  Ok (key e, u32 block_index, block).

(** ** What the table holds *)
Context (same_bucket : forall k, hash_64_generic k HASH_TABLE_ORDER = hash_min k HASH_TABLE_ORDER).

Definition entry_of (path : list Z) : entropy_hash_entry := mk_entry (djb2_hash path) path (default stack_size (vfs_getattr path)).

(** The paths in the order in which they were listed; the entry of a hash is the
    last one that has it. *)
Record listed (paths : list (list Z)) (s : entropy) : Prop := mk_listed {
  ls_number : number_of_files (ent_context s) = Z.of_nat (List.length paths);
  ls_bound : (List.length paths <= 1024)%nat;
  ls_files : file_list (ent_context s) = map Some paths ++ replicate (1024 - List.length paths) None;
  ls_table : forall h, retrieve_file_data h s = last (filter (fun e => key e = h) (map entry_of paths));
}.

Lemma retrieve_add e ht c a c' a' h : retrieve_file_data h (mk_entropy c (hash_add_64 e ht) a) =
  if decide (key e = h) then Some e else retrieve_file_data h (mk_entropy c' ht a').
Proof.
  unfold retrieve_file_data, hash_add_64. cbn [dm_afs_ht]. rewrite same_bucket. destruct (decide (hash_min (key e) HASH_TABLE_ORDER = hash_min h HASH_TABLE_ORDER)) as [E|E].
  - rewrite E, lookup_insert_eq. cbn [from_option id]. rewrite filter_cons. by case_decide.
  - rewrite lookup_insert_ne by done. case_decide as Hk; [by rewrite Hk in E|done].
Qed.

Lemma last_filter_snoc {A} (P : A -> Prop) `{forall x, Decision (P x)} l x :
  last (filter P (l ++ [x])) = if decide (P x) then Some x else last (filter P l).
Proof. rewrite filter_app, filter_cons, filter_nil. case_decide; [apply last_snoc|by rewrite app_nil_r]. Qed.

Definition path_of (directory name : list Z) : list Z := directory ++ slash ++ name.

(** One more file. *)
Lemma filldir_lists paths directory name s : listed paths s -> ent_allocs s = [] -> (List.length paths < 1024)%nat ->
  directory_name (ent_context s) = directory -> directory_name_length (ent_context s) = Z.of_nat (List.length directory) ->
  Z.of_nat (List.length name) + Z.of_nat (List.length directory) + 2 < 2 ^ 64 -> kern_path (path_of directory name) = true ->
  exists s', dm_afs_filldir s name = Ok s' /\ listed (paths ++ [path_of directory name]) s' /\ ent_allocs s' = [] /\
    directory_name (ent_context s') = directory /\ directory_name_length (ent_context s') = Z.of_nat (List.length directory).
Proof.
  intros [Hn Hb Hf Ht] Ha Hlt Hd Hdl Hsz Hk. unfold dm_afs_filldir. rewrite Hn, Hd, Hdl. unfold FILE_LIST_SIZE.
  destruct (Z.ltb_spec (Z.of_nat (List.length paths)) 1024); [|lia]. rewrite wrap_id by (unfold in_range; lia).
  set (size := Z.of_nat (List.length name) + Z.of_nat (List.length directory) + 2). unfold ent_alloc. rewrite Ha. cbn [head tail default negb].
  assert (Es : strlcpy directory size = directory) by (unfold strlcpy, size; apply take_ge; lia). rewrite Es.
  unfold strlcat. destruct (Z.leb_spec size (Z.of_nat (List.length directory))); [unfold size in *; lia|].
  rewrite (take_ge slash) by (unfold size, slash; cbn; lia). rewrite bind_Ok, length_app. cbn [slash List.length].
  destruct (Z.leb_spec size (Z.of_nat (List.length directory + 1))); [unfold size in *; lia|].
  rewrite (take_ge name) by (unfold size; lia). rewrite bind_Ok, <- app_assoc. fold (path_of directory name).
  rewrite Hf, put_nat by (rewrite length_app, length_map, length_replicate; lia). rewrite bind_Ok.
  unfold insert_entropy_ht, ent_alloc, set_context. cbn [ent_allocs ent_context dm_afs_ht head tail default negb]. rewrite Hk. cbn [negb]. rewrite bind_Ok.
  eexists. split; [reflexivity|]. cbn [ent_context ent_allocs directory_name directory_name_length]. split; [|done].
  constructor; cbn [ent_context number_of_files file_list dm_afs_ht].
  - rewrite wrap_id by (unfold in_range; lia). rewrite length_app. cbn. lia.
  - rewrite length_app. cbn. lia.
  - destruct (1024 - List.length paths)%nat as [|m] eqn:Em; [lia|]. rewrite length_app, map_app. cbn [replicate List.length map].
    rewrite insert_app_r_alt by (rewrite length_map; lia). rewrite length_map, Nat.sub_diag. cbn [insert list_insert].
    replace (1024 - (List.length paths + 1))%nat with m by lia. by rewrite <- app_assoc.
  - intros h. rewrite (retrieve_add _ _ _ _ (ent_context s) (ent_allocs s)), map_app. cbn [map]. rewrite last_filter_snoc.
    change (mk_entry _ _ _) with (entry_of (path_of directory name)). case_decide; [done|]. by rewrite <- Ht.
Qed.

(** What the directory must be like: each path resolves, and fits in memory. *)
Definition dir_ok (directory : list Z) (names : list (list Z)) : Prop :=
  Forall (fun name => Z.of_nat (List.length name) + Z.of_nat (List.length directory) + 2 < 2 ^ 64 /\ kern_path (path_of directory name) = true) names.

(** The names past the first 1024 are left out. *)
Lemma fill_lists directory names : forall paths s, listed paths s -> ent_allocs s = [] ->
  directory_name (ent_context s) = directory -> directory_name_length (ent_context s) = Z.of_nat (List.length directory) -> dir_ok directory names ->
  exists s', fill s names = Ok s' /\ listed (paths ++ map (path_of directory) (take (1024 - List.length paths) names)) s'.
Proof.
  induction names as [|name names IH]; intros paths s Hl Ha Hd Hdl Hok; cbn [fill].
  - exists s. rewrite take_nil, app_nil_r. done.
  - apply Forall_cons in Hok as [[Hsz Hk] Hok]. destruct (decide (List.length paths < 1024)%nat) as [Hlt|Hge].
    + destruct (filldir_lists paths directory name s Hl Ha Hlt Hd Hdl Hsz Hk) as (s' & -> & Hl' & Ha' & Hd' & Hdl'). rewrite bind_Ok.
      destruct (IH _ _ Hl' Ha' Hd' Hdl' Hok) as (s'' & -> & Hl''). exists s''. split; [done|]. rewrite length_app in Hl''. cbn [List.length] in Hl''.
      destruct (1024 - List.length paths)%nat as [|m] eqn:E; [lia|]. cbn [take map]. replace (1024 - (List.length paths + 1))%nat with m in Hl'' by lia.
      by rewrite <- app_assoc in Hl''.
    + assert (E : dm_afs_filldir s name = Ok s).
      { unfold dm_afs_filldir. rewrite (ls_number _ _ Hl). unfold FILE_LIST_SIZE. destruct (Z.ltb_spec (Z.of_nat (List.length paths)) 1024); [lia|done]. }
      rewrite E, bind_Ok. destruct (IH _ _ Hl Ha Hd Hdl Hok) as (s' & -> & Hl'). exists s'. split; [done|].
      replace (1024 - List.length paths)%nat with 0%nat in * by lia. by rewrite !take_0 in *.
Qed.

Lemma build_start directory s : number_of_files (ent_context s) = 0 -> ent_allocs s = [] -> Z.of_nat (List.length directory) + 1 < 2 ^ 64 ->
  exists s0, listed [] s0 /\ ent_allocs s0 = [] /\ directory_name (ent_context s0) = directory /\
    directory_name_length (ent_context s0) = Z.of_nat (List.length directory) /\
    build_entropy_ht directory (Z.of_nat (List.length directory)) s = scan_directory directory s0.
Proof.
  intros Hn Ha Hsz. unfold build_entropy_ht, ent_alloc. rewrite Ha. cbn [ent_allocs ent_context dm_afs_ht head tail default from_option id negb]. rewrite Hn.
  rewrite wrap_id by (unfold in_range; lia).
  replace (strlcpy directory (Z.of_nat (List.length directory) + 1)) with directory by (unfold strlcpy; rewrite take_ge; [done|lia]).
  eexists. split; [|split; [|split; [|split; [|reflexivity]]]]; [|done..].
  constructor; cbn [ent_context number_of_files file_list List.length map filter last]; [done|lia|done|].
  intros h. unfold retrieve_file_data. cbn [dm_afs_ht]. by rewrite lookup_empty.
Qed.

(** Two paths are told apart by their hashes. *)
Definition no_collision (paths : list (list Z)) : Prop := NoDup (map djb2_hash paths).

Lemma last_filter_unique (paths : list (list Z)) path : no_collision paths -> path ∈ paths ->
  last (filter (fun e => key e = djb2_hash path) (map entry_of paths)) = Some (entry_of path).
Proof.
  unfold no_collision. revert path. induction paths as [|p paths IH] using rev_ind; intros path Hn Hin; [by apply elem_of_nil in Hin|].
  rewrite map_app in Hn |- *. cbn [map] in *. rewrite last_filter_snoc. case_decide as E; cbn in E.
  - apply elem_of_app in Hin as [Hin|Hin%list_elem_of_singleton]; [|by subst]. apply NoDup_app in Hn as (_ & Hx & _).
    exfalso. apply (Hx (djb2_hash path)); [by apply list_elem_of_fmap_2|rewrite <- E; apply list_elem_of_here].
  - apply elem_of_app in Hin as [Hin|Hin%list_elem_of_singleton]; [|by subst]. apply IH; [by apply NoDup_app in Hn as (? & _)|done].
Qed.

Lemma last_filter_found (paths : list (list Z)) path : path ∈ paths ->
  exists p, p ∈ paths /\ djb2_hash p = djb2_hash path /\ last (filter (fun e => key e = djb2_hash path) (map entry_of paths)) = Some (entry_of p).
Proof.
  induction paths as [|p paths IH] using rev_ind; intros Hin; [by apply elem_of_nil in Hin|].
  rewrite map_app. cbn [map]. rewrite last_filter_snoc. case_decide as E; cbn in E.
  - exists p. split; [apply elem_of_app; right; by apply list_elem_of_singleton|done].
  - apply elem_of_app in Hin as [Hin|Hin%list_elem_of_singleton]; [|by subst].
    destruct (IH Hin) as (q & Hq & ? & ?). exists q. split; [apply elem_of_app; by left|done].
Qed.

(** C32: a directory of files that resolve is listed when memory is to be had:
    the number of files is that of its names, 1024 at most, the paths are the
    directory's name, a slash and each name, in order, and unless two of their
    hashes agree each path's hash finds its name and its size. *)
Theorem build_lists_files directory names s :
  number_of_files (ent_context s) = 0 -> ent_allocs s = [] -> Z.of_nat (List.length directory) + 1 < 2 ^ 64 ->
  iterate_dir directory = Some names -> dir_ok directory names ->
  exists s', build_entropy_ht directory (Z.of_nat (List.length directory)) s = Ok s' /\
    number_of_files (ent_context s') = Z.min (Z.of_nat (List.length names)) 1024 /\
    (forall i name, (i < 1024)%nat -> names !! i = Some name -> file_list (ent_context s') !! i = Some (Some (path_of directory name))) /\
    (no_collision (map (path_of directory) (take 1024 names)) -> forall i name, (i < 1024)%nat -> names !! i = Some name ->
      retrieve_file_data (djb2_hash (path_of directory name)) s' = Some (entry_of (path_of directory name))).
Proof.
  intros Hn Ha Hsz Hdir Hok. destruct (build_start directory s Hn Ha Hsz) as (s0 & Hl & Ha0 & Hd & Hdl & ->).
  unfold scan_directory. rewrite Hdir. cbn [of_option]. rewrite bind_Ok.
  destruct (fill_lists directory names [] s0 Hl Ha0 Hd Hdl Hok) as (s' & -> & [Hn' Hb Hf Ht]). cbn [app List.length] in *. rewrite Nat.sub_0_r in *.
  exists s'. split; [done|]. split; [rewrite Hn', length_map, length_take; lia|].
  assert (Hlook : forall i name, (i < 1024)%nat -> names !! i = Some name -> map (path_of directory) (take 1024 names) !! i = Some (path_of directory name)).
  { intros i name Hi Hname. apply list_lookup_fmap_Some_2. by rewrite lookup_take_lt. }
  split.
  - intros i name Hi Hname. rewrite Hf. apply lookup_app_l_Some, list_lookup_fmap_Some_2. by apply Hlook.
  - intros Hnc i name Hi Hname. rewrite Ht. apply last_filter_unique; [done|]. by eapply list_elem_of_lookup_2, Hlook.
Qed.

(** ** Blocks are read again *)
Lemma int32_small x : 0 <= x < 2 ^ 31 -> int32 x = x.
Proof. intros H. unfold int32. rewrite wrap_id by (unfold in_range; lia). by destruct (Z.ltb_spec x (2 ^ 31)); [|lia]. Qed.

Lemma read_listed path bp data block s : retrieve_file_data (djb2_hash path) s = Some (entry_of path) -> 0 <= bp -> bp * 4096 < 2 ^ 32 ->
  filp_open path = true -> kernel_read path (bp * 4096) = inr data ->
  read_entropy (djb2_hash path) bp block s = Ok (Z.of_nat (List.length data), data ++ drop (List.length data) block).
Proof.
  intros Hr H0 Hbp Ho Hd. unfold read_entropy, BLOCK_LENGTH. rewrite wrap_id by (unfold in_range; lia). rewrite Hr. cbn [entry_of filename]. by rewrite Ho, Hd.
Qed.

(** C31: for files that are not empty, are 4 GiB at most, open and can be read,
    whatever the random bytes an entropy block is allocated, it is a block of a
    listed file, and reading the block named by the returned hash and block
    number gives the bytes that were read then; what a short read leaves of the
    buffer is not part of them. *)
Theorem entropy_roundtrip paths s r1 r2 block : listed paths s -> paths <> [] ->
  Forall (fun path => 0 < file_size (entry_of path) <= 2 ^ 32 /\ filp_open path = true /\ forall off, exists data, kernel_read path off = inr data) paths ->
  exists path bp data, path ∈ paths /\ 0 <= bp /\ bp * BLOCK_LENGTH < file_size (entry_of path) /\ kernel_read path (bp * BLOCK_LENGTH) = inr data /\
    allocate_entropy r1 r2 block s = Ok (djb2_hash path, bp, data ++ drop (List.length data) block) /\
    forall block', read_entropy (djb2_hash path) bp block' s = Ok (Z.of_nat (List.length data), data ++ drop (List.length data) block').
Proof.
  intros [Hn Hb Hf Ht] Hne Hok. assert (Hpos : (0 < List.length paths)%nat) by (destruct paths; [done|cbn; lia]).
  unfold allocate_entropy. rewrite Hn. destruct (Z.eqb_spec (Z.of_nat (List.length paths)) 0); [lia|].
  pose proof (Z.mod_pos_bound (u32 r1) (Z.of_nat (List.length paths)) ltac:(lia)) as Hi. set (i := u32 r1 mod Z.of_nat (List.length paths)) in *.
  rewrite (int32_small i) by lia. destruct (lookup_lt_is_Some_2 paths (Z.to_nat i)) as [p Hp]; [lia|].
  rewrite Hf, (lookup_app_l_Some _ _ _ (Some p)) by (by apply list_lookup_fmap_Some_2). cbn [of_option]. rewrite bind_Ok. cbn [of_option]. rewrite bind_Ok.
  destruct (last_filter_found paths p) as (q & Hq & Eq & Hlast); [by eapply list_elem_of_lookup_2|]. rewrite Ht, Hlast. cbn [of_option]. rewrite bind_Ok.
  assert (Hget : retrieve_file_data (djb2_hash q) s = Some (entry_of q)) by by rewrite Ht, Eq.
  destruct (proj1 (Forall_forall _ _) Hok q Hq) as ([H0 H32] & Hopen & Hread). destruct (Z.eqb_spec (file_size (entry_of q)) 0); [lia|].
  pose proof (Z.mod_pos_bound (u64 (int32 r2)) (file_size (entry_of q)) ltac:(lia)) as Hx. set (x := u64 (int32 r2) mod file_size (entry_of q)) in *.
  pose proof (Z.div_mod x BLOCK_LENGTH ltac:(done)) as Hdm. pose proof (Z.mod_pos_bound x BLOCK_LENGTH ltac:(done)) as Hm. unfold BLOCK_LENGTH in *.
  rewrite (int32_small (x / 4096)) by lia. rewrite (wrap_id _ (x / 4096)) by (unfold in_range; lia). destruct (Hread (x / 4096 * 4096)) as [data Hdata].
  exists q, (x / 4096), data. split; [done|]. split; [lia|]. split; [lia|]. split; [done|]. cbn [key entry_of].
  rewrite (read_listed q (x / 4096) data) by (done || lia). rewrite bind_Ok. split; [done|].
  intros block'. apply read_listed; (done || lia).
Qed.

(** Once a file has been listed, cleaning up stops in a fault: the entries are freed
    while the loop still follows their links. *)
Theorem cleanup_faults paths s : listed paths s -> paths <> [] -> cleanup_entropy_ht s = Fault.
Proof.
  intros [Hn Hb Hf Ht] Hne. unfold cleanup_entropy_ht. rewrite bool_decide_eq_false_2.
  - rewrite Hn, Nat2Z.id. forM_induction (fun (_ : nat) (_ : unit) => True); [done|intros k [] Hk _|destruct Hloop as (u & -> & _); done].
    destruct (lookup_lt_is_Some_2 paths k) as [p Hp]; [lia|].
    rewrite Hf, Nat2Z.id, (lookup_app_l_Some _ _ _ (Some p)) by (by apply list_lookup_fmap_Some_2). by exists ().
  -   intros Hall. destruct paths as [|p paths]; [done|]. destruct (last_filter_found (p :: paths) p) as (q & _ & _ & Hl); [by left|].
    rewrite <- Ht in Hl. unfold retrieve_file_data in Hl. destruct (dm_afs_ht s !! _) as [chain|] eqn:E; [|done].
    by rewrite (Hall _ _ E) in Hl.
Qed.
End Entropy.

(** ** Witnesses *)
Definition sample_bucket (k bits : Z) : Z := k mod 2 ^ bits.
Definition sample_read (path : list Z) (off : Z) : Z + list Z := inr [u8 off; 7].
Definition sample_dir (path : list Z) : option (list (list Z)) := Some [[97]; [98]].
Definition sample_start : entropy := mk_entropy (mk_context 0 [] 0 []) ∅ [].

Lemma build_lists_files_witness : exists s', build_entropy_ht sample_bucket (fun _ => true) (fun _ => Some 8192) 0 sample_dir [47] 1 sample_start = Ok s' /\
  number_of_files (ent_context s') = 2.
Proof.
  destruct (build_lists_files sample_bucket sample_bucket (fun _ => true) (fun _ => Some 8192) 0 sample_dir (fun _ => eq_refl) [47] [[97]; [98]] sample_start)
    as (s' & E & Hn & _); [reflexivity|reflexivity|reflexivity|reflexivity|repeat constructor|].
  exists s'. split; [exact E|exact Hn].
Defined.

Definition sample_pool : entropy :=
  match build_entropy_ht sample_bucket (fun _ => true) (fun _ => Some 8192) 0 sample_dir [47] 1 sample_start with Ok s => s | _ => sample_start end.

Lemma sample_pool_listed : listed sample_bucket (fun _ => Some 8192) 0 [[47; 47; 97]; [47; 47; 98]] sample_pool.
Proof.
  destruct (build_start sample_bucket sample_bucket (fun _ => true) (fun _ => Some 8192) 0 sample_dir [47] sample_start) as (s0 & Hl & Ha & Hd & Hdl & E); [done..|].
  unfold sample_pool. change 1 with (Z.of_nat (List.length [47])). rewrite E. unfold scan_directory. cbn [sample_dir of_option]. rewrite bind_Ok.
  destruct (fill_lists sample_bucket sample_bucket (fun _ => true) (fun _ => Some 8192) 0 (fun _ => eq_refl) [47] [[97]; [98]] [] s0 Hl Ha Hd Hdl) as (s' & -> & Hl');
    [repeat constructor|exact Hl'].
Qed.

Lemma entropy_roundtrip_witness : exists h bp b b', allocate_entropy sample_bucket (fun _ => true) sample_read 5 5000 [0; 0] sample_pool = Ok (h, bp, b) /\
  read_entropy sample_bucket (fun _ => true) sample_read h bp [1; 1] sample_pool = Ok (2, b') /\ b = b'.
Proof.
  destruct (entropy_roundtrip sample_bucket (fun _ => Some 8192) 0 (fun _ => true) sample_read [[47; 47; 97]; [47; 47; 98]] sample_pool 5 5000 [0; 0])
    as (path & bp & data & _ & _ & _ & Hd & Ha & Hr); [exact sample_pool_listed|discriminate| |].
  { apply Forall_forall. intros p _. split; [split; [reflexivity|discriminate]|]. split; [reflexivity|]. intros off. eexists. reflexivity. }
  exists (djb2_hash path), bp, data, data. injection Hd as <-. split; [exact Ha|]. split; [exact (Hr [1; 1])|reflexivity].
Defined.

Lemma cleanup_faults_witness : cleanup_entropy_ht sample_pool = Fault.
Proof. apply (cleanup_faults sample_bucket (fun _ => Some 8192) 0 [[47; 47; 97]; [47; 47; 98]]); [exact sample_pool_listed|discriminate]. Defined.
