(* ===== verification/Fat32.v ===== *)
(** * Fat32: detection of a FAT volume and its free clusters (src/modules/dm_afs_fat32.c)

    The parameters of the boot sector, the file allocation table read into
    memory, and the list of free clusters handed to the allocator. The
    contents of fresh memory and the places of buffers are parameters; the
    allocations succeed (the code tests their results with [IS_ERR], which a
    failed [kmalloc] does not satisfy). *)
From stdpp Require Import base tactics option list numbers gmap.
From Stdlib Require Import ZArith Lia.
From S2P Require Import Prelude BlockIo Allocation.

Local Open Scope Z_scope.
Local Open Scope afs_scope.

(** ** The boot sector *)

Record fat32_ebpb := mk_fat32_ebpb {
  e_sec_fat : Z; e_drive_desc : Z; e_version : Z; e_root_start_clust : Z; e_fs_info_sec : Z; e_alt_boot_sec : Z
}.
Definition fat32_ebpb_of (bs : list Z) : fat32_ebpb :=
  mk_fat32_ebpb (le_field 0 4 bs) (le_field 4 2 bs) (le_field 6 2 bs) (le_field 8 4 bs) (le_field 12 2 bs) (le_field 14 2 bs).

Record nonfat32_ebpb := mk_nonfat32_ebpb {
  physical_drive_num : Z; extended_boot_sig : Z; volume_id : Z; e_volume_label : list Z; e_fs_type : list Z
}.
Definition nonfat32_ebpb_of (bs : list Z) : nonfat32_ebpb :=
  mk_nonfat32_ebpb (le_field 0 1 bs) (le_field 2 1 bs) (le_field 3 4 bs) (field 7 11 bs) (field 18 8 bs).

(** The two members of the union both lie at byte 36. *)
Record fat_boot_sector := mk_fat_boot_sector {
  b_oem_name : list Z; b_bytes_sec : Z; b_sec_cluster : Z; b_res_sec : Z; b_num_tables : Z; b_max_root_ent : Z;
  b_total_sectors : Z; b_media_desc : Z; b_sec_fat : Z; b_sec_track : Z; b_num_heads : Z; b_hidden_sec : Z;
  b_total_sec_32 : Z; b_fat32_ebpb : fat32_ebpb; b_nonfat32_ebpb : nonfat32_ebpb
}.
Definition fat_boot_sector_of (bs : list Z) : fat_boot_sector :=
  mk_fat_boot_sector (field 3 8 bs) (le_field 11 2 bs) (le_field 13 1 bs) (le_field 14 2 bs) (le_field 16 1 bs) (le_field 17 2 bs)
    (le_field 19 2 bs) (le_field 21 1 bs) (le_field 22 2 bs) (le_field 24 2 bs) (le_field 26 2 bs) (le_field 28 4 bs)
    (le_field 32 4 bs) (fat32_ebpb_of (drop 36 bs)) (nonfat32_ebpb_of (drop 36 bs)).

(** ** The volume

    The fields of [struct fat_volume], grouped as its comments group them; the
    table and the list of clusters it also points to are the results of
    [fat_map]. *)
Record dos_2_0 := mk_dos_2_0 {
  bytes_sector : Z; sector_order : Z; sec_cluster : Z; sec_cluster_order : Z; cluster_order : Z; reserved : Z;
  tables : Z; root_entries : Z; media_desc : Z; total_sec : Z; sec_fat : Z
}.
Record dos_3_31 := mk_dos_3_31 { sec_track : Z; num_heads : Z; hidden_sec : Z }.
Record fat32_ext := mk_fat32_ext { driv_desc : Z; version : Z; root_dir_start : Z; fs_info_sec : Z; alt_boot_sec : Z }.
Record nonfat32_ext := mk_nonfat32_ext { phys_driv_num : Z; ext_boot_sig : Z; vol_id : Z; volume_label : list Z; fs_type : list Z }.

Record fat_volume := mk_fat_volume {
  oem_name : list Z;
  bpb : dos_2_0;
  bpb_3_31 : dos_3_31;
  fat32 : fat32_ext;
  nonfat32 : nonfat32_ext;
  num_data_clusters : Z
}.

Definition set_total_sec (n : Z) (v : dos_2_0) : dos_2_0 :=
  {| bytes_sector := bytes_sector v; sector_order := sector_order v; sec_cluster := sec_cluster v;
     sec_cluster_order := sec_cluster_order v; cluster_order := cluster_order v; reserved := reserved v;
     tables := tables v; root_entries := root_entries v; media_desc := media_desc v; total_sec := n; sec_fat := sec_fat v |}.
Definition set_sec_fat (n : Z) (v : dos_2_0) : dos_2_0 :=
  {| bytes_sector := bytes_sector v; sector_order := sector_order v; sec_cluster := sec_cluster v;
     sec_cluster_order := sec_cluster_order v; cluster_order := cluster_order v; reserved := reserved v;
     tables := tables v; root_entries := root_entries v; media_desc := media_desc v; total_sec := total_sec v; sec_fat := n |}.

(** Bit scan reverse; its operand is not zero where its result is used. *)
Definition bsr (n : Z) : Z := Z.log2 n.

Section BootSector.

(** The test of the kernel's library. *)
Context (is_power_of_2 : Z -> bool).

(** The result is [None] where the code returns -1. *)
Definition fat_read_dos_2_0_bpb (boot_sec : fat_boot_sector) : option dos_2_0 :=
  let bytes_sector := b_bytes_sec boot_sec in
  let sector_order := bsr bytes_sector in
  if negb (is_power_of_2 bytes_sector && (5 <=? sector_order) && (sector_order <=? 12)) then None else
  let sec_cluster := b_sec_cluster boot_sec in
  let sec_cluster_order := bsr sec_cluster in
  if negb (is_power_of_2 sec_cluster && (sec_cluster_order <=? 7)) then None else
  let tables := b_num_tables boot_sec in
  if negb ((tables =? 1) || (tables =? 2)) then None else
  Some {| bytes_sector := bytes_sector; sector_order := sector_order; sec_cluster := sec_cluster;
          sec_cluster_order := sec_cluster_order; cluster_order := sector_order + sec_cluster_order;
          reserved := b_res_sec boot_sec; tables := tables; root_entries := b_max_root_ent boot_sec;
          media_desc := b_media_desc boot_sec; total_sec := b_total_sectors boot_sec; sec_fat := b_sec_fat boot_sec |}.

Definition fat_read_dos_3_31_bpb (v : dos_2_0) (boot_sec : fat_boot_sector) : dos_2_0 * dos_3_31 :=
  ((if total_sec v =? 0 then set_total_sec (b_total_sec_32 boot_sec) v else v),
   {| sec_track := b_sec_track boot_sec; num_heads := b_num_heads boot_sec; hidden_sec := b_hidden_sec boot_sec |}).

Definition fat_read_nonfat32_ebpb (ebpb : nonfat32_ebpb) : nonfat32_ext :=
  {| phys_driv_num := physical_drive_num ebpb; ext_boot_sig := extended_boot_sig ebpb; vol_id := volume_id ebpb;
     volume_label := e_volume_label ebpb; fs_type := e_fs_type ebpb |}.

Definition fat_read_fat32_ebpb (v : dos_2_0) (ebpb : fat32_ebpb) : option (dos_2_0 * fat32_ext) :=
  let v' := if e_sec_fat ebpb =? 0 then v else set_sec_fat (e_sec_fat ebpb) v in
  if negb (e_sec_fat ebpb =? 0) && negb (Z.shiftr (u64 (Z.shiftl (sec_fat v') (sector_order v'))) (sector_order v') =? sec_fat v')
  then None else
  if negb (e_version ebpb =? 0) then None else
  if e_root_start_clust ebpb =? 0 then None else
  let fs_info_sec := if e_fs_info_sec ebpb =? 0xffff then 0 else e_fs_info_sec ebpb in
  if negb (fs_info_sec =? 0) && (sector_order v' <? 9) then None else
  Some (v', {| driv_desc := e_drive_desc ebpb; version := e_version ebpb; root_dir_start := e_root_start_clust ebpb;
               fs_info_sec := fs_info_sec; alt_boot_sec := e_alt_boot_sec ebpb |}).

Definition read_boot_sector (data : list Z) : option fat_volume :=
  let boot_sec := fat_boot_sector_of (take 512 data) in
  v ← fat_read_dos_2_0_bpb boot_sec;
  let '(v, bpb_3_31) := fat_read_dos_3_31_bpb v boot_sec in
  '(v, fat32) ← fat_read_fat32_ebpb v (b_fat32_ebpb boot_sec);
  let nonfat32 := fat_read_nonfat32_ebpb (b_nonfat32_ebpb boot_sec) in
  let num_data_sectors :=
    u32 (total_sec v - reserved v - sec_fat v *32 tables v - Z.shiftr (Z.shiftl (root_entries v) 5) (sector_order v)) in
  Some {| oem_name := b_oem_name boot_sec; bpb := v; bpb_3_31 := bpb_3_31; fat32 := fat32; nonfat32 := nonfat32;
          num_data_clusters := num_data_sectors / sec_cluster v |}.

End BootSector.

(** ** The file allocation table *)
Section FatMap.
Context (is_power_of_2 : Z -> bool).

(** What fresh memory of a size contains, and where the buffer of the n-th read
    lies: [kmalloc] may give an aligned page or not. *)
Context (uninit : nat -> list Z) (place : Z -> buffer_place).

Definition fat_offset (v : dos_2_0) : Z := Z.shiftl (reserved v) (sector_order v).
Definition fat_aligned_offset (v : dos_2_0) : Z := Z.ldiff (fat_offset v) 4095.
Definition fat_size_bytes (v : dos_2_0) : Z := sec_fat v *32 bytes_sector v.
Definition fat_aligned_size_bytes (v : dos_2_0) : Z := fat_size_bytes v + (fat_offset v - fat_aligned_offset v).
Definition page_number (v : dos_2_0) : Z := u32 (fat_aligned_size_bytes v / 4096 + 1).
Definition start_off (v : dos_2_0) : Z := (tables v *32 sec_fat v) +32 reserved v.

(** The table as bytes; [None] is the null pointer. *)
Definition read_fat (v : dos_2_0) (device : block_device) : res (option (list Z) * block_device) :=
  if fat_aligned_offset v + fat_aligned_size_bytes v >? 4096 then
    let fat_data := uninit (Z.to_nat (page_number v *32 AFS_BLOCK_SIZE)) in
    '(_, fat_data, device) ← forM (Z.to_nat (page_number v)) 0 (fun i '(reader, fat_data, device) =>
        '(_, reader, device) ← read_page (place i) reader device (u32 (fat_aligned_offset v / 4096 + i)) 0 true;
        fat_data ← of_option (splice (Z.to_nat (i * 4096)) (take 4096 reader) fat_data);
        Ok (reader, fat_data, device)) (uninit 4096, fat_data, device);
    Ok (Some fat_data, device)
  else Ok (None, device).

(** [p[i]]. *)
Definition entry_at (fat_data : option (list Z)) (i : Z) : res Z :=
  match fat_data with
  | None => Fault
  | Some bs => w ← of_option (slice (Z.to_nat (4 * i)) 4 bs); Ok (le_load w)
  end.

(** One turn of the scan: the list and the number of its entries. *)
Definition scan_entry (fat_data : option (list Z)) (i : Z) (s : list Z * Z) : res (list Z * Z) :=
  let '(empty_clusters, cluster_number) := s in
  e ← entry_at fat_data i;
  if e =? 0 then
    empty_clusters ← put empty_clusters cluster_number i;
    Ok (empty_clusters, cluster_number + 1)
  else Ok (empty_clusters, cluster_number).

Definition fat_map (vol : fat_volume) (device : block_device) : res (list Z * Z * block_device) :=
  let v := bpb vol in
  '(fat_data, device) ← read_fat v device;
  let empty_clusters := replicate (Z.to_nat (fat_size_bytes v / 4)) 0 in
  '(empty_clusters, cluster_number) ← forM (Z.to_nat (num_data_clusters vol)) 0 (scan_entry fat_data) (empty_clusters, 0);
  Ok (empty_clusters, cluster_number, device).

(** [fs] may be a null pointer; the result is [None] where the code returns false. *)
Definition afs_fat32_detect (data : list Z) (device : block_device) (fs : option afs_passive_fs) : res (option afs_passive_fs * block_device) :=
  match read_boot_sector is_power_of_2 data with
  | None => Ok (None, device)
  | Some vol =>
      '(empty_clusters, num_empty_clusters, device) ← fat_map vol device;
      match fs with
      | None => Ok (None, device)
      | Some fs =>
          Ok (Some {| block_list := empty_clusters; list_len := num_empty_clusters; sectors_per_block := sec_cluster (bpb vol);
                      total_blocks := num_data_clusters vol; data_start_off := start_off (bpb vol);
                      blocks_in_tuple := blocks_in_tuple fs |}, device)
      end
  end.
End FatMap.

(** ** The parameters of an accepted boot sector *)
Definition geometry_ok (v : dos_2_0) : Prop :=
  bytes_sector v = 2 ^ sector_order v /\ 5 <= sector_order v <= 12 /\
  sec_cluster v = 2 ^ sec_cluster_order v /\ 0 <= sec_cluster_order v <= 7 /\
  (tables v = 1 \/ tables v = 2) /\ in_range 16 (reserved v) /\ in_range 16 (root_entries v) /\
  in_range 32 (total_sec v) /\ in_range 32 (sec_fat v).

Section Geometry.
Context (is_power_of_2 : Z -> bool).
Context (is_power_of_2_spec : forall n, 0 <= n -> is_power_of_2 n = true <-> exists k, 0 <= k /\ n = 2 ^ k).

Lemma is_power_of_2_log n : 0 <= n -> is_power_of_2 n = true -> n = 2 ^ Z.log2 n.
Proof. intros Hn (k & Hk & ->)%is_power_of_2_spec; [|done]. by rewrite Z.log2_pow2. Qed.

Lemma dos_2_0_geometry boot_sec v :
  in_range 16 (b_bytes_sec boot_sec) -> in_range 8 (b_sec_cluster boot_sec) -> in_range 16 (b_res_sec boot_sec) ->
  in_range 16 (b_max_root_ent boot_sec) -> in_range 16 (b_total_sectors boot_sec) -> in_range 16 (b_sec_fat boot_sec) ->
  fat_read_dos_2_0_bpb is_power_of_2 boot_sec = Some v -> geometry_ok v.
Proof.
  intros Rb Rc Rr Re Rt Rf. unfold fat_read_dos_2_0_bpb.
  destruct (_ && _ && _) eqn:H1; [|done]. apply andb_true_iff in H1 as [[Hp1 Hl%Z.leb_le]%andb_true_iff Hh%Z.leb_le].
  destruct (is_power_of_2 (b_sec_cluster boot_sec) && _) eqn:H2; [|done]. apply andb_true_iff in H2 as [Hp2 Hc%Z.leb_le].
  destruct (_ || _) eqn:H3; [|done]. intros [= <-]. unfold bsr in *. unfold geometry_ok; cbn.
  apply orb_true_iff in H3. rewrite !Z.eqb_eq in H3. destruct Rb, Rc.
  split_and!; try done; try lia; try (by apply is_power_of_2_log); try (by apply (in_range_weaken 16)); try apply Z.log2_nonneg.
Qed.

(** Sectors before the data area. *)
Definition overhead (v : dos_2_0) : Z :=
  reserved v + sec_fat v * tables v + Z.shiftr (Z.shiftl (root_entries v) 5) (sector_order v).

Lemma geometry_set_total v n : in_range 32 n -> geometry_ok v -> geometry_ok (set_total_sec n v).
Proof. unfold geometry_ok; cbn. tauto. Qed.

Lemma geometry_set_fat v n : in_range 32 n -> geometry_ok v -> geometry_ok (set_sec_fat n v).
Proof. unfold geometry_ok; cbn. tauto. Qed.

Lemma read_boot_sector_inv data vol : bytes data -> read_boot_sector is_power_of_2 data = Some vol ->
  geometry_ok (bpb vol) /\ version (fat32 vol) = 0 /\ 0 < root_dir_start (fat32 vol) < 2 ^ 32 /\
  num_data_clusters vol = u32 (total_sec (bpb vol) - reserved (bpb vol) - sec_fat (bpb vol) *32 tables (bpb vol)
    - Z.shiftr (Z.shiftl (root_entries (bpb vol)) 5) (sector_order (bpb vol))) / sec_cluster (bpb vol).
Proof.
  intros Hb. unfold read_boot_sector. set (bs := take 512 data). assert (Hbs : bytes bs) by by apply Forall_take.
  destruct (fat_read_dos_2_0_bpb _ _) as [v|] eqn:E2; [|done]. cbn [mbind option_bind].
  assert (G : geometry_ok v) by exact (dos_2_0_geometry (fat_boot_sector_of bs) v (le_field_range 11 2 bs Hbs) (le_field_range 13 1 bs Hbs) (le_field_range 14 2 bs Hbs)
    (le_field_range 17 2 bs Hbs) (le_field_range 19 2 bs Hbs) (le_field_range 22 2 bs Hbs) E2).
  unfold fat_read_dos_3_31_bpb. set (v1 := if total_sec v =? 0 then _ else v).
  assert (G1 : geometry_ok v1) by (unfold v1; destruct (_ =? 0); [apply geometry_set_total; [exact (le_field_range 32 4 bs Hbs)|]|]; done).
  unfold fat_read_fat32_ebpb. set (e := b_fat32_ebpb (fat_boot_sector_of bs)). set (v2 := if e_sec_fat e =? 0 then v1 else _).
  assert (Hd : bytes (drop 36 bs)) by by apply Forall_drop.
  assert (G2 : geometry_ok v2) by (clearbody v1; unfold v2; destruct (e_sec_fat e =? 0); [|apply geometry_set_fat; [exact (le_field_range 0 4 _ Hd)|]]; done).
  destruct (_ && _); [done|]. destruct (Z.eqb_spec (e_version e) 0) as [Ev|]; [|done]. cbn [negb].
  destruct (Z.eqb_spec (e_root_start_clust e) 0) as [|Er]; [done|]. set (info := if _ =? 0xffff then _ else _).
  destruct (_ && _); [done|]. cbn [mbind option_bind]. intros [= <-]. cbn [bpb fat32 num_data_clusters version root_dir_start].
  split; [done|]. split; [done|]. split; [|done]. assert (R : in_range 32 (e_root_start_clust e)) by exact (le_field_range 8 4 _ Hd). destruct R. change (0 < e_root_start_clust e < 2 ^ 32). lia.
Qed.

(** What [read_boot_sector] accepts has the geometry of a FAT volume:
    sectors of 32 to 4096 bytes and clusters of 1 to 128 sectors, both powers of
    two with their orders, one or two tables, all fields in the range of
    their types; and the data clusters fit in the sectors that the reserved
    sectors, the tables and the root directory leave, if these do not exceed
    the volume. *)
Theorem read_boot_sector_geometry data vol :
  bytes data -> read_boot_sector is_power_of_2 data = Some vol ->
  geometry_ok (bpb vol) /\ version (fat32 vol) = 0 /\ 0 < root_dir_start (fat32 vol) < 2 ^ 32 /\
  in_range 32 (num_data_clusters vol) /\
  (overhead (bpb vol) <= total_sec (bpb vol) ->
   num_data_clusters vol * sec_cluster (bpb vol) + overhead (bpb vol) <= total_sec (bpb vol) <
   (num_data_clusters vol + 1) * sec_cluster (bpb vol) + overhead (bpb vol)).
Proof.
  intros Hb H. destruct (read_boot_sector_inv _ _ Hb H) as (G & Hv & Hr & En). split; [done|]. split; [done|]. split; [done|].
  unfold overhead. set (v := bpb vol) in *. set (rd := Z.shiftr _ _) in *. destruct G as (_ & Ho & Ec & Hc & Ht & Rr & Re & Rt & Rf).
  assert (Hc0 : 0 < sec_cluster v) by (rewrite Ec; apply Z.pow_pos_nonneg; lia).
  assert (Hrd : 0 <= rd) by (apply Z.shiftr_nonneg, Z.shiftl_nonneg, Re).
  set (q := u32 _) in En. assert (Rq : in_range 32 q) by (apply wrap_range; lia). split.
  - rewrite En. unfold in_range in *. split; [apply Z.div_pos; lia|]. apply Z.div_lt_upper_bound; nia.
  - intros Hov. unfold in_range in *. assert (0 <= sec_fat v * tables v) by (destruct Ht as [-> | ->]; lia).
    assert (Eq : q = total_sec v - reserved v - sec_fat v * tables v - rd).
    { unfold q. rewrite (wrap_id 32 (sec_fat v * tables v)) by (unfold in_range; lia). apply wrap_id. unfold in_range. lia. }
    rewrite En. pose proof (Z.div_mod q (sec_cluster v) ltac:(lia)). pose proof (Z.mod_pos_bound q (sec_cluster v) Hc0). lia.
Qed.
End Geometry.

(** ** The table on the volume and in memory *)

(** Entry [i] of the table on the volume: the 32-bit word at byte [4 i] of the
    first table, which starts after the reserved sectors. A negative index
    reads the words before the table. *)
Definition fat_entry (v : dos_2_0) (device : block_device) (i : Z) : Z :=
  let o := fat_offset v + 4 * i in
  le_load (field (Z.to_nat (o mod 512)) 4 (get_sectors (sectors device) (o / 512) 2)).

(** What the code reads: whole pages from the one that holds the first byte of
    the table, whose words it takes for the entries. *)
Definition fat_image (v : dos_2_0) (device : block_device) : list Z :=
  pages_at device (fat_aligned_offset v / 4096) (Z.to_nat (page_number v)).
Definition scanned_entry (v : dos_2_0) (device : block_device) (i : Z) : Z :=
  le_load (field (Z.to_nat (4 * i)) 4 (fat_image v device)).

(** The words of that page before the table. *)
Definition fat_skew (v : dos_2_0) : Z := (fat_offset v - fat_aligned_offset v) / 4.

Definition free_clusters (vol : fat_volume) (device : block_device) (n : nat) : list Z :=
  filter (fun i => scanned_entry (bpb vol) device i = 0) (seqZ 0 (Z.of_nat n)).

(** The table lies beyond the first page, on the device, below 4 GiB, and has
    an entry for every data cluster. *)
Record fat_ok (vol : fat_volume) (device : block_device) : Prop := mk_fat_ok {
  fo_geometry : geometry_ok (bpb vol);
  fo_dev : dev_ok device;
  fo_large : 4096 < fat_aligned_offset (bpb vol) + fat_aligned_size_bytes (bpb vol);
  fo_pages : fat_aligned_offset (bpb vol) / 4096 + page_number (bpb vol) <= 2 ^ 20 - 1;
  fo_sects : 8 * (fat_aligned_offset (bpb vol) / 4096 + page_number (bpb vol)) <= nr_sects device;
  fo_entries : 0 <= 4 * num_data_clusters vol <= fat_size_bytes (bpb vol)
}.

Lemma fat_offsets v : geometry_ok v ->
  0 <= fat_aligned_offset v <= fat_offset v /\ fat_aligned_offset v mod 4096 = 0 /\ fat_offset v < 2 ^ 28 /\
  fat_aligned_offset v = 4096 * (fat_offset v / 4096).
Proof.
  intros (_ & Ho & _ & _ & _ & Rr & _). unfold fat_aligned_offset. change 4095 with (Z.ones 12).
  rewrite Z.ldiff_ones_r, Z.shiftl_mul_pow2, Z.shiftr_div_pow2 by lia. change (2 ^ 12) with 4096.
  assert (H0 : 0 <= fat_offset v < 2 ^ 28).
  { unfold fat_offset. rewrite Z.shiftl_mul_pow2 by lia. destruct Rr as [R0 R1].
    assert (2 ^ sector_order v <= 2 ^ 12) by (apply Z.pow_le_mono_r; lia). assert (0 < 2 ^ sector_order v) by (apply Z.pow_pos_nonneg; lia). nia. }
  pose proof (Z.div_mod (fat_offset v) 4096 ltac:(lia)). pose proof (Z.mod_pos_bound (fat_offset v) 4096 ltac:(lia)).
  split; [split; [|lia]|split; [apply Z.mod_mul; lia|split; [lia|lia]]]. apply Z.mul_nonneg_nonneg; [apply Z.div_pos|]; lia.
Qed.

Lemma fat_sizes v : geometry_ok v ->
  in_range 32 (fat_size_bytes v) /\ 0 <= fat_aligned_size_bytes v < 2 ^ 33 /\
  page_number v = fat_aligned_size_bytes v / 4096 + 1 /\ fat_size_bytes v < 4096 * page_number v.
Proof.
  intros G. destruct (fat_offsets v G) as (? & ? & ? & E). assert (R : in_range 32 (fat_size_bytes v)) by (apply wrap_range; lia).
  assert (Hd : fat_offset v - fat_aligned_offset v < 4096) by (rewrite E; pose proof (Z.mod_pos_bound (fat_offset v) 4096 ltac:(lia));
    pose proof (Z.div_mod (fat_offset v) 4096 ltac:(lia)); lia).
  unfold page_number, fat_aligned_size_bytes. unfold in_range in R. split; [done|]. split; [lia|].
  set (z := fat_size_bytes v + _). assert (0 <= z < 2 ^ 32 + 4096) by lia.
  assert (Ew : u32 (z / 4096 + 1) = z / 4096 + 1).
  { apply wrap_id. unfold in_range. split; [pose proof (Z.div_pos z 4096); lia|].
    assert (z / 4096 < 2 ^ 21) by (apply Z.div_lt_upper_bound; lia). lia. }
  rewrite Ew. split; [done|]. pose proof (Z.div_mod z 4096 ltac:(lia)). pose proof (Z.mod_pos_bound z 4096 ltac:(lia)). lia.
Qed.

Section FreeList.
Context (is_power_of_2 : Z -> bool) (uninit : nat -> list Z) (place : Z -> buffer_place).
Context (uninit_length : forall n, List.length (uninit n) = n) (place_is_ok : forall i, place_ok true (place i)).

Lemma fat_image_length v device : dev_ok device -> List.length (fat_image v device) = (4096 * Z.to_nat (page_number v))%nat.
Proof. apply pages_at_length. Qed.

Lemma read_fat_spec vol device : fat_ok vol device ->
  read_fat uninit place (bpb vol) device = Ok (Some (fat_image (bpb vol) device), device).
Proof.
  intros [G Hd Hlarge Hp Hs _]. set (v := bpb vol) in *. destruct (fat_offsets v G) as (Ha & Ham & _ & _).
  destruct (fat_sizes v G) as (_ & Hz & Epn & _). set (a := fat_aligned_offset v / 4096) in *.
  assert (Ha0 : 0 <= a) by (apply Z.div_pos; lia).
  assert (Hp0 : 1 <= page_number v) by (rewrite Epn; pose proof (Z.div_pos (fat_aligned_size_bytes v) 4096); lia).
  unfold read_fat. rewrite Z.gtb_ltb, (proj2 (Z.ltb_lt _ _) Hlarge). fold a. set (n := Z.to_nat (page_number v)).
  rewrite (wrap_id 32 (page_number v * AFS_BLOCK_SIZE)) by (unfold in_range, AFS_BLOCK_SIZE; lia).
  replace (Z.to_nat (page_number v * AFS_BLOCK_SIZE)) with (4096 * n)%nat by (unfold AFS_BLOCK_SIZE; lia).
  set (init := uninit (4096 * n)). assert (Hi : List.length init = (4096 * n)%nat) by apply uninit_length. clearbody init.
  forM_induction (fun i (s : list Z * list Z * block_device) => let '(reader, fat_data, dev) := s in
    List.length reader = 4096%nat /\ dev = device /\ fat_data = reading device a i init).
  - split; [by rewrite uninit_length|]. split; [done|]. unfold reading. by rewrite drop_0.
  - intros i [[reader fat_data] dev] Hin (Hl & -> & ->).
    assert (Hon : on_device device 0 (a + Z.of_nat i)) by (unfold on_device; lia).
    rewrite (wrap_id 32 (a + Z.of_nat i)) by (unfold in_range; lia).
    rewrite read_page_good by done. cbn [mbind res_bind]. replace (Z.to_nat (Z.of_nat i * 4096)) with (4096 * i)%nat by lia.
    rewrite (take_ge (block_at _ _ _)) by (by rewrite block_at_length). rewrite reading_S by (done || lia).
    cbn [of_option mbind res_bind]. eexists. split; [exact eq_refl|]. split; [by rewrite block_at_length|done].
  - destruct Hloop as ([[reader fat_data] dev] & -> & Hl & -> & ->). cbn [mbind res_bind]. by rewrite reading_all.
Qed.

(** A field of four bytes inside a run of sectors lies in two of them. *)
Lemma sectors_field4 m s (n o : nat) : sectors_ok m -> (o mod 4 = 0)%nat -> (o + 4 <= 512 * n)%nat ->
  field o 4 (get_sectors m s n) = field (o mod 512) 4 (get_sectors m (s + Z.of_nat (o / 512)) 2).
Proof.
  intros Hm H4 Ho. set (q := (o / 512)%nat). assert (Eo : o = (512 * q + o mod 512)%nat) by apply Nat.div_mod_eq.
  pose proof (Nat.mod_upper_bound o 512 ltac:(lia)). set (j := (o mod 512)%nat) in *.
  assert (Hj : (j + 4 <= 512)%nat) by (pose proof (Nat.div_mod_eq o 4) as E4; rewrite H4 in E4; generalize dependent (o / 4)%nat; lia).
  clearbody q j. replace n with (q + (1 + (n - q - 1)))%nat by lia. change 2%nat with (1 + 1)%nat.
  assert (Hpre : forall k, field j 4 (get_sectors m (s + Z.of_nat q) (1 + k)) = field j 4 (get_sectors m (s + Z.of_nat q) 1)).
  { intros k. rewrite get_sectors_app. unfold field. rewrite drop_app_le by (rewrite get_sectors_length by done; lia).
    by rewrite take_app_le by (rewrite length_drop, get_sectors_length by done; lia). }
  rewrite (get_sectors_app m s q), Hpre. etransitivity; [|apply (Hpre (n - q - 1)%nat)]. unfold field at 1. rewrite drop_app_ge by (rewrite get_sectors_length by done; lia).
  rewrite get_sectors_length by done. by replace (o - 512 * q)%nat with j by lia.
Qed.

(** The code takes the words from the start of the page for the table. *)
Lemma scanned_entry_skewed vol device i : fat_ok vol device -> 0 <= i < num_data_clusters vol ->
  scanned_entry (bpb vol) device i = fat_entry (bpb vol) device (i - fat_skew (bpb vol)).
Proof.
  intros [G [Ho Hd] _ _ _ He] Hi. set (v := bpb vol) in *. destruct (fat_offsets v G) as (Ha & Ham & _ & Ea).
  destruct (fat_sizes v G) as (_ & Hz & Epn & Hlt). destruct G as (_ & Hso & _).
  assert (E32 : fat_offset v = 4 * (reserved v * 2 ^ (sector_order v - 2))).
  { unfold fat_offset. rewrite Z.shiftl_mul_pow2 by lia. replace (sector_order v) with (2 + (sector_order v - 2)) at 1 by lia.
    rewrite Z.pow_add_r by lia. change (2 ^ 2) with 4. lia. }
  set (w := reserved v * 2 ^ (sector_order v - 2)) in *. clearbody w.
  set (q := fat_offset v / 4096) in *. assert (Eskew : 4 * fat_skew v = fat_offset v - fat_aligned_offset v).
  { unfold fat_skew. rewrite E32, Ea. replace (4 * w - 4096 * q) with ((w - 1024 * q) * 4) by lia. rewrite Z.div_mul by lia. lia. }
  assert (Hq : 0 <= q) by lia.
  unfold scanned_entry, fat_entry, fat_image, pages_at. cbv zeta. f_equal.
  replace (fat_offset v + 4 * (i - fat_skew v)) with (4 * i + q * 8 * 512) by lia.
  rewrite (sectors_field4 (sectors device)); [|done| |].
  - assert (Eq : fat_aligned_offset v / 4096 = q) by (rewrite Ea, Z.mul_comm, Z.div_mul by lia; done). rewrite Eq.
    rewrite Z.mod_add, Z.div_add by lia. f_equal.
    + apply Nat2Z.inj. rewrite Nat2Z.inj_mod, !Z2Nat.id by (try apply Z.mod_pos_bound; lia). done.
    + f_equal. rewrite Nat2Z.inj_div, Z2Nat.id by lia. change (Z.of_nat 512) with 512. lia.
  - apply Nat2Z.inj. rewrite Nat2Z.inj_mod, Z2Nat.id by lia. change (Z.of_nat 4) with 4. rewrite Z.mul_comm. apply Z.mod_mul. lia.
  - apply Nat2Z.inj_le. rewrite !Nat2Z.inj_add, !Nat2Z.inj_mul, !Z2Nat.id by lia. change (Z.of_nat 4) with 4. change (Z.of_nat 512) with 512. change (Z.of_nat 8) with 8. lia.
Qed.

(** When the reserved sectors fill whole pages there are none. *)
Lemma fat_skew_aligned v : geometry_ok v -> fat_offset v mod 4096 = 0 -> fat_skew v = 0.
Proof.
  intros G H. destruct (fat_offsets v G) as (_ & _ & _ & Ea). unfold fat_skew. rewrite Ea.
  pose proof (Z.div_mod (fat_offset v) 4096 ltac:(lia)). by replace (fat_offset v - 4096 * (fat_offset v / 4096)) with 0 by lia.
Qed.

Lemma scanned_entry_aligned vol device i : fat_ok vol device -> fat_offset (bpb vol) mod 4096 = 0 -> 0 <= i < num_data_clusters vol ->
  scanned_entry (bpb vol) device i = fat_entry (bpb vol) device i.
Proof.
  intros Hok Ha Hi. rewrite scanned_entry_skewed by done. rewrite fat_skew_aligned by (done || apply Hok). by rewrite Z.sub_0_r.
Qed.

Lemma entry_at_spec vol device i : fat_ok vol device -> 0 <= i < num_data_clusters vol ->
  entry_at (Some (fat_image (bpb vol) device)) i = Ok (scanned_entry (bpb vol) device i).
Proof.
  intros [G Hd _ _ _ He] Hi. destruct (fat_sizes _ G) as (_ & _ & _ & Hlt). unfold entry_at.
  rewrite slice_Some by (rewrite fat_image_length by done; lia). done.
Qed.

Lemma free_clusters_S vol device n : free_clusters vol device (S n) =
  free_clusters vol device n ++ (if scanned_entry (bpb vol) device (Z.of_nat n) =? 0 then [Z.of_nat n] else []).
Proof.
  unfold free_clusters. replace (Z.of_nat (S n)) with (Z.of_nat n + 1) by lia. rewrite seqZ_app, filter_app by lia. f_equal.
  rewrite Z.add_0_l. change (seqZ (Z.of_nat n) 1) with [0 + Z.of_nat n]. rewrite Z.add_0_l, filter_cons, filter_nil.
  destruct (Z.eqb_spec (scanned_entry (bpb vol) device (Z.of_nat n)) 0); by case_decide.
Qed.

Lemma free_clusters_length vol device n : (List.length (free_clusters vol device n) <= n)%nat.
Proof. unfold free_clusters. rewrite length_filter, length_seqZ. lia. Qed.

Lemma scan_table_spec vol device : fat_ok vol device ->
  let n := Z.to_nat (num_data_clusters vol) in
  let N := Z.to_nat (fat_size_bytes (bpb vol) / 4) in
  let l := free_clusters vol device n in
  forM n 0 (scan_entry (Some (fat_image (bpb vol) device))) (replicate N 0, 0) =
  Ok (l ++ replicate (N - List.length l) 0, Z.of_nat (List.length l)).
Proof.
  intros Hok n N l. pose proof Hok as [G Hd _ _ _ He]. destruct (fat_sizes _ G) as (R & _).
  assert (HnN : (n <= N)%nat) by (unfold n, N; apply Z2Nat.inj_le; [lia|apply Z.div_pos; unfold in_range in R; lia|apply Z.div_le_lower_bound; lia]).
  forM_induction (fun i s => s = (free_clusters vol device i ++ replicate (N - List.length (free_clusters vol device i)) 0, Z.of_nat (List.length (free_clusters vol device i)))).
  - cbn. by rewrite Nat.sub_0_r.
  - intros i s Hi ->. unfold scan_entry. rewrite entry_at_spec by (done || lia). cbn [mbind res_bind]. rewrite free_clusters_S.
    pose proof (free_clusters_length vol device i) as Hfl.
    destruct (_ =? 0); [|by rewrite app_nil_r; eexists].
    rewrite put_nat by (rewrite length_app, length_replicate; lia). cbn [mbind res_bind]. eexists. split; [done|].
    rewrite length_app. cbn [List.length]. f_equal; [|lia].
    rewrite insert_app_r_alt, Nat.sub_diag by lia. rewrite <- app_assoc. f_equal.
    replace (N - List.length (free_clusters vol device i))%nat with (S (N - (List.length (free_clusters vol device i) + 1))) by lia. done.
  - destruct Hloop as (s & -> & ->). done.
Qed.

Lemma fat_map_spec vol device : fat_ok vol device ->
  let l := free_clusters vol device (Z.to_nat (num_data_clusters vol)) in
  fat_map uninit place vol device =
  Ok (l ++ replicate (Z.to_nat (fat_size_bytes (bpb vol) / 4) - List.length l) 0, Z.of_nat (List.length l), device).
Proof.
  intros Hok l. unfold fat_map. rewrite read_fat_spec by done. cbn [mbind res_bind].
  rewrite (scan_table_spec vol device Hok). done.
Qed.

Lemma free_clusters_elem vol device i : i ∈ free_clusters vol device (Z.to_nat (num_data_clusters vol)) <->
  0 <= i < num_data_clusters vol /\ scanned_entry (bpb vol) device i = 0.
Proof. unfold free_clusters. rewrite list_elem_of_filter, elem_of_seqZ. lia. Qed.

Lemma free_clusters_ascending vol device n : ascending (free_clusters vol device n).
Proof.
  induction n as [|n IH]; [by intros i j x y _ Hi|]. rewrite free_clusters_S. destruct (_ =? 0); [|by rewrite app_nil_r].
  intros i j x y Hij Hi Hj. assert (Hsmall : forall k z, free_clusters vol device n !! k = Some z -> z < Z.of_nat n).
  { intros k z Hk. apply list_elem_of_lookup_2 in Hk. unfold free_clusters in Hk.
    apply list_elem_of_filter in Hk as [_ Hk%elem_of_seqZ]. lia. }
  apply lookup_app_Some in Hj as [Hj|[Hl Hj]].
  - rewrite lookup_app_l in Hi by (apply lookup_lt_Some in Hj; lia). by eapply IH.
  - apply list_lookup_singleton_Some in Hj as [Hj <-]. rewrite lookup_app_l in Hi by lia. by apply Hsmall in Hi.
Qed.

Lemma detect_spec data device fs vol : read_boot_sector is_power_of_2 data = Some vol -> fat_ok vol device ->
  let l := free_clusters vol device (Z.to_nat (num_data_clusters vol)) in
  afs_fat32_detect is_power_of_2 uninit place data device (Some fs) =
  Ok (Some {| block_list := l ++ replicate (Z.to_nat (fat_size_bytes (bpb vol) / 4) - List.length l) 0;
              list_len := Z.of_nat (List.length l); sectors_per_block := sec_cluster (bpb vol);
              total_blocks := num_data_clusters vol; data_start_off := start_off (bpb vol);
              blocks_in_tuple := blocks_in_tuple fs |}, device).
Proof. intros Hb Hok l. unfold afs_fat32_detect. rewrite Hb, fat_map_spec by done. done. Qed.

Lemma detected_free_list l N spb tb off bt :
  free_list {| block_list := l ++ replicate N 0; list_len := Z.of_nat (List.length l); sectors_per_block := spb;
               total_blocks := tb; data_start_off := off; blocks_in_tuple := bt |} = l.
Proof. unfold free_list. cbn [list_len block_list]. rewrite Nat2Z.id. by apply take_app_length'. Qed.

(** C14: on a device whose reads succeed, for a volume whose reserved sectors
    fill whole pages of 4096 bytes, with a table that does not end in the first
    page of the device, lies below 4 GiB and has an entry for every data
    cluster, [afs_fat32_detect] recognises the volume; the free list is exactly
    the ascending list of the indices below the number of clusters whose entry
    of the first table on the volume is 0, it is what the allocator and
    [binary_search] expect (without repetition, inside its array, below the
    invalid block number), and the device is not changed. *)
Theorem fat32_detect_free_list data device fs vol :
  read_boot_sector is_power_of_2 data = Some vol -> fat_ok vol device -> fat_offset (bpb vol) mod 4096 = 0 ->
  exists fs', afs_fat32_detect is_power_of_2 uninit place data device (Some fs) = Ok (Some fs', device) /\
    (forall i, i ∈ free_list fs' <-> 0 <= i < num_data_clusters vol /\ fat_entry (bpb vol) device i = 0) /\
    ascending (free_list fs') /\ NoDup (free_list fs') /\
    Forall (fun b => 0 <= b < AFS_INVALID_BLOCK) (free_list fs') /\
    list_len fs' = Z.of_nat (List.length (free_list fs')) /\ list_len fs' <= Z.of_nat (List.length (block_list fs')) /\
    sectors_per_block fs' = sec_cluster (bpb vol) /\ total_blocks fs' = num_data_clusters vol.
Proof.
  intros Hb Hok Hal. eexists. split; [by apply detect_spec|]. rewrite detected_free_list. cbn [list_len block_list sectors_per_block total_blocks].
  pose proof (free_clusters_ascending vol device (Z.to_nat (num_data_clusters vol))) as Ha.
  split; [intros i; rewrite free_clusters_elem; split; intros [Hi E]; (split; [done|]); by rewrite (scanned_entry_aligned vol device i Hok Hal Hi) in *|].
  split; [done|]. split.
  { unfold free_clusters. apply NoDup_filter, NoDup_seqZ. }
  split; [|split; [done|split; [rewrite length_app; lia|done]]].
  apply Forall_forall. intros i Hi%free_clusters_elem. destruct (fat_sizes _ (fo_geometry _ _ Hok)) as ([_ R] & _).
  destruct (fo_entries _ _ Hok). unfold AFS_INVALID_BLOCK. lia.
Qed.

(** For other volumes the scan starts before the table: index [i] is listed when
    the entry [fat_skew] places before it is 0, which for the first ones is a
    word of the reserved sectors. *)
Theorem fat32_unaligned_table data device fs vol :
  read_boot_sector is_power_of_2 data = Some vol -> fat_ok vol device ->
  exists fs', afs_fat32_detect is_power_of_2 uninit place data device (Some fs) = Ok (Some fs', device) /\
    forall i, i ∈ free_list fs' <-> 0 <= i < num_data_clusters vol /\ fat_entry (bpb vol) device (i - fat_skew (bpb vol)) = 0.
Proof.
  intros Hb Hok. eexists. split; [by apply detect_spec|]. rewrite detected_free_list. intros i. rewrite free_clusters_elem.
  split; intros [Hi E]; (split; [done|]); by rewrite scanned_entry_skewed in *.
Qed.

(** The first sector of data cluster [n] of a FAT32 volume: clusters are
    numbered from 2, and entry [n] of the table is that of cluster [n]. *)
Definition cluster_sector (v : dos_2_0) (n : Z) : Z :=
  reserved v + tables v * sec_fat v + (n - 2) * sec_cluster v.

(** C15: the list holds cluster numbers, but the engine counts from the first
    data cluster: on a volume of clusters of 8 sectors of 512 bytes (a block of
    the engine) whose reserved sectors fill whole pages, the sectors of a
    listed block [i] are those of cluster [i + 2]. So whenever cluster [i] is
    free and cluster [i + 2] is in use, a cluster in use is handed out. *)
Theorem fat32_list_shifted data device fs vol i :
  read_boot_sector is_power_of_2 data = Some vol -> fat_ok vol device -> fat_offset (bpb vol) mod 4096 = 0 ->
  sec_cluster (bpb vol) = 8 -> bytes_sector (bpb vol) = 512 ->
  tables (bpb vol) * sec_fat (bpb vol) + reserved (bpb vol) < 2 ^ 31 ->
  0 <= i -> i + 2 < num_data_clusters vol -> i < 2 ^ 20 ->
  fat_entry (bpb vol) device i = 0 -> fat_entry (bpb vol) device (i + 2) <> 0 ->
  exists fs', afs_fat32_detect is_power_of_2 uninit place data device (Some fs) = Ok (Some fs', device) /\
    i ∈ free_list fs' /\ i + 2 ∉ free_list fs' /\ 
    sector_num i (data_start_off fs') = cluster_sector (bpb vol) (i + 2).
Proof.
  intros Hb Hok Hal Hc Hsec Hs H0 Hi Hi20 Hz Hnz. rewrite <- scanned_entry_aligned in Hz, Hnz by (done || lia). eexists. split; [by apply detect_spec|]. rewrite detected_free_list, !free_clusters_elem.
  cbn [data_start_off]. split; [lia|]. split; [lia|]. destruct (fo_geometry _ _ Hok) as (_ & _ & _ & _ & Ht & [Rr _] & _ & _ & [Rf _]).
  assert (0 <= tables (bpb vol) * sec_fat (bpb vol)) by (destruct Ht as [-> | ->]; lia).
  assert (E : start_off (bpb vol) = tables (bpb vol) * sec_fat (bpb vol) + reserved (bpb vol)).
  { unfold start_off. rewrite (wrap_id 32 (_ * _)) by (unfold in_range; lia). apply wrap_id. unfold in_range. lia. }
  rewrite E, sector_num_small by lia. unfold cluster_sector. rewrite Hc. lia.
Qed.

(** When the table ends within the first 4096 bytes of the device it is not
    read at all, and the scan goes through a null pointer. *)
Theorem fat32_small_table_faults data device fs vol :
  read_boot_sector is_power_of_2 data = Some vol -> 0 < num_data_clusters vol ->
  fat_aligned_offset (bpb vol) + fat_aligned_size_bytes (bpb vol) <= 4096 ->
  afs_fat32_detect is_power_of_2 uninit place data device (Some fs) = Fault.
Proof.
  intros Hb Hn Hs. unfold afs_fat32_detect, fat_map, read_fat. rewrite Hb. cbn zeta.
  rewrite Z.gtb_ltb, (proj2 (Z.ltb_ge _ _) Hs). cbn [mbind res_bind].
  destruct (Z.to_nat (num_data_clusters vol)) as [|n] eqn:E; [lia|]. done.
Qed.
End FreeList.

(** ** Samples *)
(** A test for powers of two. *)
Definition pow2_test (n : Z) : bool := negb (n =? 0) && (2 ^ Z.log2 n =? n).

Lemma pow2_test_spec n : 0 <= n -> pow2_test n = true <-> exists k, 0 <= k /\ n = 2 ^ k.
Proof.
  intros Hn. unfold pow2_test. rewrite andb_true_iff, negb_true_iff, Z.eqb_neq, Z.eqb_eq. split.
  - intros [_ E]. exists (Z.log2 n). split; [apply Z.log2_nonneg|done].
  - intros (k & Hk & ->). split; [apply Z.pow_nonzero; lia|]. by rewrite Z.log2_pow2.
Qed.

(** A volume of 512-byte sectors and 8-sector clusters: 32 reserved sectors,
    two tables of 8 sectors, 10 data clusters. *)
Definition sample_boot (reserved total fat : Z) : list Z :=
  [0; 0; 0] ++ replicate 8 32 ++ le_store 2 512 ++ [8] ++ le_store 2 reserved ++ [2] ++ le_store 2 0 ++ le_store 2 0 ++ [248]
  ++ le_store 2 0 ++ le_store 2 63 ++ le_store 2 255 ++ le_store 4 0 ++ le_store 4 total
  ++ le_store 4 fat ++ le_store 2 0 ++ le_store 2 0 ++ le_store 4 2 ++ le_store 2 1 ++ le_store 2 6 ++ replicate 460 0.
Definition small_boot : list Z := sample_boot 32 128 8.

Lemma small_boot_bytes : bytes small_boot.
Proof. apply (bool_decide_unpack _). vm_compute. exact I. Qed.

Definition sample_vol (res total fat clusters : Z) : fat_volume :=
  {| oem_name := replicate 8 32;
     bpb := {| bytes_sector := 512; sector_order := 9; sec_cluster := 8; sec_cluster_order := 3; cluster_order := 12; reserved := res;
               tables := 2; root_entries := 0; media_desc := 248; total_sec := total; sec_fat := fat |};
     bpb_3_31 := {| sec_track := 63; num_heads := 255; hidden_sec := 0 |};
     fat32 := {| driv_desc := 0; version := 0; root_dir_start := 2; fs_info_sec := 1; alt_boot_sec := 6 |};
     nonfat32 := {| phys_driv_num := fat; ext_boot_sig := 0; vol_id := 0; volume_label := [0; 2; 0; 0; 0; 1; 0; 6; 0; 0; 0]; fs_type := replicate 8 0 |};
     num_data_clusters := clusters |}.
Definition small_vol : fat_volume := sample_vol 32 128 8 10.

Lemma read_small_boot : read_boot_sector pow2_test small_boot = Some small_vol.
Proof. vm_compute. reflexivity. Qed.

Lemma read_boot_sector_geometry_witness :
  read_boot_sector pow2_test small_boot = Some small_vol /\
  num_data_clusters small_vol * 8 + overhead (bpb small_vol) <= 128.
Proof.
  split; [exact read_small_boot|].
  refine (proj1 (proj2 (proj2 (proj2 (proj2 (read_boot_sector_geometry pow2_test pow2_test_spec small_boot small_vol small_boot_bytes read_small_boot)))) _)).
  vm_compute. discriminate.
Defined.

(** ** A sample volume

    Clusters 2, 5, 6 and 9 of the small volume are in use. *)
Definition small_table : list Z := [0x0FFFFFF8; 0x0FFFFFFF; 0x0FFFFFFF; 0; 0; 6; 0x0FFFFFFF; 0; 0; 0x0FFFFFFF].
Definition small_fat_device : block_device :=
  {| nr_sects := 256; sectors := {[ 32 := concat (map (le_store 4) small_table) ++ replicate 472 0 ]}; outcomes := [] |}.
Definition zero_page (i : Z) : buffer_place := Bounced (Some (replicate 4096 0)).
Definition zeros (n : nat) : list Z := replicate n 0.

Lemma zero_page_ok i : place_ok true (zero_page i).
Proof. split; [done|]. apply length_replicate. Qed.

Lemma small_fat_ok : fat_ok small_vol small_fat_device.
Proof.
  constructor.
  - unfold geometry_ok. unfold in_range. cbn. split_and!; try reflexivity; lia.
  - split; [done|]. apply map_Forall_singleton. vm_compute. reflexivity.
  - vm_compute. reflexivity.
  - vm_compute. discriminate.
  - vm_compute. discriminate.
  - vm_compute. split; discriminate.
Qed.

Example small_detect :
  afs_fat32_detect pow2_test zeros zero_page small_boot small_fat_device (Some small_fs) =
  Ok (Some {| block_list := [3; 4; 7; 8] ++ replicate 1020 0; list_len := 4; sectors_per_block := 8;
              total_blocks := 10; data_start_off := 48; blocks_in_tuple := 0 |}, small_fat_device).
Proof. vm_compute. reflexivity. Qed.

Lemma fat32_detect_free_list_witness :
  exists fs', afs_fat32_detect pow2_test zeros zero_page small_boot small_fat_device (Some small_fs) = Ok (Some fs', small_fat_device) /\
    ascending (free_list fs').
Proof.
  destruct (fat32_detect_free_list pow2_test zeros zero_page (fun n => length_replicate n 0) zero_page_ok small_boot small_fat_device small_fs small_vol
    read_small_boot small_fat_ok eq_refl) as (fs' & H & _ & Ha & _).
  exists fs'. split; [exact H|exact Ha].
Defined.

Lemma fat32_list_shifted_witness :
  exists fs', afs_fat32_detect pow2_test zeros zero_page small_boot small_fat_device (Some small_fs) = Ok (Some fs', small_fat_device) /\
    3 ∈ free_list fs' /\ 5 ∉ free_list fs' /\ sector_num 3 (data_start_off fs') = cluster_sector (bpb small_vol) 5.
Proof.
  refine (fat32_list_shifted pow2_test zeros zero_page _ zero_page_ok small_boot small_fat_device small_fs small_vol 3
    read_small_boot small_fat_ok eq_refl eq_refl eq_refl _ _ _ _ _ _).
  - intros n. apply length_replicate.
  - vm_compute. reflexivity.
  - vm_compute. discriminate.
  - vm_compute. reflexivity.
  - vm_compute. reflexivity.
  - vm_compute. reflexivity.
  - vm_compute. discriminate.
Defined.

Lemma fat32_small_table_faults_witness :
  afs_fat32_detect pow2_test zeros zero_page (sample_boot 1 127 1) small_fat_device (Some small_fs) = Fault.
Proof.
  refine (fat32_small_table_faults pow2_test zeros zero_page (sample_boot 1 127 1) small_fat_device small_fs (sample_vol 1 127 1 15) _ _ _).
  - vm_compute. reflexivity.
  - vm_compute. reflexivity.
  - vm_compute. discriminate.
Defined.
