(* ===== verification/Ntfs.v ===== *)
(** * Ntfs: detection of an NTFS volume and its free clusters (src/modules/dm_afs_ntfs.c)

    The boot sector, the records of the master file table, the attributes and
    data runs of $Bitmap, and the list of free blocks made from it. Pointers
    into a buffer are offsets, and an access outside the buffer is a [Fault];
    so are a division by zero and a shift by the width of the type or more.
    Loops whose end depends on the volume take fuel. *)
From stdpp Require Import base tactics option list numbers gmap.
From Stdlib Require Import ZArith Lia.
From S2P Require Import Prelude BlockIo Allocation.

Local Open Scope Z_scope.
Local Open Scope afs_scope.

(** ** The boot sector *)
Record ntfs_volume := mk_ntfs_volume {
  bytes_per_sector : Z; sector_count : Z; cluster_count : Z; sectors_per_cluster : Z; bytes_per_cluster : Z;
  mft_cluster : Z; mft_mirror_cluster : Z; mft_record_size : Z; afs_blocks_per_cluster : Z;
  mft_records_per_cluster : Z; num_afs_blocks : Z; afs_sectors_per_cluster : Z
}.

Record ntfs_boot_sector := mk_ntfs_boot_sector {
  oem_id : list Z; b_bytes_per_sector : Z; b_sectors_per_cluster : Z; reserved_sector_count : Z; table_count : Z;
  root_entry_count : Z; b_sector_count : Z; sectors_per_table : Z; sector_count_64 : Z; master_file_table_cluster : Z;
  master_file_table_mirror_cluster : Z; clusters_per_record : Z
}.
Definition ntfs_boot_sector_of (bs : list Z) : ntfs_boot_sector :=
  mk_ntfs_boot_sector (field 3 8 bs) (le_field 11 2 bs) (le_field 13 1 bs) (le_field 14 2 bs) (le_field 16 1 bs) (le_field 17 2 bs)
    (le_field 19 2 bs) (le_field 22 2 bs) (le_field 40 8 bs) (le_field 48 8 bs) (le_field 56 8 bs) (le_field 64 1 bs).

Definition ntfs_magic : list Z := [78; 84; 70; 83; 32; 32; 32; 32].
Definition is_ntfs_magic_value (oem_name : list Z) : bool := bool_decide (oem_name = ntfs_magic).

Definition div (a b : Z) : res Z := if b =? 0 then Fault else Ok (a / b).

(** [None]: the function returns 1. *)
Definition read_boot_sector (data : list Z) : res (option ntfs_volume) :=
  let boot_sector := ntfs_boot_sector_of data in
  if negb (is_ntfs_magic_value (oem_id boot_sector)) then Ok None else
  if negb (table_count boot_sector =? 0) then Ok None else
  if negb (root_entry_count boot_sector =? 0) then Ok None else
  if negb (b_sector_count boot_sector =? 0) then Ok None else
  if negb (sectors_per_table boot_sector =? 0) then Ok None else
  let sector_count := sector_count_64 boot_sector in
  let bytes_per_sector := b_bytes_per_sector boot_sector in
  let sectors_per_cluster := b_sectors_per_cluster boot_sector in
  let bytes_per_cluster := bytes_per_sector * sectors_per_cluster in
  cluster_count ← div sector_count sectors_per_cluster;
  let mft_record_size :=
    if clusters_per_record boot_sector >? 0 then u32 (bytes_per_cluster * clusters_per_record boot_sector)
    else Z.shiftl 1 (- clusters_per_record boot_sector) in
  if negb (bytes_per_cluster mod AFS_BLOCK_SIZE =? 0) then Ok None else
  let afs_blocks_per_cluster := u8 (bytes_per_cluster / AFS_BLOCK_SIZE) in
  records ← div bytes_per_cluster mft_record_size;
  Ok (Some {| bytes_per_sector := bytes_per_sector; sector_count := sector_count; cluster_count := cluster_count;
              sectors_per_cluster := sectors_per_cluster; bytes_per_cluster := bytes_per_cluster;
              mft_cluster := master_file_table_cluster boot_sector; mft_mirror_cluster := master_file_table_mirror_cluster boot_sector;
              mft_record_size := mft_record_size; afs_blocks_per_cluster := afs_blocks_per_cluster;
              mft_records_per_cluster := u8 records; num_afs_blocks := u32 (cluster_count * afs_blocks_per_cluster);
              afs_sectors_per_cluster := u8 (bytes_per_cluster / AFS_SECTOR_SIZE) |}).

Section Ntfs.

(** What fresh memory contains, where the buffer of a read of a block lies, and
    the number of bits set of a byte ([hweight8] of the kernel). *)
Context (uninit : nat -> list Z) (place : Z -> buffer_place) (hweight8 : Z -> Z).

(** [vmalloc] gives whole pages, and none for size 0. *)
Definition vmalloc (n : Z) : list Z := uninit (Z.to_nat (4096 * ((n + 4095) / 4096))).

(** ** Clusters and records *)

(** A page read to offset [off] of a buffer. *)
Definition read_page_to (page : list Z) (off : Z) (device : block_device) (block_num : Z) (used_vmalloc : bool) : res (Z * list Z * block_device) :=
  if off <? 0 then Fault else
  p ← of_option (slice (Z.to_nat off) 4096 page);
  '(ret, p, device) ← read_page (place block_num) p device block_num 0 used_vmalloc;
  page ← of_option (splice (Z.to_nat off) p page);
  Ok (ret, page, device).

(** The loop over the blocks of a cluster; its variable [block_offset] grows by
    [AFS_BLOCK_SIZE], so 256 turns are more than a byte allows. *)
Fixpoint read_blocks (fuel : nat) (page : list Z) (off : Z) (vol : ntfs_volume) (device : block_device) (block_num block_offset : Z) (used_vmalloc : bool)
    : res (Z * list Z * block_device) :=
  if block_offset <? afs_blocks_per_cluster vol then
    match fuel with
    | O => OutOfFuel
    | S f =>
        '(ret, page, device) ← read_page_to page (off + block_offset) device (block_num +32 block_offset) used_vmalloc;
        if negb (ret =? 0) then Ok (ret, page, device)
        else read_blocks f page off vol device block_num (block_offset + AFS_BLOCK_SIZE) used_vmalloc
    end
  else Ok (0, page, device).

Definition read_ntfs_cluster (page : list Z) (off : Z) (vol : ntfs_volume) (device : block_device) (cluster_number : Z) (used_vmalloc : bool)
    : res (Z * list Z * block_device) :=
  read_blocks 256 page off vol device (u32 (cluster_number * afs_blocks_per_cluster vol)) 0 used_vmalloc.

Definition read_mft_records (record : list Z) (off : Z) (vol : ntfs_volume) (device : block_device) (number : Z) (used_vmalloc : bool)
    : res (Z * list Z * block_device) :=
  if mft_records_per_cluster vol =? 0 then Fault else
  if negb (number mod mft_records_per_cluster vol =? 0) then Ok (1, record, device) else
  read_ntfs_cluster record off vol device (mft_cluster vol +64 number / mft_records_per_cluster vol) used_vmalloc.

(** ** Data runs *)

(** The clusters from [cluster] to before [last]; the flag says that the
    function stops. *)
Fixpoint read_run (fuel : nat) (vol : ntfs_volume) (buffer : list Z) (base cluster last amt_to_read amt_written : Z) (device : block_device)
    : res (bool * list Z * Z * block_device) :=
  if cluster <? last then
    match fuel with
    | O => OutOfFuel
    | S f =>
        '(_, buffer, device) ← read_ntfs_cluster buffer (base + amt_written) vol device (u64 cluster) true;
        let amt_written := amt_written + bytes_per_cluster vol in
        if amt_to_read <=? amt_written then Ok (true, buffer, amt_written, device)
        else read_run f vol buffer base (cluster + 1) last amt_to_read amt_written device
    end
  else Ok (false, buffer, amt_written, device).

(** [(1UL << bits) - 1], the mask of a field of the run. *)
Definition field_mask (size_bytes : Z) : res Z :=
  if 64 <=? Z.shiftl size_bytes 3 then Fault else Ok (Z.shiftl 1 (Z.shiftl size_bytes 3) - 1).

(** The run list at [runlist] of the record, from its byte [i]. *)
Fixpoint read_runs (fuel : nat) (vol : ntfs_volume) (record : list Z) (runlist i : Z) (buffer : list Z) (base amt_to_read amt_written : Z)
    (device : block_device) : res (list Z * Z * block_device) :=
  field_sizes ← load record (runlist + i) 1;
  if field_sizes =? 0 then Ok (buffer, amt_written, device) else
  match fuel with
  | O => OutOfFuel
  | S f =>
      let offset_size_bytes := Z.land (Z.shiftr field_sizes 4) 0xF in
      let length_size_bytes := Z.land field_sizes 0xF in
      offset_size_mask ← field_mask offset_size_bytes;
      length_size_mask ← field_mask length_size_bytes;
      length ← load record (runlist + i + 1) 8;
      offset ← load record (runlist + i + 1 + length_size_bytes) 8;
      let length := Z.land length length_size_mask in
      let offset := Z.land offset offset_size_mask in
      '(stop, buffer, amt_written, device) ← read_run f vol buffer base offset (offset + length) amt_to_read amt_written device;
      if (stop : bool) then Ok (buffer, amt_written, device)
      else read_runs f vol record runlist (i + (1 + length_size_bytes + offset_size_bytes)) buffer base amt_to_read amt_written device
  end.

(** The attribute is at [attr] of the records; the result is the buffer, the
    number of bytes written, and the device. *)
Definition read_nonresident_data (fuel : nat) (vol : ntfs_volume) (buffer : list Z) (base : Z) (record : list Z) (attr max : Z)
    (device : block_device) : res (list Z * Z * block_device) :=
  content_actual_size ← load record (attr + 48) 8;
  let amt_to_read := if max <? content_actual_size then max else content_actual_size in
  offset_to_runlist ← load record (attr + 32) 2;
  let runlist := attr + offset_to_runlist in
  field_sizes ← load record runlist 1;
  start_vcn_runlist ← load record (attr + 16) 8;
  if negb (start_vcn_runlist =? 0) then Ok (buffer, 0, device)
  else read_runs fuel vol record runlist 0 buffer base amt_to_read 0 device.

(** ** Attributes *)
Definition ATTR_DATA : Z := 0x80.
Definition ATTRS_DONE : Z := 0xFFFFFFFF.
Definition attribute_header_size : Z := 14.

(** What the switch does: the buffer, the new [buffer_offset], whether the
    reading is over. *)
Definition read_attribute (fuel : nat) (vol : ntfs_volume) (buffer : list Z) (max_bytes : Z) (record : list Z) (attr_header : Z)
    (buffer_offset : Z) (device : block_device) : res (bool * list Z * Z * block_device) :=
  type_id ← load record attr_header 4;
  if type_id =? ATTR_DATA then
    nonresident_flag ← load record (attr_header + 8) 1;
    if nonresident_flag =? 0 then
      length ← load record (attr_header + 4) 4;
      let amount := if max_bytes - buffer_offset <? length then max_bytes - buffer_offset else length in
      if amount <? 0 then Ok (true, buffer, buffer_offset, device) else
      src ← of_option (slice (Z.to_nat (attr_header + attribute_header_size)) (Z.to_nat amount) record);
      buffer ← of_option (splice (Z.to_nat buffer_offset) src buffer);
      Ok (false, buffer, buffer_offset + amount, device)
    else
      '(buffer, amt_written, device) ←
        read_nonresident_data fuel vol buffer buffer_offset record attr_header (u64 (max_bytes - buffer_offset)) device;
      Ok (false, buffer, buffer_offset + amt_written, device)
  else if type_id =? ATTRS_DONE then Ok (true, buffer, buffer_offset, device)
  else Ok (false, buffer, buffer_offset, device).

(** The loop over the attributes of the record at [header]. [record_offset] is
    an [int] compared and added as an unsigned number. *)
Fixpoint read_attributes (fuel : nat) (vol : ntfs_volume) (buffer : list Z) (max_bytes : Z) (records : list Z) (header record_offset : Z)
    (buffer_offset : Z) (device : block_device) : res (list Z * Z * block_device) :=
  if record_offset <? mft_record_size vol then
    match fuel with
    | O => OutOfFuel
    | S f =>
        '(done, buffer, buffer_offset, device) ←
          read_attribute f vol buffer max_bytes records (header + record_offset) buffer_offset device;
        if (done : bool) then Ok (buffer, buffer_offset, device) else
        length ← load records (header + record_offset + 4) 4;
        if length =? 0 then Ok (buffer, buffer_offset, device)
        else read_attributes f vol buffer max_bytes records header (record_offset +32 length) buffer_offset device
    end
  else Ok (buffer, buffer_offset, device).

Definition read_file (fuel : nat) (vol : ntfs_volume) (buffer : list Z) (max_bytes : Z) (records : list Z) (header : Z)
    (device : block_device) : res (list Z * Z * block_device) :=
  record_offset ← load records (header + 20) 2;
  read_attributes fuel vol buffer max_bytes records header record_offset 0 device.

(** ** The free list *)
Definition total_unused (bitmap : list Z) (read : Z) : res Z :=
  forM (Z.to_nat read) 0 (fun i total => b ← get bitmap i; Ok (total +64 (8 - hweight8 b))) 0.

(** The blocks of one free cluster; [None] is the jump to [stop]. *)
Definition add_blocks (vol : ntfs_volume) (cluster capacity : Z) (s : option (list Z * Z)) : res (option (list Z * Z)) :=
  forM (Z.to_nat (afs_blocks_per_cluster vol)) 0 (fun block_num s =>
    match s with
    | None => Ok None
    | Some (empty_blocks, empty_block_idx) =>
        let block := u32 (cluster * afs_blocks_per_cluster vol + block_num) in
        if capacity <=? empty_block_idx then Ok None else
        empty_blocks ← put empty_blocks empty_block_idx block;
        Ok (Some (empty_blocks, empty_block_idx + 1))
    end) s.

Definition add_byte (vol : ntfs_volume) (bitmap : list Z) (capacity i : Z) (s : option (list Z * Z)) : res (option (list Z * Z)) :=
  b ← (match s with None => Ok 0 | Some _ => get bitmap i end);
  forM 8 0 (fun bpos s =>
    if Z.land (Z.shiftr b bpos) 1 =? 0 then add_blocks vol (i * 8 + bpos) capacity s else Ok s) s.

(** The list and the number of entries the volume reports; [None] is the
    return value 1. *)
Definition extract_bitmap (fuel : nat) (vol : ntfs_volume) (records : list Z) (bitmap_file : Z) (device : block_device)
    : res (option (list Z * Z) * block_device) :=
  let max := cluster_count vol / 8 in
  '(bitmap, read, device) ← read_file fuel vol (vmalloc max) max records bitmap_file device;
  if read =? 0 then Ok (None, device) else
  total_unused_clusters ← total_unused bitmap read;
  let capacity := total_unused_clusters *64 afs_blocks_per_cluster vol in
  if capacity =? 0 then Ok (None, device) else
  s ← forM (Z.to_nat read) 0 (add_byte vol bitmap capacity) (Some (uninit (Z.to_nat capacity), 0));
  match s with
  | None => Ok (None, device)
  | Some (empty_blocks, _) => Ok (Some (empty_blocks, u32 total_unused_clusters), device)
  end.

(** ** The metafiles *)

(** The pointers to the records of one cluster. *)
Definition set_metafiles (vol : ntfs_volume) (mft_number record_cluster : Z) (metafiles : list Z) : res (list Z) :=
  forM (Z.to_nat (mft_records_per_cluster vol)) 0 (fun i metafiles =>
    put metafiles (mft_number + i) (record_cluster + i *32 mft_record_size vol)) metafiles.

Fixpoint load_metafiles (fuel : nat) (vol : ntfs_volume) (records : list Z) (mft_number : Z) (metafiles : list Z) (device : block_device)
    : res (list Z * list Z * block_device) :=
  if mft_number <? 12 then
    match fuel with
    | O => OutOfFuel
    | S f =>
        let record_cluster := mft_number *32 mft_record_size vol in
        '(_, records, device) ← read_mft_records records record_cluster vol device mft_number true;
        metafiles ← set_metafiles vol mft_number record_cluster metafiles;
        load_metafiles f vol records (mft_number + mft_records_per_cluster vol) metafiles device
    end
  else Ok (records, metafiles, device).

Definition ntfs_map (fuel : nat) (vol : ntfs_volume) (device : block_device) : res (option (list Z * Z) * block_device) :=
  '(records, metafiles, device) ← load_metafiles fuel vol (vmalloc (12 *32 mft_record_size vol)) 0 (uninit 12) device;
  mft ← get metafiles 0;
  allocated_size_of_record ← load records (mft + 28) 4;
  if negb (allocated_size_of_record =? mft_record_size vol) then Ok (None, device) else
  bitmap_file ← get metafiles 6;
  extract_bitmap fuel vol records bitmap_file device.

Definition afs_ntfs_detect (fuel : nat) (data : list Z) (device : block_device) (fs : option afs_passive_fs)
    : res (option afs_passive_fs * block_device) :=
  vol ← read_boot_sector data;
  match vol with
  | None => Ok (None, device)
  | Some vol =>
      '(r, device) ← ntfs_map fuel vol device;
      match r, fs with
      | Some (empty_blocks, num_empty_afs_blocks), Some fs =>
          Ok (Some {| block_list := empty_blocks; list_len := num_empty_afs_blocks;
                      sectors_per_block := AFS_BLOCK_SIZE / AFS_SECTOR_SIZE; total_blocks := num_afs_blocks vol;
                      data_start_off := 0; blocks_in_tuple := blocks_in_tuple fs |}, device)
      | _, _ => Ok (None, device)
      end
  end.
End Ntfs.

(** ** Clear bits of a bitmap

    The clusters below [n] whose bit is clear, in order, and their blocks. *)
Definition clear_clusters (bitmap : list Z) (n : nat) : list Z := filter (bit_clear bitmap) (seqZ 0 (Z.of_nat n)).
Definition cluster_blocks (k c : Z) : list Z := (fun j => c * k + j) <$> seqZ 0 k.
Definition clear_blocks (k : Z) (bitmap : list Z) (n : nat) : list Z := concat (cluster_blocks k <$> clear_clusters bitmap n).

Lemma clear_clusters_S bitmap n :
  clear_clusters bitmap (S n) = clear_clusters bitmap n ++ (if decide (bit_clear bitmap (Z.of_nat n)) then [Z.of_nat n] else []).
Proof.
  unfold clear_clusters. replace (Z.of_nat (S n)) with (Z.of_nat n + 1) by lia. by rewrite seqZ_app, filter_app by lia.
Qed.

Lemma clear_clusters_elem bitmap n c : c ∈ clear_clusters bitmap n <-> 0 <= c < Z.of_nat n /\ bit_clear bitmap c.
Proof. unfold clear_clusters. rewrite list_elem_of_filter, elem_of_seqZ. tauto. Qed.

Lemma clear_clusters_mono bitmap n m : (n <= m)%nat -> (List.length (clear_clusters bitmap n) <= List.length (clear_clusters bitmap m))%nat.
Proof. induction 1 as [|m _ IH]; [done|]. rewrite clear_clusters_S, length_app. lia. Qed.

Lemma clear_clusters_length bitmap n : (List.length (clear_clusters bitmap n) <= n)%nat.
Proof. unfold clear_clusters. rewrite length_filter, length_seqZ. lia. Qed.

Lemma cluster_blocks_length k c : 0 <= k -> List.length (cluster_blocks k c) = Z.to_nat k.
Proof. intros. unfold cluster_blocks. by rewrite length_fmap, length_seqZ. Qed.

Lemma clear_blocks_S k bitmap n : clear_blocks k bitmap (S n) =
  clear_blocks k bitmap n ++ (if decide (bit_clear bitmap (Z.of_nat n)) then cluster_blocks k (Z.of_nat n) else []).
Proof.
  unfold clear_blocks. rewrite clear_clusters_S, fmap_app, concat_app. case_decide; [|done]. cbn. by rewrite app_nil_r.
Qed.

Lemma clear_blocks_length k bitmap n : 0 <= k ->
  List.length (clear_blocks k bitmap n) = (List.length (clear_clusters bitmap n) * Z.to_nat k)%nat.
Proof.
  intros Hk. induction n as [|n IH]; [done|]. rewrite clear_blocks_S, clear_clusters_S, !length_app, IH.
  case_decide; [rewrite cluster_blocks_length by done|]; cbn; lia.
Qed.

Lemma clear_blocks_elem k bitmap n b : 0 < k ->
  b ∈ clear_blocks k bitmap n <-> 0 <= b / k < Z.of_nat n /\ bit_clear bitmap (b / k).
Proof.
  intros Hk. unfold clear_blocks. rewrite list_elem_of_In, in_concat. split.
  - intros (l & Hl & Hb). apply list_elem_of_In, list_elem_of_fmap in Hl as (c & -> & Hc).
    apply list_elem_of_In, list_elem_of_fmap in Hb as (j & -> & Hj%elem_of_seqZ). apply clear_clusters_elem in Hc.
    replace ((c * k + j) / k) with c; [done|]. rewrite Z.add_comm, Z.div_add, Z.div_small by lia. lia.
  - intros Hc. exists (cluster_blocks k (b / k)). split.
    + apply list_elem_of_In, list_elem_of_fmap_2. by apply clear_clusters_elem.
    + apply list_elem_of_In, list_elem_of_fmap. exists (b mod k). split; [rewrite (Z.div_mod b k) at 1 by lia; lia|].
      apply elem_of_seqZ. pose proof (Z.mod_pos_bound b k Hk). lia.
Qed.

Lemma ascending_app l1 l2 : ascending l1 -> ascending l2 -> (forall x y, x ∈ l1 -> y ∈ l2 -> x < y) -> ascending (l1 ++ l2).
Proof.
  intros H1 H2 H i j x y Hij Hi Hj. apply lookup_app_Some in Hi as [Hi|[Li Hi]], Hj as [Hj|[Lj Hj]].
  - by eapply H1.
  - apply H; by eapply list_elem_of_lookup_2.
  - apply lookup_lt_Some in Hj. lia.
  - eapply H2; [|exact Hi|exact Hj]. lia.
Qed.

Lemma ascending_cluster k c : ascending (cluster_blocks k c).
Proof.
  intros i j x y Hij Hi Hj. unfold cluster_blocks in *. rewrite list_lookup_fmap in Hi, Hj.
  destruct (seqZ 0 k !! i) eqn:Ei, (seqZ 0 k !! j) eqn:Ej; cbn in *; try done. apply lookup_seqZ in Ei, Ej. simplify_eq. lia.
Qed.

Lemma ascending_clear k bitmap n : 0 < k -> ascending (clear_blocks k bitmap n).
Proof.
  intros Hk. induction n as [|n IH]; [intros i j x y _ Hi; done|]. rewrite clear_blocks_S. case_decide; [|by rewrite app_nil_r].
  apply ascending_app; [done|apply ascending_cluster|]. intros x y Hx Hy. apply clear_blocks_elem in Hx as [Hx _]; [|done].
  apply list_elem_of_fmap in Hy as (j & -> & Hj%elem_of_seqZ). pose proof (Z.div_mod x k). pose proof (Z.mod_pos_bound x k). nia.
Qed.

(** ** The loops over the bitmap *)
Section FreeList.
Context (uninit : nat -> list Z) (place : Z -> buffer_place) (hweight8 : Z -> Z).
Context (uninit_length : forall n, List.length (uninit n) = n) (places_ok : forall b, place_ok true (place b)).
Context (hweight8_spec : forall b, is_byte b ->
  hweight8 b = Z.of_nat (List.length (filter (fun i => Z.testbit b i = true) (seqZ 0 8)))).

Lemma filter_split (f : Z -> bool) (l : list Z) :
  (List.length (filter (fun i => f i = true) l) + List.length (filter (fun i => f i = false) l) = List.length l)%nat.
Proof.
  induction l as [|x l IH]; [done|]. rewrite !filter_cons. cbn [List.length]. destruct (f x); repeat case_decide; try done; cbn [List.length]; lia.
Qed.

Lemma clear_in_byte bitmap i b k : bitmap !! i = Some b -> 0 <= k < 8 ->
  bit_clear bitmap (Z.of_nat i * 8 + k) <-> Z.testbit b k = false.
Proof.
  intros Hb Hk. unfold bit_clear.
  assert (E1 : (Z.of_nat i * 8 + k) / 8 = Z.of_nat i) by (rewrite Z.add_comm, Z.div_add, Z.div_small by lia; lia).
  assert (E2 : (Z.of_nat i * 8 + k) mod 8 = k) by (rewrite Z.add_comm, Z.mod_add, Z.mod_small by lia; lia).
  by rewrite E1, E2, Nat2Z.id, Hb.
Qed.

Lemma clear_byte bitmap i b : bitmap !! i = Some b ->
  List.length (clear_clusters bitmap (8 * i + 8)) =
  (List.length (clear_clusters bitmap (8 * i)) + List.length (filter (fun k => Z.testbit b k = false) (seqZ 0 8)))%nat.
Proof.
  intros Hb. assert (H : forall m, (m <= 8)%nat -> List.length (clear_clusters bitmap (8 * i + m)) =
    (List.length (clear_clusters bitmap (8 * i)) + List.length (filter (fun k => Z.testbit b k = false) (seqZ 0 (Z.of_nat m))))%nat).
  { induction m as [|m IH]; intros Hm; [by rewrite !Nat.add_0_r|].
    rewrite Nat.add_succ_r, clear_clusters_S, length_app, IH by lia. rewrite <- Nat.add_assoc. f_equal.
    replace (Z.of_nat (S m)) with (Z.of_nat m + 1) by lia. rewrite seqZ_app, filter_app, length_app by lia. f_equal.
    rewrite Z.add_0_l. change (seqZ (Z.of_nat m) 1) with [0 + Z.of_nat m]. rewrite Z.add_0_l, filter_cons, filter_nil.
    replace (Z.of_nat (8 * i + m)) with (Z.of_nat i * 8 + Z.of_nat m) by lia. pose proof (clear_in_byte bitmap i b (Z.of_nat m) Hb ltac:(lia)).
    by repeat case_decide; try tauto. }
  apply (H 8%nat). lia.
Qed.

Lemma total_unused_spec bitmap n : bytes bitmap -> (n <= List.length bitmap)%nat -> Z.of_nat n < 2 ^ 60 ->
  total_unused hweight8 bitmap (Z.of_nat n) = Ok (Z.of_nat (List.length (clear_clusters bitmap (8 * n)))).
Proof.
  intros Hby Hn Hlt. unfold total_unused. rewrite Nat2Z.id.
  forM_induction (fun i t => t = Z.of_nat (List.length (clear_clusters bitmap (8 * i)))).
  - done.
  - intros i t Hi ->. destruct (lookup_lt_is_Some_2 bitmap i) as [b Hb]; [lia|]. rewrite (get_nat _ _ _ Hb). cbn [mbind res_bind].
    eexists. split; [done|]. replace (8 * S i)%nat with (8 * i + 8)%nat by lia. rewrite (clear_byte _ _ _ Hb).
    rewrite hweight8_spec by by eapply Forall_lookup_1 in Hby.
    pose proof (filter_split (Z.testbit b) (seqZ 0 8)) as Hs. rewrite length_seqZ in Hs.
    pose proof (clear_clusters_length bitmap (8 * i)). rewrite wrap_id; [lia|]. split; lia.
  - destruct Hloop as (s & -> & ->). done.
Qed.

(** The array while it is filled. *)
Definition filling (init pre : list Z) : option (list Z * Z) :=
  Some (pre ++ drop (List.length pre) init, Z.of_nat (List.length pre)).

Lemma add_blocks_spec vol c init pre : let k := afs_blocks_per_cluster vol in
  0 <= k -> 0 <= c -> (c + 1) * k < 2 ^ 32 -> (List.length pre + Z.to_nat k <= List.length init)%nat ->
  add_blocks vol c (Z.of_nat (List.length init)) (filling init pre) = Ok (filling init (pre ++ cluster_blocks k c)).
Proof.
  intros k Hk Hc Hlt Hl. unfold add_blocks. fold k.
  forM_induction (fun j s => s = filling init (pre ++ ((fun j => c * k + j) <$> seqZ 0 (Z.of_nat j)))).
  - cbn. by rewrite app_nil_r.
  - intros j s Hj ->. set (p := pre ++ _). assert (Hp : List.length p = (List.length pre + j)%nat).
    { unfold p. rewrite length_app, length_fmap, length_seqZ. lia. }
    unfold filling at 1. destruct (Z.leb_spec (Z.of_nat (List.length init)) (Z.of_nat (List.length p))); [lia|].
    rewrite put_filling by lia. cbn [mbind res_bind]. eexists. split; [done|].
    rewrite wrap_id by (unfold in_range; nia). replace (Z.of_nat (S j)) with (Z.of_nat j + 1) by lia.
    rewrite seqZ_app, fmap_app, app_assoc by lia. fold p.
    rewrite (Z.add_0_l (Z.of_nat j)). change (seqZ (Z.of_nat j) 1) with [0 + Z.of_nat j]. rewrite Z.add_0_l. change ((fun j => c * k + j) <$> [Z.of_nat j]) with [c * k + Z.of_nat j].
    unfold filling. do 3 f_equal. rewrite length_app. cbn [List.length]. lia.
  - destruct Hloop as (s & -> & ->). unfold cluster_blocks. rewrite Nat.add_0_l, Z2Nat.id by lia. done.
Qed.

Lemma add_byte_Some vol bitmap capacity i s : add_byte vol bitmap capacity i (Some s) =
  (b ← get bitmap i; forM 8 0 (fun bpos s => if Z.land (Z.shiftr b bpos) 1 =? 0 then add_blocks vol (i * 8 + bpos) capacity s else Ok s) (Some s)).
Proof. done. Qed.

Lemma add_byte_spec vol bitmap i b init n : let k := afs_blocks_per_cluster vol in
  bitmap !! i = Some b -> (i < n)%nat -> 0 <= k -> Z.of_nat (8 * n) * k < 2 ^ 32 ->
  (List.length (clear_blocks k bitmap (8 * n)) <= List.length init)%nat ->
  add_byte vol bitmap (Z.of_nat (List.length init)) (Z.of_nat i) (filling init (clear_blocks k bitmap (8 * i)))
  = Ok (filling init (clear_blocks k bitmap (8 * i + 8))).
Proof.
  intros k Hb Hi Hk Hlt Hcap. unfold filling at 1. rewrite add_byte_Some, (get_nat _ _ _ Hb). cbn [mbind res_bind].
  fold (filling init (clear_blocks k bitmap (8 * i))).
  forM_induction (fun m s => s = filling init (clear_blocks k bitmap (8 * i + m))).
  - by rewrite Nat.add_0_r.
  - intros m s Hm ->. eexists. split; [|reflexivity].
    rewrite bit_of by lia. rewrite Nat.add_succ_r, clear_blocks_S.
    pose proof (clear_in_byte bitmap i b (Z.of_nat m) Hb ltac:(lia)) as Hc.
    replace (Z.of_nat (8 * i + m)) with (Z.of_nat i * 8 + Z.of_nat m) in * by lia.
    destruct (Z.testbit b (Z.of_nat m)); cbn [Z.eqb].
    + rewrite decide_False by (by rewrite Hc). by rewrite app_nil_r.
    + rewrite decide_True by (by apply Hc).
      assert (Hlen : (List.length (clear_blocks k bitmap (S (8 * i + m))) <= List.length init)%nat).
      { etransitivity; [|exact Hcap]. rewrite !clear_blocks_length by done. apply Nat.mul_le_mono_r, clear_clusters_mono. lia. }
      rewrite clear_blocks_S, length_app in Hlen.
      replace (Z.of_nat (8 * i + m)) with (Z.of_nat i * 8 + Z.of_nat m) in Hlen by lia.
      rewrite decide_True, cluster_blocks_length in Hlen by (done || by apply Hc).
      apply add_blocks_spec; [done|lia|nia|done].
  - destruct Hloop as (s & -> & ->). done.
Qed.

Lemma fill_spec vol bitmap n init : let k := afs_blocks_per_cluster vol in
  (n <= List.length bitmap)%nat -> 0 <= k -> Z.of_nat (8 * n) * k < 2 ^ 32 ->
  List.length init = List.length (clear_blocks k bitmap (8 * n)) ->
  forM n 0 (add_byte vol bitmap (Z.of_nat (List.length init))) (Some (init, 0)) =
  Ok (Some (clear_blocks k bitmap (8 * n), Z.of_nat (List.length init))).
Proof.
  intros k Hn Hk Hlt Hl.
  forM_induction (fun i s => s = filling init (clear_blocks k bitmap (8 * i))).
  - done.
  - intros i s Hi ->. destruct (lookup_lt_is_Some_2 bitmap i) as [b Hb]; [lia|]. eexists. split; [|reflexivity].
    etransitivity; [apply (add_byte_spec vol bitmap i b init n Hb); [lia|done|done|fold k; lia]|]. fold k. by replace (8 * S i)%nat with (8 * i + 8)%nat by lia.
  - destruct Hloop as (s & -> & ->). unfold filling. cbn [Nat.add]. by rewrite drop_ge, app_nil_r, Hl by lia.
Qed.

(** What [extract_bitmap] makes of the bytes it has read. *)
Lemma extract_bitmap_spec fuel vol records file device bitmap n device' : let k := afs_blocks_per_cluster vol in
  let free := clear_clusters bitmap (8 * n) in
  read_file place fuel vol (vmalloc uninit (cluster_count vol / 8)) (cluster_count vol / 8) records file device = Ok (bitmap, Z.of_nat n, device') ->
  bytes bitmap -> (0 < n <= List.length bitmap)%nat -> 0 <= k -> Z.of_nat (8 * n) * k < 2 ^ 32 -> Z.of_nat n <= 2 ^ 28 ->
  extract_bitmap uninit place hweight8 fuel vol records file device =
  Ok (if decide (0 < k /\ free <> []) then Some (clear_blocks k bitmap (8 * n), Z.of_nat (List.length free)) else None, device').
Proof.
  intros k free Hr Hb [Hn0 Hn] Hk Hlt Hn28. unfold extract_bitmap. rewrite Hr. cbn [mbind res_bind].
  destruct (Z.eqb_spec (Z.of_nat n) 0); [lia|]. rewrite total_unused_spec by (done || lia). cbn [mbind res_bind]. fold free k.
  pose proof (clear_clusters_length bitmap (8 * n)) as Hcl. fold free in Hcl.
  rewrite (wrap_id 64) by (unfold in_range; nia). destruct (Z.eqb_spec (Z.of_nat (List.length free) * k) 0) as [E|E].
  { rewrite decide_False; [done|]. intros [Hk0 Hne]. apply Hne, length_zero_iff_nil. nia. }
  rewrite decide_True. 2:{ split; [lia|]. intros ->. cbn in E. lia. }
  rewrite Nat2Z.id. set (init := uninit _). 
  assert (Hi : List.length init = List.length (clear_blocks k bitmap (8 * n))).
  { unfold init. rewrite uninit_length, clear_blocks_length by done. fold free. lia. }
  assert (Ec : Z.of_nat (List.length free) * k = Z.of_nat (List.length init)) by (rewrite Hi, clear_blocks_length by done; fold free; lia).
  rewrite Ec, fill_spec by done. cbn [mbind res_bind]. by rewrite wrap_id by (unfold in_range; lia).
Qed.
End FreeList.

(** ** What the boot sector decides *)
Lemma read_boot_sector_Some data vol : bytes data -> read_boot_sector data = Ok (Some vol) ->
  let cpr := clusters_per_record (ntfs_boot_sector_of data) in
  0 <= bytes_per_cluster vol < 2 ^ 24 /\ (cpr <> 0 -> 0 < bytes_per_cluster vol) /\ bytes_per_cluster vol mod 4096 = 0 /\ in_range 8 cpr /\
  mft_record_size vol = (if cpr =? 0 then 1 else bytes_per_cluster vol * cpr) /\
  mft_records_per_cluster vol = u8 (bytes_per_cluster vol / mft_record_size vol) /\
  afs_blocks_per_cluster vol = u8 (bytes_per_cluster vol / 4096) /\
  mft_cluster vol = le_field 48 8 data /\ cluster_count vol = le_field 40 8 data / le_field 13 1 data /\
  bytes_per_cluster vol = le_field 11 2 data * le_field 13 1 data.
Proof.
  intros Hb H cpr. unfold read_boot_sector in H.
  set (bs := ntfs_boot_sector_of data) in *. do 5 (case_match; [discriminate|]).
  assert (R1 : in_range 16 (b_bytes_per_sector bs)) by exact (le_field_range 11 2 data Hb).
  assert (R2 : in_range 8 (b_sectors_per_cluster bs)) by exact (le_field_range 13 1 data Hb).
  assert (R3 : in_range 8 cpr) by exact (le_field_range 64 1 data Hb).
  apply res_bind_Ok in H as (cc & Hcc & H). unfold div in Hcc. destruct (Z.eqb_spec (b_sectors_per_cluster bs) 0) as [|Hs]; [discriminate|].
  injection Hcc as <-. fold cpr in H. set (bpc := b_bytes_per_sector bs * b_sectors_per_cluster bs) in *.
  destruct (Z.eqb_spec (bpc mod AFS_BLOCK_SIZE) 0) as [Hm|]; [|discriminate]. cbn [negb] in H. change AFS_BLOCK_SIZE with 4096 in *.
  assert (Hbpc : 0 <= bpc <= 65535 * 255).
  { unfold in_range, bpc in *. split; [apply Z.mul_nonneg_nonneg; lia|]. apply Z.mul_le_mono_nonneg; lia. }
  assert (Hprod : 0 <= bpc * cpr <= 65535 * 255 * 255).
  { unfold in_range in *. split; [apply Z.mul_nonneg_nonneg; lia|]. apply Z.mul_le_mono_nonneg; lia. }
  assert (Hsz : (if cpr >? 0 then u32 (bpc * cpr) else Z.shiftl 1 (- cpr)) = if cpr =? 0 then 1 else bpc * cpr).
  { unfold in_range in *. destruct (Z.gtb_spec cpr 0), (Z.eqb_spec cpr 0) as [E0|]; try lia; [|by rewrite E0]. apply wrap_id. unfold in_range. lia. }
  rewrite Hsz in H. apply res_bind_Ok in H as (rs & Hrs & H). unfold div in Hrs.
  destruct (Z.eqb_spec (if cpr =? 0 then 1 else bpc * cpr) 0) as [|Hz]; [discriminate|]. injection Hrs as <-. injection H as <-.
  cbn [bytes_per_cluster mft_record_size mft_records_per_cluster afs_blocks_per_cluster mft_cluster cluster_count].
  split.
  { lia. }
  split.
  { intros Hc. rewrite (proj2 (Z.eqb_neq _ _) Hc) in Hz. nia. }
  repeat (split; [done|]). done.
Qed.

Lemma no_records data vol : bytes data -> read_boot_sector data = Ok (Some vol) ->
  clusters_per_record (ntfs_boot_sector_of data) <> 1 -> mft_records_per_cluster vol = 0.
Proof.
  intros Hb H Hc. destruct (read_boot_sector_Some data vol Hb H) as (Hbpc & Hpos & Hm & Rc & Es & Er & _).
  set (cpr := clusters_per_record _) in *. rewrite Er, Es. destruct (Z.eqb_spec cpr 0) as [E|E].
  - rewrite Z.div_1_r. unfold wrap. change (2 ^ 8) with 256. apply Z.mod_divide in Hm as [q ->]; [|lia].
    replace (q * 4096) with (q * 16 * 256) by lia. by apply Z.mod_mul.
  - specialize (Hpos E). unfold in_range in Rc. rewrite Z.div_small by nia. done.
Qed.

(** [clusters_per_record] is read as an unsigned byte, and the code goes on
    only when a record is exactly one cluster: for every other value (among
    them the negative ones that stand for 2^n bytes, as ordinary volumes
    have) the number of records per cluster is 0 and the first record read
    divides by it. *)
Theorem ntfs_record_size_faults uninit place hweight8 fuel data device fs vol :
  bytes data -> read_boot_sector data = Ok (Some vol) ->
  clusters_per_record (ntfs_boot_sector_of data) <> 1 ->
  afs_ntfs_detect uninit place hweight8 (S fuel) data device fs = Fault.
Proof.
  intros Hb H Hc. unfold afs_ntfs_detect. rewrite H. cbn [mbind res_bind]. unfold ntfs_map. cbn [load_metafiles].
  unfold read_mft_records. rewrite (no_records data vol Hb H Hc). done.
Qed.

(** ** A record that never ends *)
Lemma attribute_skipped place fuel vol buffer max_bytes records header o buffer_offset device t L :
  load records (header + o) 4 = Ok t -> t <> ATTR_DATA -> t <> ATTRS_DONE ->
  load records (header + o + 4) 4 = Ok L -> L <> 0 -> o < mft_record_size vol ->
  read_attributes place (S fuel) vol buffer max_bytes records header o buffer_offset device =
  read_attributes place fuel vol buffer max_bytes records header (o +32 L) buffer_offset device.
Proof.
  intros Ht Hd He HL H0 Ho. cbn [read_attributes]. rewrite (proj2 (Z.ltb_lt _ _) Ho). unfold read_attribute. rewrite Ht. cbn [mbind res_bind].
  rewrite (proj2 (Z.eqb_neq _ _) Hd), (proj2 (Z.eqb_neq _ _) He). cbn [mbind res_bind]. rewrite HL. cbn [mbind res_bind].
  by rewrite (proj2 (Z.eqb_neq _ _) H0).
Qed.

(** Attribute lengths are added modulo 2^32 without a check, so a record
    whose second attribute leads back to the first is read forever. *)
Theorem ntfs_attributes_hang place fuel vol buffer max_bytes records header o L t1 t2 device :
  load records (header + 20) 2 = Ok o -> 0 <= o -> 0 < L -> o + L < mft_record_size vol <= 2 ^ 32 ->
  load records (header + o) 4 = Ok t1 -> t1 <> ATTR_DATA -> t1 <> ATTRS_DONE -> load records (header + o + 4) 4 = Ok L ->
  load records (header + (o + L)) 4 = Ok t2 -> t2 <> ATTR_DATA -> t2 <> ATTRS_DONE -> load records (header + (o + L) + 4) 4 = Ok (2 ^ 32 - L) ->
  read_file place fuel vol buffer max_bytes records header device = OutOfFuel.
Proof.
  intros H20 Ho HL Hsz H1 D1 E1 L1 H2 D2 E2 L2. unfold read_file. rewrite H20. cbn [mbind res_bind].
  enough (H : forall f, read_attributes place f vol buffer max_bytes records header o 0 device = OutOfFuel /\
                 read_attributes place f vol buffer max_bytes records header (o + L) 0 device = OutOfFuel) by apply H.
  induction f as [|f [IH1 IH2]].
  - cbn [read_attributes]. split; [rewrite (proj2 (Z.ltb_lt o _)) by lia|rewrite (proj2 (Z.ltb_lt (o + L) _)) by lia]; done.
  - split.
    + rewrite (attribute_skipped _ _ _ _ _ _ _ _ _ _ _ _ H1 D1 E1 L1) by lia. by rewrite wrap_id by (unfold in_range; lia).
    + rewrite (attribute_skipped _ _ _ _ _ _ _ _ _ _ _ _ H2 D2 E2 L2) by lia.
      assert (E : (o + L) +32 (2 ^ 32 - L) = o).
      { replace (o + L + (2 ^ 32 - L)) with (o + 1 * 2 ^ 32) by lia. unfold wrap. rewrite Z.mod_add by lia. apply Z.mod_small. lia. }
      by rewrite E.
Qed.
