(* ===== verification/NtfsDetect.v ===== *)
(** * NtfsDetect: detection of a well-formed NTFS volume

    Theorems about src/modules/dm_afs_ntfs.c: the metafiles, the attributes of
    $Bitmap and its run are read to the end and give the free list, for
    volumes with clusters of one block and records of one cluster, which are
    the only ones the code can read. *)
From stdpp Require Import base tactics option list numbers gmap.
From Stdlib Require Import ZArith Lia.
From S2P Require Import Prelude BlockIo Allocation Ntfs.

Local Open Scope Z_scope.
Local Open Scope afs_scope.

(** ** Detection of a well-formed volume *)
Section Detect.
Context (uninit : nat -> list Z) (place : Z -> buffer_place) (hweight8 : Z -> Z).
Context (uninit_length : forall n, List.length (uninit n) = n) (places_ok : forall b, place_ok true (place b)).
Context (hweight8_spec : forall b, is_byte b ->
  hweight8 b = Z.of_nat (List.length (filter (fun i => Z.testbit b i = true) (seqZ 0 8)))).

Lemma vmalloc_length n : 0 <= n -> List.length (vmalloc uninit n) = (4096 * Z.to_nat ((n + 4095) / 4096))%nat.
Proof. intros. unfold vmalloc. rewrite uninit_length. assert (0 <= (n + 4095) / 4096) by (apply Z.div_pos; lia). lia. Qed.

Lemma read_blocks_unfold f page off vol device b o u : read_blocks place (S f) page off vol device b o u =
  if o <? afs_blocks_per_cluster vol then
    '(ret, page, device) ← read_page_to place page (off + o) device (b +32 o) u;
    if negb (ret =? 0) then Ok (ret, page, device) else read_blocks place f page off vol device b (o + AFS_BLOCK_SIZE) u
  else Ok (0, page, device).
Proof. done. Qed.

(** A cluster of one block, read to the next page of a buffer. *)
Lemma read_cluster_spec vol d a n init : afs_blocks_per_cluster vol = 1 -> dev_ok d -> 0 <= a -> a + Z.of_nat n < 2 ^ 20 ->
  8 * (a + Z.of_nat n + 1) <= nr_sects d -> (4096 * S n <= List.length init)%nat ->
  read_ntfs_cluster place (reading d a n init) (Z.of_nat (4096 * n)) vol d (a + Z.of_nat n) true = Ok (0, reading d a (S n) init, d).
Proof.
  intros Hk Hd Ha Hn Hs Hl. assert (Hl' : (4096 * n + 4096 <= List.length init)%nat) by lia.
  pose proof (reading_length d a n init Hd ltac:(lia)) as Hrl.
  unfold read_ntfs_cluster. rewrite Hk, Z.mul_1_r, wrap_id by (unfold in_range; lia).
  rewrite (read_blocks_unfold 255), Hk. change (0 <? 1) with true. rewrite !Z.add_0_r, wrap_id by (unfold in_range; lia).
  unfold read_page_to. destruct (Z.ltb_spec (Z.of_nat (4096 * n)) 0); [lia|]. rewrite Nat2Z.id.
  rewrite slice_Some by (rewrite Hrl; exact Hl'). cbn [of_option mbind res_bind].
  assert (Hon : on_device d 0 (a + Z.of_nat n)) by (unfold on_device; lia).
  assert (Hpl : List.length (take 4096 (drop (4096 * n) (reading d a n init))) = 4096%nat).
  { rewrite length_take, length_drop, Hrl. apply Nat.min_l. lia. }
  rewrite read_page_good by done.
  cbn [mbind res_bind]. rewrite reading_S by done. cbn [of_option mbind res_bind negb Z.eqb].
  by rewrite (read_blocks_unfold 254), Hk.
Qed.

Definition one_block (vol : ntfs_volume) : Prop :=
  bytes_per_cluster vol = 4096 /\ afs_blocks_per_cluster vol = 1 /\ mft_record_size vol = 4096 /\ mft_records_per_cluster vol = 1.

Lemma load_metafiles_spec vol d init : one_block vol -> dev_ok d -> 0 <= mft_cluster vol -> mft_cluster vol + 12 < 2 ^ 20 ->
  8 * (mft_cluster vol + 12) <= nr_sects d -> List.length init = (4096 * 12)%nat ->
  forall j fuel k mf, (k + j = 12)%nat -> (j < fuel)%nat -> List.length mf = 12%nat ->
  (forall i, (i < k)%nat -> mf !! i = Some (Z.of_nat (4096 * i))) ->
  exists mf', load_metafiles place fuel vol (reading d (mft_cluster vol) k init) (Z.of_nat k) mf d =
    Ok (pages_at d (mft_cluster vol) 12, mf', d) /\ forall i, (i < 12)%nat -> mf' !! i = Some (Z.of_nat (4096 * i)).
Proof.
  intros (Hbpc & Hk1 & Hrs & Hrp) Hd Hm0 Hm1 Hns Hl. induction j as [|j IH]; intros fuel k mf Hkj Hf Hml Hmf.
  { replace k with 12%nat in * by lia. exists mf. split; [|done]. destruct fuel; [lia|]. cbn [load_metafiles].
    change (Z.of_nat 12 <? 12) with false. by rewrite reading_all. }
  destruct fuel as [|f]; [lia|]. cbn [load_metafiles]. rewrite (proj2 (Z.ltb_lt _ _)) by lia.
  rewrite Hrs, Hrp. rewrite (wrap_id 32 (Z.of_nat k * 4096)) by (unfold in_range; lia).
  unfold read_mft_records. rewrite Hrp. cbn [Z.eqb]. rewrite Z.mod_1_r, Z.div_1_r. cbn [Z.eqb negb].
  rewrite (wrap_id 64) by (unfold in_range; lia). replace (Z.of_nat k * 4096) with (Z.of_nat (4096 * k)) by lia.
  rewrite read_cluster_spec by (done || lia). cbn [mbind res_bind].
  unfold set_metafiles. rewrite Hrp. change (Z.to_nat 1) with 1%nat. cbn [forM]. rewrite Z.add_0_r.
  rewrite put_nat by lia. cbn [mbind res_bind]. rewrite Z.mul_0_l. change (wrap 32 0) with 0. rewrite Z.add_0_r.
  replace (Z.of_nat k + 1) with (Z.of_nat (S k)) by lia.
  apply IH; [lia|lia|by rewrite length_insert|].
  intros i Hi. destruct (decide (i = k)) as [->|]; [by rewrite list_lookup_insert_eq by lia|].
  rewrite list_lookup_insert_ne by done. apply Hmf. lia.
Qed.

Lemma read_run_spec vol d a n init max last : one_block vol -> dev_ok d -> 0 <= a -> a + Z.of_nat n < 2 ^ 20 ->
  8 * (a + Z.of_nat n) <= nr_sects d -> (4096 * n <= List.length init)%nat ->
  4096 * (Z.of_nat n - 1) < max <= 4096 * Z.of_nat n -> a + Z.of_nat n <= last ->
  forall j fuel i, (i + S j = n)%nat -> (j < fuel)%nat ->
  read_run place fuel vol (reading d a i init) 0 (a + Z.of_nat i) last max (Z.of_nat (4096 * i)) d =
  Ok (true, reading d a n init, Z.of_nat (4096 * n), d).
Proof.
  intros (Hbpc & Hk1 & _) Hd Ha Hn Hs Hl Hmax Hlast. induction j as [|j IH]; intros fuel i Hij Hf;
    (destruct fuel as [|f]; [lia|]); cbn [read_run]; rewrite (proj2 (Z.ltb_lt _ _)) by lia;
    rewrite (wrap_id 64) by (unfold in_range; lia); rewrite Z.add_0_l, read_cluster_spec by (done || lia);
    cbn [mbind res_bind]; rewrite Hbpc; replace (Z.of_nat (4096 * i) + 4096) with (Z.of_nat (4096 * S i)) by lia.
  - replace (S i) with n by lia. rewrite (proj2 (Z.leb_le _ _)) by lia. done.
  - rewrite (proj2 (Z.leb_gt _ _)) by lia. replace (a + Z.of_nat i + 1) with (a + Z.of_nat (S i)) by lia. apply IH; lia.
Qed.

(** Attributes of other types, from one offset of the record to another. *)
Inductive skips (records : list Z) (header : nat) : nat -> nat -> Prop :=
| skip_none o : skips records header o o
| skip_one o o' : (o < 4096)%nat -> le_field (header + o) 4 records <> ATTR_DATA -> le_field (header + o) 4 records <> ATTRS_DONE ->
    0 < le_field (header + o + 4) 4 records -> Z.of_nat o + le_field (header + o + 4) 4 records < 2 ^ 32 ->
    skips records header (o + Z.to_nat (le_field (header + o + 4) 4 records)) o' -> skips records header o o'.

Lemma skips_le records header o o' : skips records header o o' -> (o <= o')%nat.
Proof. induction 1; lia. Qed.

Lemma skips_spec vol buffer max_bytes records header buffer_offset d o o' : mft_record_size vol = 4096 ->
  (header + 4096 + 8 <= List.length records)%nat -> skips records header o o' ->
  forall fuel, (o' - o < fuel)%nat -> exists fuel', (fuel - (o' - o) <= fuel')%nat /\
    read_attributes place fuel vol buffer max_bytes records (Z.of_nat header) (Z.of_nat o) buffer_offset d =
    read_attributes place fuel' vol buffer max_bytes records (Z.of_nat header) (Z.of_nat o') buffer_offset d.
Proof.
  intros Hsz Hl H. induction H as [o|o o' Ho Hd He H0 Hw Hs IH]; intros fuel Hf; [exists fuel; split; [lia|done]|].
  pose proof (skips_le _ _ _ _ Hs) as Hle. set (L := le_field (header + o + 4) 4 records) in *.
  destruct fuel as [|f]; [lia|]. destruct (IH f ltac:(lia)) as (f' & Hf' & E). exists f'. split; [lia|].
  rewrite (attribute_skipped place f vol buffer max_bytes records (Z.of_nat header) (Z.of_nat o) buffer_offset d (le_field (header + o) 4 records) L);
    [|rewrite <- Nat2Z.inj_add; apply load_field; lia|done|done| |lia|lia].
  2:{ replace (Z.of_nat header + Z.of_nat o + 4) with (Z.of_nat (header + o + 4)) by lia. apply load_field. lia. }
  rewrite wrap_id by (unfold in_range; lia). rewrite <- E. do 2 f_equal. lia.
Qed.

(** The non-resident data attribute at offset [B] of the records: [size] bytes
    in one run of [len] clusters from cluster [first]. *)
Record run_attribute (records : list Z) (B : nat) (size len first : Z) : Prop := mk_run_attribute {
  ra_type : le_field B 4 records = ATTR_DATA;
  ra_nonresident : le_field (B + 8) 1 records <> 0;
  ra_vcn : le_field (B + 16) 8 records = 0;
  ra_size : le_field (B + 48) 8 records = size;
  ra_run : let R := (B + Z.to_nat (le_field (B + 32) 2 records))%nat in
    let h := le_field R 1 records in let lb := Z.land h 0xF in let ob := Z.land (Z.shiftr h 4) 0xF in
    (R + 16 <= List.length records)%nat /\ h <> 0 /\ lb < 8 /\ ob < 8 /\
    le_field (R + 1) (Z.to_nat lb) records = len /\ le_field (R + 1 + Z.to_nat lb) (Z.to_nat ob) records = first
}.

Lemma nibble_range x : 0 <= Z.land x 15 < 16.
Proof. change 15 with (Z.ones 4). rewrite Z.land_ones by lia. apply Z.mod_pos_bound. lia. Qed.

(** The eight bytes loaded, masked to the width of the field. *)
Lemma masked_load records off k : bytes records -> 0 <= k < 8 -> (off + 8 <= List.length records)%nat ->
  exists w m, load records (Z.of_nat off) 8 = Ok w /\ field_mask k = Ok m /\ Z.land w m = le_field off (Z.to_nat k) records.
Proof.
  intros Hb Hk Hl. exists (le_field off 8 records), (Z.ones (8 * k)). split; [by apply load_field|]. split.
  { unfold field_mask. rewrite Z.shiftl_mul_pow2 by lia. change (2 ^ 3) with 8. destruct (Z.leb_spec 64 (k * 8)); [lia|].
    f_equal. rewrite Z.ones_equiv, Z.shiftl_1_l, Z.mul_comm. lia. }
  unfold le_field, field. rewrite <- (take_drop (Z.to_nat k) (take 8 (drop off records))), take_take, Nat.min_l by lia.
  assert (Ht : bytes (take (Z.to_nat k) (drop off records))) by by apply Forall_take, Forall_drop.
  rewrite le_load_app by done. rewrite length_take, length_drop, Nat.min_l by lia. rewrite Z2Nat.id by lia.
  pose proof (le_load_range _ Ht) as Hr. rewrite length_take, length_drop, Nat.min_l, Z2Nat.id in Hr by lia.
  apply Z.bits_inj'. intros i Hi. rewrite Z.land_spec, Z.lxor_spec, Z.testbit_ones_nonneg by lia.
  change 256 with (2 ^ 8) in Hr. rewrite <- Z.pow_mul_r in Hr by lia.
  destruct (Z.ltb_spec i (8 * k)).
  - by rewrite Z.shiftl_spec_low, xorb_false_r, andb_true_r by lia.
  - rewrite andb_false_r. symmetry. apply (proj1 (in_range_bits (8 * k) _ ltac:(lia))); [exact Hr|done].
Qed.

Lemma reading_0 d a init : reading d a 0 init = init.
Proof. unfold reading. by rewrite drop_0. Qed.

Lemma read_nonresident_spec vol d records B size len a n init max : one_block vol -> dev_ok d -> bytes records ->
  run_attribute records B size len a -> (B + 56 <= List.length records)%nat ->
  0 <= a -> a + Z.of_nat n < 2 ^ 20 -> 8 * (a + Z.of_nat n) <= nr_sects d -> (0 < n)%nat -> (4096 * n <= List.length init)%nat ->
  4096 * (Z.of_nat n - 1) < max <= 4096 * Z.of_nat n -> max <= size -> Z.of_nat n <= len ->
  forall fuel, (n + 1 < fuel)%nat ->
  read_nonresident_data place fuel vol init 0 records (Z.of_nat B) max d = Ok (reading d a n init, Z.of_nat (4096 * n), d).
Proof.
  intros Hob Hd Hb [_ _ Hv Hsz (HR & Hh & Hlb & Hob' & Hlen & Hfirst)] HB Ha Han Hs Hn Hl Hmax Hms Hln fuel Hf.
  set (R := (B + Z.to_nat (le_field (B + 32) 2 records))%nat) in *. set (h := le_field R 1 records) in *.
  set (lb := Z.land h 15) in *. set (ob := Z.land (Z.shiftr h 4) 15) in *.
  pose proof (nibble_range h) as Rl. pose proof (nibble_range (Z.shiftr h 4)) as Ro. fold lb in Rl. fold ob in Ro.
  unfold read_nonresident_data. replace (Z.of_nat B + 48) with (Z.of_nat (B + 48)) by lia. rewrite load_field, Hsz by lia. cbn [mbind res_bind].
  assert (Emin : (if max <? size then max else size) = max) by (destruct (Z.ltb_spec max size); lia). rewrite Emin.
  replace (Z.of_nat B + 32) with (Z.of_nat (B + 32)) by lia. rewrite load_field by lia. cbn [mbind res_bind].
  pose proof (le_field_range (B + 32) 2 records Hb) as R32. unfold in_range in R32.
  replace (Z.of_nat B + le_field (B + 32) 2 records) with (Z.of_nat R) by (unfold R; lia).
  rewrite load_field by lia. cbn [mbind res_bind].
  replace (Z.of_nat B + 16) with (Z.of_nat (B + 16)) by lia. rewrite load_field, Hv by lia. cbn [mbind res_bind Z.eqb negb].
  destruct fuel as [|f]; [lia|]. cbn [read_runs]. rewrite !Z.add_0_r. rewrite load_field by lia. cbn [mbind res_bind]. fold h.
  rewrite (proj2 (Z.eqb_neq _ _) Hh). fold lb ob.
  destruct (masked_load records (R + 1) lb Hb ltac:(lia) ltac:(lia)) as (w1 & m1 & E1 & M1 & L1).
  destruct (masked_load records (R + 1 + Z.to_nat lb) ob Hb ltac:(lia) ltac:(lia)) as (w2 & m2 & E2 & M2 & L2).
  rewrite M2. cbn [mbind res_bind]. rewrite M1. cbn [mbind res_bind].
  replace (Z.of_nat R + 1) with (Z.of_nat (R + 1)) by lia. rewrite E1. cbn [mbind res_bind].
  replace (Z.of_nat (R + 1) + lb) with (Z.of_nat (R + 1 + Z.to_nat lb)) by lia. rewrite E2. cbn [mbind res_bind].
  rewrite L1, L2, Hlen, Hfirst.
  pose proof (read_run_spec vol d a n init max (a + len) Hob Hd Ha Han Hs Hl Hmax ltac:(lia) (n - 1) f 0 ltac:(lia) ltac:(lia)) as E.
  rewrite reading_0, Z.add_0_r in E. change (Z.of_nat (4096 * 0)) with 0 in E. by rewrite E.
Qed.

(** $Bitmap of the records: after other attributes, one run, then the end. *)
Definition bitmap_header : nat := 4096 * 6.
Definition bitmap_file (records : list Z) (size len first : Z) : Prop :=
  exists o, skips records bitmap_header (Z.to_nat (le_field (bitmap_header + 20) 2 records)) o /\ (o < 4096)%nat /\
    run_attribute records (bitmap_header + o) size len first /\
    let L := le_field (bitmap_header + o + 4) 4 records in
    0 < L /\ Z.of_nat o + L < 4096 /\ le_field (bitmap_header + o + Z.to_nat L) 4 records = ATTRS_DONE.

Lemma read_file_spec vol d records size len a n init max : one_block vol -> dev_ok d -> bytes records ->
  List.length records = (4096 * 12)%nat -> bitmap_file records size len a ->
  0 <= a -> a + Z.of_nat n < 2 ^ 20 -> 8 * (a + Z.of_nat n) <= nr_sects d -> (0 < n)%nat -> List.length init = (4096 * n)%nat ->
  4096 * (Z.of_nat n - 1) < max <= 4096 * Z.of_nat n -> max <= size -> Z.of_nat n <= len ->
  forall fuel, (4100 + n <= fuel)%nat ->
  read_file place fuel vol init max records (Z.of_nat bitmap_header) d = Ok (pages_at d a n, Z.of_nat (4096 * n), d).
Proof.
  intros Hob Hd Hb Hl (o & Hsk & Ho & Hra & HL0 & HL & Hdone) Ha Han Hs Hn Hi Hmax Hms Hln fuel Hf. unfold read_file.
  pose proof (proj1 (proj2 (proj2 Hob))) as Hsz. assert (Hbh : (bitmap_header = 4096 * 6)%nat) by exact eq_refl. set (bh := bitmap_header) in *. clearbody bh. set (L := le_field (bh + o + 4) 4 records) in *.
  replace (Z.of_nat bh + 20) with (Z.of_nat (bh + 20)) by lia. rewrite load_field by lia. cbn [mbind res_bind].
  set (o0 := le_field (bh + 20) 2 records) in *. assert (R0 : in_range 16 o0) by exact (le_field_range _ 2 records Hb).
  destruct (skips_spec vol init max records bh 0 d (Z.to_nat o0) o Hsz ltac:(lia) Hsk fuel ltac:(lia)) as (f & Hff & E).
  rewrite Z2Nat.id in E by apply R0. rewrite E. destruct f as [|f]; [lia|]. cbn [read_attributes]. rewrite Hsz, (proj2 (Z.ltb_lt _ _)) by lia.
  rewrite <- Nat2Z.inj_add. unfold read_attribute.
  rewrite load_field, (ra_type _ _ _ _ _ Hra) by lia. cbn [mbind res_bind]. change (ATTR_DATA =? ATTR_DATA) with true. cbv iota.
  replace (Z.of_nat (bh + o) + 8) with (Z.of_nat (bh + o + 8)) by lia. rewrite load_field by lia. cbn [mbind res_bind].
  rewrite (proj2 (Z.eqb_neq _ _) (ra_nonresident _ _ _ _ _ Hra)). rewrite Z.sub_0_r, (wrap_id 64 max) by (unfold in_range; lia).
  rewrite (read_nonresident_spec vol d records (bh + o) size len a n init max Hob Hd Hb Hra) by (done || lia). cbn [mbind res_bind].
  replace (Z.of_nat (bh + o) + 4) with (Z.of_nat (bh + o + 4)) by lia. rewrite load_field by lia. cbn [mbind res_bind]. fold L.
  destruct (Z.eqb_spec L 0); [lia|]. rewrite wrap_id by (unfold in_range; lia). rewrite reading_all by done. rewrite Z.add_0_l.
  destruct f as [|f]; [lia|]. cbn [read_attributes]. rewrite Hsz, (proj2 (Z.ltb_lt _ _)) by lia. unfold read_attribute.
  replace (Z.of_nat bh + (Z.of_nat o + L)) with (Z.of_nat (bh + o + Z.to_nat L)) by lia. rewrite load_field, Hdone by lia. done.
Qed.

Lemma one_block_volume data vol : bytes data -> read_boot_sector data = Ok (Some vol) ->
  clusters_per_record (ntfs_boot_sector_of data) = 1 -> bytes_per_cluster vol = 4096 -> one_block vol.
Proof.
  intros Hb H Hc Hbpc. destruct (read_boot_sector_Some data vol Hb H) as (_ & _ & _ & _ & Es & Er & Ek & _).
  rewrite Hc in Es. cbn [Z.eqb] in Es. rewrite Hbpc in *. unfold one_block. rewrite Er, Ek, Es, Hbpc. done.
Qed.

(** A volume whose clusters are blocks and whose records are clusters, with its
    table of files and $Bitmap on the device. *)
Record ntfs_volume_ok (vol : ntfs_volume) (d : block_device) (size len first : Z) : Prop := mk_ntfs_ok {
  no_block : one_block vol;
  no_dev : dev_ok d;
  no_mft : 0 <= mft_cluster vol /\ mft_cluster vol + 12 < 2 ^ 20 /\ 8 * (mft_cluster vol + 12) <= nr_sects d;
  no_bytes : bytes (pages_at d (mft_cluster vol) 12);
  no_record : le_field 28 4 (pages_at d (mft_cluster vol) 12) = 4096;
  no_count : 8 <= cluster_count vol < 2 ^ 31;
  no_bitmap : bitmap_file (pages_at d (mft_cluster vol) 12) size len first;
  no_size : cluster_count vol / 8 <= size /\ (cluster_count vol / 8 + 4095) / 4096 <= len;
  no_first : 0 <= first /\ first + (cluster_count vol / 8 + 4095) / 4096 < 2 ^ 20 /\
    8 * (first + (cluster_count vol / 8 + 4095) / 4096) <= nr_sects d
}.

(** The clusters of $Bitmap that are read, and their bits. *)
Definition bitmap_pages (vol : ntfs_volume) : nat := Z.to_nat ((cluster_count vol / 8 + 4095) / 4096).
Definition bitmap_of (vol : ntfs_volume) (d : block_device) (first : Z) : list Z := pages_at d first (bitmap_pages vol).

Lemma ntfs_map_spec fuel vol d size len first : ntfs_volume_ok vol d size len first -> bytes (bitmap_of vol d first) ->
  (4200 + bitmap_pages vol <= fuel)%nat -> let n := (8 * (4096 * bitmap_pages vol))%nat in
  clear_clusters (bitmap_of vol d first) n <> [] ->
  ntfs_map uninit place hweight8 fuel vol d =
  Ok (Some (clear_blocks 1 (bitmap_of vol d first) n, Z.of_nat (List.length (clear_clusters (bitmap_of vol d first) n))), d).
Proof.
  intros [Hob Hd (Hm0 & Hm1 & Hm2) Hb Hrec Hcc Hbf (Hsz & Hlen) (Hf0 & Hf1 & Hf2)] Hbb Hfuel n Hne.
  pose proof Hob as (_ & Hk & Hrs & _). set (np := bitmap_pages vol) in *. set (max := cluster_count vol / 8) in *.
  assert (Hmax : 1 <= max < 2 ^ 28) by (unfold max; split; [apply Z.div_le_lower_bound; lia|apply Z.div_lt_upper_bound; lia]).
  pose proof (Z.div_mod (max + 4095) 4096 ltac:(lia)) as Hdm. pose proof (Z.mod_pos_bound (max + 4095) 4096 ltac:(lia)) as Hmb.
  assert (Hnp : Z.of_nat np = (max + 4095) / 4096) by (unfold np, bitmap_pages; fold max; rewrite Z2Nat.id; [done|apply Z.div_pos; lia]).
  rewrite <- Hnp in *. assert (Hnp2 : (0 < np)%nat /\ Z.of_nat np <= 2 ^ 16) by lia.
  unfold ntfs_map. rewrite Hrs. change (12 *32 4096) with 49152. set (init := vmalloc uninit 49152).
  assert (Hinit : List.length init = (4096 * 12)%nat) by (unfold init; rewrite vmalloc_length by lia; reflexivity).
  destruct (load_metafiles_spec vol d init Hob Hd Hm0 Hm1 Hm2 Hinit 12 fuel 0 (uninit 12) eq_refl ltac:(lia) (uninit_length 12) ltac:(lia)) as (mf & E & Hmf).
  rewrite reading_0 in E. change (Z.of_nat 0) with 0 in E. rewrite E. cbn [mbind res_bind].
  set (records := pages_at d (mft_cluster vol) 12) in *. assert (Hrl : List.length records = (4096 * 12)%nat) by by apply pages_at_length.
  assert (E0 : get mf 0 = Ok 0) by (apply (get_nat mf 0); exact (Hmf 0%nat ltac:(lia))). rewrite E0. cbn [mbind res_bind].
  change (0 + 28) with (Z.of_nat 28). rewrite load_field, Hrec by lia. cbn [mbind res_bind Z.eqb Pos.eqb negb].
  assert (E6 : get mf 6 = Ok (Z.of_nat bitmap_header)) by (apply (get_nat mf 6); exact (Hmf 6%nat ltac:(lia))). rewrite E6. cbn [mbind res_bind].
  assert (Hvl : List.length (vmalloc uninit max) = (4096 * np)%nat) by (rewrite vmalloc_length by lia; f_equal; lia).
  pose proof (read_file_spec vol d records size len first np (vmalloc uninit max) max Hob Hd Hb Hrl Hbf Hf0 Hf1 Hf2
    (proj1 Hnp2) Hvl ltac:(lia) Hsz ltac:(lia) fuel ltac:(lia)) as Hr.
  pose proof (extract_bitmap_spec uninit place hweight8 uninit_length hweight8_spec fuel vol records (Z.of_nat bitmap_header) d
    (bitmap_of vol d first) (4096 * np) d Hr Hbb) as Hx. rewrite Hk in Hx. rewrite Hx; clear Hx.
  - rewrite decide_True by (split; [lia|exact Hne]). exact eq_refl.
  - unfold bitmap_of. rewrite pages_at_length by done. fold np. lia.
  - lia.
  - lia.
  - lia.
Qed.

Lemma clear_blocks_1 bitmap n : clear_blocks 1 bitmap n = clear_clusters bitmap n.
Proof.
  unfold clear_blocks. induction (clear_clusters bitmap n) as [|c l IH]; [done|]. cbn [fmap list_fmap concat]. unfold cluster_blocks at 1.
  change (seqZ 0 1) with [0]. cbn [fmap list_fmap app]. rewrite Z.mul_1_r, Z.add_0_r. by f_equal.
Qed.

(** The pages read hold the bits of all but the last clusters. *)
Lemma pages_cover vol : 8 <= cluster_count vol < 2 ^ 31 ->
  8 * (cluster_count vol / 8) <= 8 * (4096 * Z.of_nat (bitmap_pages vol)) /\ cluster_count vol < 8 * (4096 * Z.of_nat (bitmap_pages vol)) + 8.
Proof.
  intros Hc. unfold bitmap_pages. pose proof (Z.div_pos (cluster_count vol / 8 + 4095) 4096). pose proof (Z.div_pos (cluster_count vol) 8).
  rewrite Z2Nat.id by lia. Z.div_mod_to_equations. lia.
Qed.

(** C16: on a volume with clusters of one block, records of one cluster and
    $Bitmap in one run, whatever other attributes precede it, the detection
    ends, leaves the device as it is and gives, in ascending order and without
    repetition, the numbers of the clear bits of the whole pages of $Bitmap that
    it reads, as the blocks of the free list. For the clusters whose bits fill
    whole bytes of the bitmap these are exactly the free clusters. The numbers
    past the last cluster, up to the end of the page, are listed where the slack of
    $Bitmap is clear; the bits of the last clusters (seven at most) are not read
    where they start a page of their own. *)
Theorem ntfs_detect_free_list fuel data d fs vol size len first :
  read_boot_sector data = Ok (Some vol) -> ntfs_volume_ok vol d size len first -> bytes (bitmap_of vol d first) ->
  (4200 + bitmap_pages vol <= fuel)%nat -> clear_clusters (bitmap_of vol d first) (8 * (4096 * bitmap_pages vol)) <> [] ->
  let pages_end := 8 * (4096 * Z.of_nat (bitmap_pages vol)) in
  exists fs', afs_ntfs_detect uninit place hweight8 fuel data d (Some fs) = Ok (Some fs', d) /\
    (forall b, 0 <= b < 8 * (cluster_count vol / 8) -> b ∈ free_list fs' <-> bit_clear (bitmap_of vol d first) b) /\
    (forall b, 8 * (cluster_count vol / 8) <= b -> b ∈ free_list fs' <-> b < pages_end /\ bit_clear (bitmap_of vol d first) b) /\
    (forall b, b ∈ free_list fs' -> 0 <= b) /\ cluster_count vol < pages_end + 8 /\
    ascending (free_list fs') /\ NoDup (free_list fs') /\ free_list fs' = block_list fs' /\
    sectors_per_block fs' = 8 /\ data_start_off fs' = 0 /\ total_blocks fs' = num_afs_blocks vol.
Proof.
  intros Hb Hok Hbb Hf Hne pages_end. unfold afs_ntfs_detect. rewrite Hb. cbn [mbind res_bind].
  rewrite (ntfs_map_spec fuel vol d size len first Hok Hbb Hf Hne). cbn [mbind res_bind]. rewrite clear_blocks_1. eexists. split; [exact eq_refl|].
  set (l := clear_clusters _ _) in *. assert (Efl : forall spb tb off bt, free_list {| block_list := l; list_len := Z.of_nat (List.length l);
    sectors_per_block := spb; total_blocks := tb; data_start_off := off; blocks_in_tuple := bt |} = l).
  { intros. unfold free_list. cbn [list_len block_list]. by rewrite Nat2Z.id, take_ge by lia. }
  rewrite Efl. cbn [block_list sectors_per_block total_blocks data_start_off].
  assert (Ha : ascending l) by (unfold l; rewrite <- clear_blocks_1; apply ascending_clear; lia).
  assert (Hel : forall b, b ∈ l <-> 0 <= b < pages_end /\ bit_clear (bitmap_of vol d first) b).
  { intros b. unfold l. rewrite clear_clusters_elem. unfold pages_end.
    by replace (Z.of_nat (8 * (4096 * bitmap_pages vol))) with (8 * (4096 * Z.of_nat (bitmap_pages vol))) by lia. }
  destruct (pages_cover vol (no_count _ _ _ _ _ Hok)) as [Hc1 Hc2].
  assert (H0 : 0 <= 8 * (cluster_count vol / 8)) by (pose proof (no_count _ _ _ _ _ Hok); apply Z.mul_nonneg_nonneg, Z.div_pos; lia).
  split; [intros b Hr; rewrite Hel; split; [by intros [_ ?]|intros; split; [unfold pages_end; lia|done]]|].
  split; [intros b Hr; rewrite Hel; split; [by intros [[_ ?] ?]|intros [? ?]; split; [lia|done]]|].
  split; [by intros b [[? _] _]%Hel|]. split; [exact Hc2|]. split; [exact Ha|]. split; [by apply ascending_NoDup|done].
Qed.
End Detect.

(** ** A sample volume

    64 clusters of one block; the master file table from cluster 4 with
    records of one cluster; $Bitmap in cluster 20. Clusters 25, 62 and 63 are
    free; the byte after the bitmap of 8 bytes is zero. *)
Definition pad (n : nat) (x : Z) (l : list Z) : list Z := l ++ replicate (n - List.length l) x.

Definition sample_ntfs_boot (cpr : Z) : list Z :=
  pad 4096 0 ([0xEB; 0x52; 0x90] ++ ntfs_magic ++ le_store 2 512 ++ [8] ++ replicate 26 0 ++ le_store 8 512
    ++ le_store 8 4 ++ le_store 8 40 ++ [cpr]).

Definition mft_record : list Z := pad 512 0 (pad 28 0 [70; 73; 76; 69] ++ le_store 4 4096).
Definition bitmap_record : list Z :=
  pad 512 0 (pad 20 0 [70; 73; 76; 69] ++ le_store 2 56 ++ replicate 6 0 ++ le_store 4 4096 ++ replicate 24 0
    ++ le_store 4 0x80 ++ le_store 4 72 ++ [1] ++ replicate 7 0 ++ le_store 8 0 ++ le_store 8 0 ++ le_store 2 64 ++ replicate 6 0
    ++ le_store 8 4096 ++ le_store 8 8 ++ le_store 8 8 ++ [0x11; 1; 20; 0] ++ replicate 4 0 ++ le_store 4 0xFFFFFFFF).
Definition bitmap_sector : list Z := pad 512 255 [255; 255; 255; 253; 255; 255; 255; 63; 0].

Definition sample_ntfs_device : block_device :=
  {| nr_sects := 1024;
     sectors := <[32 := mft_record]> (<[80 := bitmap_record]> (<[160 := bitmap_sector]>
       (list_to_map ((fun s => (s, replicate 512 255)) <$> seqZ 161 7))));
     outcomes := [] |}.

Definition popcount8 (b : Z) : Z := fold_right (fun i n => n + Z.b2z (Z.testbit b i)) 0 (seqZ 0 8).

Example sample_ntfs :
  afs_ntfs_detect (fun n => replicate n 0) (fun _ => Vmalloced) popcount8 20 (sample_ntfs_boot 1) sample_ntfs_device (Some small_fs) =
  Ok (Some {| block_list := [25; 62; 63; 64; 65; 66; 67; 68; 69; 70; 71]; list_len := 11; sectors_per_block := 8;
              total_blocks := 64; data_start_off := 0; blocks_in_tuple := 0 |}, sample_ntfs_device).
Proof. vm_compute. reflexivity. Qed.

Lemma popcount8_spec b : is_byte b ->
  popcount8 b = Z.of_nat (List.length (filter (fun i => Z.testbit b i = true) (seqZ 0 8))).
Proof.
  intros _. unfold popcount8. induction (seqZ 0 8) as [|i l IH]; [done|]. cbn [fold_right]. rewrite IH, filter_cons.
  destruct (Z.testbit b i); case_decide; try done; cbn [List.length Z.b2z]; lia.
Qed.

Definition sample_ntfs_vol : ntfs_volume :=
  {| bytes_per_sector := 512; sector_count := 512; cluster_count := 64; sectors_per_cluster := 8; bytes_per_cluster := 4096;
     mft_cluster := 4; mft_mirror_cluster := 40; mft_record_size := 4096; afs_blocks_per_cluster := 1;
     mft_records_per_cluster := 1; num_afs_blocks := 64; afs_sectors_per_cluster := 8 |}.

Lemma read_sample_boot : read_boot_sector (sample_ntfs_boot 1) = Ok (Some sample_ntfs_vol).
Proof. vm_compute. reflexivity. Qed.

Lemma sample_bitmap_file : bitmap_file (pages_at sample_ntfs_device 4 12) 8 1 20.
Proof.
  exists 56%nat. split.
  { replace (Z.to_nat (le_field (bitmap_header + 20) 2 (pages_at sample_ntfs_device 4 12))) with 56%nat by (vm_compute; reflexivity).
    apply skip_none. }
  split; [lia|]. split.
  - constructor; [vm_compute; reflexivity|vm_compute; discriminate|vm_compute; reflexivity|vm_compute; reflexivity|].
    cbn zeta. split; [apply Nat.leb_le; vm_compute; reflexivity|]. split; [vm_compute; discriminate|].
    split; [vm_compute; reflexivity|]. split; [vm_compute; reflexivity|]. split; vm_compute; reflexivity.
  - cbn zeta. split; [vm_compute; reflexivity|]. split; vm_compute; reflexivity.
Qed.

Lemma sample_volume_ok : ntfs_volume_ok sample_ntfs_vol sample_ntfs_device 8 1 20.
Proof.
  constructor.
  - done.
  - split; [done|]. unfold sectors_ok. apply (bool_decide_unpack _). vm_compute. exact I.
  - vm_compute. repeat split; discriminate.
  - apply (bool_decide_unpack _). vm_compute. exact I.
  - vm_compute. reflexivity.
  - vm_compute. split; [discriminate|reflexivity].
  - exact sample_bitmap_file.
  - vm_compute. split; discriminate.
  - vm_compute. split; [discriminate|split; [reflexivity|discriminate]].
Qed.

Lemma sample_cluster_free :
  clear_clusters (bitmap_of sample_ntfs_vol sample_ntfs_device 20) (8 * (4096 * bitmap_pages sample_ntfs_vol)) <> [].
Proof.
  intros E. assert (H : 25 ∈ clear_clusters (bitmap_of sample_ntfs_vol sample_ntfs_device 20) (8 * (4096 * bitmap_pages sample_ntfs_vol))).
  { apply clear_clusters_elem. change (bitmap_pages sample_ntfs_vol) with 1%nat. split; [lia|vm_compute; reflexivity]. }
  rewrite E in H. by apply not_elem_of_nil in H.
Qed.

Lemma ntfs_detect_free_list_witness :
  exists fs', afs_ntfs_detect (fun n => replicate n 0) (fun _ => Vmalloced) popcount8 (4200 + bitmap_pages sample_ntfs_vol)
    (sample_ntfs_boot 1) sample_ntfs_device (Some small_fs) = Ok (Some fs', sample_ntfs_device) /\ ascending (free_list fs').
Proof.
  destruct (ntfs_detect_free_list (fun n => replicate n 0) (fun _ => Vmalloced) popcount8 (fun n => length_replicate n 0)
    (fun _ => conj eq_refl I) popcount8_spec (4200 + bitmap_pages sample_ntfs_vol) (sample_ntfs_boot 1) sample_ntfs_device small_fs sample_ntfs_vol 8 1 20
    read_sample_boot sample_volume_ok) as (fs' & H & _ & _ & _ & _ & Ha & _).
  - apply (bool_decide_unpack _). vm_compute. exact I.
  - apply Nat.le_refl.
  - exact sample_cluster_free.
  - exists fs'. split; [exact H|exact Ha].
Defined.

Lemma ntfs_record_size_faults_witness :
  clusters_per_record (ntfs_boot_sector_of (sample_ntfs_boot 0xF6)) = 0xF6 /\
  afs_ntfs_detect (fun n => replicate n 0) (fun _ => Vmalloced) popcount8 1 (sample_ntfs_boot 0xF6) sample_ntfs_device (Some small_fs) = Fault.
Proof.
  split; [vm_compute; reflexivity|].
  refine (ntfs_record_size_faults _ _ _ 0 (sample_ntfs_boot 0xF6) _ _
    {| bytes_per_sector := 512; sector_count := 512; cluster_count := 64; sectors_per_cluster := 8; bytes_per_cluster := 4096;
       mft_cluster := 4; mft_mirror_cluster := 40; mft_record_size := 1007616; afs_blocks_per_cluster := 1;
       mft_records_per_cluster := 0; num_afs_blocks := 64; afs_sectors_per_cluster := 8 |} _ _ _).
  - apply (bool_decide_unpack _). vm_compute. exact I.
  - vm_compute. reflexivity.
  - vm_compute. discriminate.
Defined.

Definition looping_record : list Z :=
  pad 512 0 (pad 20 0 [70; 73; 76; 69] ++ le_store 2 32 ++ replicate 10 0 ++ le_store 4 0x10 ++ le_store 4 16 ++ replicate 8 0
    ++ le_store 4 0x10 ++ le_store 4 (2 ^ 32 - 16)).

Lemma ntfs_attributes_hang_witness :
  read_file (fun _ => Vmalloced) 99 sample_ntfs_vol [] 8 looping_record 0 sample_ntfs_device = OutOfFuel.
Proof.
  refine (ntfs_attributes_hang _ 99 sample_ntfs_vol [] 8 looping_record 0 32 16 0x10 0x10 sample_ntfs_device _ _ _ _ _ _ _ _ _ _ _ _);
    vm_compute; try reflexivity; try discriminate; try (split; [reflexivity|discriminate]).
Defined.
