(* ===== verification/Ext4.v ===== *)
(** * Ext4: detection of an EXT4 volume and its free blocks (src/modules/dm_afs_ext4.c)

    The super block, the table of group descriptors, the block bitmaps of the
    groups, and the list of free blocks made from them. The static variable
    [is_64bit] is an argument and a result. Of the structures of the disk the
    records hold the fields that decide something; the functions that print
    them change nothing. [kmalloc] succeeds, and so does [vmalloc] unless it is
    asked for 0 bytes. *)
From stdpp Require Import base tactics option list numbers gmap.
From Stdlib Require Import ZArith Lia.
From S2P Require Import Prelude BitVector BlockIo Allocation.

Local Open Scope Z_scope.
Local Open Scope afs_scope.

(** ** Structures *)
Definition lo_hi_64 (lo hi : Z) : Z := Z.lor (Z.shiftl hi 32) lo.

Record ext4_superblock := mk_ext4_superblock {
  s_blocks_count_lo : Z; s_free_blocks_count_lo : Z; s_first_data_block : Z; s_log_blk_sz : Z; s_log_cluster_size : Z;
  s_blocks_per_group : Z; s_magic : Z; s_feature_incompat : Z; s_feature_ro_compat : Z; s_reserved_gdt_blocks : Z;
  s_desc_size : Z
}.
Definition ext4_superblock_of (bs : list Z) : ext4_superblock :=
  mk_ext4_superblock (le_field 4 4 bs) (le_field 12 4 bs) (le_field 20 4 bs) (le_field 24 4 bs) (le_field 28 4 bs)
    (le_field 32 4 bs) (le_field 56 2 bs) (le_field 96 4 bs) (le_field 100 4 bs) (le_field 206 2 bs) (le_field 254 2 bs).

(** [struct ext4_group_desc] is read through a pointer to [desc_size] bytes. *)
Definition bg_block_bitmap_lo (gd : list Z) : res Z := load gd 0 4.
Definition bg_block_bitmap_hi (gd : list Z) : res Z := load gd 32 4.

Definition EXT4_GROUP0_PAD : Z := 1024.
Definition EXT4_INCOMPAT_64BIT : Z := 0x80.
Definition EXT4_RO_COMPAT_SPARSE_SUPER : Z := 0x1.

Record ext4_disk := mk_ext4_disk {
  first_data_block : Z; block_count : Z; free_block_count : Z; reserved_gdt_blocks : Z; blk_sz : Z; cluster_size : Z;
  num_grp_descs : Z; grp_desc_sz : Z; blks_per_grp : Z; is_sparse_super : bool; gd_arr : list (list Z)
}.

Definition set_gd_arr (disk : ext4_disk) (arr : list (list Z)) : ext4_disk :=
  {| first_data_block := first_data_block disk; block_count := block_count disk; free_block_count := free_block_count disk;
     reserved_gdt_blocks := reserved_gdt_blocks disk; blk_sz := blk_sz disk; cluster_size := cluster_size disk;
     num_grp_descs := num_grp_descs disk; grp_desc_sz := grp_desc_sz disk; blks_per_grp := blks_per_grp disk;
     is_sparse_super := is_sparse_super disk; gd_arr := arr |}.

(** [1 << s] in type [int], converted to 64 bits. *)
Definition int_shl1 (s : Z) : res Z :=
  if 32 <=? s then Fault else Ok (if s =? 31 then u64 (- 2 ^ 31) else 2 ^ s).

Definition quot (a b : Z) : res (Z * Z) := if b =? 0 then Fault else Ok (a / b, a mod b).

(** The end status and the new value of [is_64bit]. *)
Definition read_superblock (data : list Z) (is_64bit : bool) : res (Z * ext4_superblock * bool) :=
  bs ← of_option (slice (Z.to_nat EXT4_GROUP0_PAD) 1024 data);
  let sb := ext4_superblock_of bs in
  if negb (s_magic sb =? 0xEF53) then Ok (1, sb, is_64bit) else
  Ok (0, sb, if negb (Z.land (s_feature_incompat sb) EXT4_INCOMPAT_64BIT =? 0) then true else is_64bit).

Section Ext4.

(** What fresh memory contains. *)
Context (uninit : nat -> list Z).

Definition new_group_desc (is_64bit : bool) (sb : ext4_superblock) : list Z :=
  uninit (Z.to_nat (if is_64bit then s_desc_size sb else 32)).

(** [None]: [vmalloc] of 0 bytes. *)
Definition new_group_desc_arr (is_64bit : bool) (sb : ext4_superblock) (num_grp_descs : Z) : option (list (list Z)) :=
  if num_grp_descs =? 0 then None else Some (replicate (Z.to_nat num_grp_descs) (new_group_desc is_64bit sb)).

Definition new_disk (is_64bit : bool) (sb : ext4_superblock) : res (option ext4_disk) :=
  blk_sz ← int_shl1 (10 +32 s_log_blk_sz sb);
  cluster_size ← int_shl1 (10 +32 s_log_cluster_size sb);
  '(_, rem) ← quot (s_free_blocks_count_lo sb) (s_blocks_per_group sb);
  '(q, _) ← quot (s_blocks_count_lo sb) (s_blocks_per_group sb);
  let num_grp_descs := if rem =? 0 then q else q +32 1 in
  match new_group_desc_arr is_64bit sb num_grp_descs with
  | None => Ok None
  | Some gd_arr =>
      Ok (Some {| first_data_block := s_first_data_block sb; block_count := s_blocks_count_lo sb;
                  free_block_count := s_free_blocks_count_lo sb; reserved_gdt_blocks := s_reserved_gdt_blocks sb;
                  blk_sz := blk_sz; cluster_size := cluster_size; num_grp_descs := num_grp_descs;
                  grp_desc_sz := if is_64bit then s_desc_size sb else 32; blks_per_grp := s_blocks_per_group sb;
                  is_sparse_super := negb (Z.land (s_feature_ro_compat sb) EXT4_RO_COMPAT_SPARSE_SUPER =? 0);
                  gd_arr := gd_arr |})
  end.

(** ** Group descriptors *)

(** The page read at a sector into a cleared buffer of [vmalloc], whatever the
    result of the read. *)
Definition read_cleared (device : block_device) (sector_offset : Z) : res (list Z * block_device) :=
  '(_, buf, device) ← read_page Vmalloced (replicate 4096 0) device 0 (u32 sector_offset) true;
  Ok (buf, device).

(** [n] descriptors of the buffer, to the array from index [base]. *)
Definition copy_descs (is_64bit : bool) (sb : ext4_superblock) (disk : ext4_disk) (buf : list Z) (n base : Z) (arr : list (list Z))
    : res (list (list Z)) :=
  forM (Z.to_nat n) 0 (fun j arr =>
    src ← of_option (slice (Z.to_nat (grp_desc_sz disk * j)) (Z.to_nat (grp_desc_sz disk)) buf);
    gd ← of_option (splice 0 src (new_group_desc is_64bit sb));
    put arr (j +64 base) gd) arr.

(** Whole blocks of descriptors, descriptors that are left, and descriptors of
    a block. *)
Definition desc_counts (disk : ext4_disk) : res (Z * Z * Z) :=
  '(num_gds_per_blk, _) ← quot (blk_sz disk) (grp_desc_sz disk);
  '(gd_blks, rem_blk_sz) ← quot (num_grp_descs disk *64 grp_desc_sz disk) (blk_sz disk);
  '(rem_gds, _) ← quot rem_blk_sz (grp_desc_sz disk);
  Ok (gd_blks, rem_gds, num_gds_per_blk).

Definition read_group_descs (is_64bit : bool) (sb : ext4_superblock) (disk : ext4_disk) (device : block_device)
    : res (list (list Z) * block_device) :=
  '(gd_blks, rem_gds, num_gds_per_blk) ← desc_counts disk;
  '(arr, sector_offset, device) ←
    forM (Z.to_nat gd_blks) 0 (fun i '(arr, sector_offset, device) =>
      '(buf, device) ← read_cleared device sector_offset;
      arr ← copy_descs is_64bit sb disk buf num_gds_per_blk (i *64 num_gds_per_blk) arr;
      Ok (arr, sector_offset +32 AFS_SECTORS_PER_BLOCK, device)) (gd_arr disk, AFS_SECTORS_PER_BLOCK, device);
  '(buf, device) ← read_cleared device sector_offset;
  arr ← copy_descs is_64bit sb disk buf rem_gds (gd_blks *64 num_gds_per_blk) arr;
  Ok (arr, device).

(** ** Block bitmaps *)
Fixpoint strip_factor (fuel : nat) (num n : Z) : res Z :=
  '(q, r) ← quot num n;
  if r =? 0 then match fuel with O => OutOfFuel | S f => strip_factor f q n end else Ok num.

(** 64 divisions by a number above 1 end at 0. *)
Definition is_pow_n (num n : Z) : res bool :=
  if num =? 0 then Ok false else num ← strip_factor 64 num n; Ok (num =? 1).

Section Bitmaps.
Context {V : Type} `{BitVectorOps V}.

(** [for (j = a; j < b; ++j) bit_vector_set(bvec, j)], with an [int] that is
    compared as an unsigned number. *)
Definition set_bits (bvec : V) (a b : Z) : res V :=
  forM (Z.to_nat (Z.min b (2 ^ 31) - a)) a (fun j bvec => '(_, bvec) ← bvset bvec j; Ok bvec) bvec.

Definition has_backups (grp_num : Z) : res bool :=
  is_pow_3 ← is_pow_n grp_num 3;
  is_pow_5 ← is_pow_n grp_num 5;
  is_pow_7 ← is_pow_n grp_num 7;
  Ok ((grp_num =? 0) || is_pow_3 || is_pow_5 || is_pow_7).

Definition read_bitmap (is_64bit : bool) (device : block_device) (disk : ext4_disk) (gd : list Z) (grp_num : Z) (bvec : V)
    : res (V * block_device) :=
  lo ← bg_block_bitmap_lo gd;
  block_bmap ← (if is_64bit then hi ← bg_block_bitmap_hi gd; Ok (lo_hi_64 lo hi) else Ok lo);
  '(buf, device) ← read_cleared device (block_bmap *64 AFS_SECTORS_PER_BLOCK);
  bvec ← forM (Z.to_nat (blks_per_grp disk)) 0 (fun i bvec =>
    b ← get buf (i / 8);
    if negb (Z.land b (Z.shiftl 1 (i mod 8)) =? 0) then '(_, bvec) ← bvset bvec i; Ok bvec else Ok bvec) bvec;
  backups ← has_backups grp_num;
  if is_sparse_super disk && backups then
    '(_, bvec) ← bvset bvec 0;
    '(gd_blks, rem_gds, _) ← desc_counts disk;
    let gd_blks := if negb (rem_gds =? 0) then gd_blks +64 1 else gd_blks in
    bvec ← set_bits bvec 1 (1 +64 gd_blks);
    let offset := 1 +64 gd_blks in
    bvec ← set_bits bvec offset (offset +64 reserved_gdt_blocks disk);
    Ok (bvec, device)
  else Ok (bvec, device).

(** One turn of the inner loop: the block of bit [j] of group [i]. *)
Definition list_block (disk : ext4_disk) (i j : Z) (s : V * list Z * Z) : res (V * list Z * Z) :=
  let '(bvec, block_list, k) := s in
  g ← bvget bvec j;
  '(block_list, k) ←
    (if g =? 0 then
       let blk_grp_offset := blks_per_grp disk *32 i in
       let blk_offset := j +32 first_data_block disk in
       if blk_grp_offset + blk_offset <=? 0xFFFFFFFF then
         block_list ← put block_list k (blk_grp_offset + blk_offset); Ok (block_list, k + 1)
       else Ok (block_list, k)
     else Ok (block_list, k));
  '(_, bvec) ← bvclear bvec j;
  Ok (bvec, block_list, k).

Definition list_group (is_64bit : bool) (disk : ext4_disk) (i : Z) (s : V * list Z * Z * block_device) : res (V * list Z * Z * block_device) :=
  let '(bvec, block_list, k, device) := s in
  gd ← get (gd_arr disk) i;
  '(bvec, device) ← read_bitmap is_64bit device disk gd i bvec;
  '(bvec, block_list, k) ← forM (Z.to_nat (bvlen bvec)) 0 (list_block disk i) (bvec, block_list, k);
  Ok (bvec, block_list, k, device).
End Bitmaps.

(** An array of 32-bit numbers of [vmalloc]: whole pages. *)
Definition vmalloc_u32 (n : Z) : option (list Z) :=
  if n =? 0 then None else Some (uninit (Z.to_nat (1024 * ((n + 1023) / 1024)))).

(** The result is the status and the file system. The list that is kept is the
    temporary one; the second array is only tested. *)
Definition read_bitmaps (is_64bit : bool) (disk : ext4_disk) (device : block_device) (fs : afs_passive_fs)
    : res (Z * afs_passive_fs * block_device) :=
  match vmalloc_u32 (free_block_count disk) with
  | None => Ok (1, fs, device)
  | Some block_list =>
      '(_, block_list, k, device) ←
        forM (Z.to_nat (num_grp_descs disk)) 0 (list_group is_64bit disk)
          (bit_vector_create true true (le_load (uninit 8)) (blks_per_grp disk), block_list, 0, device);
      let with_list l := {| block_list := l; list_len := u32 k; sectors_per_block := sectors_per_block fs;
                            total_blocks := total_blocks fs; data_start_off := data_start_off fs;
                            blocks_in_tuple := blocks_in_tuple fs |} in
      match vmalloc_u32 (u32 k) with
      | None => Ok (1, with_list [], device)
      | Some _ => Ok (0, with_list block_list, device)
      end
  end.

(** The result of the detection, the file system, [is_64bit] and the device. *)
Definition afs_ext4_detect (is_64bit : bool) (data : list Z) (device : block_device) (fs : afs_passive_fs)
    : res (bool * afs_passive_fs * bool * block_device) :=
  '(status, sb, is_64bit) ← read_superblock data is_64bit;
  if negb (status =? 0) then Ok (false, fs, is_64bit, device) else
  disk ← new_disk is_64bit sb;
  match disk with
  | None => Ok (true, fs, is_64bit, device)
  | Some disk =>
      '(gd_arr, device) ← read_group_descs is_64bit sb disk device;
      '(_, fs, device) ← read_bitmaps is_64bit (set_gd_arr disk gd_arr) device fs;
      Ok (true, fs, is_64bit, device)
  end.
End Ext4.

(** ** Powers *)
Definition is_power (num n : Z) : Prop := exists k, 0 <= k /\ num = n ^ k.

Lemma strip_factor_spec fuel num n : 2 <= n -> 0 < num < 2 ^ Z.of_nat fuel ->
  exists m k, strip_factor fuel num n = Ok m /\ 0 < m /\ m mod n <> 0 /\ 0 <= k /\ num = m * n ^ k.
Proof.
  intros Hn. revert num. induction fuel as [|fuel IH]; intros num Hnum; [cbn in Hnum; lia|].
  cbn [strip_factor]. unfold quot. destruct (Z.eqb_spec n 0); [lia|]. cbn [mbind res_bind].
  destruct (Z.eqb_spec (num mod n) 0) as [E|E]; [|exists num, 0; rewrite Z.mul_1_r; split_and!; done || lia].
  pose proof (Z.div_mod num n ltac:(lia)) as Hd. rewrite E, Z.add_0_r in Hd.
  replace (Z.of_nat (S fuel)) with (Z.of_nat fuel + 1) in Hnum by lia. rewrite Z.pow_add_r in Hnum by lia.
  destruct (IH (num / n)) as (m & k & -> & Hm0 & Hm & Hk & Eq); [nia|]. exists m, (k + 1). split_and!; [done..|lia|].
  rewrite Z.pow_add_r, Z.pow_1_r by lia. nia.
Qed.

Lemma is_pow_n_spec num n : 2 <= n -> in_range 64 num ->
  exists b, is_pow_n num n = Ok b /\ (b = true <-> is_power num n).
Proof.
  intros Hn Hr. unfold is_pow_n. destruct (Z.eqb_spec num 0) as [->|H0].
  { exists false. split; [done|]. split; [done|]. intros (k & Hk & E). pose proof (Z.pow_pos_nonneg n k). lia. }
  destruct (strip_factor_spec 64 num n Hn) as (m & k & -> & Hm0 & Hm & Hk & ->); [unfold in_range in Hr; change (Z.of_nat 64) with 64; lia|].
  cbn [mbind res_bind]. eexists. split; [done|]. rewrite Z.eqb_eq. split.
  - intros ->. exists k. by rewrite Z.mul_1_l.
  - intros (k' & Hk' & E). destruct (Z_lt_le_dec k k') as [L|L].
    + exfalso. apply Hm. replace k' with (k + 1 + (k' - k - 1)) in E by lia. rewrite !Z.pow_add_r, Z.pow_1_r in E by lia.
      pose proof (Z.pow_pos_nonneg n k ltac:(lia) Hk). apply Z.mod_divide; [lia|]. exists (n ^ (k' - k - 1)). apply (Z.mul_reg_r _ _ (n ^ k)); [lia|]. rewrite E. ring.
    + replace k with (k' + (k - k')) in E by lia. rewrite Z.pow_add_r in E by lia.
      pose proof (Z.pow_pos_nonneg n k' ltac:(lia) Hk'). pose proof (Z.pow_pos_nonneg n (k - k') ltac:(lia) ltac:(lia)).
      assert (m * n ^ (k - k') = 1) by (apply (Z.mul_reg_l _ _ (n ^ k')); lia). nia.
Qed.

(** The groups that hold copies of the super block. *)
Definition backup_group (g : Z) : Prop := g = 0 \/ is_power g 3 \/ is_power g 5 \/ is_power g 7.

Lemma has_backups_spec g : in_range 64 g -> exists b, has_backups g = Ok b /\ (b = true <-> backup_group g).
Proof.
  intros Hg. unfold has_backups. destruct (is_pow_n_spec g 3 ltac:(lia) Hg) as (b3 & -> & H3), (is_pow_n_spec g 5 ltac:(lia) Hg) as (b5 & -> & H5),
    (is_pow_n_spec g 7 ltac:(lia) Hg) as (b7 & -> & H7). cbn [mbind res_bind]. eexists. split; [done|].
  rewrite !orb_true_iff, Z.eqb_eq, H3, H5, H7. unfold backup_group. tauto.
Qed.

(** ** Loops over the bit vector *)
Section Bits.
Context {V : Type} `{BitVectorOps V}.
Implicit Types (v : V).

(** [v] is well formed, of length [n], and its bits are [f]. *)
Definition bits_are v (n : Z) (f : Z -> bool) : Prop := bvok v /\ bvlen v = n /\ forall j, 0 <= j < n -> bvmem v j = f j.

Lemma bvset_holds v n f i : bits_are v n f -> 0 <= i ->
  exists r v', bvset v i = Ok (r, v') /\ bits_are v' n (fun j => (j =? i) || f j).
Proof.
  intros (Hv & Hl & Hf) Hi. destruct (Z_le_gt_dec i (bvlen v)).
  - destruct (bvset_in v i Hv ltac:(lia)) as (v' & -> & Hv' & Hl' & Hm). eexists _, _. split; [done|]. split_and!; [done|lia|].
    intros j Hj. rewrite Hm. destruct (Z.eqb_spec j i); [by rewrite decide_True|]. rewrite decide_False by done. by apply Hf.
  - rewrite bvset_out by (done || lia). eexists _, _. split; [done|]. split_and!; [done..|]. intros j Hj.
    destruct (Z.eqb_spec j i); [lia|]. by apply Hf.
Qed.

Lemma holds_ext v n f g : bits_are v n f -> (forall j, 0 <= j < n -> f j = g j) -> bits_are v n g.
Proof. intros (Hv & Hl & Hf) E. split_and!; [done..|]. intros j Hj. rewrite Hf by done. by apply E. Qed.

Lemma set_bits_holds v n f a b : bits_are v n f -> 0 <= a -> 0 <= n < 2 ^ 31 ->
  exists v', set_bits v a b = Ok v' /\ bits_are v' n (fun j => ((a <=? j) && (j <? b)) || f j).
Proof.
  intros Hv Ha Hn. unfold set_bits. set (cnt := Z.to_nat (Z.min b (2 ^ 31) - a)).
  destruct (forM_invariant (fun k v => bits_are v n (fun j => ((a <=? j) && (j <? k)) || f j)) cnt a
    (fun j bvec => '(_, bvec) ← bvset bvec j; Ok bvec) v) as (v' & -> & Hv').
  - eapply holds_ext; [done|]. intros j Hj. destruct (Z.leb_spec a j), (Z.ltb_spec j a); cbn [andb orb]; done || lia.
  - intros k s Hk Hs. destruct (bvset_holds s n _ k Hs ltac:(lia)) as (r & s' & -> & Hs'). cbn [mbind res_bind].
    eexists. split; [done|]. eapply holds_ext; [done|]. intros j Hj. cbn beta.
    destruct (Z.eqb_spec j k), (Z.leb_spec a j), (Z.ltb_spec j k), (Z.ltb_spec j (k + 1)); cbn [andb orb]; done || lia.
  - eexists. split; [done|]. eapply holds_ext; [done|]. intros j Hj. cbn beta. unfold cnt.
    destruct (Z.leb_spec a j), (Z.ltb_spec j b), (Z.ltb_spec j (a + Z.of_nat (Z.to_nat (Z.min b (2 ^ 31) - a)))); cbn [andb orb]; done || lia.
Qed.
End Bits.

(** ** Pages at a sector *)
Definition sector_page (d : block_device) (s : Z) : list Z := block_at d s 0.

Lemma read_cleared_good d s : dev_ok d -> 0 <= s < 2 ^ 31 -> s + 8 <= nr_sects d -> read_cleared d s = Ok (sector_page d s, d).
Proof.
  intros Hd Hs Hn. unfold read_cleared. rewrite wrap_id by (unfold in_range; lia).
  rewrite read_page_good; [done|done|repeat split; lia|done|apply length_replicate].
Qed.

Lemma page_field d a m p off n : 0 <= a -> 8 * (a + Z.of_nat m) < 2 ^ 31 -> dev_ok d -> (p < m)%nat -> (off + n <= 4096)%nat ->
  field (4096 * p + off) n (pages_at d a m) = field off n (sector_page d (8 * (a + Z.of_nat p))).
Proof.
  intros Ha Hm Hd Hp Ho. unfold pages_at, sector_page, block_at. rewrite sector_num_small by lia.
  replace (8 * m)%nat with (8 * p + (8 + 8 * (m - p - 1)))%nat by lia. rewrite !get_sectors_app.
  assert (Hl : forall s k, List.length (get_sectors (sectors d) s k) = (512 * k)%nat) by (intros; apply get_sectors_length, Hd).
  unfold field. rewrite drop_app_ge by (rewrite Hl; lia). rewrite Hl. replace (4096 * p + off - 512 * (8 * p))%nat with off by lia.
  rewrite drop_app_le by (rewrite Hl; lia). rewrite take_app_le by (rewrite length_drop, Hl; lia). do 3 f_equal. lia.
Qed.

(** ** The table of group descriptors *)
Section Geometry.
Context (uninit : nat -> list Z) (uninit_length : forall n, List.length (uninit n) = n).

(** A disk whose blocks have 4096 bytes and hold whole descriptors. *)
Record disk_ok (disk : ext4_disk) (gsz groups : nat) : Prop := mk_disk_ok {
  do_blk : blk_sz disk = 4096;
  do_gsz : grp_desc_sz disk = Z.of_nat gsz /\ (0 < gsz)%nat /\ 4096 mod Z.of_nat gsz = 0;
  do_groups : num_grp_descs disk = Z.of_nat groups /\ (0 < groups)%nat /\ Z.of_nat groups < 2 ^ 32;
  do_bpg : 0 < blks_per_grp disk <= 32768;
  do_first : 0 <= first_data_block disk /\ first_data_block disk + blks_per_grp disk * Z.of_nat groups <= 2 ^ 32;
  do_reserved : in_range 16 (reserved_gdt_blocks disk)
}.

(** The blocks that descriptors fill, and the descriptors left. *)
Definition full_blocks (gsz groups : nat) : nat := (groups * gsz / 4096)%nat.
Definition left_descs (gsz groups : nat) : nat := (groups * gsz mod 4096 / gsz)%nat.

Lemma gsz_divides gsz : (0 < gsz)%nat -> 4096 mod Z.of_nat gsz = 0 -> exists per, (4096 = gsz * per)%nat.
Proof.
  intros H0 Hm. exists (Z.to_nat (4096 / Z.of_nat gsz)). pose proof (Z.div_mod 4096 (Z.of_nat gsz) ltac:(lia)).
  pose proof (Z.div_pos 4096 (Z.of_nat gsz)). apply Nat2Z.inj. rewrite Nat2Z.inj_mul, Z2Nat.id by lia. change (Z.of_nat 4096) with 4096. lia.
Qed.

Lemma desc_counts_spec disk gsz groups per : disk_ok disk gsz groups -> (4096 = gsz * per)%nat ->
  desc_counts disk = Ok (Z.of_nat (full_blocks gsz groups), Z.of_nat (left_descs gsz groups), Z.of_nat per).
Proof.
  intros [Hb (Hg & Hg0 & Hm) (Hn & Hn0 & Hn1) _ _ _] Hper. unfold desc_counts, quot. rewrite Hb, Hg, Hn.
  destruct (Z.eqb_spec (Z.of_nat gsz) 0); [lia|]. cbn [mbind res_bind Z.eqb].
  assert (Hg4 : (gsz <= 4096)%nat) by (destruct per; nia).
  rewrite wrap_id by (unfold in_range; split; [lia|]; apply Z.le_lt_trans with (2 ^ 32 * 4096); [apply Z.mul_le_mono_nonneg; lia|lia]). unfold full_blocks, left_descs.
  assert (E4 : 4096 = Z.of_nat 4096) by reflexivity. rewrite E4, Hper, <- !Nat2Z.inj_mul, <- !Nat2Z.inj_div, <- !Nat2Z.inj_mod, <- !Nat2Z.inj_div.
  do 3 f_equal. rewrite Nat.mul_comm, Nat.div_mul by lia. done.
Qed.

(** Every descriptor is in a whole block or left. *)
Lemma desc_split gsz groups per : (4096 = gsz * per)%nat -> (0 < gsz)%nat ->
  (groups = full_blocks gsz groups * per + left_descs gsz groups)%nat /\ (left_descs gsz groups < per)%nat.
Proof.
  intros Hp Hg. unfold full_blocks, left_descs. rewrite Hp, (Nat.mul_comm groups gsz).
  rewrite Nat.Div0.div_mul_cancel_l, Nat.Div0.mul_mod_distr_l by lia.
  rewrite (Nat.mul_comm gsz (groups mod per)), Nat.div_mul by lia.
  pose proof (Nat.div_mod_eq groups per). pose proof (Nat.mod_upper_bound groups per). nia.
Qed.

Lemma new_group_desc_length is_64bit sb : List.length (new_group_desc uninit is_64bit sb) = Z.to_nat (if is_64bit then s_desc_size sb else 32).
Proof. apply uninit_length. Qed.

Lemma copy_descs_spec is_64bit sb disk buf gsz cnt base arr :
  grp_desc_sz disk = Z.of_nat gsz -> List.length (new_group_desc uninit is_64bit sb) = gsz -> List.length buf = 4096%nat ->
  (gsz * cnt <= 4096)%nat -> (base + cnt <= List.length arr)%nat -> Z.of_nat (List.length arr) <= 2 ^ 32 ->
  exists arr', copy_descs uninit is_64bit sb disk buf (Z.of_nat cnt) (Z.of_nat base) arr = Ok arr' /\ List.length arr' = List.length arr /\
    forall g, arr' !! g = if decide (base <= g < base + cnt)%nat then Some (field (gsz * (g - base)) gsz buf) else arr !! g.
Proof.
  intros Hg Hgd Hb Hc Hl Hl2. unfold copy_descs. rewrite Hg, !Nat2Z.id.
  forM_induction (fun j a => List.length a = List.length arr /\
    forall g, a !! g = if decide (base <= g < base + j)%nat then Some (field (gsz * (g - base)) gsz buf) else arr !! g).
  - split; [done|]. intros g. by rewrite decide_False by lia.
  - intros j a Hj [Ha Hag]. assert (Hj' : (gsz * S j <= gsz * cnt)%nat) by (apply Nat.mul_le_mono_l; lia). rewrite Nat.mul_succ_r in Hj'.
    rewrite <- Nat2Z.inj_mul, Nat2Z.id, slice_Some by lia. cbn [of_option mbind res_bind].
    fold (field (gsz * j) gsz buf). assert (Hf : List.length (field (gsz * j) gsz buf) = gsz) by (unfold field; rewrite length_take, length_drop; lia).
    rewrite splice_Some by (rewrite Hf, Hgd; lia). cbn [of_option mbind res_bind take]. rewrite drop_ge, app_nil_r by (rewrite Hf, Hgd; lia).
    rewrite wrap_id by (unfold in_range; lia). rewrite <- Nat2Z.inj_add, put_nat by lia. eexists. split; [done|].
    split; [by rewrite length_insert|]. intros g. cbn [app]. destruct (decide (g = j + base)%nat) as [->|Hne].
    + rewrite list_lookup_insert_eq, decide_True by lia. by replace (j + base - base)%nat with j by lia.
    + rewrite list_lookup_insert_ne, Hag by done. repeat case_decide; (done || lia).
  - destruct Hloop as (a & -> & Ha & Hag). by exists a.
Qed.

(** The table lies behind the block of the super block. *)
Definition desc_table (d : block_device) (gsz groups : nat) : list Z := pages_at d 1 (S (full_blocks gsz groups)).
Definition descriptor (d : block_device) (gsz groups g : nat) : list Z := field (gsz * g) gsz (desc_table d gsz groups).

Lemma descriptor_page d gsz groups per p j : dev_ok d -> (4096 = gsz * per)%nat -> (p <= full_blocks gsz groups)%nat -> (j < per)%nat ->
  8 * (2 + Z.of_nat (full_blocks gsz groups)) < 2 ^ 31 ->
  descriptor d gsz groups (p * per + j) = field (gsz * j) gsz (sector_page d (8 * (1 + Z.of_nat p))).
Proof.
  intros Hd Hper Hp Hj Hb. unfold descriptor, desc_table. replace (gsz * (p * per + j))%nat with (4096 * p + gsz * j)%nat by nia.
  apply page_field; [lia|lia|done|lia|]. assert ((gsz * S j <= gsz * per)%nat) by (apply Nat.mul_le_mono_l; lia). lia.
Qed.

Lemma read_group_descs_spec is_64bit sb disk d gsz groups : disk_ok disk gsz groups -> dev_ok d ->
  8 * (2 + Z.of_nat (full_blocks gsz groups)) <= nr_sects d < 2 ^ 31 ->
  List.length (gd_arr disk) = groups -> List.length (new_group_desc uninit is_64bit sb) = gsz ->
  exists arr, read_group_descs uninit is_64bit sb disk d = Ok (arr, d) /\ List.length arr = groups /\
    forall g, (g < groups)%nat -> arr !! g = Some (descriptor d gsz groups g).
Proof.
  intros Hok Hd Hn Hlen Hgd. pose proof Hok as [_ (Hg & Hg0 & Hm) (_ & _ & Hn1) _ _ _]. destruct (gsz_divides gsz Hg0 Hm) as [per Hper].
  destruct (desc_split gsz groups per Hper Hg0) as [Hsp Hl]. unfold read_group_descs. rewrite (desc_counts_spec disk gsz groups per Hok Hper).
  cbn [mbind res_bind]. rewrite Nat2Z.id. set (fb := full_blocks gsz groups) in *. set (ld := left_descs gsz groups) in *.
  assert (Hpage : forall p, (p <= fb)%nat -> read_cleared d (8 * (1 + Z.of_nat p)) = Ok (sector_page d (8 * (1 + Z.of_nat p)), d)).
  { intros p Hp. apply read_cleared_good; [done|lia|lia]. }
  assert (Hpl : forall s, List.length (sector_page d s) = 4096%nat) by (intros; by apply block_at_length).
  forM_induction (fun i s => exists arr, s = (arr, 8 * (1 + Z.of_nat i), d) /\ List.length arr = groups /\
    forall g, (g < i * per)%nat -> arr !! g = Some (descriptor d gsz groups g)).
  - eexists. split; [done|]. split; [done|]. intros g Hgg. lia.
  - intros i s Hi (arr & -> & Ha & Hag). rewrite Hpage by lia. cbn [mbind res_bind].
    assert (S i * per <= fb * per)%nat by (apply Nat.mul_le_mono_r; lia). assert (i * per <= groups)%nat by lia.
    rewrite <- Nat2Z.inj_mul, (wrap_id 64) by (unfold in_range; lia).
    destruct (copy_descs_spec is_64bit sb disk (sector_page d (8 * (1 + Z.of_nat i))) gsz per (i * per) arr) as (arr' & -> & Ha' & Hag');
      [done|done|done|lia|lia|lia|]. cbn [mbind res_bind]. eexists. split; [done|]. exists arr'.
    rewrite wrap_id by (unfold in_range, AFS_SECTORS_PER_BLOCK; lia). split; [do 2 f_equal; unfold AFS_SECTORS_PER_BLOCK; lia|]. split; [lia|].
    intros g Hgg. rewrite Hag'. case_decide as E; [|apply Hag; lia]. f_equal.
    replace g with (i * per + (g - i * per))%nat at 2 by lia. symmetry. apply descriptor_page; (done || lia).
  - destruct Hloop as (s & -> & arr & -> & Ha & Hag). cbn [Nat.add mbind res_bind]. rewrite Hpage by lia. cbn [mbind res_bind].
    assert (fb * per <= groups)%nat by lia. rewrite <- Nat2Z.inj_mul, (wrap_id 64) by (unfold in_range; lia).
    destruct (copy_descs_spec is_64bit sb disk (sector_page d (8 * (1 + Z.of_nat fb))) gsz ld (fb * per) arr) as (arr' & -> & Ha' & Hag');
      [done|done|done|nia|lia|lia|]. cbn [mbind res_bind]. exists arr'. split; [done|]. split; [lia|].
    intros g Hgg. rewrite Hag'. case_decide as E; [|apply Hag; lia]. f_equal.
    replace g with (fb * per + (g - fb * per))%nat at 2 by lia. symmetry. apply descriptor_page; (done || lia).
Qed.

(** ** One bitmap *)
Definition bitmap_block (is_64bit : bool) (gd : list Z) : Z :=
  if is_64bit then lo_hi_64 (le_field 0 4 gd) (le_field 32 4 gd) else le_field 0 4 gd.

(** The number of blocks at the start of group [g] that are in use whatever
    its bitmap says. *)
Definition meta_blocks (disk : ext4_disk) (gsz groups : nat) : Z :=
  1 + Z.of_nat (full_blocks gsz groups) + (if decide (left_descs gsz groups = 0%nat) then 0 else 1) + reserved_gdt_blocks disk.
Definition bitmap_bit (page : list Z) (j : Z) : bool := Z.testbit (default 0 (page !! Z.to_nat (j / 8))) (j mod 8).
Definition block_used (disk : ext4_disk) (gsz groups : nat) (backups : bool) (page : list Z) (j : Z) : bool :=
  bitmap_bit page j || (is_sparse_super disk && backups && (j <? meta_blocks disk gsz groups)).

Section BitmapProofs.
Context {V : Type} `{BitVectorOps V}.

Lemma read_bits_holds (page : list Z) (bvec : V) n : List.length page = 4096%nat -> (n <= 8 * 4096)%nat -> bits_are bvec (Z.of_nat n) (fun _ => false) ->
  exists bvec', forM n 0 (fun i bvec =>
    b ← get page (i / 8);
    if negb (Z.land b (Z.shiftl 1 (i mod 8)) =? 0) then '(_, bvec) ← bvset bvec i; Ok bvec else Ok bvec) bvec = Ok bvec' /\
  bits_are bvec' (Z.of_nat n) (fun j => bitmap_bit page j).
Proof.
  intros Hp Hn Hv.
  forM_induction (fun i v => bits_are v (Z.of_nat n) (fun j => (j <? Z.of_nat i) && bitmap_bit page j)).
  - eapply holds_ext; [done|]. intros j Hj. destruct (Z.ltb_spec j (Z.of_nat 0)); cbn [andb]; done || lia.
  - intros i v Hi Hvi. destruct (lookup_lt_is_Some_2 page (i / 8)) as [b Hb]; [rewrite Hp; apply Nat.Div0.div_lt_upper_bound; lia|].
    assert (Ei : Z.of_nat i / 8 = Z.of_nat (i / 8)) by by rewrite Nat2Z.inj_div.
    rewrite Ei, (get_nat _ _ _ Hb). cbn [mbind res_bind]. pose proof (Z.mod_pos_bound (Z.of_nat i) 8 ltac:(lia)).
    rewrite Z.land_comm, bit_land by lia. rewrite negb_involutive.
    assert (Ec : bitmap_bit page (Z.of_nat i) = Z.testbit b (Z.of_nat i mod 8)).
    { unfold bitmap_bit. by rewrite Ei, Nat2Z.id, Hb. }
    destruct (Z.testbit b (Z.of_nat i mod 8)).
    + destruct (bvset_holds v _ _ (Z.of_nat i) Hvi ltac:(lia)) as (r & v' & -> & Hv'). cbn [mbind res_bind]. eexists. split; [done|].
      eapply holds_ext; [done|]. intros j Hj. cbn beta.
      destruct (Z.ltb_spec j (Z.of_nat i)), (Z.ltb_spec j (Z.of_nat (S i))), (Z.eqb_spec j (Z.of_nat i)) as [->|];
        cbn [andb orb]; done || lia || by rewrite Ec.
    + eexists. split; [done|]. eapply holds_ext; [done|]. intros j Hj. cbn beta.
      destruct (Z.ltb_spec j (Z.of_nat i)), (Z.ltb_spec j (Z.of_nat (S i))); cbn [andb]; try (done || lia).
      replace j with (Z.of_nat i) by lia. by rewrite Ec.
  - destruct Hloop as (v & -> & Hvn). exists v. split; [done|]. eapply holds_ext; [done|]. intros j Hj. cbn beta.
    destruct (Z.ltb_spec j (Z.of_nat (0 + n))); [done|lia].
Qed.

Lemma bitmap_block_read (is_64bit : bool) gd : ((if is_64bit then 36 else 4) <= List.length gd)%nat ->
  (lo ← bg_block_bitmap_lo gd; if is_64bit then hi ← bg_block_bitmap_hi gd; Ok (lo_hi_64 lo hi) else Ok lo) = Ok (bitmap_block is_64bit gd).
Proof.
  intros Hl. unfold bg_block_bitmap_lo, bg_block_bitmap_hi, bitmap_block. change 0 with (Z.of_nat 0). change 32 with (Z.of_nat 32).
  assert (4 <= List.length gd)%nat by (destruct is_64bit; lia). rewrite (load_field gd 0) by lia. cbn [mbind res_bind].
  destruct is_64bit; [|done]. by rewrite (load_field gd 32) by lia.
Qed.

Lemma read_bitmap_page (is_64bit : bool) d disk gsz groups gd g backups page d' (bvec : V) : disk_ok disk gsz groups ->
  ((if is_64bit then 36 else 4) <= List.length gd)%nat -> let B := bitmap_block is_64bit gd in
  0 <= B < 2 ^ 61 -> read_cleared d (8 * B) = Ok (page, d') -> List.length page = 4096%nat -> has_backups g = Ok backups ->
  Z.of_nat (full_blocks gsz groups) < 2 ^ 31 -> bits_are bvec (blks_per_grp disk) (fun _ => false) ->
  exists bvec', read_bitmap is_64bit d disk gd g bvec = Ok (bvec', d') /\ bits_are bvec' (blks_per_grp disk) (block_used disk gsz groups backups page).
Proof.
  intros Hok Hl B HB Hpage Hpl Hbk Hfb Hv. pose proof Hok as [_ (_ & Hg0 & Hm) _ Hbpg _ Hres]. destruct (gsz_divides gsz Hg0 Hm) as [per Hper].
  unfold read_bitmap. pose proof (bitmap_block_read is_64bit gd Hl) as Hlo.
  apply res_bind_Ok in Hlo as (lo & -> & Hlo). cbn [mbind res_bind]. rewrite Hlo. cbn [mbind res_bind]. fold B.
  assert (EB : B *64 AFS_SECTORS_PER_BLOCK = 8 * B) by (rewrite wrap_id; unfold in_range, AFS_SECTORS_PER_BLOCK; lia).
  rewrite EB, Hpage. cbn [mbind res_bind].
  destruct (read_bits_holds page bvec (Z.to_nat (blks_per_grp disk))) as (v1 & -> & Hv1); [done|lia| |].
  { by rewrite Z2Nat.id by lia. }
  rewrite Z2Nat.id in Hv1 by lia. cbn [mbind res_bind]. rewrite Hbk. cbn [mbind res_bind]. unfold block_used.
  destruct (is_sparse_super disk && backups); cbn [andb].
  2:{ exists v1. split; [done|]. eapply holds_ext; [done|]. intros. by rewrite orb_false_r. }
  destruct (bvset_holds v1 _ _ 0 Hv1 ltac:(lia)) as (r & v2 & -> & Hv2). cbn [mbind res_bind].
  rewrite (desc_counts_spec disk gsz groups per Hok Hper). cbn [mbind res_bind].
  set (G := Z.of_nat (full_blocks gsz groups) + (if decide (left_descs gsz groups = 0%nat) then 0 else 1)).
  assert (HG : 0 <= G <= 2 ^ 31) by (unfold G; case_decide; lia).
  assert (EG : (if negb (Z.of_nat (left_descs gsz groups) =? 0) then Z.of_nat (full_blocks gsz groups) +64 1 else Z.of_nat (full_blocks gsz groups)) = G).
  { unfold G. destruct (Z.eqb_spec (Z.of_nat (left_descs gsz groups)) 0); cbn [negb]; case_decide; try lia. rewrite wrap_id; [done|unfold in_range; lia]. }
  rewrite EG. rewrite !(wrap_id 64 (1 + G)) by (unfold in_range; lia). unfold in_range in Hres.
  destruct (set_bits_holds v2 _ _ 1 (1 + G) Hv2) as (v3 & -> & Hv3); [lia|lia|]. cbn [mbind res_bind].
  rewrite (wrap_id 64) by (unfold in_range; lia).
  destruct (set_bits_holds v3 _ _ (1 + G) (1 + G + reserved_gdt_blocks disk) Hv3) as (v4 & -> & Hv4); [lia|lia|]. cbn [mbind res_bind].
  exists v4. split; [done|]. eapply holds_ext; [done|]. intros j Hj. cbn beta.
  replace (meta_blocks disk gsz groups) with (1 + G + reserved_gdt_blocks disk) by (unfold meta_blocks, G; lia).
  destruct (Z.leb_spec (1 + G) j), (Z.ltb_spec j (1 + G + reserved_gdt_blocks disk)), (Z.leb_spec 1 j), (Z.ltb_spec j (1 + G)), (Z.eqb_spec j 0);
    cbn [andb orb]; rewrite ?orb_true_r, ?orb_false_r; done || lia.
Qed.

Lemma read_bitmap_spec (is_64bit : bool) d disk gsz groups gd g backups (bvec : V) : disk_ok disk gsz groups -> dev_ok d ->
  ((if is_64bit then 36 else 4) <= List.length gd)%nat -> let B := bitmap_block is_64bit gd in
  0 <= B -> 8 * B + 8 <= nr_sects d < 2 ^ 31 -> has_backups g = Ok backups -> Z.of_nat (full_blocks gsz groups) < 2 ^ 31 ->
  bits_are bvec (blks_per_grp disk) (fun _ => false) ->
  exists bvec', read_bitmap is_64bit d disk gd g bvec = Ok (bvec', d) /\
    bits_are bvec' (blks_per_grp disk) (block_used disk gsz groups backups (sector_page d (8 * B))).
Proof.
  intros Hok Hd Hl B HB Hn Hbk Hfb Hv. apply read_bitmap_page; [done|done|fold B; lia| |by apply block_at_length|done..].
  apply read_cleared_good; (done || lia).
Qed.

(** ** The list *)
Lemma bvclear_holds (v : V) n f i : bits_are v n f -> 0 <= i < n ->
  exists r v', bvclear v i = Ok (r, v') /\ bits_are v' n (fun j => negb (j =? i) && f j).
Proof.
  intros (Hv & Hl & Hf) Hi. destruct (bvclear_in v i Hv ltac:(lia)) as (v' & -> & Hv' & Hl' & Hm). eexists _, _. split; [done|].
  split_and!; [done|lia|]. intros j Hj. rewrite Hm. destruct (Z.eqb_spec j i); [by rewrite decide_True|]. rewrite decide_False by done. by apply Hf.
Qed.

Lemma list_block_spec disk i j F (bvec : V) init pre : let b := first_data_block disk + blks_per_grp disk * i + j in
  0 <= j < blks_per_grp disk -> 0 <= i -> 0 <= first_data_block disk -> b < 2 ^ 32 -> bits_are bvec (blks_per_grp disk) F ->
  (F j = false -> List.length pre < List.length init)%nat ->
  exists bvec', let pre' := pre ++ (if F j then [] else [b]) in
    list_block disk i j (bvec, pre ++ drop (List.length pre) init, Z.of_nat (List.length pre)) =
    Ok (bvec', pre' ++ drop (List.length pre') init, Z.of_nat (List.length pre')) /\
    bits_are bvec' (blks_per_grp disk) (fun j' => negb (j' =? j) && F j').
Proof.
  intros b Hj Hi Hf Hb Hv Hl. destruct (bvclear_holds bvec _ _ j Hv Hj) as (r & v' & Hc & Hv'). exists v'. cbn zeta. split; [|done].
  unfold list_block. pose proof Hv as (Hok & Hlen & HF). rewrite bvget_in, HF by (done || lia). cbn [mbind res_bind].
  destruct (F j); cbn [Z.eqb mbind res_bind]; [by rewrite Hc, app_nil_r|].
  assert (0 <= blks_per_grp disk * i < 2 ^ 32) by (unfold b in Hb; split; [apply Z.mul_nonneg_nonneg|]; lia).
  rewrite !wrap_id by (unfold in_range, b in *; lia). rewrite (proj2 (Z.leb_le _ _)) by (unfold b in Hb; lia).
  replace (blks_per_grp disk * i + (j + first_data_block disk)) with b by (unfold b; lia).
  rewrite put_filling by by apply Hl. cbn [mbind res_bind]. rewrite Hc. cbn [mbind res_bind].
  do 2 f_equal. rewrite length_app. cbn [List.length]. lia.
Qed.
End BitmapProofs.

Definition group_backups (g : Z) : bool := match has_backups g with Ok b => b | _ => false end.
Definition group_page (is_64bit : bool) (d : block_device) (gsz groups : nat) (g : Z) : list Z :=
  sector_page d (8 * bitmap_block is_64bit (descriptor d gsz groups (Z.to_nat g))).

(** The bit of block [b] is clear in the bitmap of its group, and it is none of
    the first blocks of a group with copies of the super block. *)
Definition listed (is_64bit : bool) (disk : ext4_disk) (d : block_device) (gsz groups : nat) (b : Z) : Prop :=
  let c := b - first_data_block disk in
  let g := c / blks_per_grp disk in
  block_used disk gsz groups (group_backups g) (group_page is_64bit d gsz groups g) (c mod blks_per_grp disk) = false.

#[local] Instance listed_dec is_64bit disk d gsz groups b : Decision (listed is_64bit disk d gsz groups b).
Proof. unfold listed. apply _. Defined.

Definition free_blocks (is_64bit : bool) (disk : ext4_disk) (d : block_device) (gsz groups n : nat) : list Z :=
  filter (listed is_64bit disk d gsz groups) (seqZ (first_data_block disk) (Z.of_nat n)).

Lemma free_blocks_S is_64bit disk d gsz groups n : let b := first_data_block disk + Z.of_nat n in
  free_blocks is_64bit disk d gsz groups (S n) = free_blocks is_64bit disk d gsz groups n ++
  (if decide (listed is_64bit disk d gsz groups b) then [b] else []).
Proof. unfold free_blocks. replace (Z.of_nat (S n)) with (Z.of_nat n + 1) by lia. apply filter_seqZ_S. lia. Qed.

Lemma free_blocks_mono is_64bit disk d gsz groups n m : (n <= m)%nat ->
  (List.length (free_blocks is_64bit disk d gsz groups n) <= List.length (free_blocks is_64bit disk d gsz groups m))%nat.
Proof. induction 1 as [|m _ IH]; [done|]. rewrite free_blocks_S, length_app. lia. Qed.

Lemma listed_at is_64bit disk d gsz groups i j : 0 <= j < blks_per_grp disk -> 
  listed is_64bit disk d gsz groups (first_data_block disk + blks_per_grp disk * i + j) <->
  block_used disk gsz groups (group_backups i) (group_page is_64bit d gsz groups i) j = false.
Proof.
  intros Hj. unfold listed. replace (first_data_block disk + blks_per_grp disk * i + j - first_data_block disk) with (j + i * blks_per_grp disk) by lia.
  by rewrite Z.div_add, Z.mod_add, Z.div_small, Z.mod_small, Z.add_0_l by lia.
Qed.

(** The bitmaps of the groups are on the device. *)
Definition bitmaps_ok (is_64bit : bool) (d : block_device) (gsz groups : nat) : Prop :=
  ((if is_64bit then 36 else 4) <= gsz)%nat /\
  forall g, (g < groups)%nat -> let B := bitmap_block is_64bit (descriptor d gsz groups g) in 0 <= B /\ 8 * B + 8 <= nr_sects d.

Lemma descriptor_length disk d gsz groups g : disk_ok disk gsz groups -> dev_ok d -> (g < groups)%nat -> List.length (descriptor d gsz groups g) = gsz.
Proof.
  intros [_ (_ & Hg0 & Hm) _ _ _ _] Hd Hg. destruct (gsz_divides gsz Hg0 Hm) as [per Hper]. destruct (desc_split gsz groups per Hper Hg0) as [Hs Hl].
  unfold descriptor, field, desc_table. rewrite length_take, length_drop, pages_at_length by done.
  assert (gsz * S g <= gsz * groups)%nat by (apply Nat.mul_le_mono_l; lia). nia.
Qed.

Section Groups.
Context {V : Type} `{BitVectorOps V}.
Context (is_64bit : bool) (d : block_device) (disk : ext4_disk) (gsz groups : nat) (init : list Z).
Context (Hok : disk_ok disk gsz groups) (Hd : dev_ok d) (Hn : nr_sects d < 2 ^ 31) (Hfb : Z.of_nat (full_blocks gsz groups) < 2 ^ 31).
Context (Hbm : bitmaps_ok is_64bit d gsz groups).
Context (Harr : forall g, (g < groups)%nat -> gd_arr disk !! g = Some (descriptor d gsz groups g)).

Local Notation bpg := (Z.to_nat (blks_per_grp disk)).
Local Notation L := (free_blocks is_64bit disk d gsz groups).
Context (Hcap : (List.length (L (bpg * groups)) <= List.length init)%nat).

Definition list_state (bvec : V) (n : nat) : V * list Z * Z :=
  (bvec, L n ++ drop (List.length (L n)) init, Z.of_nat (List.length (L n))).

Lemma list_group_spec i (bvec : V) : (i < groups)%nat -> bits_are bvec (blks_per_grp disk) (fun _ => false) ->
  exists bvec', list_group is_64bit disk (Z.of_nat i) (list_state bvec (bpg * i), d) = Ok (list_state bvec' (bpg * S i), d) /\
    bits_are bvec' (blks_per_grp disk) (fun _ => false).
Proof.
  intros Hi Hv. pose proof Hok as [_ _ (_ & _ & Hgr) Hbpg (Hf0 & Hf) _]. destruct Hbm as [Hl Hb]. destruct (Hb i Hi) as [HB0 HB].
  unfold list_group, list_state. rewrite (get_nat _ _ _ (Harr i Hi)). cbn [mbind res_bind].
  destruct (has_backups_spec (Z.of_nat i)) as (bk & Hbk & _); [unfold in_range; lia|].
  destruct (read_bitmap_spec is_64bit d disk gsz groups (descriptor d gsz groups i) (Z.of_nat i) bk bvec) as (v1 & -> & Hv1);
    [done|done|by rewrite (descriptor_length disk)|done|lia|done|done|done|]. cbn [mbind res_bind].
  set (used := block_used _ _ _ _ _) in Hv1.
  assert (Hlast : forall j, 0 <= j < blks_per_grp disk -> listed is_64bit disk d gsz groups (first_data_block disk + Z.of_nat (bpg * i + Z.to_nat j)) <-> used j = false).
  { intros j Hj. rewrite Nat2Z.inj_add, Nat2Z.inj_mul, !Z2Nat.id, Z.add_assoc by lia. rewrite listed_at by done. unfold used, group_backups, group_page.
    by rewrite Hbk, Nat2Z.id. }
  assert (Elen : bvlen v1 = blks_per_grp disk) by apply Hv1. rewrite Elen.
  forM_induction (fun j s => exists v, s = list_state v (bpg * i + j) /\ bits_are v (blks_per_grp disk) (fun j' => (Z.of_nat j <=? j') && used j')).
  - exists v1. unfold list_state. rewrite Nat.add_0_r. split; [done|]. eapply holds_ext; [done|]. intros j Hj.
    destruct (Z.leb_spec (Z.of_nat 0) j); [done|lia].
  - intros j s Hj (v & -> & Hvj). unfold list_state. pose proof (Hlast (Z.of_nat j) ltac:(lia)) as Hlj. rewrite Nat2Z.id in Hlj.
    assert (Hbound : (bpg * i + j < bpg * groups)%nat) by nia.
    destruct (list_block_spec disk (Z.of_nat i) (Z.of_nat j) (fun j' => (Z.of_nat j <=? j') && used j') v init (L (bpg * i + j))) as (v' & -> & Hv'); [lia|lia|done|nia|exact Hvj| |].
    { cbn beta. destruct (Z.leb_spec (Z.of_nat j) (Z.of_nat j)); [|lia]. cbn [andb]. intros Hu. eapply Nat.lt_le_trans; [|exact Hcap].
      eapply Nat.lt_le_trans; [|apply (free_blocks_mono _ _ _ _ _ (S (bpg * i + j)) (bpg * groups)); lia].
      rewrite free_blocks_S, decide_True, length_app by by apply Hlj. cbn [List.length]. lia. }
    eexists. split; [done|]. exists v'. unfold list_state. rewrite Nat.add_succ_r, free_blocks_S. split.
    + destruct (Z.leb_spec (Z.of_nat j) (Z.of_nat j)); [|lia]. cbn [andb].
      replace (first_data_block disk + Z.of_nat (bpg * i + j)) with (first_data_block disk + blks_per_grp disk * Z.of_nat i + Z.of_nat j) by lia.
      replace (first_data_block disk + Z.of_nat (bpg * i + j)) with (first_data_block disk + blks_per_grp disk * Z.of_nat i + Z.of_nat j) in Hlj by lia.
      destruct (used (Z.of_nat j)); [rewrite decide_False by (by rewrite Hlj)|rewrite decide_True by (by apply Hlj)]; done.
    + eapply holds_ext; [done|]. intros j' Hj'. cbn beta.
      destruct (Z.eqb_spec j' (Z.of_nat j)), (Z.leb_spec (Z.of_nat j) j'), (Z.leb_spec (Z.of_nat (S j)) j'); cbn [andb negb]; done || lia.
  - destruct Hloop as (s & -> & v & -> & Hvn). cbn [mbind res_bind Nat.add]. exists v. unfold list_state.
    replace (bpg * S i)%nat with (bpg * i + bpg)%nat by lia. split; [done|]. eapply holds_ext; [done|]. intros j Hj. cbn beta.
    destruct (Z.leb_spec (Z.of_nat (0 + bpg)) j); [lia|done].
Qed.
End Groups.

Lemma vmalloc_u32_Some n : 0 < n -> exists init, vmalloc_u32 uninit n = Some init /\ n <= Z.of_nat (List.length init).
Proof.
  intros Hn. unfold vmalloc_u32. destruct (Z.eqb_spec n 0); [lia|]. eexists. split; [done|]. rewrite uninit_length.
  pose proof (Z.div_mod (n + 1023) 1024 ltac:(lia)). pose proof (Z.mod_pos_bound (n + 1023) 1024 ltac:(lia)). lia.
Qed.

Lemma disk_ok_set disk gsz groups arr : disk_ok disk gsz groups -> disk_ok (set_gd_arr disk arr) gsz groups.
Proof. by intros [? ? ? ? ? ?]. Qed.

(** The volume that is listed: its free blocks fit in the number of free blocks
    that the super block gives. *)
Record ext4_volume_ok (is_64bit : bool) (disk : ext4_disk) (d : block_device) (gsz groups : nat) : Prop := mk_ext4_ok {
  eo_disk : disk_ok disk gsz groups;
  eo_dev : dev_ok d;
  eo_table : 8 * (2 + Z.of_nat (full_blocks gsz groups)) <= nr_sects d < 2 ^ 31;
  eo_bitmaps : bitmaps_ok is_64bit d gsz groups;
  eo_count : let l := free_blocks is_64bit disk d gsz groups (Z.to_nat (blks_per_grp disk) * groups) in
    l <> [] /\ Z.of_nat (List.length l) <= free_block_count disk < 2 ^ 32
}.

Lemma read_bitmaps_spec is_64bit disk d gsz groups fs : ext4_volume_ok is_64bit disk d gsz groups ->
  (forall g, (g < groups)%nat -> gd_arr disk !! g = Some (descriptor d gsz groups g)) ->
  exists fs', read_bitmaps uninit is_64bit disk d fs = Ok (0, fs', d) /\
    free_list fs' = free_blocks is_64bit disk d gsz groups (Z.to_nat (blks_per_grp disk) * groups) /\
    list_len fs' = Z.of_nat (List.length (free_list fs')) /\
    sectors_per_block fs' = sectors_per_block fs /\ total_blocks fs' = total_blocks fs /\ data_start_off fs' = data_start_off fs.
Proof.
  intros [Hok Hd Ht Hb Hc] Harr. cbn zeta in Hc. pose proof Hok as [_ _ (Hgr & _ & _) Hbpg _ _]. set (L := free_blocks _ _ _ _ _) in *.
  set (bpg := Z.to_nat (blks_per_grp disk)) in *.
  assert (Hpos : 0 < Z.of_nat (List.length (L (bpg * groups)%nat))) by (destruct (L _) eqn:E; [by destruct Hc|cbn [List.length]; lia]).
  destruct (vmalloc_u32_Some (free_block_count disk)) as (init & Hi & Hinit); [lia|]. unfold read_bitmaps. rewrite Hi, Hgr, Nat2Z.id.
  destruct (bit_vector_create true true (le_load (uninit 8)) (blks_per_grp disk)) as [w|] eqn:Ew; [|done].
  destruct (bit_vector_create_wf (le_load (uninit 8)) (blks_per_grp disk) w ltac:(lia) Ew) as (Hw & Hwl & Hwm).
  forM_induction (fun i s => exists v, s = (list_state is_64bit d disk gsz groups init v (bpg * i), d) /\ bits_are (V := option bit_vector_t) v (blks_per_grp disk) (fun _ => false)).
  - exists (Some w). split; [by rewrite Nat.mul_0_r|]. split; [by exists w|]. split; [done|]. intros j Hj. apply Hwm. lia.
  - intros i s Hil (v & -> & Hv). destruct (list_group_spec is_64bit d disk gsz groups init Hok Hd ltac:(lia) ltac:(lia) Hb Harr ltac:(fold bpg L; lia) i v ltac:(lia) Hv)
      as (v' & Hg & Hv'). fold bpg in Hg. eexists. split; [exact Hg|]. by exists v'.
  - destruct Hloop as (s & -> & v & -> & _). cbn [Nat.add mbind res_bind]. unfold list_state. fold L. cbv iota beta.
    rewrite (wrap_id 32) by (unfold in_range; lia). destruct (vmalloc_u32_Some _ Hpos) as (l2 & -> & _). cbv iota. eexists. split; [done|].
    unfold free_list. cbn [list_len block_list sectors_per_block total_blocks data_start_off]. rewrite Nat2Z.id, take_app_length. by repeat split.
Qed.

Lemma new_disk_Some is_64bit sb disk : new_disk uninit is_64bit sb = Ok (Some disk) ->
  grp_desc_sz disk = (if is_64bit then s_desc_size sb else 32) /\ 
  gd_arr disk = replicate (Z.to_nat (num_grp_descs disk)) (new_group_desc uninit is_64bit sb).
Proof.
  intros H. unfold new_disk in H. apply res_bind_Ok in H as (b & _ & H). apply res_bind_Ok in H as (c & _ & H).
  apply res_bind_Ok in H as ([q r] & _ & H). apply res_bind_Ok in H as ([q' r'] & _ & H). unfold new_group_desc_arr in H.
  destruct (_ =? 0) in H; [discriminate|]. by injection H as <-.
Qed.

Lemma block_used_false disk gsz groups backups page j : block_used disk gsz groups backups page j = false <->
  bit_clear page j /\ ~ (is_sparse_super disk = true /\ backups = true /\ j < meta_blocks disk gsz groups).
Proof.
  unfold block_used. rewrite orb_false_iff, !andb_false_iff, Z.ltb_ge. unfold bitmap_bit, bit_clear.
  destruct (is_sparse_super disk), backups; intuition (congruence || lia).
Qed.

Lemma free_blocks_elem is_64bit disk d gsz groups b : disk_ok disk gsz groups ->
  b ∈ free_blocks is_64bit disk d gsz groups (Z.to_nat (blks_per_grp disk) * groups) <->
  exists g j, 0 <= g < Z.of_nat groups /\ 0 <= j < blks_per_grp disk /\ b = first_data_block disk + blks_per_grp disk * g + j /\
    bit_clear (group_page is_64bit d gsz groups g) j /\
    ~ (is_sparse_super disk = true /\ backup_group g /\ j < meta_blocks disk gsz groups).
Proof.
  intros [_ _ (_ & _ & Hgr) Hbpg _ _]. unfold free_blocks. rewrite list_elem_of_filter, elem_of_seqZ, Nat2Z.inj_mul, Z2Nat.id by lia.
  assert (Hbk : forall g, 0 <= g < Z.of_nat groups -> group_backups g = true <-> backup_group g).
  { intros g Hg. destruct (has_backups_spec g) as (bk & E & Hbk); [unfold in_range; lia|]. unfold group_backups. by rewrite E. }
  split.
  - intros [Hl Hr]. set (c := b - first_data_block disk) in *. exists (c / blks_per_grp disk), (c mod blks_per_grp disk).
    assert (Hg : 0 <= c / blks_per_grp disk < Z.of_nat groups) by (split; [apply Z.div_pos; lia|apply Z.div_lt_upper_bound; lia]).
    split; [done|]. split; [apply Z.mod_pos_bound; lia|]. pose proof (Z.div_mod c (blks_per_grp disk) ltac:(lia)). split; [lia|].
    apply block_used_false in Hl. by rewrite Hbk in Hl.
  - intros (g & j & Hg & Hj & -> & Hl). rewrite <- (Hbk g Hg) in Hl. split; [|nia]. apply listed_at; [done|]. by apply block_used_false.
Qed.

Lemma detect_lists is_64bit data d fs sb is_64bit' disk gsz groups :
  read_superblock data is_64bit = Ok (0, sb, is_64bit') -> new_disk uninit is_64bit' sb = Ok (Some disk) ->
  ext4_volume_ok is_64bit' disk d gsz groups ->
  exists fs', afs_ext4_detect uninit is_64bit data d fs = Ok (true, fs', is_64bit', d) /\
    free_list fs' = free_blocks is_64bit' disk d gsz groups (Z.to_nat (blks_per_grp disk) * groups) /\
    list_len fs' = Z.of_nat (List.length (free_list fs')) /\
    sectors_per_block fs' = sectors_per_block fs /\ total_blocks fs' = total_blocks fs /\ data_start_off fs' = data_start_off fs.
Proof.
  intros Hs Hnd Hv. unfold afs_ext4_detect. rewrite Hs. cbn [mbind res_bind Z.eqb negb]. rewrite Hnd. cbn [mbind res_bind].
  destruct (new_disk_Some _ _ _ Hnd) as [Hg Harr]. pose proof Hv as [Hok Hd Ht _ _]. pose proof Hok as [_ (Hgsz & _) (Hgr & _) _ _ _].
  destruct (read_group_descs_spec is_64bit' sb disk d gsz groups Hok Hd Ht) as (arr & -> & _ & Ha).
  { rewrite Harr, length_replicate. lia. }
  { rewrite new_group_desc_length, <- Hg. lia. }
  cbn [mbind res_bind]. destruct (read_bitmaps_spec is_64bit' (set_gd_arr disk arr) d gsz groups fs) as (fs' & -> & Hl & Hlen & Hrest).
  { destruct Hv as [? ? ? ? Hc]. split; [by apply disk_ok_set|done..|exact Hc]. }
  { done. }
  cbn [mbind res_bind]. by exists fs'.
Qed.

(** C17: on a volume with blocks of 4096 bytes whose table of descriptors and
    bitmaps are on the device, and on which at least one block is free and no
    more than the super block counts as free, the detection ends, leaves the
    device as it is, and gives as free list, in ascending order and without
    repetition, exactly the blocks of the groups whose bit is clear in the
    bitmap of the group, less the copies of the super block, of the
    descriptors and the blocks reserved for them, which groups 0 and the powers
    of 3, 5 and 7 hold. The groups are those that the code counts, the quotient
    of blocks and group size, plus one unless the size divides the number of
    free blocks: where it divides the number of blocks that is mostly one too
    many, and the theorem applies only if its descriptor and bitmap can be
    read and its clear bits still fit the list. *)
Theorem ext4_detect_free_list is_64bit data d fs sb is_64bit' disk gsz groups :
  read_superblock data is_64bit = Ok (0, sb, is_64bit') -> new_disk uninit is_64bit' sb = Ok (Some disk) ->
  ext4_volume_ok is_64bit' disk d gsz groups ->
  exists fs', afs_ext4_detect uninit is_64bit data d fs = Ok (true, fs', is_64bit', d) /\
    (forall b, b ∈ free_list fs' <->
      exists g j, 0 <= g < Z.of_nat groups /\ 0 <= j < blks_per_grp disk /\ b = first_data_block disk + blks_per_grp disk * g + j /\
        bit_clear (group_page is_64bit' d gsz groups g) j /\
        ~ (is_sparse_super disk = true /\ backup_group g /\ j < meta_blocks disk gsz groups)) /\
    ascending (free_list fs') /\ NoDup (free_list fs') /\ list_len fs' = Z.of_nat (List.length (free_list fs')) /\
    sectors_per_block fs' = sectors_per_block fs /\ total_blocks fs' = total_blocks fs /\ data_start_off fs' = data_start_off fs.
Proof.
  intros Hs Hnd Hv. destruct (detect_lists is_64bit data d fs sb is_64bit' disk gsz groups Hs Hnd Hv) as (fs' & Hdet & Hl & Hrest).
  exists fs'. split; [done|]. assert (Hasc : ascending (free_list fs')) by (rewrite Hl; apply ascending_filter_seqZ).
  split; [|split; [done|split; [by apply ascending_NoDup|done]]]. intros b. rewrite Hl. apply free_blocks_elem, Hv.
Qed.
End Geometry.

(** ** Errors *)
Section Errors.
Context (uninit : nat -> list Z) (uninit_length : forall n, List.length (uninit n) = n).

(** A read that the device fails, or that runs past its end, leaves the cleared
    buffer. *)
Lemma read_cleared_fails d s : (exists os, outcomes d = BioIoFails :: os) \/ (outcomes d = [] /\ nr_sects d < u32 s + 8) ->
  exists d', read_cleared d s = Ok (replicate 4096 0, d') /\ sectors d' = sectors d.
Proof.
  assert (E : sector_num 0 (u32 s) = u32 s) by (unfold sector_num, AFS_BLOCK_SIZE, AFS_SECTOR_SIZE; zlia).
  intros [[os Ho]|[Ho Hn]]; unfold read_cleared, read_page, afs_blkdev_io; rewrite Ho; cbn [head io_type]; unfold submit_bio_wait;
    cbn [io_sector io_size io_type io_page nr_sects sectors outcomes andb].
  - by eexists.
  - rewrite E. change (AFS_BLOCK_SIZE / AFS_SECTOR_SIZE) with 8. rewrite (proj2 (Z.leb_gt _ _)) by lia. by eexists.
Qed.

Lemma replicate_clear j : bitmap_bit (replicate 4096 0) j = false.
Proof.
  unfold bitmap_bit. destruct (replicate 4096 0 !! Z.to_nat (j / 8)) as [b|] eqn:E; cbn [default]; [|apply Z.bits_0].
  apply lookup_replicate in E as [-> _]. apply Z.bits_0.
Qed.

(** When the bitmap of a group cannot be read, its blocks are taken for
    free: in a group without copies of the super block no bit is set, although
    the read failed. *)
Theorem ext4_bitmap_error_frees is_64bit d disk gsz groups gd g : disk_ok disk gsz groups ->
  ((if is_64bit : bool then 36 else 4) <= List.length gd)%nat -> 0 <= bitmap_block is_64bit gd < 2 ^ 61 -> Z.of_nat (full_blocks gsz groups) < 2 ^ 31 ->
  in_range 64 g -> ~ backup_group g ->
  (exists os, outcomes d = BioIoFails :: os) \/ (outcomes d = [] /\ nr_sects d < u32 (8 * bitmap_block is_64bit gd) + 8) ->
  exists bvec d', read_bitmap is_64bit d disk gd g (bit_vector_create true true (le_load (uninit 8)) (blks_per_grp disk)) = Ok (bvec, d') /\
    forall j, 0 <= j < blks_per_grp disk -> bit_vector_get bvec j = Ok 0.
Proof.
  intros Hok Hl HB Hfb Hg Hnb He. destruct (read_cleared_fails d (8 * bitmap_block is_64bit gd) He) as (d' & Hr & _).
  destruct (has_backups_spec g Hg) as (bk & Hbk & Hiff). pose proof Hok as [_ _ _ Hbpg _ _].
  destruct (bit_vector_create true true (le_load (uninit 8)) (blks_per_grp disk)) as [w|] eqn:Ew; [|done].
  destruct (bit_vector_create_wf (le_load (uninit 8)) (blks_per_grp disk) w ltac:(lia) Ew) as (Hw & Hwl & Hwm).
  destruct (read_bitmap_page (V := option bit_vector_t) is_64bit d disk gsz groups gd g bk _ d' (Some w) Hok Hl HB Hr (length_replicate _ _) Hbk Hfb)
    as (v & Hv & Hh & Hlen & Hb).
  { split; [by exists w|]. split; [done|]. intros j Hj. apply Hwm. lia. }
  exists v, d'. split; [exact Hv|]. intros j Hj. pose proof (bvget_in v j Hh ltac:(lia)) as E. cbn [bvget bit_vector_ops] in E. rewrite E, Hb by done.
  unfold block_used. rewrite replicate_clear. destruct bk; [destruct Hnb; by apply Hiff|]. by rewrite andb_false_r.
Qed.

(** [is_64bit] is never cleared. A volume without the 64-bit feature, whose
    super block leaves the size of descriptors 0, is listed when no volume with
    the feature was seen before, and divides by zero when one was. *)
Theorem ext4_64bit_sticks data d fs sb disk gsz groups :
  read_superblock data false = Ok (0, sb, false) -> s_desc_size sb = 0 -> new_disk uninit false sb = Ok (Some disk) ->
  ext4_volume_ok false disk d gsz groups ->
  (exists fs', afs_ext4_detect uninit false data d fs = Ok (true, fs', false, d) /\ free_list fs' <> []) /\
  afs_ext4_detect uninit true data d fs = Fault.
Proof.
  intros Hs Hsz Hnd Hv. split.
  { destruct (detect_lists uninit uninit_length false data d fs sb false disk gsz groups Hs Hnd Hv) as (fs' & Hdet & Hl & _).
    exists fs'. split; [exact Hdet|]. rewrite Hl. apply Hv. }
  assert (Hs' : read_superblock data true = Ok (0, sb, true)).
  { unfold read_superblock in *. destruct (slice _ _ _); [|discriminate]. cbn [of_option mbind res_bind] in *.
    destruct (negb _) in *; [discriminate|]. destruct (negb _) in Hs; [discriminate|]. injection Hs as <-. by destruct (negb _). }
  unfold afs_ext4_detect. rewrite Hs'. cbn [mbind res_bind Z.eqb negb]. unfold new_disk in *.
  apply res_bind_Ok in Hnd as (blk & -> & Hnd). cbn [mbind res_bind]. apply res_bind_Ok in Hnd as (cl & -> & Hnd). cbn [mbind res_bind].
  apply res_bind_Ok in Hnd as ([q0 rem] & -> & Hnd). cbn [mbind res_bind]. apply res_bind_Ok in Hnd as ([q r] & -> & Hnd). cbn [mbind res_bind].
  unfold new_group_desc_arr in *. destruct (_ =? 0) in *; [discriminate|]. cbn [mbind res_bind].
  unfold read_group_descs, desc_counts, quot. cbn [grp_desc_sz]. by rewrite Hsz.
Qed.
End Errors.

(** ** A sample volume

    40 blocks in groups of 16, with descriptors in block 1 and bitmaps in blocks
    3, 4 and 5; the copies of the super block take three blocks of groups 0 and 1. *)
Definition pad_to (n : nat) (l : list Z) : list Z := l ++ replicate (n - List.length l) 0.

Definition sample_ext4_data : list Z :=
  replicate 1024 0 ++ pad_to 3072 (pad_to 56 (replicate 4 0 ++ le_store 4 40 ++ replicate 4 0 ++ le_store 4 10 ++ replicate 8 0 ++ le_store 4 2
    ++ replicate 4 0 ++ le_store 4 16) ++ pad_to 40 (le_store 2 0xEF53) ++ replicate 4 0 ++ pad_to 106 (le_store 4 1) ++ le_store 2 1).
Definition sample_ext4_table : list Z := pad_to 512 (pad_to 32 (le_store 4 3) ++ pad_to 32 (le_store 4 4) ++ le_store 4 5).
Definition sample_ext4_device : block_device :=
  {| nr_sects := 320;
     sectors := <[8 := sample_ext4_table]> (<[24 := pad_to 512 [0xFF; 0x0F]]> (<[32 := pad_to 512 [0x00; 0xFF]]> (<[40 := pad_to 512 [0xFE; 0xFF]]> ∅)));
     outcomes := [] |}.
Definition sample_ext4_sb : ext4_superblock := mk_ext4_superblock 40 10 0 2 0 16 0xEF53 0 1 1 0.
Definition sample_ext4_disk : ext4_disk :=
  mk_ext4_disk 0 40 10 1 4096 1024 3 32 16 true (replicate 3 (replicate 32 0)).

Lemma read_sample_sb : read_superblock sample_ext4_data false = Ok (0, sample_ext4_sb, false).
Proof. vm_compute. reflexivity. Qed.
Lemma new_sample_disk : new_disk (fun n => replicate n 0) false sample_ext4_sb = Ok (Some sample_ext4_disk).
Proof. vm_compute. reflexivity. Qed.

Lemma sample_ext4_blocks : free_blocks false sample_ext4_disk sample_ext4_device 32 3 48 = [12; 13; 14; 15; 19; 20; 21; 22; 23; 32].
Proof. vm_compute. reflexivity. Qed.

Lemma sample_ext4_ok : ext4_volume_ok false sample_ext4_disk sample_ext4_device 32 3.
Proof.
  constructor.
  - by constructor; cbn; repeat split; try lia.
  - split; [done|]. unfold sectors_ok. apply (bool_decide_unpack _). vm_compute. exact I.
  - cbn. lia.
  - split; [lia|]. intros g Hg. destruct g as [|[|[|g]]]; [vm_compute; split; discriminate..|lia].
  - cbn zeta. change (Z.to_nat (blks_per_grp sample_ext4_disk) * 3)%nat with 48%nat. rewrite sample_ext4_blocks. split; [done|]. vm_compute. split; [discriminate|reflexivity].
Qed.

Lemma ext4_detect_free_list_witness :
  exists fs', afs_ext4_detect (fun n => replicate n 0) false sample_ext4_data sample_ext4_device (mk_passive_fs [] 0 0 0 0 0)
    = Ok (true, fs', false, sample_ext4_device) /\ ascending (free_list fs').
Proof.
  destruct (ext4_detect_free_list (fun n => replicate n 0) (fun n => length_replicate n 0) false sample_ext4_data sample_ext4_device
    (mk_passive_fs [] 0 0 0 0 0) sample_ext4_sb false sample_ext4_disk 32 3 read_sample_sb new_sample_disk sample_ext4_ok) as (fs' & H & _ & Ha & _).
  exists fs'. split; [exact H|exact Ha].
Defined.

Lemma ext4_64bit_sticks_witness :
  afs_ext4_detect (fun n => replicate n 0) true sample_ext4_data sample_ext4_device (mk_passive_fs [] 0 0 0 0 0) = Fault.
Proof.
  exact (proj2 (ext4_64bit_sticks (fun n => replicate n 0) (fun n => length_replicate n 0) sample_ext4_data sample_ext4_device
    (mk_passive_fs [] 0 0 0 0 0) sample_ext4_sb sample_ext4_disk 32 3 read_sample_sb eq_refl new_sample_disk sample_ext4_ok)).
Defined.

Lemma ext4_bitmap_error_frees_witness :
  exists bvec d', read_bitmap false (empty_device 8) sample_ext4_disk (pad_to 32 (le_store 4 3)) 2 (bit_vector_create true true (le_load (replicate 8 0)) 16) = Ok (bvec, d') /\
    forall j, 0 <= j < 16 -> bit_vector_get bvec j = Ok 0.
Proof.
  refine (ext4_bitmap_error_frees (fun n => replicate n 0) false (empty_device 8) sample_ext4_disk 32 3 (pad_to 32 (le_store 4 3)) 2 (eo_disk _ _ _ _ _ sample_ext4_ok) _ _ _ _ _ _).
  - cbn. lia.
  - vm_compute. split; [discriminate|reflexivity].
  - vm_compute. reflexivity.
  - vm_compute. split; [discriminate|reflexivity].
  - intros Hb. destruct (has_backups_spec 2) as (b & E & Hiff); [split; [lia|reflexivity]|]. apply Hiff in Hb. subst b. vm_compute in E. discriminate.
  - right. split; [reflexivity|vm_compute; reflexivity].
Defined.

Example sample_ext4 :
  (match afs_ext4_detect (fun n => replicate n 0) false sample_ext4_data sample_ext4_device (mk_passive_fs [] 0 0 0 0 0) with
   | Ok (true, fs, _, _) => free_list fs | _ => [] end) = [12; 13; 14; 15; 19; 20; 21; 22; 23; 32].
Proof. vm_compute. reflexivity. Qed.
