(* ===== verification/Args.v ===== *)
(** * Args: the arguments of a target (src/dm_afs.c, [parse_afs_args])

    A C string is the list of its characters without the terminating zero;
    the fields of [struct afs_args] are arrays. [kstrtou8] is a function of
    the kernel: [None] is an error. Theorem: the arguments that are accepted,
    and what the structure then holds. *)
From stdpp Require Import base tactics option list numbers strings.
From Stdlib Require Import ZArith Lia.
From S2P Require Import Prelude BitVector Format.

Local Open Scope Z_scope.

Definition PASSIVE_DEV_SZ : Z := 32.
Definition TYPE_CREATE : Z := 0.
Definition TYPE_MOUNT : Z := 1.
Definition TYPE_SHADOW : Z := 2.

(** ** The structure *)
Record afs_args := mk_args {
  passphrase : list Z;
  shadow_passphrase : list Z;
  passive_dev : list Z;
  entropy_dir : list Z;
  instance_type : Z;
}.

Definition zero_args : afs_args :=
  mk_args (replicate 64 0) (replicate 64 0) (replicate 32 0) (replicate 64 0) 0.

Definition set_type t a := mk_args (passphrase a) (shadow_passphrase a) (passive_dev a) (entropy_dir a) t.
Definition set_passphrase p a := mk_args p (shadow_passphrase a) (passive_dev a) (entropy_dir a) (instance_type a).
Definition set_shadow p a := mk_args (passphrase a) p (passive_dev a) (entropy_dir a) (instance_type a).
Definition set_dev p a := mk_args (passphrase a) (shadow_passphrase a) p (entropy_dir a) (instance_type a).
Definition set_entropy p a := mk_args (passphrase a) (shadow_passphrase a) (passive_dev a) p (instance_type a).

(** [strncpy(dst, src, n)] into an array that may be longer than [n]. *)
Definition strncpy_to (n : Z) (src dst : list Z) : list Z := strncpy (Z.to_nat n) src ++ drop (Z.to_nat n) dst.

Definition c_string (s : string) : list Z := map (fun a => Z.of_nat (Ascii.nat_of_ascii a)) (String.list_ascii_of_string s).
Definition entropy_option : list Z := c_string "--entropy"%string.
Definition shadow_option : list Z := c_string "--shadow_passphrase"%string.

(** ** Parsing *)

(** The optional arguments; the flag is false where the code jumps to [err]. *)
Fixpoint parse_options (args : afs_args) (argv : list (list Z)) : bool * afs_args :=
  match argv with
  | [] => (true, args)
  | arg :: argv =>
      if bool_decide (arg = entropy_option) then
        match argv with
        | [] => (false, args)
        | value :: argv => parse_options (set_entropy (strncpy_to (ENTROPY_DIR_SZ - 1) value (entropy_dir args)) args) argv
        end
      else if bool_decide (arg = shadow_option) then
        match argv with
        | [] => (false, args)
        | value :: argv => parse_options (set_shadow (strncpy_to (PASSPHRASE_SZ - 1) value (shadow_passphrase args)) args) argv
        end
      else (false, args)
  end.

Definition first_char (s : list Z) : Z := default 0 (head s).

Definition args_make_sense (args : afs_args) : bool :=
  if instance_type args =? TYPE_CREATE then
    negb (first_char (entropy_dir args) =? 0) && (first_char (shadow_passphrase args) =? 0)
  else if instance_type args =? TYPE_MOUNT then
    (first_char (entropy_dir args) =? 0) && (first_char (shadow_passphrase args) =? 0)
  else if instance_type args =? TYPE_SHADOW then
    negb (first_char (entropy_dir args) =? 0) && negb (first_char (shadow_passphrase args) =? 0)
  else false.

Section Args.
Context (kstrtou8 : list Z -> option Z).

(** [args] is the structure as the caller passes it. *)
Definition parse_afs_args (args : afs_args) (argv : list (list Z)) : Z * afs_args :=
  match argv with
  | ty :: pass :: disk :: rest =>
      match kstrtou8 ty with
      | None => (- EINVAL, zero_args)
      | Some t =>
          let args := set_type t zero_args in
          let args := set_passphrase (strncpy_to (PASSPHRASE_SZ - 1) pass (passphrase args)) args in
          let args := set_dev (strncpy_to (PASSIVE_DEV_SZ - 1) disk (passive_dev args)) args in
          let '(ok, args) := parse_options args rest in
          if negb ok then (- EINVAL, args)
          else if args_make_sense args then (0, args) else (- EINVAL, args)
      end
  | _ => (- EINVAL, args)
  end.

(** ** What is accepted *)
Inductive option_kind := Entropy | ShadowPassphrase.

#[global] Instance option_kind_dec : EqDecision option_kind.
Proof. solve_decision. Defined.

Definition option_name (k : option_kind) : list Z := match k with Entropy => entropy_option | ShadowPassphrase => shadow_option end.

(** The optional arguments are pairs of an option and its value. *)
Definition flatten (ops : list (option_kind * list Z)) : list (list Z) := List.concat (map (fun o => [option_name o.1; o.2]) ops).

(** The value of an option that is given several times is the last; [d]: when
    it is not given. *)
Definition value_of (k : option_kind) (d : list Z) (ops : list (option_kind * list Z)) : list Z :=
  default d (last (snd <$> filter (fun o => o.1 = k) ops)).

(** A string in an array of [n] bytes: cut, padded, terminated. *)
Definition in_array (n : nat) (s : list Z) : list Z := take (n - 1) s ++ replicate (n - List.length (take (n - 1) s)) 0.

Definition is_string (s : list Z) : Prop := Forall (fun c => c <> 0) s.

Definition sensible (t : Z) (entropy shadow : list Z) : Prop :=
  (t = TYPE_CREATE /\ entropy <> [] /\ shadow = []) \/ (t = TYPE_MOUNT /\ entropy = [] /\ shadow = []) \/
  (t = TYPE_SHADOW /\ entropy <> [] /\ shadow <> []).

Lemma strncpy_string n s : is_string s -> strncpy n s = take n s ++ replicate (n - List.length (take n s)) 0.
Proof.
  revert s; induction n as [|n IH]; intros [|x s] Hs; cbn [strncpy take List.length app]; try done.
  apply Forall_cons in Hs as [Hx Hs]. destruct (Z.eqb_spec x 0); [done|]. by rewrite IH.
Qed.

Lemma strncpy_to_array (n : nat) s dst : is_string s -> (0 < n)%nat -> List.length dst = n -> last dst = Some 0 ->
  strncpy_to (Z.of_nat n - 1) s dst = in_array n s.
Proof.
  intros Hs Hn Hl H0. unfold strncpy_to, in_array. replace (Z.to_nat (Z.of_nat n - 1)) with (n - 1)%nat by lia.
  rewrite strncpy_string by done. rewrite <- app_assoc. f_equal.
  apply (last_Some dst 0) in H0 as (dst' & ->). rewrite length_app in Hl. cbn in Hl. rewrite drop_app_length' by lia.
  change [0] with (replicate 1 0). rewrite <- replicate_add. f_equal. rewrite length_take. lia.
Qed.

Lemma in_array_last n s : (0 < n)%nat -> last (in_array n s) = Some 0.
Proof.
  intros Hn. unfold in_array. rewrite length_take. destruct (n - (n - 1) `min` List.length s)%nat as [|k] eqn:E; [lia|].
  rewrite replicate_S_end, app_assoc. by rewrite last_snoc.
Qed.

Lemma in_array_length n s : (0 < n)%nat -> List.length (in_array n s) = n.
Proof. intros Hn. unfold in_array. rewrite length_app, length_replicate, length_take. lia. Qed.

Lemma strncpy_again n s s' : is_string s -> (0 < n)%nat -> strncpy_to (Z.of_nat n - 1) s (in_array n s') = in_array n s.
Proof. intros Hs Hn. by rewrite strncpy_to_array by (done || by apply in_array_length || by apply in_array_last). Qed.

Lemma in_array_empty n : in_array n [] = replicate n 0.
Proof. unfold in_array. by rewrite take_nil, Nat.sub_0_r. Qed.

Lemma first_char_array n s : (1 < n)%nat -> is_string s -> (first_char (in_array n s) =? 0) = bool_decide (s = []).
Proof.
  intros Hn Hs. destruct s as [|x s]; [rewrite in_array_empty; destruct n; [lia|done]|].
  unfold in_array. destruct (n - 1)%nat as [|k] eqn:E; [lia|]. cbn. apply Forall_cons in Hs as [Hx _]. by destruct (Z.eqb_spec x 0).
Qed.

Lemma value_of_cons k d o ops : value_of k d (o :: ops) = value_of k (if decide (o.1 = k) then o.2 else d) ops.
Proof.
  unfold value_of. rewrite filter_cons. case_decide; [|done]. rewrite fmap_cons. rewrite last_cons. by destruct (last _).
Qed.

(** The arguments once the strings [e] and [s] were given. *)
Definition with_options (e s : list Z) (a : afs_args) : afs_args := set_entropy (in_array 64 e) (set_shadow (in_array 64 s) a).

Definition update_option (o : option_kind * list Z) (e s : list Z) (a : afs_args) : afs_args :=
  match o.1 with Entropy => with_options o.2 s a | ShadowPassphrase => with_options e o.2 a end.

Lemma parse_option e s a o rest : is_string o.2 ->
  parse_options (with_options e s a) (option_name o.1 :: o.2 :: rest) = parse_options (update_option o e s a) rest.
Proof.
  intros Hs. destruct o as [[] v]; cbn [fst snd option_name] in *; cbn [parse_options].
  - rewrite bool_decide_eq_true_2 by done. change (entropy_dir (with_options e s a)) with (in_array 64 e).
    change (ENTROPY_DIR_SZ - 1) with (Z.of_nat 64 - 1). by rewrite strncpy_again by (done || lia).
  - rewrite bool_decide_eq_false_2 by (by vm_compute). rewrite bool_decide_eq_true_2 by done.
    change (shadow_passphrase (with_options e s a)) with (in_array 64 s). change (PASSPHRASE_SZ - 1) with (Z.of_nat 64 - 1).
    by rewrite strncpy_again by (done || lia).
Qed.

Lemma parse_flatten ops : Forall (fun o => is_string o.2) ops -> forall e s a,
  parse_options (with_options e s a) (flatten ops) = (true, with_options (value_of Entropy e ops) (value_of ShadowPassphrase s ops) a).
Proof.
  induction 1 as [|o ops Ho _ IH]; intros e s a; [done|]. change (flatten (o :: ops)) with (option_name o.1 :: o.2 :: flatten ops).
  rewrite parse_option, !value_of_cons by done. destruct o as [[] v]; unfold update_option; cbn [fst snd]; rewrite IH; done.
Qed.

Lemma parse_options_flat n : forall a rest a', (List.length rest <= n)%nat -> parse_options a rest = (true, a') -> exists ops, rest = flatten ops.
Proof.
  induction n as [|n IH]; intros a rest a' Hl H; [destruct rest; [by exists []|cbn in Hl; lia]|].
  destruct rest as [|x rest]; [by exists []|]. cbn [parse_options] in H. cbn [List.length] in Hl.
  case_bool_decide as E1; [|case_bool_decide as E2; [|discriminate]].
  - destruct rest as [|v rest]; [discriminate|]. cbn [List.length] in Hl. destruct (IH _ rest a' ltac:(lia) H) as (ops & ->). exists ((Entropy, v) :: ops). by rewrite E1.
  - destruct rest as [|v rest]; [discriminate|]. cbn [List.length] in Hl. destruct (IH _ rest a' ltac:(lia) H) as (ops & ->). exists ((ShadowPassphrase, v) :: ops). by rewrite E2.
Qed.

Lemma flatten_strings ops : Forall is_string (flatten ops) -> Forall (fun o => is_string o.2) ops.
Proof.
  induction ops as [|o ops IH]; intros H; [done|]. change (flatten (o :: ops)) with (option_name o.1 :: o.2 :: flatten ops) in H.
  apply Forall_cons in H as [_ H]. apply Forall_cons in H as [Hv H]. constructor; auto.
Qed.

Lemma value_of_string k ops : Forall (fun o => is_string o.2) ops -> is_string (value_of k [] ops).
Proof.
  intros H. unfold value_of. destruct (last _) as [v|] eqn:E; [|by constructor]. cbn [default].
  apply last_Some_elem_of in E. apply list_elem_of_fmap in E as (o & -> & Ho). apply list_elem_of_filter in Ho as [_ Ho].
  by eapply (proj1 (Forall_forall _ _) H).
Qed.

Lemma args_make_sense_spec t e s a : is_string e -> is_string s ->
  args_make_sense (with_options e s (set_type t a)) = true <-> sensible t e s.
Proof.
  intros He Hs. unfold args_make_sense, sensible. cbn [with_options instance_type set_entropy set_shadow set_type entropy_dir shadow_passphrase].
  rewrite !first_char_array by (done || lia). unfold TYPE_CREATE, TYPE_MOUNT, TYPE_SHADOW.
  destruct (Z.eqb_spec t 0), (Z.eqb_spec t 1), (Z.eqb_spec t 2); try lia; repeat case_bool_decide; cbn; intuition (congruence || lia).
Qed.

(** C18: a command line is accepted exactly when its first argument is a
    number, a passphrase and a device follow, and then options with their
    values that fit the type: an entropy source to create, neither to mount,
    entropy source and shadow passphrase for a nested instance. Then every
    array holds its argument, the last of an option given several times, cut
    to the array and terminated. *)
Theorem parse_afs_args_accepts args argv a : Forall is_string argv ->
  parse_afs_args args argv = (0, a) <->
  exists ty t pass disk ops, argv = ty :: pass :: disk :: flatten ops /\ kstrtou8 ty = Some t /\
    sensible t (value_of Entropy [] ops) (value_of ShadowPassphrase [] ops) /\
    a = mk_args (in_array 64 pass) (in_array 64 (value_of ShadowPassphrase [] ops)) (in_array 32 disk)
          (in_array 64 (value_of Entropy [] ops)) t.
Proof.
  intros Hst. destruct argv as [|ty [|pass [|disk rest]]]; cbn [parse_afs_args];
    try (split; [discriminate|intros (? & ? & ? & ? & ? & E & _); discriminate]).
  apply Forall_cons in Hst as [_ Hst]. apply Forall_cons in Hst as [Hp Hst]. apply Forall_cons in Hst as [Hd Hst].
  assert (Hz : forall n : nat, (0 < n)%nat -> last (replicate n 0) = Some 0) by (intros n Hn; destruct n; [lia|rewrite replicate_S_end; apply last_snoc]).
  assert (Earr : forall t, set_dev (strncpy_to (PASSIVE_DEV_SZ - 1) disk (passive_dev (set_type t zero_args)))
      (set_passphrase (strncpy_to (PASSPHRASE_SZ - 1) pass (passphrase (set_type t zero_args))) (set_type t zero_args)) =
    with_options [] [] (set_type t (mk_args (in_array 64 pass) (replicate 64 0) (in_array 32 disk) (replicate 64 0) t))).
  { intros t. change (PASSPHRASE_SZ - 1) with (Z.of_nat 64 - 1). change (PASSIVE_DEV_SZ - 1) with (Z.of_nat 32 - 1).
    rewrite !strncpy_to_array by (done || lia || by apply Hz; lia). unfold with_options. by rewrite !in_array_empty. }
  destruct (kstrtou8 ty) as [t|] eqn:Et; [|split; [discriminate|intros (? & ? & ? & ? & ? & E & E' & _); simplify_eq]].
  cbn zeta. change (passive_dev (set_passphrase _ _)) with (passive_dev (set_type t zero_args)). rewrite Earr. set (a0 := mk_args _ _ _ _ t). split.
  - destruct (parse_options _ rest) as [[] a'] eqn:E; [|discriminate]. cbn [negb].
    destruct (parse_options_flat (List.length rest) _ rest a' (Nat.le_refl _) E) as (ops & ->). pose proof (flatten_strings ops Hst) as Ho.
    rewrite parse_flatten in E by done. injection E as <-. destruct (args_make_sense _) eqn:Em; [|discriminate]. intros [= <-].
    apply args_make_sense_spec in Em; [|by apply value_of_string..]. by exists ty, t, pass, disk, ops.
  - intros (ty' & t' & pass' & disk' & ops & E & Et' & Hs & ->). injection E as <- <- <- ->. assert (t' = t) as -> by congruence.
    pose proof (flatten_strings ops Hst) as Ho. rewrite parse_flatten by done. cbn [negb].
    rewrite (proj2 (args_make_sense_spec t _ _ a0 (value_of_string _ _ Ho) (value_of_string _ _ Ho)) Hs). done.
Qed.
End Args.

(** A [kstrtou8] for numbers of one digit. *)
Definition digit (s : list Z) : option Z := match s with [c] => if (48 <=? c) && (c <=? 57) then Some (c - 48) else None | _ => None end.

Definition create_line : list (list Z) :=
  [c_string "0"; c_string "secret"; c_string "/dev/sdb1"; entropy_option; c_string "/tmp"; entropy_option; c_string "/usr"].

Lemma parse_afs_args_accepts_witness :
  parse_afs_args digit zero_args create_line =
  (0, mk_args (in_array 64 (c_string "secret")) (replicate 64 0) (in_array 32 (c_string "/dev/sdb1")) (in_array 64 (c_string "/usr")) 0).
Proof.
  refine (proj2 (parse_afs_args_accepts digit zero_args create_line _ _) _).
  - apply (bool_decide_unpack _). vm_compute. exact I.
  - exists (c_string "0"), 0, (c_string "secret"), (c_string "/dev/sdb1"), [(Entropy, c_string "/tmp"); (Entropy, c_string "/usr")].
    split; [reflexivity|]. split; [reflexivity|]. split; [left; split; [reflexivity|split; [discriminate|reflexivity]]|reflexivity].
Defined.

Example missing_value : fst (parse_afs_args digit zero_args [c_string "1"; c_string "p"; c_string "d"; shadow_option]) = - EINVAL.
Proof. reflexivity. Qed.
