(* ===== verification/Ctr.v ===== *)
(** * Ctr: the constructor and the destructor (src/dm_afs.c, src/modules/dm_afs_shadow.c)

    [detect_fs] and the constructor and the destructor of the target, composed
    of the parts that the other files model. What the kernel decides is an
    argument: the outcomes of allocations, the random numbers, the devices
    that [dm_get_device] finds, the contents of fresh memory, the value of
    EXT4's static variable. Then: which file systems are found again after the
    data area has changed, and that FAT32 volumes are among them. *)
From stdpp Require Import base tactics option list numbers gmap.
From Stdlib Require Import ZArith Lia.
From S2P Require Import Prelude BitVector Allocation BlockIo Format Args MapBlocks SuperBlock Sha3 Aont EngineQueue Engine Target EngineMap EngineData Metadata Fat32 Ntfs Ext4 EngineRun Volume VolumeRequests Creation.

Local Open Scope Z_scope.
Local Open Scope afs_scope.

Definition AFS_MIN_SIZE : Z := 2 ^ 16.
Definition ENXIO : Z := 6.
Definition FS_FAT32 : Z := 0.
Definition FS_EXT4 : Z := 1.
Definition FS_NTFS : Z := 2.
Definition FS_SHADOW : Z := 3.
Definition FS_ERR : Z := -1.

Definition afs_shadow_detect (data : list Z) (device : block_device) (fs : afs_passive_fs) : bool := false.

(** What the kernel gives to one call of the constructor. *)
Record kernel := mk_kernel {
  k_allocs : list bool;                      (* outcomes of [kmalloc] and [vmalloc] *)
  k_rng : list Z;
  k_is_64bit : bool;                         (* the static variable of the EXT4 module *)
  k_device : list Z -> Z + block_device;     (* [dm_get_device]: an error or the device *)
  k_memory : Z -> request_memory;            (* memory of the requests of [afs_rebuild] *)
}.

Definition alloc_next (allocs : list bool) : bool * list bool := (default true (head allocs), tail allocs).

(** [memset(context, 0, ...)]. *)
Definition zero_fs : afs_passive_fs := mk_passive_fs [] 0 0 0 0 0.

Section Ctr.
Context (sha1 sha256 sha512 : list Z -> list Z) (is_power_of_2 : Z -> bool) (hweight8 : Z -> Z) (kstrtou8 : list Z -> option Z).
Context (uninit : nat -> list Z) (place : Z -> buffer_place) (page_place sb_place : buffer_place).

(** The result is the kind of file system, its description, EXT4's variable
    and the device. *)
Definition detect_fs (fuel : nat) (page_ok is_64bit : bool) (device : block_device) (fs : afs_passive_fs)
    : res (Z * afs_passive_fs * bool * block_device) :=
  if negb page_ok then Ok (FS_ERR, fs, is_64bit, device) else
  '(ret, page, device) ← read_page page_place (uninit 4096) device 0 0 false;
  if negb (ret =? 0) then Ok (FS_ERR, fs, is_64bit, device) else
  '(fat32, device) ← afs_fat32_detect is_power_of_2 uninit place page device (Some fs);
  match fat32 with
  | Some fs => Ok (FS_FAT32, fs, is_64bit, device)
  | None =>
      '(ext4, fs, is_64bit, device) ← afs_ext4_detect uninit is_64bit page device fs;
      if (ext4 : bool) then Ok (FS_EXT4, fs, is_64bit, device) else
      '(ntfs, device) ← afs_ntfs_detect uninit place hweight8 fuel page device (Some fs);
      match ntfs with
      | Some fs => Ok (FS_NTFS, fs, is_64bit, device)
      | None => Ok (if afs_shadow_detect page device fs then FS_SHADOW else FS_ERR, fs, is_64bit, device)
      end
  end.

(** ** The constructor *)
Definition new_context (instance_size : Z) (args : afs_args) (fs : afs_passive_fs) (device : block_device)
    (vector : option bit_vector_t) (rng : list Z) (allocs : list bool) : afs_private :=
  {| config := config_of_size instance_size (nr_sects device); super_block := sb_of_bytes (replicate 4096 0); passive_fs := fs;
     vector := vector; afs_map := []; afs_map_blocks := []; afs_ptr_blocks := []; passphrase := Args.passphrase args;
     args_entropy_dir := entropy_dir args; bdev := device; rng := rng; allocs := allocs |}.

(** What the constructor does for the type of the instance. *)
Definition open_instance (fuel : nat) (type : Z) (c : afs_private) : res (Z * afs_private) :=
  if type =? TYPE_CREATE then
    cfg ← build_configuration (config c) 4 1;
    write_super_block sha1 sha256 sha512 uninit sb_place fuel (set_config cfg c)
  else if type =? TYPE_MOUNT then find_super_block sha1 sha256 uninit sb_place fuel c
  else Ok (0, c).

(** The status, the instance with the requests on its rebuild queue, and EXT4's
    variable. *)
Definition afs_ctr (fuel : nat) (k : kernel) (ti_len : Z) (argv : list (list Z))
    : res (Z * option (instance * list afs_map_request) * bool) :=
  let fails ret is_64bit := Ok (ret, None, is_64bit) in
  let instance_size := ti_len *64 AFS_SECTOR_SIZE in
  if instance_size <? AFS_MIN_SIZE then fails (- EINVAL) (k_is_64bit k) else
  let '(context_ok, allocs) := alloc_next (k_allocs k) in
  if negb context_ok then fails (- ENOMEM) (k_is_64bit k) else
  let '(ret, args) := parse_afs_args kstrtou8 zero_args argv in
  passphrase_hash ← sha3_256 true (Args.passphrase args) PASSPHRASE_SZ;
  if negb (ret =? 0) then fails ret (k_is_64bit k) else
  match k_device k (passive_dev args) with
  | inl err => fails err (k_is_64bit k)
  | inr device =>
      let '(page_ok, allocs) := alloc_next allocs in
      '(detected_fs, fs, is_64bit, device) ← detect_fs fuel page_ok (k_is_64bit k) device zero_fs;
      if detected_fs =? FS_SHADOW then fails (- ENXIO) is_64bit else
      let '(kmalloc_ok, allocs) := alloc_next allocs in
      let '(vmalloc_ok, allocs) := alloc_next allocs in
      match bit_vector_create kmalloc_ok vmalloc_ok (le_load (uninit 8)) (2 ^ 32 - 1) with
      | None => fails (- ENOMEM) is_64bit
      | Some v =>
          c ← ctx_allocation_set AFS_INVALID_BLOCK (new_context instance_size args fs device (Some v) (k_rng k) allocs);
          '(ret, c) ← open_instance fuel (instance_type args) c;
          if negb (ret =? 0) then fails ret is_64bit else
          let x := mk_instance c passphrase_hash AONT_RS afs_eq_init in
          requests ← (if instance_type args =? TYPE_MOUNT then afs_rebuild (k_memory k) x else Ok []);
          Ok (0, Some (x, requests), is_64bit)
      end
  end.

(** ** The destructor

    It waits while neither queue is empty, and then writes the map; what it
    leaves is the device. *)
Definition afs_dtr (x : instance) (rebuild_eq : rb_tree (Z * Z)) : res block_device :=
  if negb (afs_eq_empty (flight_eq x)) && negb (afs_eq_empty rebuild_eq) then OutOfFuel else
  '(err, c) ← afs_create_map_blocks sha512 (priv x);
  if negb (err =? 0) then Ok (bdev c) else
  '(err, c) ← write_map_blocks c true;
  Ok (bdev c).
End Ctr.

(** ** Recognition of a FAT32 volume *)
Section Recognition.
Context (is_power_of_2 : Z -> bool) (hweight8 : Z -> Z) (uninit : nat -> list Z) (place : Z -> buffer_place) (page_place : buffer_place).
Context (uninit_length : forall n, List.length (uninit n) = n) (places_ok : forall i, place_ok true (place i)) (page_place_ok : place_ok false page_place).

Local Notation detect_fs := (detect_fs is_power_of_2 hweight8 uninit place page_place).

(** The description is found on every device that agrees with [d] below the
    data area. *)
Definition recognised (fuel : nat) (kind : Z) (fs : afs_passive_fs) (d : block_device) : Prop :=
  forall d', dev_ok d' -> nr_sects d' = nr_sects d -> same_below (data_start_off fs) d d' ->
  forall is_64bit, detect_fs fuel true is_64bit d' zero_fs = Ok (kind, fs, is_64bit, d').

(** A free list the allocator and the search can use, on the device. *)
Record fs_usable (fs : afs_passive_fs) (d : block_device) : Prop := mk_usable {
  fu_len : 0 < list_len fs <= Z.of_nat (List.length (block_list fs)) /\ list_len fs < 2 ^ 32;
  fu_range : Forall (fun b => 0 <= b < AFS_INVALID_BLOCK) (free_list fs);
  fu_apart : list_apart fs;
  fu_nodup : NoDup (free_list fs);
  fu_device : Forall (on_device d (data_start_off fs)) (block_list fs);
}.

(** A volume with sectors of 512 bytes whose clusters are blocks of the device
    and whose first table entry, the media descriptor, is not 0. *)
Record fat32_volume (vol : fat_volume) (d : block_device) : Prop := mk_fat32_volume {
  fv_boot : Fat32.read_boot_sector is_power_of_2 (block_at d 0 0) = Some vol;
  fv_ok : fat_ok vol d;
  fv_sector : sector_order (bpb vol) = 9;
  fv_start : 8 <= tables (bpb vol) * sec_fat (bpb vol) + reserved (bpb vol) < 2 ^ 31;
  fv_blocks : forall b, 0 <= b < num_data_clusters vol -> on_device d (start_off (bpb vol)) b;
  fv_first : scanned_entry (bpb vol) d 0 <> 0;
  fv_free : free_clusters vol d (Z.to_nat (num_data_clusters vol)) <> [];
}.

Definition fat_fs (vol : fat_volume) (d : block_device) : afs_passive_fs :=
  let l := free_clusters vol d (Z.to_nat (num_data_clusters vol)) in
  {| block_list := l ++ replicate (Z.to_nat (fat_size_bytes (bpb vol) / 4) - List.length l) 0;
     list_len := Z.of_nat (List.length l); sectors_per_block := sec_cluster (bpb vol); total_blocks := num_data_clusters vol;
     data_start_off := start_off (bpb vol); blocks_in_tuple := 0 |}.

Lemma fat_start vol d : fat32_volume vol d -> start_off (bpb vol) = tables (bpb vol) * sec_fat (bpb vol) + reserved (bpb vol).
Proof.
  intros H. pose proof (fv_start _ _ H). destruct (fo_geometry _ _ (fv_ok _ _ H)) as (_ & _ & _ & _ & Ht & [Rr _] & _ & _ & [Rf _]).
  assert (0 <= tables (bpb vol) * sec_fat (bpb vol)) by (destruct Ht as [-> | ->]; lia).
  unfold start_off. rewrite (wrap_id 32 (_ * _)) by (unfold in_range; lia). apply wrap_id. unfold in_range. lia.
Qed.

Lemma get_sectors_below s m m' a (n : nat) : (forall k, k < s -> m' !! k = m !! k) -> a + Z.of_nat n <= s -> get_sectors m' a n = get_sectors m a n.
Proof. intros H Hn. apply get_sectors_ext. intros k Hk. apply H. lia. Qed.

(** A field of consecutive sectors that ends below sector [s]. *)
Lemma field_below s d d' a (n o len : nat) : same_below s d d' -> dev_ok d -> dev_ok d' ->
  512 * a + Z.of_nat (o + len) <= 512 * s -> field o len (get_sectors (sectors d') a n) = field o len (get_sectors (sectors d) a n).
Proof.
  intros Hs [_ Hd] [_ Hd'] Ho. destruct (Z.le_gt_cases (a + Z.of_nat n) s) as [L|L].
  { by rewrite (get_sectors_below s (sectors d) (sectors d') a n Hs L). }
  set (k := Z.to_nat (s - a)). assert (Hk : (o + len <= 512 * k)%nat) by (unfold k; lia).
  replace n with (k + (n - k))%nat by (unfold k; lia). rewrite !get_sectors_app.
  rewrite (get_sectors_below s (sectors d) (sectors d') a k Hs) by (unfold k; lia). unfold field.
  rewrite !drop_app_le by (rewrite get_sectors_length by done; lia).
  by rewrite !take_app_le by (rewrite length_drop, get_sectors_length by done; lia).
Qed.

Lemma scanned_entry_below vol d d' i : fat32_volume vol d -> dev_ok d' -> same_below (start_off (bpb vol)) d d' ->
  0 <= i < num_data_clusters vol -> scanned_entry (bpb vol) d' i = scanned_entry (bpb vol) d i.
Proof.
  intros Hv Hd' Hs Hi. pose proof (fv_ok _ _ Hv) as [G Hd _ _ _ He]. destruct (fat_offsets _ G) as (Ha & _ & _ & Ea).
  pose proof (fat_start _ _ Hv) as Est. pose proof (fv_start _ _ Hv) as Hst. set (v := bpb vol) in *.
  destruct G as (Eb & _ & _ & _ & Ht & [Rr _] & _ & _ & [Rf _]). assert (Eso : sector_order v = 9) by apply Hv.
  assert (Ef : fat_offset v = reserved v * 512) by (unfold fat_offset; rewrite Eso, Z.shiftl_mul_pow2 by lia; done).
  assert (Esz : fat_size_bytes v <= sec_fat v * 512).
  { unfold fat_size_bytes. rewrite Eb, Eso. apply Z.mod_le; lia. }
  assert (sec_fat v <= tables v * sec_fat v) by (destruct Ht as [-> | ->]; lia).
  unfold scanned_entry, fat_image, pages_at. f_equal.
  assert (Eq : 4096 * (fat_aligned_offset v / 4096) = fat_aligned_offset v) by (rewrite Ea, (Z.mul_comm 4096 (fat_offset v / 4096)), Z.div_mul; lia).
  assert (Hend : 512 * (8 * (fat_aligned_offset v / 4096)) + Z.of_nat (Z.to_nat (4 * i) + 4) <= 512 * start_off v).
  { rewrite Nat2Z.inj_add, Z2Nat.id by lia. clear - Eq Ha Ef He Esz Est Hi H. lia. }
  exact (field_below (start_off v) d d' (8 * (fat_aligned_offset v / 4096)) (8 * Z.to_nat (page_number v)) (Z.to_nat (4 * i)) 4 Hs Hd Hd' Hend).
Qed.

Lemma fat_fs_below vol d d' : fat32_volume vol d -> dev_ok d' -> same_below (start_off (bpb vol)) d d' -> fat_fs vol d' = fat_fs vol d.
Proof.
  intros Hv Hd' Hs. assert (E : forall n, (n <= Z.to_nat (num_data_clusters vol))%nat -> free_clusters vol d' n = free_clusters vol d n).
  { induction n as [|n IH]; intros Hn; [done|]. by rewrite !free_clusters_S, IH, (scanned_entry_below vol d d') by (done || lia). }
  unfold fat_fs. by rewrite E.
Qed.

Lemma fat32_recognised fuel vol d : fat32_volume vol d -> recognised fuel FS_FAT32 (fat_fs vol d) d.
Proof.
  intros Hv d' Hd' Hn Hs is_64bit. pose proof (fv_ok _ _ Hv) as [G Hd Hl Hp Hsec He]. pose proof (fv_start _ _ Hv) as Hst.
  change (data_start_off (fat_fs vol d)) with (start_off (bpb vol)) in Hs. pose proof (fat_start _ _ Hv) as Est.
  assert (Hc : 0 < num_data_clusters vol).
  { pose proof (fv_free _ _ Hv) as Hf. destruct (Z.le_gt_cases (num_data_clusters vol) 0) as [L|]; [|done]. destruct Hf. by rewrite Z2Nat.nonpos. }
  assert (Hd0 : on_device d' 0 0) by (destruct (fv_blocks _ _ Hv 0 ltac:(lia)) as (_ & ? & ?); unfold on_device; rewrite Hn; lia).
  assert (Eb : block_at d' 0 0 = block_at d 0 0).
  { unfold block_at. rewrite !sector_num_small by lia. apply (get_sectors_below (start_off (bpb vol))); [exact Hs|lia]. }
  unfold detect_fs. cbn [negb]. rewrite read_page_good by (done || apply uninit_length). cbn [mbind res_bind Z.eqb negb].
  rewrite Eb, (detect_spec is_power_of_2 uninit place uninit_length places_ok _ d' zero_fs vol (fv_boot _ _ Hv)); [|split; (done || by rewrite Hn)].
  cbn [mbind res_bind]. rewrite <- (fat_fs_below vol d d' Hv Hd' Hs). done.
Qed.

Lemma fat_fs_usable vol d : fat32_volume vol d -> fs_usable (fat_fs vol d) d.
Proof.
  intros Hv. pose proof (fv_ok _ _ Hv) as Hok. pose proof (fo_entries _ _ Hok) as He. destruct (fat_sizes _ (fo_geometry _ _ Hok)) as ([R0 R1] & _).
  set (l := free_clusters vol d (Z.to_nat (num_data_clusters vol))). assert (El : free_list (fat_fs vol d) = l) by apply detected_free_list.
  assert (Hl : forall b, b ∈ l -> 0 < b < num_data_clusters vol).
  { intros b [Hb Hz]%free_clusters_elem. destruct (decide (b = 0)) as [->|]; [by destruct (fv_first _ _ Hv)|lia]. }
  assert (Hnd : NoDup l) by (unfold l, free_clusters; apply NoDup_filter, NoDup_seqZ).
  assert (Hlen : (0 < List.length l)%nat) by (pose proof (fv_free _ _ Hv) as Hf; fold l in Hf; destruct l; [done|cbn; lia]).
  pose proof (free_clusters_length vol d (Z.to_nat (num_data_clusters vol))) as Hle. fold l in Hle.
  constructor.
  - cbn [fat_fs list_len block_list]. fold l. rewrite length_app. lia.
  - rewrite El. apply Forall_forall. intros b Hb. apply Hl in Hb. unfold AFS_INVALID_BLOCK. lia.
  - intros i j x Hi Ex Ey. cbn [fat_fs list_len block_list] in *. fold l in Hi, Ex, Ey. rewrite Nat2Z.id in Hi. rewrite lookup_app_l in Ex by done.
    apply lookup_app_Some in Ey as [Ey|[_ Ey]]; [by eapply NoDup_lookup|]. apply lookup_replicate in Ey as [-> _].
    apply list_elem_of_lookup_2, Hl in Ex. lia.
  - by rewrite El.
  - cbn [fat_fs block_list data_start_off]. fold l. apply Forall_app. split.
    + apply Forall_forall. intros b Hb. apply (fv_blocks _ _ Hv). apply Hl in Hb. lia.
    + apply Forall_replicate, (fv_blocks _ _ Hv). destruct l as [|b l']; [cbn in Hlen; lia|]. pose proof (Hl b ltac:(left)). lia.
Qed.
End Recognition.
