(* ===== verification/Lifecycle.v ===== *)
(** * Lifecycle: an instance from its creation to its next mount

    A created instance is live: it represents the empty volume and its
    metadata is on the device. Requests keep it live, and the destructor and a
    later mount give an instance with the same map and the same data. *)
From stdpp Require Import base tactics option list numbers gmap strings.
From Stdlib Require Import ZArith Lia.
From S2P Require Import Prelude BitVector Allocation BlockIo Format Args MapBlocks SuperBlock Sha3 Aont EngineQueue Engine Target EngineMap EngineData Metadata Fat32 Ntfs Ext4 EngineRun Volume VolumeRequests Requests Interference Creation Ctr.

Local Open Scope Z_scope.
Local Open Scope afs_scope.

(** ** Contents of blocks by number *)
Definition contents (f : Z -> list Z) (bs : list Z) : gmap Z (list Z) := list_to_map (map (fun b => (b, f b)) bs).

Lemma contents_lookup f bs b : contents f bs !! b = if decide (b ∈ bs) then Some (f b) else None.
Proof.
  unfold contents. induction bs as [|x bs IH]; cbn; [done|]. destruct (decide (b = x)) as [->|Hne].
  - rewrite lookup_insert_eq, decide_True by (by left). done.
  - rewrite lookup_insert_ne, IH by done. destruct (decide (b ∈ bs)) as [H|H].
    + by rewrite decide_True by (by right).
    + rewrite decide_False; [done|]. by rewrite elem_of_cons; intros [|].
Qed.

(** A vector that [afs_ctr] has just made: only the bit of the invalid block is
    set. *)
Definition fresh_vector (v : option bit_vector_t) : Prop :=
  bvok v /\ bvlen v = AFS_INVALID_BLOCK /\ forall j, 0 <= j < AFS_INVALID_BLOCK -> bvmem v j = false.

Lemma fresh_fs_wf fs d v : fs_usable fs d -> fresh_vector v -> fs_wf fs v.
Proof.
  intros [[Hl Hl'] Hr _ _ _] (Hok & Elen & _). unfold fs_wf. rewrite Elen. unfold AFS_INVALID_BLOCK in *. split_and!; try done; lia.
Qed.

Section Life.
Context (sha1 sha256 sha512 : list Z -> list Z) (is_power_of_2 : Z -> bool) (hweight8 : Z -> Z) (kstrtou8 : list Z -> option Z).
Context (uninit : nat -> list Z) (place : Z -> buffer_place) (page_place sb_place : buffer_place).
Context (sha256_length : forall l, List.length (sha256 l) = 32%nat) (sha512_length : forall l, List.length (sha512 l) = 64%nat).
Context (uninit_length : forall n, List.length (uninit n) = n) (sb_place_ok : place_ok false sb_place).

Local Notation recognised := (recognised is_power_of_2 hweight8 uninit place page_place).
Local Notation run_ctr := (afs_ctr sha1 sha256 sha512 is_power_of_2 hweight8 kstrtou8 uninit place page_place sb_place).
Local Notation run_open := (open_instance sha1 sha256 sha512 uninit sb_place).

Implicit Types (x : instance) (k : kernel).

(** ** A call of the constructor *)

(** Arguments that are accepted, a device whose file system is recognised as
    [fs], memory, and a size whose map blocks fit in the super block. *)
Record call (fuel : nat) (kind : Z) (fs : afs_passive_fs) (d : block_device) k (ti_len : Z) (argv : list (list Z))
    (args : afs_args) (hash : list Z) : Prop := mk_call {
  ca_args : parse_afs_args kstrtou8 zero_args argv = (0, args);
  ca_hash : sha3_256 true (Args.passphrase args) PASSPHRASE_SZ = Ok hash;
  ca_device : k_device k (passive_dev args) = inr d;
  ca_dev : dev_ok d;
  ca_fs : recognised fuel kind fs d /\ fs_usable fs d /\ kind <> FS_SHADOW;
  ca_allocs : k_allocs k = [];
  ca_memory : forall i, mem_ok (k_memory k i) = true /\ (4 <= List.length (mem_pages (k_memory k i)))%nat;
  ca_size : AFS_MIN_SIZE <= ti_len * AFS_SECTOR_SIZE <= 975 * 63 * 4096;
}.

Definition geometry (size sects : Z) : res afs_config := build_configuration (config_of_size size sects) 4 1.

Lemma geometry_total size sects : AFS_MIN_SIZE <= size <= 975 * 63 * 4096 -> exists cfg, geometry size sects = Ok cfg /\ config_wf cfg /\
  num_ptr_blocks cfg = 0 /\ 0 < num_blocks cfg <= 975 * 63 /\ num_carrier_blocks cfg = 4 /\ instance_size cfg = size /\ bdev_size cfg = sects.
Proof.
  unfold AFS_MIN_SIZE. intros Hs. destruct (build_configuration_consistent (config_of_size size sects) 4 1) as (cfg & E & Hwf & Hnb & Hc & Hi & Hb);
    [lia|cbn; lia|]. cbn in Hnb, Hi, Hb. unfold AFS_BLOCK_SIZE in Hnb. exists cfg.
  assert (0 < num_blocks cfg <= 975 * 63) by (rewrite Hnb; split; [apply Z.div_str_pos; lia|apply Z.div_le_upper_bound; lia]).
  split_and!; try done; [|lia..]. destruct Hwf as (E1 & _ & E3 & E4 & _ & _ & _ & _ & E9 & E10 & _ & E12).
  unfold SHA512_SZ, AFS_BLOCK_SIZE, NUM_MAP_BLKS_IN_SB, NUM_MAP_BLKS_IN_PB in *.
  destruct (Z.eq_dec (num_ptr_blocks cfg) 0); [done|]. specialize (E12 ltac:(lia)). rewrite Hc in E1. 
  assert (num_map_entries_per_block cfg = 63) by (injection E as <-; reflexivity).
  nia.
Qed.

(** The context before the super block is written or read. *)
Definition start_context k (ti_len : Z) (args : afs_args) (fs : afs_passive_fs) (d : block_device) (v : option bit_vector_t) : afs_private :=
  new_context (ti_len * AFS_SECTOR_SIZE) args fs d v (k_rng k) [].

Lemma vector_of_len slack len : exists v, bit_vector_create true true slack len = Some v.
Proof. by eexists. Qed.

Lemma ctr_start fuel kind fs d k ti_len argv args hash : call fuel kind fs d k ti_len argv args hash ->
  exists v, fresh_vector v /\ run_ctr fuel k ti_len argv =
    '(ret, c) ← run_open fuel (instance_type args) (start_context k ti_len args fs d v);
    if negb (ret =? 0) then Ok (ret, None, k_is_64bit k) else
    let x := mk_instance c hash AONT_RS afs_eq_init in
    requests ← (if instance_type args =? TYPE_MOUNT then afs_rebuild (k_memory k) x else Ok []);
    Ok (0, Some (x, requests), k_is_64bit k).
Proof.
  intros [Ea Eh Ed Hd [Hrec [_ Hkind]] Eal _ Hsz]. unfold AFS_SECTOR_SIZE, AFS_MIN_SIZE in *.
  destruct (vector_of_len (le_load (uninit 8)) (2 ^ 32 - 1)) as [v0 Ev]. destruct (bit_vector_create_wf (le_load (uninit 8)) (2 ^ 32 - 1) v0 ltac:(lia) Ev) as (Hwf & Hlen & Hmem).
  destruct (allocation_set_total (Some v0) AFS_INVALID_BLOCK) as (r & v & Es & Hok & Hl & Hm); [by exists v0|done|].
  exists v. split.
  { split; [done|]. split; [by rewrite Hl|]. intros j Hj. destruct (bvmem v j) eqn:E; [|done]. apply Hm in E as [E|[E _]]; [|lia].
    change (bv_mem v0 j = true) in E. rewrite Hmem in E; [done|unfold AFS_INVALID_BLOCK in Hj; lia]. }
  unfold afs_ctr. rewrite wrap_id by (unfold in_range, AFS_SECTOR_SIZE; lia). unfold AFS_MIN_SIZE, AFS_SECTOR_SIZE.
  destruct (Z.ltb_spec (ti_len * 512) (2 ^ 16)); [lia|]. rewrite Eal, Ea. cbn [alloc_next head tail default negb]. rewrite Eh. cbn [mbind res_bind Z.eqb negb].
  rewrite Ed. cbn [alloc_next head tail default negb]. 
  rewrite (Hrec d Hd eq_refl) by done. cbn [mbind res_bind].
  destruct (Z.eqb_spec kind FS_SHADOW); [done|]. cbn [alloc_next head tail default negb]. rewrite Ev.
  unfold ctx_allocation_set. change (vector (new_context _ _ _ _ _ _ _)) with (Some v0). rewrite Es. done.
Qed.

(** ** Instances in use *)

(** [live meta disk x]: [x] represents [disk], can be mounted again from
    its device, and has set [meta] apart, its super block and its map blocks. *)
Record live (fuel : nat) (kind : Z) (meta disk : gmap Z (list Z)) x : Prop := mk_live {
  lv_installed : installed sha1 sha256 fuel (priv x);
  lv_represents : represents (take 16 (passphrase_hash x)) (priv x) meta disk;
  lv_fs : recognised fuel kind (passive_fs (priv x)) (bdev (priv x)) /\ fs_usable (passive_fs (priv x)) (bdev (priv x)) /\ kind <> FS_SHADOW;
  lv_geometry : geometry (instance_size (config (priv x))) (nr_sects (bdev (priv x))) = Ok (config (priv x)) /\
    AFS_MIN_SIZE <= instance_size (config (priv x)) <= 975 * 63 * 4096;
  lv_hash : sha3_256 true (passphrase (priv x)) PASSPHRASE_SZ = Ok (passphrase_hash x);
  lv_map_blocks : forall i p, (i < Z.to_nat (num_map_blocks (config (priv x))))%nat ->
    sb_map_block_ptrs (super_block (priv x)) !! i = Some p -> is_Some (meta !! p);
  lv_super_block : forall b h t p,
    locate sha1 fuel (passive_fs (priv x)) (block_device_size (priv x)) (sha1 (passphrase (priv x))) 0 = Ok (b, h, t) ->
    block_list (passive_fs (priv x)) !! Z.to_nat b = Some p ->
    meta !! p = Some (sb_bytes (super_block (priv x))) \/ p ∉ free_list (passive_fs (priv x));
}.

Lemma start_volume_ok k ti_len args fs d v cfg : fs_usable fs d -> dev_ok d -> fresh_vector v ->
  AFS_MIN_SIZE <= ti_len * AFS_SECTOR_SIZE <= 975 * 63 * 4096 -> geometry (ti_len * AFS_SECTOR_SIZE) (nr_sects d) = Ok cfg ->
  creatable (set_config cfg (start_context k ti_len args fs d v)).
Proof.
  intros Hu Hd Hv Hs Hg. destruct (geometry_total _ (nr_sects d) Hs) as (cfg' & E & Hwf & Hp & Hn & Hc & Hi & Hb).
  assert (cfg' = cfg) as -> by congruence. unfold AFS_MIN_SIZE in Hs. constructor; try done.
  - change (in_range 64 (instance_size cfg)). rewrite Hi. unfold in_range. lia.
  - by eapply fresh_fs_wf.
  - apply Hu.
  - apply Hu.
  - apply sb_of_bytes_wf; [by apply Forall_replicate|apply length_replicate].
Qed.

(** What [volume_ok] needs, for the contexts of both kinds of instances. *)
Lemma opened_volume_ok c d size : geometry size (nr_sects d) = Ok (config c) -> AFS_MIN_SIZE <= size <= 975 * 63 * 4096 ->
  fs_wf (passive_fs c) (vector c) -> fs_usable (passive_fs c) d -> nr_sects (bdev c) = nr_sects d -> dev_ok (bdev c) -> allocs c = [] -> volume_ok c.
Proof.
  intros Hg Hs Hw [_ _ _ Hn Ho] Hnr Hd Ha. destruct (geometry_total _ (nr_sects d) Hs) as (cfg' & E & Hwf & Hp & Hb & Hc & _).
  assert (cfg' = config c) as -> by congruence. destruct Hwf as (Esz & _). rewrite Hc in Esz. split; try done.
  - rewrite Hc. lia.
  - by rewrite Hc.
  - lia.
  - split; [done|]. unfold free_list. apply Forall_take. eapply Forall_impl; [exact Ho|]. intros b (? & ? & ?). unfold on_device. by rewrite Hnr.
Qed.

(** ** Creation *)
Section Create.
Context (fuel : nat) (kind : Z) (fs : afs_passive_fs) (d : block_device) (k : kernel) (ti_len : Z) (argv : list (list Z)) (args : afs_args)
  (hash : list Z) (cfg : afs_config).
Context (Hcall : call fuel kind fs d k ti_len argv args hash) (Hcfg : geometry (ti_len * AFS_SECTOR_SIZE) (nr_sects d) = Ok cfg).

(** The metadata of a created instance. *)
Lemma created_live v c' : fresh_vector v -> created sha1 sha256 sha512 fuel (set_config cfg (start_context k ti_len args fs d v)) c' ->
  exists meta, live fuel kind meta ∅ (mk_instance c' hash AONT_RS afs_eq_init).
Proof.
  intros Hv [(Ec & Ef & Ep & _ & Ea) Em En Elow Hwf Hin _ Hown Hres]. cbn in Ec, Ef, Ep, Ea, En, Elow, Hwf, Hown, Hres, Em.
  pose proof (ca_size _ _ _ _ _ _ _ _ _ Hcall) as Hsz. destruct (ca_fs _ _ _ _ _ _ _ _ _ Hcall) as (Hrec & Hu & Hkind).
  destruct (geometry_total _ (nr_sects d) Hsz) as (cfg' & E & _ & _ & _ & _ & Hi & _). assert (cfg' = cfg) as -> by congruence.
  pose proof Hin as [_ _ Hd _ _ _ _ (b & h & t & p & Hloc & Hb0 & Hp & Hpd & Hnin & Himg) _].
  rewrite Ef in Hp, Hloc, Hpd, Himg. rewrite Ep in Hloc.
  set (ptrs := take (Z.to_nat (num_map_blocks cfg)) (sb_map_block_ptrs (super_block c'))).
  set (keys := ptrs ++ (if decide (b < list_len fs) then [p] else [])).
  assert (Hsize : block_device_size (set_config cfg (start_context k ti_len args fs d v)) = block_device_size c') by (unfold block_device_size; by rewrite Ec).
  assert (Hkeys : forall q, q ∈ keys -> owned c' q).
  { intros q [Hq|Hq]%elem_of_app.
    - apply list_elem_of_lookup_1 in Hq as (i & Hi'). apply lookup_take_Some in Hi' as [Hi' Hlt].
      destruct (Hown i q Hlt Hi') as (idx & ? & ? & ?). exists idx. rewrite Ef. split_and!; try done; lia.
    - destruct (decide (b < list_len fs)) as [Hlt|]; [|by apply elem_of_nil in Hq]. apply list_elem_of_singleton in Hq as ->.
      exists b. rewrite Ef. split_and!; [lia..|done|]. apply (Hres b h t); [|done]. by rewrite Hsize. }
  exists (contents (blk c') keys). constructor; cbn [priv passphrase_hash].
  - done.
  - apply fresh_represents.
    + eapply (opened_volume_ok c' d (ti_len * AFS_SECTOR_SIZE)); rewrite ?Ec, ?Ef; done.
    + by rewrite Ec.
    + intros q pg Hq. rewrite contents_lookup in Hq. case_decide as Hk; [|done]. injection Hq as <-. split; [by apply Hkeys|done].
  - rewrite Ef. split; [|split; [|done]].
    + intros d' Hd' Hn' Hs'. apply Hrec; [done|by rewrite Hn'|by etransitivity].
    + destruct Hu as [U1 U2 U3 U4 U5]. split; try done. eapply Forall_impl; [exact U5|]. intros q (? & ? & ?). unfold on_device. by rewrite En.
  - rewrite Ec, En, Hi. done.
  - rewrite Ep. apply Hcall.
  - rewrite Ec. intros i q Hi' Hq. rewrite contents_lookup, decide_True; [done|]. apply elem_of_app. left.
    apply list_elem_of_lookup. exists i. unfold ptrs. by rewrite lookup_take_lt.
  - intros b' h' t' q Hloc' Hq. rewrite Ef, Ep in Hloc'. rewrite Ef in Hq. rewrite Hloc in Hloc'. injection Hloc' as <- _ _.
    assert (q = p) as -> by congruence. rewrite Ef. destruct (decide (b < list_len fs)) as [Hlt|Hge]; [left|right].
    + rewrite contents_lookup, decide_True; [unfold blk; by rewrite Ef, Himg|]. apply elem_of_app. right. by left.
    + intros Hq'. apply list_elem_of_lookup_1 in Hq' as (j & Hj). apply lookup_take_Some in Hj as [Hj Hjl].
      assert (j = Z.to_nat b) by (eapply (fu_apart _ _ Hu); [|done..]; lia). lia.
Qed.

Lemma ctr_create_live bs draws rest : instance_type args = TYPE_CREATE -> k_rng k = draws ++ rest ->
  (forall v, fresh_vector v -> plan sha1 fuel (set_config cfg (start_context k ti_len args fs d v)) bs draws) ->
  exists x meta, run_ctr fuel k ti_len argv = Ok (0, Some (x, []), k_is_64bit k) /\ live fuel kind meta ∅ x /\
    passphrase_hash x = hash /\ ctx_encoding_type x = AONT_RS /\ config (priv x) = cfg /\ passive_fs (priv x) = fs /\
    passphrase (priv x) = Args.passphrase args /\ rng (priv x) = rest /\ exists v, fresh_vector v /\ adds (bs ++ map (draw_index fs) draws) v (vector (priv x)).
Proof.
  intros Htype Hrng Hplan. destruct (ctr_start _ _ _ _ _ _ _ _ _ Hcall) as (v & Hv & E). rewrite E, Htype. clear E.
  set (c := set_config cfg (start_context k ti_len args fs d v)).
  assert (Hcr : creatable c) by (apply start_volume_ok; try done; apply Hcall).
  destruct (write_super_block_total sha1 sha256 sha512 uninit sb_place sha512_length sha256_length uninit_length sb_place_ok fuel c bs draws rest Hcr (Hplan v Hv) Hrng)
    as (c' & Hw & Hr & Ha).
  pose proof (write_super_block_creates sha1 sha256 sha512 uninit sb_place sha256_length sha512_length uninit_length sb_place_ok fuel c c' Hcr Hw) as Hcd.
  unfold open_instance. change (TYPE_CREATE =? TYPE_CREATE) with true. cbv iota.
  change (build_configuration (config (start_context k ti_len args fs d v)) 4 1) with (geometry (ti_len * AFS_SECTOR_SIZE) (nr_sects d)).
  rewrite Hcfg. cbn [mbind res_bind]. fold c. rewrite Hw. cbn [mbind res_bind Z.eqb negb]. change (TYPE_CREATE =? TYPE_MOUNT) with false. cbv iota. cbn [mbind res_bind].
  destruct (created_live v c' Hv Hcd) as (meta & Hlive). destruct (cd_frame _ _ _ _ _ _ Hcd) as (Ec & Ef & Ep & _).
  exists (mk_instance c' hash AONT_RS afs_eq_init), meta. split_and!; try done. by exists v.
Qed.
End Create.

(** ** Requests *)
Lemma represents_map_ptrs iv c meta disk : represents iv c meta disk -> map_ptrs_ok c.
Proof.
  intros [es H] i j t Hi Hj Ht. pose proof (rp_ok _ _ _ _ _ H) as Hok. destruct (n_of_range c Hok) as [Hn En].
  destruct (rp_entries _ _ _ _ _ H i Hi) as [((diff & (Hd & pre & post & Hm & Hpre)%has_entry_parts) & Hl & Hts) _].
  destruct (lookup_lt_is_Some_2 (es i) (Z.to_nat j)) as [t0 E0]; [lia|]. pose proof (Forall_lookup_1 _ _ _ _ Hts E0) as Ht0.
  pose proof (tuple_at_entry pre diff post (es i) (Z.to_nat j) t0 E0 Ht0) as Hat.
  rewrite Z2Nat.id, <- Hm, Hpre in Hat by lia. unfold tuple_at, entry_off, afs_get_map_entry in Hat.
  rewrite Ht in Hat. injection Hat as <-. destruct Ht0 as [Hr _]. unfold in_range in Hr. lia.
Qed.

Lemma recognised_below fuel kind fs d d' : recognised fuel kind fs d -> nr_sects d' = nr_sects d -> same_below (data_start_off fs) d d' ->
  recognised fuel kind fs d'.
Proof. intros Hr Hn Hs d'' Hd Hn' Hs'. apply Hr; [done|by rewrite Hn'|by etransitivity]. Qed.

Lemma usable_sects fs d d' : fs_usable fs d -> nr_sects d' = nr_sects d -> fs_usable fs d'.
Proof.
  intros [U1 U2 U3 U4 U5] Hn. split; try done. eapply Forall_impl; [exact U5|]. intros q (? & ? & ?). unfold on_device. by rewrite Hn.
Qed.

Definition with_priv c x : instance := mk_instance c (passphrase_hash x) (ctx_encoding_type x) (flight_eq x).

(** A request that keeps the setup keeps the instance alive. *)
Lemma live_kept fuel kind meta disk disk' x c' : live fuel kind meta disk x -> kept (priv x) c' ->
  represents (take 16 (passphrase_hash x)) c' meta disk' -> live fuel kind meta disk' (with_priv c' x).
Proof.
  intros [Hin Hrep (Hrec & Hu & Hkd) Hg Hh Hmb Hsb] [K1 K2 K3 K4 K5 K6 K7 K8] Hrep'.
  pose proof Hin as [I1 I2 I3 [I4 _] I5 I6 I7 (b & h & t & p & Hloc & Hb0 & Hp & Hpd & Hnin & Himg) (P1 & P2 & P3)].
  assert (Hdv : dev_ok (bdev c')) by (destruct Hrep' as [es' H']; exact (vo_dev _ (rp_ok _ _ _ _ _ H'))).
  assert (Hbd : block_device_size c' = block_device_size (priv x)) by (unfold block_device_size; by rewrite K1).
  constructor; cbn [with_priv priv passphrase_hash]; rewrite ?K1, ?K2, ?K3, ?K4, ?K6, ?Hbd; try done.
  - constructor; rewrite ?K1, ?K3; try done.
    + split; [by rewrite K5|by eapply represents_map_ptrs].
    + exists b, h, t, p. rewrite ?Hbd, ?K2, ?K4. split_and!; try done.
      * destruct Hpd as (? & ? & ?). unfold on_device. by rewrite K6.
      * destruct (Hsb b h t p Hloc Hp) as [Hm|Hm].
        -- destruct Hrep' as [es' H']. destruct (rp_meta _ _ _ _ _ H' p _ Hm) as (_ & E & _). unfold blk in E. by rewrite K2 in E.
        -- pose proof (K8 p Hpd Hm) as E. unfold blk in E. rewrite K2 in E. by rewrite E.
    + split_and!; rewrite ?K2, ?K3; [done| |done]. intros i q Hi Hq. destruct (P2 i q Hi Hq) as (? & ? & ?). unfold on_device. by rewrite K6.
  - split; [by eapply recognised_below|]. split; [by eapply usable_sects|done].
Qed.

(** ** Taking the instance down *)
Lemma dtr_saves fuel kind meta disk x : live fuel kind meta disk x -> exists d',
  afs_dtr sha512 x afs_eq_init = Ok d' /\ nr_sects d' = nr_sects (bdev (priv x)) /\ dev_ok d' /\
  same_below (data_start_off (passive_fs (priv x))) (bdev (priv x)) d' /\
  installed sha1 sha256 fuel (set_bdev d' (priv x)) /\ saved sha512 (set_bdev d' (priv x)) /\
  forall b, on_device (bdev (priv x)) (data_start_off (passive_fs (priv x))) b -> meta !! b = None -> blk (set_bdev d' (priv x)) b = blk (priv x) b.
Proof.
  intros [Hin [es Hrep] _ _ _ Hmb _]. pose proof Hin as [I1 I2 I3 [I4 I4'] I5 I6 I7 (b & h & t & p & Hloc & Hb0 & Hp & Hpd & Hnin & Himg) (P1 & P2 & P3)].
  pose proof (vo_mem _ (rp_ok _ _ _ _ _ Hrep)) as Ha. set (c := priv x) in *.
  set (c1 := set_map_blocks (pages sha512 (config c) (afs_map c) (Z.to_nat (num_map_blocks (config c)))) c).
  destruct (write_map_blocks_update sha512 sha512_length (config c) I1 I2 (afs_map c) I4 c1 eq_refl eq_refl (conj P1 (conj P2 P3)) I3)
    as (d' & Hw & Hd & Hn & Hlow & Hpg & Hother).
  change (data_start_off (passive_fs c1)) with (data_start_off (passive_fs c)) in *. change (super_block c1) with (super_block c) in *.
  change (bdev c1) with (bdev c) in *.
  exists d'. split_and!; try done.
  - unfold afs_dtr. rewrite andb_false_r. fold c. rewrite (afs_create_map_blocks_spec sha512 sha512_length) by done. cbn [mbind res_bind Z.eqb negb].
    fold c1. rewrite Hw. done.
  - constructor; try done.
    + exists b, h, t, p. split_and!; try done; [destruct Hpd as (? & ? & ?); unfold on_device; cbn; by rewrite Hn|].
      exact (eq_trans (Hother p Hpd Hnin) Himg).
    + split_and!; [done| |done]. intros i q Hi Hq. destruct (P2 i q Hi Hq) as (? & ? & ?). unfold on_device. cbn. by rewrite Hn.
  - intros q Hq Hnone. apply Hother; [done|]. intros (i & Hi)%list_elem_of_lookup_1. apply lookup_take_Some in Hi as [Hi Hlt].
    destruct (Hmb i q Hlt Hi) as [? E]. congruence.
Qed.

(** ** Mounting it again *)

(** A call that mounts [x] from [d]: the same passphrase and size. *)
Record remount x (d : block_device) k (ti_len : Z) (argv : list (list Z)) : Prop := mk_remount {
  rm_args : exists args, parse_afs_args kstrtou8 zero_args argv = (0, args) /\ instance_type args = TYPE_MOUNT /\
    Args.passphrase args = passphrase (priv x) /\ k_device k (passive_dev args) = inr d;
  rm_size : ti_len * AFS_SECTOR_SIZE = instance_size (config (priv x));
  rm_allocs : k_allocs k = [];
  rm_memory : forall i, mem_ok (k_memory k i) = true /\ (4 <= List.length (mem_pages (k_memory k i)))%nat;
}.

Lemma rebuild_requests k y : 0 <= num_blocks (config (priv y)) -> num_carrier_blocks (config (priv y)) = 4 ->
  (forall i, mem_ok (k_memory k i) = true /\ (4 <= List.length (mem_pages (k_memory k i)))%nat) ->
  exists rs, afs_rebuild (k_memory k) y = Ok rs /\ map block rs = seqZ 0 (num_blocks (config (priv y))).
Proof.
  intros Hnb Hc Hm. unfold afs_rebuild.
  destruct (forM_invariant (fun i rs => map block rs = seqZ 0 i) (Z.to_nat (num_blocks (config (priv y)))) 0
    (fun i rs => r ← rebuild_one (k_memory k i) y i; Ok (rs ++ [r])) []) as (rs & E & Hrs).
  - done.
  - intros i rs Hi Hrs. destruct (Hm i) as [Hok Hl]. unfold rebuild_one, init_request. rewrite Hok, Hc. cbn [negb].
    rewrite slice_Some by (change (Z.to_nat 4) with 4%nat; lia). cbn [of_option]. rewrite bind_Ok. destruct (mem_numbers _) as [[[? ?] ?] ?].
    rewrite !bind_Ok. eexists. split; [done|]. rewrite map_app, Hrs. by rewrite (seqZ_app 0 i 1) by lia.
  - exists rs. split; [done|]. rewrite Hrs. f_equal. lia.
Qed.

Lemma rebuild_no_bio mem y rs : (forall i b, mem_bio (mem i) <> BioSet b) -> afs_rebuild mem y = Ok rs -> Forall no_bio rs.
Proof.
  intros Hm. unfold afs_rebuild. intros H. enough (R : Forall no_bio [] -> Forall no_bio rs) by by apply R.
  refine (forM_rel (fun a b => Forall no_bio a -> Forall no_bio b) _ _ _ _ _ _ H); [split; [intros ? HA; exact HA|intros ? ? ? HA HB HC; by apply HB, HA]|]. clear H rs.
  intros i rs rs' H Hrs. apply res_bind_Ok in H as (q & Hq & [= <-]). apply Forall_app. split; [done|]. constructor; [|done].
  unfold rebuild_one, init_request in Hq. destruct (mem_ok (mem i)); cbn [negb] in Hq; [|discriminate Hq].
  apply res_bind_Ok in Hq as (o & Ho & Hq). apply res_bind_Ok in Ho as (pages & _ & Ho). destruct (mem_numbers (mem i)) as [[[p1 p2] p3] p4].
  injection Ho as <-. injection Hq as <-. unfold no_bio, bio_set. cbn. destruct (mem_bio (mem i)) as [b| |] eqn:E; [by destruct (Hm i b)|done..].
Qed.

(** The tasks of the requests on the rebuild queue. *)
Definition rebuild_tasks (requests : list afs_map_request) (others : list task) : Prop :=
  Forall2 (fun q o => exists env, o = mk_task env q (Queued true)) requests others.

Lemma rebuild_bystanders rs others : Forall no_bio rs -> rebuild_tasks rs others -> Forall bystander others.
Proof.
  intros Hb H. induction H as [|q o rs others (env & ->) _ IH]; [constructor|]. apply Forall_cons in Hb as [Hq Hb].
  constructor; [by split|by apply IH].
Qed.

(** The instance after the mount. *)
Record mounted (disk : gmap Z (list Z)) x d y : Prop := mk_mounted {
  mt_config : config (priv y) = config (priv x);
  mt_map : afs_map (priv y) = afs_map (priv x);
  mt_sb : super_block (priv y) = super_block (priv x);
  mt_dev : bdev (priv y) = d;
  mt_hash : passphrase_hash y = passphrase_hash x /\ ctx_encoding_type y = AONT_RS;
  mt_ok : volume_ok (priv y);
  mt_data : forall b, 0 <= b < num_blocks (config (priv y)) ->
    exists ts, readable_at (take 16 (passphrase_hash y)) (priv y) b ts (disk !! b);
}.

Lemma remounts fuel kind meta disk x d k ti_len argv : live fuel kind meta disk x -> afs_dtr sha512 x afs_eq_init = Ok d ->
  remount x d k ti_len argv -> exists y requests,
    run_ctr fuel k ti_len argv = Ok (0, Some (y, requests), k_is_64bit k) /\ mounted disk x d y /\
    map block requests = seqZ 0 (num_blocks (config (priv y))) /\ afs_rebuild (k_memory k) y = Ok requests.
Proof.
  intros Hl Hdtr [(args & Eargs & Htype & Epass & Edev) Esz Eal Hmem].
  destruct (dtr_saves fuel kind meta disk x Hl) as (d' & Hdtr' & Hn & Hd & Hlow & Hin & Hsv & Hblk). assert (d' = d) as -> by congruence. clear Hdtr'.
  destruct Hl as [_ [es Hrep] (Hrec & Hu & Hkd) [Hg Hsz] Hh Hmb _]. set (c := priv x) in *.
  assert (Hcall : call fuel kind (passive_fs c) d k ti_len argv args (passphrase_hash x)).
  { constructor; try done; [by rewrite Epass| |by rewrite Esz]. split; [by eapply recognised_below|]. split; [by eapply usable_sects|done]. }
  destruct (geometry_total _ (nr_sects (bdev c)) Hsz) as (cfg' & E & _ & _ & Hnb & Hnc & _ & Hbs). assert (cfg' = config c) as -> by congruence. clear E.
  destruct (ctr_start _ _ _ _ _ _ _ _ _ Hcall) as (v & Hv & ->). rewrite Htype.
  set (cm := start_context k ti_len args (passive_fs c) d v).
  destruct (find_super_block_mounts sha1 sha256 sha512 uninit sb_place sha512_length uninit_length sb_place_ok fuel (set_bdev d c) cm Hin Hsv ltac:(cbn; lia))
    as (w & Hf & Hw).
  { constructor; try done.
    - change (bdev_size (config cm)) with (nr_sects d). change (config (set_bdev d c)) with (config c). by rewrite Hbs.
    - change (build_configuration (config cm) 4 1 = Ok (config c)). rewrite <- Hg, <- Esz, <- Hn. done.
    - apply Hv.
    - apply sb_of_bytes_wf; [by apply Forall_replicate|apply length_replicate]. }
  unfold open_instance. change (TYPE_MOUNT =? TYPE_CREATE) with false. change (TYPE_MOUNT =? TYPE_MOUNT) with true. cbv iota. rewrite Hf. cbn [mbind res_bind Z.eqb negb].
  match goal with |- context [mk_instance ?p _ _ _] => set (cy := p) end. set (y := mk_instance cy (passphrase_hash x) AONT_RS afs_eq_init).
  destruct (rebuild_requests k y) as (rs & Hreb & Hrs); [change (0 <= num_blocks (config c)); lia|exact Hnc|exact Hmem|]. rewrite Hreb. cbn [mbind res_bind]. exists y, rs. split; [done|]. split; [|by split].
  constructor; try done.
  - eapply (opened_volume_ok cy d (instance_size (config c))); try done.
    + change (config cy) with (config c). by rewrite Hn.
    + change (passive_fs cy) with (passive_fs c). change (vector cy) with w. destruct (fresh_fs_wf _ _ v Hu Hv) as (W1 & W2 & W3 & W4).
      destruct Hw as ((Hwok & Hwl & _) & _). change (vector cm) with v in Hwl. unfold fs_wf. by rewrite Hwl.
    + change (passive_fs cy) with (passive_fs c). by eapply usable_sects.
  - intros b Hb. change (0 <= b < num_blocks (config c)) in Hb. exists (es b). change (passphrase_hash y) with (passphrase_hash x). change (priv y) with cy.
    pose proof (represents_readable _ _ _ _ _ b Hrep Hb) as Hr. eapply (readable_frame _ c cy); try done.
    intros q Hs Hq. change (blk cy q) with (blk (set_bdev d c) q). apply Hblk.
    + destruct Hr as [_ Hr]. destruct Hs as [data Ed]. rewrite Ed in Hr. destruct (st_blocks _ _ _ _ Hr) as [Ho _]. by apply (proj1 (Forall_forall _ _) Ho).
    + destruct (meta !! q) as [pg|] eqn:Em; [|done]. destruct (rp_meta _ _ _ _ _ Hrep q pg Em) as (_ & _ & Hni). by destruct (Hni b Hs).
Qed.

(** C5: creation. A call of [afs_ctr] that creates an instance on a
    recognised file system, with room for the super block and the map blocks
    where the hashes and the random numbers lead, returns 0 with an
    instance that is live: it represents the empty volume, its super
    block and its map blocks are set apart, and it can be mounted from its
    device. Nothing is put on the rebuild queue. *)
Theorem ctr_creates fuel kind fs d k ti_len argv args hash cfg bs draws rest :
  call fuel kind fs d k ti_len argv args hash -> geometry (ti_len * AFS_SECTOR_SIZE) (nr_sects d) = Ok cfg ->
  instance_type args = TYPE_CREATE -> k_rng k = draws ++ rest ->
  (forall v, fresh_vector v -> plan sha1 fuel (set_config cfg (start_context k ti_len args fs d v)) bs draws) ->
  exists x meta, run_ctr fuel k ti_len argv = Ok (0, Some (x, []), k_is_64bit k) /\ live fuel kind meta ∅ x /\
    passphrase_hash x = hash /\ config (priv x) = cfg.
Proof.
  intros Hcall Hcfg Ht Hr Hp. destruct (ctr_create_live _ _ _ _ _ _ _ _ _ _ Hcall Hcfg bs draws rest Ht Hr Hp) as (x & meta & ? & ? & ? & _ & ? & _).
  by exists x, meta.
Qed.

(** C4: the destructor and the constructor are inverse. From the device that
    [afs_dtr] leaves of a live instance, every call of [afs_ctr] that mounts it
    with its passphrase and size returns 0 with an instance that has the same
    configuration, map and super block; every block has the content it had;
    and the rebuild queue gets one request for every block, in order. *)
Theorem remount_restores fuel kind meta disk x : live fuel kind meta disk x ->
  exists d, afs_dtr sha512 x afs_eq_init = Ok d /\ forall k ti_len argv, remount x d k ti_len argv ->
    exists y requests, run_ctr fuel k ti_len argv = Ok (0, Some (y, requests), k_is_64bit k) /\ mounted disk x d y /\
      map block requests = seqZ 0 (num_blocks (config (priv y))).
Proof.
  intros Hl. destruct (dtr_saves fuel kind meta disk x Hl) as (d & Hd & _). exists d. split; [done|]. intros k ti_len argv Hr.
  destruct (remounts _ _ _ _ _ _ _ _ _ Hl Hd Hr) as (y & rs & ? & ? & ? & _). by exists y, rs.
Qed.

(** C1: what is written survives the instance. After a write request on a live
    instance, in whatever order its bios complete, the destructor writes the
    map and a mount with the passphrase succeeds. The mount puts a rebuild
    request for every block on a queue. In every interleaving of a read
    request for the range of the write with the tasks of those requests, the
    read never crashes or hangs, and when it is done it has ended its bio once,
    with the payload of the write; and as long as no rebuild request has
    stopped the system (the decoding of a mapped block crashes), the read can
    still be done. The memory of the rebuild requests holds no valid
    pointer where their bio should be. *)
Theorem written_survives_remount fuel kind meta disk x i env b r :
  live fuel kind meta disk x -> 0 <= i < num_blocks (config (priv x)) -> blocks_available (priv x) disk i -> enc_env_ok env ->
  request_ok (take 16 (passphrase_hash x)) (priv x) i b r -> op b = REQ_OP_WRITE -> bytes (payload (bio_segs b)) ->
  task_ends (fun t c => t_phase t = Done [] /\ bio_ended (t_req t) = 1%nat /\
    exists d, afs_dtr sha512 (with_priv c x) afs_eq_init = Ok d /\ forall k ti_len argv, remount (with_priv c x) d k ti_len argv ->
      (forall j b', mem_bio (k_memory k j) <> BioSet b') ->
      exists y requests, run_ctr fuel k ti_len argv = Ok (0, Some (y, requests), k_is_64bit k) /\
        map block requests = seqZ 0 (num_blocks (config (priv y))) /\
        forall env2 b2 r2 others, enc_env_ok env2 -> request_ok (take 16 (passphrase_hash y)) (priv y) i b2 r2 -> op b2 = REQ_OP_READ ->
          sector_offset r2 = sector_offset r -> request_size r2 = request_size r -> rebuild_tasks requests others ->
          ends_among (fun t2 _ => t_phase t2 = Done [] /\ bio_ended (t_req t2) = 1%nat /\
            exists vs, req_bio (t_req t2) = BioSet (mk_bio (op b2) (bi_sector b2) (bi_size b2) vs) /\ payload vs = payload (bio_segs b))
            (mk_task env2 r2 (Queued false)) others (priv y))
    (mk_task env r (Queued false)) (priv x).
Proof.
  intros Hl Hi Hav Henv Hr Hop Hpay. eapply task_ends_mono; [|by apply (write_ends (take 16 (passphrase_hash x)) (priv x) meta disk i); [apply Hl|..]].
  intros t c (Hph & Hend & Hkept & Hrep). split; [done|]. split; [done|].
  pose proof (live_kept _ _ _ _ _ _ _ Hl Hkept Hrep) as Hl'. destruct (dtr_saves _ _ _ _ _ Hl') as (d & Hd & _). exists d. split; [done|].
  intros k ti_len argv Hrm Hnb. destruct (remounts _ _ _ _ _ _ _ _ _ Hl' Hd Hrm) as (y & rs & Hc & Hm & Hrs & Hreb). exists y, rs. split; [done|]. split; [done|].
  intros env2 b2 r2 others Henv2 Hr2 Hop2 Ho Hs Hot. pose proof (mt_config _ _ _ _ Hm) as Ec. cbn [with_priv priv] in Ec. rewrite (kp_config _ _ Hkept) in Ec.
  pose proof (mt_ok _ _ _ _ Hm) as Hok. apply task_ends_among.
  - intros t2 c2 (E & _). by exists [].
  - destruct (mt_data _ _ _ _ Hm i) as (ts & Hts); [by rewrite Ec|]. rewrite lookup_insert_eq in Hts.
    eapply task_ends_mono; [|apply (read_ends_at _ _ i ts _ env2 b2 r2 Hok Hts); try done; by rewrite Ec].
    intros t2 c2 (Hp2 & Hend2 & _ & vs & Hbio & Hpl & _). split; [done|]. split; [done|]. exists vs. split; [done|]. cbn [default] in Hpl. rewrite Hpl.
    pose proof (rq_segs _ _ _ _ _ Hr) as [Hsg Hlen]. pose proof (rq_off _ _ _ _ _ Hr) as [H0 H1].
    pose proof (payload_length _ Hsg) as Lp. pose proof (seg_lens_nonneg _ Hsg). apply read_own_write; [apply (rq_data _ _ _ _ _ Hr)|done|lia|done|lia].
  - split; [apply (vo_mem _ Hok)|apply (vo_dev _ Hok)].
  - apply (rebuild_bystanders rs); [by eapply rebuild_no_bio|done].
Qed.
End Life.

(** ** A sample life

    A FAT32 volume of twenty clusters; the hashes select block 2, and the draws
    the fifth free block for the map and the next four for the carriers. *)
Definition life_table : list Z := [0x0FFFFFF8; 0x0FFFFFFF; 0; 0; 0; 0; 0x0FFFFFFF] ++ replicate 13 0.
Definition life_device : block_device :=
  {| nr_sects := 256; sectors := {[ 0 := sample_boot 32 208 8; 32 := concat (map (le_store 4) life_table) ++ replicate 432 0 ]}; outcomes := [] |}.
Definition life_vol : fat_volume := sample_vol 32 208 8 20.
Definition life_fs : afs_passive_fs := fat_fs life_vol life_device.
Definition life_config : afs_config := mk_config 4 0 1 64 0 63 16 1 0 (2 ^ 16) 256.
Definition life_memory (i : Z) : request_memory := {|
  mem_ok := true; mem_pages := replicate 8 (replicate 4096 1); mem_data_block := replicate 4096 2; mem_bio := BioGarbage;
  mem_erasures := replicate 8 3; mem_block_nums := replicate 8 4; mem_numbers := (5, 6, 7, 8) |}.
Definition life_kernel (d : block_device) : kernel := mk_kernel [] ([5] ++ [6; 7; 8; 9]) false (fun _ => inr d) life_memory.
Definition life_line (type : string) (options : list (list Z)) : list (list Z) :=
  [c_string type; c_string "secret"%string; c_string "/dev/sdb1"%string] ++ options.
Definition create_argv : list (list Z) := life_line "0"%string [entropy_option; c_string "/tmp"%string].
Definition mount_argv : list (list Z) := life_line "1"%string [].
Definition create_args : afs_args := snd (parse_afs_args digit zero_args create_argv).
Definition life_hash : list Z := match sha3_256 true (Args.passphrase create_args) PASSPHRASE_SZ with Ok h => h | _ => [] end.
Definition no_hweight (n : Z) : Z := 0.

Lemma life_volume : fat32_volume pow2_test life_vol life_device.
Proof.
  constructor.
  - vm_compute. reflexivity.
  - constructor.
    + unfold geometry_ok. unfold in_range. cbn. split_and!; try reflexivity; lia.
    + split; [done|]. cbn [life_device sectors]. apply map_Forall_insert_2; [|apply map_Forall_singleton]; vm_compute; reflexivity.
    + vm_compute. reflexivity.
    + vm_compute. discriminate.
    + vm_compute. discriminate.
    + vm_compute. split; discriminate.
  - reflexivity.
  - vm_compute. split; [discriminate|reflexivity].
  - intros b Hb. change (num_data_clusters life_vol) with 20 in Hb. change (start_off (bpb life_vol)) with 48. unfold on_device. cbn. lia.
  - vm_compute. discriminate.
  - vm_compute. discriminate.
Qed.

Notation life_ctr := (afs_ctr two_sha1 zero_sha256 zero_sha512 pow2_test no_hweight digit zeros zero_page (Linear false) (Linear false)).
Notation life_live := (live two_sha1 zero_sha256 pow2_test no_hweight zeros zero_page (Linear false)).

Lemma zeros_length n : List.length (zeros n) = n.
Proof. apply length_replicate. Qed.

Lemma zero_sha256_length l : List.length (zero_sha256 l) = 32%nat.
Proof. apply length_replicate. Qed.

Lemma zero_sha512_length l : List.length (zero_sha512 l) = 64%nat.
Proof. apply length_replicate. Qed.

Lemma life_call : call pow2_test no_hweight digit zeros zero_page (Linear false) 0 FS_FAT32 life_fs life_device (life_kernel life_device) 128 create_argv create_args life_hash.
Proof.
  constructor.
  - vm_compute. reflexivity.
  - unfold life_hash. vm_compute. reflexivity.
  - reflexivity.
  - apply life_volume.
  - split; [|split; [|done]].
    + apply fat32_recognised; [apply zeros_length|apply zero_page_ok|done|apply life_volume].
    + apply (fat_fs_usable pow2_test). apply life_volume.
  - reflexivity.
  - intros i. split; [reflexivity|]. cbn. lia.
  - unfold AFS_MIN_SIZE, AFS_SECTOR_SIZE. lia.
Qed.

Lemma life_geometry : geometry (128 * AFS_SECTOR_SIZE) (nr_sects life_device) = Ok life_config.
Proof. vm_compute. reflexivity. Qed.

Lemma life_plan v : fresh_vector v ->
  plan two_sha1 0 (set_config life_config (start_context (life_kernel life_device) 128 create_args life_fs life_device v)) (replicate 8 2) [5].
Proof.
  intros (_ & _ & Hv). constructor.
  - exists 2, (two_sha1 []), 0, (replicate 7 2). split; [vm_compute; reflexivity|]. split; [vm_compute; reflexivity|done].
  - apply Forall_replicate. exists 4. vm_compute. reflexivity.
  - by exists [6; 7; 8; 9].
  - reflexivity.
  - constructor; [|constructor]. change (passive_fs _) with life_fs. assert (E : draw_index life_fs 5 = 5) by (vm_compute; reflexivity). rewrite E.
    split; [apply Hv; unfold AFS_INVALID_BLOCK; lia|]. by apply (bool_decide_unpack _).
  - apply NoDup_singleton.
Qed.

Lemma ctr_creates_witness : exists x meta,
  life_ctr 0 (life_kernel life_device) 128 create_argv = Ok (0, Some (x, []), false) /\ life_live 0 FS_FAT32 meta ∅ x.
Proof.
  destruct (ctr_creates two_sha1 zero_sha256 zero_sha512 pow2_test no_hweight digit zeros zero_page (Linear false) (Linear false)
    zero_sha256_length zero_sha512_length zeros_length (conj eq_refl I) 0 FS_FAT32 life_fs life_device (life_kernel life_device) 128 create_argv create_args
    life_hash life_config (replicate 8 2) [5] [6; 7; 8; 9] life_call life_geometry eq_refl eq_refl life_plan) as (x & meta & H & Hl & _).
  exists x, meta. split; [exact H|exact Hl].
Defined.

(** The instance that the sample call creates. *)
Lemma life_instance : exists x meta, life_live 0 FS_FAT32 meta ∅ x /\ passphrase_hash x = life_hash /\ config (priv x) = life_config /\
  passphrase (priv x) = Args.passphrase create_args /\ blocks_available (priv x) ∅ 0.
Proof.
  destruct (ctr_create_live two_sha1 zero_sha256 zero_sha512 pow2_test no_hweight digit zeros zero_page (Linear false) (Linear false)
    zero_sha256_length zero_sha512_length zeros_length (conj eq_refl I) 0 FS_FAT32 life_fs life_device (life_kernel life_device) 128 create_argv create_args
    life_hash life_config life_call life_geometry (replicate 8 2) [5] [6; 7; 8; 9] eq_refl eq_refl life_plan)
    as (x & meta & H & Hl & Hh & _ & Hc & Hf & Hp & Hr & v & (_ & _ & Hv) & Ha).
  exists x, meta. split; [exact Hl|]. split; [exact Hh|]. split; [exact Hc|]. split; [exact Hp|]. intros _.
  assert (Hn : n_of (priv x) = 4%nat) by (unfold n_of; rewrite Hc; reflexivity).
  pose proof Hl as [_ [es Hrep] _ _ _ _ _]. pose proof (vo_fs _ (rp_ok _ _ _ _ _ Hrep)) as Hwf. rewrite Hf in Hwf.
  destruct (acquire_many_total life_fs [6; 7; 8; 9] (vector (priv x)) [] Hwf) as (nums & w & E & Hni).
  - apply Forall_forall. intros r Hin. assert (E : draw_index life_fs r = r /\ r ∉ replicate 8 2 ++ map (draw_index life_fs) [5] /\ 0 <= r < 10).
    { revert r Hin. apply Forall_forall. apply (bool_decide_unpack _). vm_compute. exact I. }
    destruct E as (-> & Hr1 & Hr2). eapply adds_free; [exact Ha| |exact Hr1]. apply Hv. unfold AFS_INVALID_BLOCK. lia.
  - apply (bool_decide_unpack _). vm_compute. exact I.
  - exists nums, w, []. rewrite Hf, Hr, Hn. by split.
Qed.

Lemma remount_restores_witness : exists x d y requests,
  afs_dtr zero_sha512 x afs_eq_init = Ok d /\ life_ctr 0 (life_kernel d) 128 mount_argv = Ok (0, Some (y, requests), false) /\
  afs_map (priv y) = afs_map (priv x) /\ map block requests = seqZ 0 16.
Proof.
  destruct life_instance as (x & meta & Hl & Hh & Hc & Hp & _).
  destruct (remount_restores two_sha1 zero_sha256 zero_sha512 pow2_test no_hweight digit zeros zero_page (Linear false) (Linear false)
    zero_sha512_length zeros_length (conj eq_refl I) 0 FS_FAT32 meta ∅ x Hl) as (d & Hd & Hm).
  destruct (Hm (life_kernel d) 128 mount_argv) as (y & rs & Hr & Hy & Hq).
  - constructor.
    + exists (snd (parse_afs_args digit zero_args mount_argv)). split; [vm_compute; reflexivity|]. split; [vm_compute; reflexivity|].
      split; [|reflexivity]. rewrite Hp. vm_compute. reflexivity.
    + rewrite Hc. reflexivity.
    + reflexivity.
    + intros i. split; [reflexivity|]. cbn. lia.
  - exists x, d, y, rs. split; [exact Hd|]. split; [exact Hr|]. split; [exact (mt_map _ _ _ _ Hy)|].
    rewrite (mt_config _ _ _ _ Hy), Hc in Hq. exact Hq.
Defined.

Definition life_request (h : list Z) : afs_map_request := {|
  carrier_blocks := replicate 4 (replicate 4096 0); data_block := replicate 4096 7; state := REQ_STATE_GROUND;
  req_bio := BioSet (sample_bio REQ_OP_WRITE); bio_ended := 0; bios_pending := 0; encoder := None;
  encoding_type := AONT_RS; erasures := replicate 8 0; num_erasures := 0; iv := take 16 h; block := 0; request_size := 512;
  sector_offset := 1; block_nums := replicate 8 0; rebuild_flag := false |}.

Lemma life_hash_bytes : bytes (take 16 life_hash) /\ List.length (take 16 life_hash) = 16%nat.
Proof. split; [apply (bool_decide_unpack _); vm_compute; exact I|vm_compute; reflexivity]. Qed.

Lemma life_request_ok h c : bytes (take 16 h) /\ List.length (take 16 h) = 16%nat -> n_of c = 4%nat ->
  request_ok (take 16 h) c 0 (sample_bio REQ_OP_WRITE) (life_request h).
Proof.
  intros Hh Hn. destruct (sample_request_ok REQ_OP_WRITE c Hn) as [H1 H2 H3 H4 H5 H6 H7 H8 _ H10 H11 H12 H13].
  split; [exact H1|exact H2|exact H3|exact H4|exact H5|exact H6|exact H7|exact H8| |exact H10|exact H11|exact H12|exact H13].
  split; [reflexivity|exact Hh].
Qed.

Lemma written_survives_remount_witness : exists x,
  task_ends (fun t c => bio_ended (t_req t) = 1%nat /\ exists d, afs_dtr zero_sha512 (with_priv c x) afs_eq_init = Ok d)
    (mk_task sample_encoder (life_request life_hash) (Queued false)) (priv x).
Proof.
  destruct life_instance as (x & meta & Hl & Hh & Hc & Hp & Hav). exists x.
  assert (Hn : n_of (priv x) = 4%nat) by (unfold n_of; rewrite Hc; reflexivity).
  eapply task_ends_mono; [|apply (written_survives_remount two_sha1 zero_sha256 zero_sha512 pow2_test no_hweight digit zeros zero_page (Linear false) (Linear false)
    zero_sha512_length zeros_length (conj eq_refl I) 0 FS_FAT32 meta ∅ x 0 sample_encoder (sample_bio REQ_OP_WRITE) (life_request life_hash) Hl)].
  - intros t c (_ & He & d & Hd & _). split; [exact He|]. exists d. exact Hd.
  - rewrite Hc. split; [lia|reflexivity].
  - exact Hav.
  - exact sample_encoder_ok.
  - rewrite Hh. exact (life_request_ok life_hash (priv x) life_hash_bytes Hn).
  - reflexivity.
  - exact (sample_payload REQ_OP_WRITE).
Defined.
